
(** * slru.c: simple LRU buffering for transaction status logfiles

    A shallow embedding of [src/backend/access/transam/slru.c] and the
    properties of its buffer pool that the design document states.

    The C code runs in many backends at once.  The embedding follows ONE
    backend through each routine, against an arbitrary shared state: the
    shared arrays, the lock table, the directory of segment files and the
    saved error cause are threaded explicitly.  While that backend runs,
    no other backend holds an LWLock or touches the shared state; an
    "I/O in progress" status found in a slot is therefore a stale one,
    which is the case [SimpleLruWaitIO] repairs.  System calls can fail:
    the world carries a fault table saying which call on which file fails
    with which errno. *)

From Stdlib Require Import ZArith Lia Strings.Byte Ascii String.

From stdpp Require Import base numbers list gmap strings.

Local Open Scope Z_scope.

(** ** Machine integers *)

(** A C [int] is 32 bits wide; the backend is built with wrap-around signed
    arithmetic, so a result is brought back into [-2^31, 2^31). *)
Definition int32 (z : Z) : Z := (z + 2147483648) mod 4294967296 - 2147483648.

Definition int_add (a b : Z) : Z := int32 (a + b).

Definition int_sub (a b : Z) : Z := int32 (a - b).

Definition int_mul (a b : Z) : Z := int32 (a * b).

(** C division and remainder truncate towards zero. *)
Definition int_div (a b : Z) : Z := Z.quot a b.

Definition int_mod (a b : Z) : Z := Z.rem a b.

Definition in_int (z : Z) : Prop := -2147483648 <= z < 2147483648.

(** ** Constants *)

Definition SLRU_PAGES_PER_SEGMENT : Z := 32.

Definition MAX_FLUSH_BUFFERS : nat := 16.

(** Modelled from the spec: the page size [BLCKSZ] comes from the build
    configuration, which is not part of this file; the design document
    fixes it at 8 KiB. *)
Definition BLCKSZ : Z := 8192.

(** Modelled from the spec: [SLRU_FILENAME_LEN] is declared in slru.h; a
    segment name has four hexadecimal digits. *)
Definition SLRU_FILENAME_LEN : nat := 4.

(** Modelled from the spec: [MAXPGPATH] (pg_config_manual.h) and the errno
    value [ENOENT] (errno.h) with their usual values. *)
Definition MAXPGPATH : Z := 1024.

Definition ENOENT : Z := 2.

Definition InvalidTransactionId : Z := 0.

(** ** Shared memory *)

(** [SlruPageStatus], declared in slru.h. *)
Inductive SlruPageStatus : Type :=
| SLRU_PAGE_EMPTY
| SLRU_PAGE_READ_IN_PROGRESS
| SLRU_PAGE_VALID
| SLRU_PAGE_WRITE_IN_PROGRESS.

Global Instance SlruPageStatus_eq_dec : EqDecision SlruPageStatus.
Proof. solve_decision. Defined.

Global Instance SlruPageStatus_inhabited : Inhabited SlruPageStatus :=
  populate SLRU_PAGE_EMPTY.

Global Instance byte_inhabited : Inhabited byte := populate x00.

Inductive SlruErrorCause : Type :=
| SLRU_OPEN_FAILED
| SLRU_SEEK_FAILED
| SLRU_READ_FAILED
| SLRU_WRITE_FAILED
| SLRU_FSYNC_FAILED
| SLRU_CLOSE_FAILED.

Global Instance SlruErrorCause_eq_dec : EqDecision SlruErrorCause.
Proof. solve_decision. Defined.

(** [SlruSharedData]: the arrays are indexed by slot number.
    [group_lsn] is [None] for the C null pointer.  Modelled from the
    spec: an LSN ([XLogRecPtr], xlogdefs.h) is an integer watermark, the
    invalid LSN is zero. *)
Record SlruSharedData : Type := mkShared {
  num_slots : nat;
  page_buffer : list (list byte);
  page_status : list SlruPageStatus;
  page_dirty : list bool;
  page_number : list Z;
  page_lru_count : list Z;
  lsn_groups_per_page : Z;
  group_lsn : option (list Z);
  cur_lru_count : Z;
  latest_page_number : Z
}.

(** [SlruCtlData]: the unshared control struct.  The pointer to the shared
    area is the [shared] field of the world below. *)
Record SlruCtlData : Type := mkCtl {
  do_fsync : bool;
  PagePrecedes : Z -> Z -> bool;
  Dir : string
}.

(** Functional updates of one field. *)
Definition set_page_buffer (f : list (list byte) -> list (list byte))
    (s : SlruSharedData) : SlruSharedData :=
  mkShared (num_slots s) (f (page_buffer s)) (page_status s) (page_dirty s)
    (page_number s) (page_lru_count s) (lsn_groups_per_page s) (group_lsn s)
    (cur_lru_count s) (latest_page_number s).

Definition set_page_status (f : list SlruPageStatus -> list SlruPageStatus)
    (s : SlruSharedData) : SlruSharedData :=
  mkShared (num_slots s) (page_buffer s) (f (page_status s)) (page_dirty s)
    (page_number s) (page_lru_count s) (lsn_groups_per_page s) (group_lsn s)
    (cur_lru_count s) (latest_page_number s).

Definition set_page_dirty (f : list bool -> list bool)
    (s : SlruSharedData) : SlruSharedData :=
  mkShared (num_slots s) (page_buffer s) (page_status s) (f (page_dirty s))
    (page_number s) (page_lru_count s) (lsn_groups_per_page s) (group_lsn s)
    (cur_lru_count s) (latest_page_number s).

Definition set_page_number (f : list Z -> list Z)
    (s : SlruSharedData) : SlruSharedData :=
  mkShared (num_slots s) (page_buffer s) (page_status s) (page_dirty s)
    (f (page_number s)) (page_lru_count s) (lsn_groups_per_page s)
    (group_lsn s) (cur_lru_count s) (latest_page_number s).

Definition set_page_lru_count (f : list Z -> list Z)
    (s : SlruSharedData) : SlruSharedData :=
  mkShared (num_slots s) (page_buffer s) (page_status s) (page_dirty s)
    (page_number s) (f (page_lru_count s)) (lsn_groups_per_page s)
    (group_lsn s) (cur_lru_count s) (latest_page_number s).

Definition set_group_lsn (f : option (list Z) -> option (list Z))
    (s : SlruSharedData) : SlruSharedData :=
  mkShared (num_slots s) (page_buffer s) (page_status s) (page_dirty s)
    (page_number s) (page_lru_count s) (lsn_groups_per_page s)
    (f (group_lsn s)) (cur_lru_count s) (latest_page_number s).

Definition set_cur_lru_count (c : Z) (s : SlruSharedData) : SlruSharedData :=
  mkShared (num_slots s) (page_buffer s) (page_status s) (page_dirty s)
    (page_number s) (page_lru_count s) (lsn_groups_per_page s) (group_lsn s)
    c (latest_page_number s).

Definition set_latest_page_number (p : Z) (s : SlruSharedData)
    : SlruSharedData :=
  mkShared (num_slots s) (page_buffer s) (page_status s) (page_dirty s)
    (page_number s) (page_lru_count s) (lsn_groups_per_page s) (group_lsn s)
    (cur_lru_count s) p.

(** The arrays have [num_slots] entries each. *)
Definition shared_wf (s : SlruSharedData) : Prop :=
  length (page_buffer s) = num_slots s /\
  length (page_status s) = num_slots s /\
  length (page_dirty s) = num_slots s /\
  length (page_number s) = num_slots s /\
  length (page_lru_count s) = num_slots s.

(** ** The macro SlruRecentlyUsed *)

Definition SlruRecentlyUsed (slotno : nat) (s : SlruSharedData)
    : SlruSharedData :=
  let new_lru_count := cur_lru_count s in
  if decide (new_lru_count <> page_lru_count s !!! slotno) then
    let new_lru_count := int_add new_lru_count 1 in
    set_page_lru_count (<[slotno := new_lru_count]>)
      (set_cur_lru_count new_lru_count s)
  else s.

(** ** The world of one backend *)

Inductive LWLockMode : Type := LW_EXCLUSIVE | LW_SHARED.

Global Instance LWLockMode_eq_dec : EqDecision LWLockMode.
Proof. solve_decision. Defined.

(** The kinds of system call that the fault table can make fail. *)
Inductive OsOp : Type :=
| OS_OPEN | OS_SEEK | OS_READ | OS_WRITE | OS_FSYNC | OS_CLOSE.

(** A path is kept as the pair (directory, file name) that
    [snprintf(path, MAXPGPATH, "%s/%s", dir, name)] joins. *)
Definition Path : Type := (string * string)%type.

Definition path_length (p : Path) : Z :=
  Z.of_nat (String.length p.1) + 1 + Z.of_nat (String.length p.2).

(** Lines written with [ereport(LOG, ...)] or [ereport(DEBUG2, ...)]. *)
Inductive LogLine : Type :=
| LogReadingAsZeroes (path : Path)
| LogApparentWraparound (dir : string)
| LogRemovingFile (path : Path).

(** What [ereport(ERROR, ...)] throws.  [SlruIOError] is the report of
    [SlruReportIOError (ctl, pageno, xid)] for the saved cause and errno. *)
Inductive PgError : Type :=
| SlruIOError (cause : SlruErrorCause) (saved_errno : Z) (pageno : Z) (xid : Z)
| CannotGeneratePath (dir name : string)
| CannotFormPath (dir name : string).

Record World : Type := mkWorld {
  shared : SlruSharedData;
  (* the mode in which this backend holds each lock, if it does *)
  ControlLock : option LWLockMode;
  buffer_locks : list (option LWLockMode);
  (* the file system: contents by path, and the calls that fail *)
  disk : gmap (string * string) (list byte);
  os_fault : OsOp -> Path -> option Z;
  errno : Z;
  (* the transaction filespace: [Some d] when [isTxnDir] holds of a
     directory and [makeRelativeToTxnFilespace] maps it to [d] *)
  txn_filespace : string -> option string;
  InRecovery : bool;
  slru_errcause : SlruErrorCause;
  slru_errno : Z;
  (* the LSNs handed to [XLogFlush], latest first *)
  XLogFlushed : list Z;
  server_log : list LogLine
}.

Definition upd_shared (f : SlruSharedData -> SlruSharedData) (w : World)
    : World :=
  mkWorld (f (shared w)) (ControlLock w) (buffer_locks w) (disk w)
    (os_fault w) (errno w) (txn_filespace w) (InRecovery w)
    (slru_errcause w) (slru_errno w) (XLogFlushed w) (server_log w).

Definition set_ControlLock (l : option LWLockMode) (w : World) : World :=
  mkWorld (shared w) l (buffer_locks w) (disk w)
    (os_fault w) (errno w) (txn_filespace w) (InRecovery w)
    (slru_errcause w) (slru_errno w) (XLogFlushed w) (server_log w).

Definition upd_buffer_locks
    (f : list (option LWLockMode) -> list (option LWLockMode)) (w : World)
    : World :=
  mkWorld (shared w) (ControlLock w) (f (buffer_locks w)) (disk w)
    (os_fault w) (errno w) (txn_filespace w) (InRecovery w)
    (slru_errcause w) (slru_errno w) (XLogFlushed w) (server_log w).

Definition upd_disk
    (f : gmap (string * string) (list byte) -> gmap (string * string) (list byte))
    (w : World) : World :=
  mkWorld (shared w) (ControlLock w) (buffer_locks w) (f (disk w))
    (os_fault w) (errno w) (txn_filespace w) (InRecovery w)
    (slru_errcause w) (slru_errno w) (XLogFlushed w) (server_log w).

Definition set_errno (e : Z) (w : World) : World :=
  mkWorld (shared w) (ControlLock w) (buffer_locks w) (disk w)
    (os_fault w) e (txn_filespace w) (InRecovery w)
    (slru_errcause w) (slru_errno w) (XLogFlushed w) (server_log w).

(** [slru_errcause = c; slru_errno = errno;] *)
Definition save_error (c : SlruErrorCause) (w : World) : World :=
  mkWorld (shared w) (ControlLock w) (buffer_locks w) (disk w)
    (os_fault w) (errno w) (txn_filespace w) (InRecovery w)
    c (errno w) (XLogFlushed w) (server_log w).

(** Modelled from the spec: xlog.c is not part of this file.  The WAL
    adapter is a single call that returns when the LSN is durable; here it
    records the LSN it was given. *)
Definition XLogFlush (lsn : Z) (w : World) : World :=
  mkWorld (shared w) (ControlLock w) (buffer_locks w) (disk w)
    (os_fault w) (errno w) (txn_filespace w) (InRecovery w)
    (slru_errcause w) (slru_errno w) (lsn :: XLogFlushed w) (server_log w).

Definition ereport_LOG (l : LogLine) (w : World) : World :=
  mkWorld (shared w) (ControlLock w) (buffer_locks w) (disk w)
    (os_fault w) (errno w) (txn_filespace w) (InRecovery w)
    (slru_errcause w) (slru_errno w) (XLogFlushed w) (l :: server_log w).

(** *** Outcomes: return, [ereport(ERROR)], or a loop cut short *)

Inductive Outcome (A : Type) : Type :=
| Returned (a : A) (w : World)
| Raised (e : PgError) (w : World)
| OutOfFuel.

Arguments Returned {A} a w.

Arguments Raised {A} e w.

Arguments OutOfFuel {A}.

Definition M (A : Type) : Type := World -> Outcome A.

Definition ret {A} (a : A) : M A := fun w => Returned a w.

Definition bind {A B} (c : M A) (k : A -> M B) : M B :=
  fun w =>
    match c w with
    | Returned a w' => k a w'
    | Raised e w' => Raised e w'
    | OutOfFuel => OutOfFuel
    end.

Definition raise {A} (e : PgError) : M A := fun w => Raised e w.

(** A step that cannot fail. *)
Definition step (f : World -> World) : M unit := fun w => Returned tt (f w).

Definition gets {A} (f : World -> A) : M A := fun w => Returned (f w) w.

Declare Scope slru_scope.
Delimit Scope slru_scope with slru.

Notation "x <- c ;; k" := (bind c (fun x => k))
  (at level 100, c at next level, right associativity) : slru_scope.

Notation "c ;;; k" := (bind c (fun _ => k))
  (at level 100, right associativity) : slru_scope.

(** *** LWLocks, as far as one backend sees them *)

(** Modelled from the spec: lwlock.c is not part of this file.  A lock is
    acquired in a mode and released; no other backend holds one, so an
    acquisition never waits. *)

Definition LWLockAcquire_ControlLock (mode : LWLockMode) (w : World) : World :=
  set_ControlLock (Some mode) w.

Definition LWLockRelease_ControlLock (w : World) : World :=
  set_ControlLock None w.

Definition LWLockAcquire_buffer (slotno : nat) (mode : LWLockMode) (w : World)
    : World :=
  upd_buffer_locks (<[slotno := Some mode]>) w.

Definition LWLockRelease_buffer (slotno : nat) (w : World) : World :=
  upd_buffer_locks (<[slotno := None]>) w.

(** Succeeds unless the lock is taken; no other backend holds one. *)
Definition LWLockConditionalAcquire_buffer (slotno : nat) (mode : LWLockMode)
    (w : World) : bool * World :=
  match buffer_locks w !! slotno with
  | Some (Some _) => (false, w)
  | _ => (true, LWLockAcquire_buffer slotno mode w)
  end.

(** ** Segment file names *)

Definition hex_char (d : Z) : ascii :=
  default "0"%char
    (list_ascii_of_string "0123456789ABCDEF" !! Z.to_nat d).

Definition hex_digits8 (u : Z) : list ascii :=
  map (fun k => hex_char ((u / 16 ^ k) mod 16)) [7; 6; 5; 4; 3; 2; 1; 0].

(** Drops leading zeroes while more than [width] digits are left. *)
Fixpoint strip_zeroes (width : nat) (l : list ascii) : list ascii :=
  match l with
  | c :: l' =>
      if decide (c = "0"%char /\ (width < length l)%nat)
      then strip_zeroes width l' else l
  | [] => []
  end.

(** [SlruSimpleFileName(path, seg)]: [snprintf(path, MAXPGPATH, "%04X", seg)];
    the conversion takes [seg] as an unsigned int. *)
Definition SlruSimpleFileName (seg : Z) : string :=
  string_of_list_ascii (strip_zeroes 4 (hex_digits8 (seg mod 4294967296))).

Definition hex_value (c : ascii) : option Z :=
  let n := Z.of_N (N_of_ascii c) in
  if decide (48 <= n <= 57) then Some (n - 48)
  else if decide (65 <= n <= 70) then Some (n - 55)
  else if decide (97 <= n <= 102) then Some (n - 87)
  else None.

(** [strtol(s, NULL, 16)] on a string that starts with its digits: the value
    of the longest run of hexadecimal digits at the start. *)
Fixpoint strtol16_from (acc : Z) (s : list ascii) : Z :=
  match s with
  | c :: s' =>
      match hex_value c with
      | Some d => strtol16_from (acc * 16 + d) s'
      | None => acc
      end
  | [] => acc
  end.

Definition strtol16 (s : string) : Z :=
  strtol16_from 0 (list_ascii_of_string s).

(** [strspn(s, accept)]: the length of the longest prefix of [s] made of
    characters of [accept]. *)
Fixpoint strspn_list (s accept : list ascii) : nat :=
  match s with
  | c :: s' => if decide (c ∈ accept) then S (strspn_list s' accept) else 0%nat
  | [] => 0%nat
  end.

Definition strspn (s accept : string) : nat :=
  strspn_list (list_ascii_of_string s) (list_ascii_of_string accept).

Definition isSlruFileName (fileName : string) : bool :=
  bool_decide (String.length fileName = SLRU_FILENAME_LEN) &&
  bool_decide (strspn fileName "0123456789ABCDEF" = SLRU_FILENAME_LEN).

(** ** System calls *)

Definition EINVAL : Z := 22.

(** Modelled from the spec: fd.c is not part of this file.
    [BasicOpenFile(path, O_RDWR | PG_BINARY, ...)] opens the segment
    read-write and fails with ENOENT when the file is absent: true when a
    descriptor comes back, false for [fd < 0]. *)
Definition BasicOpenFile (path : Path) (w : World) : bool * World :=
  match os_fault w OS_OPEN path with
  | Some e => (false, set_errno e w)
  | None =>
      match disk w !! path with
      | Some _ => (true, w)
      | None => (false, set_errno ENOENT w)
      end
  end.

(** [lseek(fd, offset, SEEK_SET) >= 0] *)
Definition lseek (path : Path) (offset : Z) (w : World) : bool * World :=
  match os_fault w OS_SEEK path with
  | Some e => (false, set_errno e w)
  | None => if decide (offset < 0) then (false, set_errno EINVAL w)
            else (true, w)
  end.

(** [read(fd, buf, count)] at the offset set by [lseek]: the return value
    and the bytes that reached the buffer. *)
Definition os_read (path : Path) (offset count : Z) (w : World)
    : Z * list byte * World :=
  match os_fault w OS_READ path with
  | Some e => (-1, [], set_errno e w)
  | None =>
      let data := take (Z.to_nat count)
                    (drop (Z.to_nat offset) (default [] (disk w !! path))) in
      (Z.of_nat (length data), data, w)
  end.

(** [close(fd) == 0] *)
Definition os_close (path : Path) (w : World) : bool * World :=
  match os_fault w OS_CLOSE path with
  | Some e => (false, set_errno e w)
  | None => (true, w)
  end.

(** The bytes of [file] after [data] is written at [position]; a gap is
    filled with zeroes. *)
Definition write_at (position : nat) (data file : list byte) : list byte :=
  take position (file ++ replicate (position - length file) x00)
  ++ data ++ drop (position + length data) file.

(** ** The mirrored flat file adapter *)

(** Modelled from the spec: cdbmirroredflatfile.c is not part of this
    file.  The adapter offers open, seek_set, write(offset, buf, len),
    flush, close and drop(dir, name), and writes through on the primary;
    a call returns nonzero (here [true]) when it fails.  It resolves the
    directory against the transaction filespace as [SlruFlatFileName]
    does. *)
Record MirroredFlatFileOpen : Type := mkMirroredOpen {
  isActive : bool;
  mirrored_path : Path
}.

Definition MirroredFlatFileOpen_Init : MirroredFlatFileOpen :=
  mkMirroredOpen false (EmptyString, EmptyString).

Definition MirroredFlatFile_IsActive (o : MirroredFlatFileOpen) : bool :=
  isActive o.

(** The directory after [if (isTxnDir(dir)) dir =
    makeRelativeToTxnFilespace(dir)]; the two functions are not part of
    this file and are kept as the table [txn_filespace]. *)
Definition TxnDir (dir : string) (w : World) : string :=
  match txn_filespace w dir with
  | Some d => d
  | None => dir
  end.

(** Opens with [O_RDWR | O_CREAT]: an absent file is created empty. *)
Definition MirroredFlatFile_Open (subDirectory simpleFileName : string)
    (w : World) : bool * MirroredFlatFileOpen * World :=
  let path := (TxnDir subDirectory w, simpleFileName) in
  match os_fault w OS_OPEN path with
  | Some e => (true, MirroredFlatFileOpen_Init, set_errno e w)
  | None =>
      (false, mkMirroredOpen true path,
       upd_disk (fun d => match d !! path with
                          | Some _ => d
                          | None => <[path := []]> d
                          end) w)
  end.

(** Returns the new position, or -1. *)
Definition MirroredFlatFile_SeekSet (o : MirroredFlatFileOpen) (position : Z)
    (w : World) : Z * World :=
  match os_fault w OS_SEEK (mirrored_path o) with
  | Some e => (-1, set_errno e w)
  | None => if decide (position < 0) then (-1, set_errno EINVAL w)
            else (position, w)
  end.

Definition MirroredFlatFile_Write (o : MirroredFlatFileOpen) (position : Z)
    (buffer : list byte) (w : World) : bool * World :=
  match os_fault w OS_WRITE (mirrored_path o) with
  | Some e => (true, set_errno e w)
  | None =>
      (false,
       upd_disk (fun d =>
         <[mirrored_path o :=
             write_at (Z.to_nat position) buffer
               (default [] (d !! mirrored_path o))]> d) w)
  end.

Definition MirroredFlatFile_Flush (o : MirroredFlatFileOpen) (w : World)
    : bool * World :=
  match os_fault w OS_FSYNC (mirrored_path o) with
  | Some e => (true, set_errno e w)
  | None => (false, w)
  end.

Definition MirroredFlatFile_Close (o : MirroredFlatFileOpen)
    : MirroredFlatFileOpen :=
  mkMirroredOpen false (mirrored_path o).

(** The result of the call is ignored by its one caller here. *)
Definition MirroredFlatFile_Drop (subDirectory simpleFileName : string)
    (w : World) : World :=
  upd_disk (delete (TxnDir subDirectory w, simpleFileName)) w.

(** ** Initialization of shared memory *)

(** A page of zero bytes. *)
Definition zero_page : list byte := replicate (Z.to_nat BLCKSZ) x00.

Arguments zero_page : simpl never.

(** [SimpleLruInit] in the postmaster ([!IsUnderPostmaster]): the shared
    area is fresh, zero-filled memory. *)
Definition SimpleLruInit (nslots : nat) (nlsns : Z) : SlruSharedData :=
  mkShared nslots
    (replicate nslots zero_page)
    (replicate nslots SLRU_PAGE_EMPTY)
    (replicate nslots false)
    (replicate nslots 0)
    (replicate nslots 0)
    nlsns
    (if decide (nlsns > 0)
     then Some (replicate (nslots * Z.to_nat nlsns) 0) else None)
    0 0.

(** ** Assignments to one slot *)

Definition set_status (slotno : nat) (st : SlruPageStatus) : World -> World :=
  upd_shared (set_page_status (<[slotno := st]>)).

Definition set_dirty (slotno : nat) (d : bool) : World -> World :=
  upd_shared (set_page_dirty (<[slotno := d]>)).

Definition set_number (slotno : nat) (pageno : Z) : World -> World :=
  upd_shared (set_page_number (<[slotno := pageno]>)).

Definition set_buffer (slotno : nat) (b : list byte) : World -> World :=
  upd_shared (set_page_buffer (<[slotno := b]>)).

Definition status_of (w : World) (slotno : nat) : SlruPageStatus :=
  page_status (shared w) !!! slotno.

Definition dirty_of (w : World) (slotno : nat) : bool :=
  page_dirty (shared w) !!! slotno.

Definition number_of (w : World) (slotno : nat) : Z :=
  page_number (shared w) !!! slotno.

Definition buffer_of (w : World) (slotno : nat) : list byte :=
  page_buffer (shared w) !!! slotno.

(** [MemSet(start, val, len)] over the cells [start .. start+len) of an
    array. *)
Definition MemSet {A} (start len : nat) (val : A) (l : list A) : list A :=
  take start l ++ replicate (min len (length l - start)) val
  ++ drop (start + len) l.

(** ** SimpleLruZeroLSNs *)

Definition SimpleLruZeroLSNs (slotno : nat) (s : SlruSharedData)
    : SlruSharedData :=
  if decide (lsn_groups_per_page s > 0) then
    set_group_lsn
      (fmap (MemSet (slotno * Z.to_nat (lsn_groups_per_page s))
               (Z.to_nat (lsn_groups_per_page s)) 0)) s
  else s.

(** ** SimpleLruWaitIO *)

Definition io_in_progress (st : SlruPageStatus) : bool :=
  bool_decide (st = SLRU_PAGE_READ_IN_PROGRESS) ||
  bool_decide (st = SLRU_PAGE_WRITE_IN_PROGRESS).

Definition SimpleLruWaitIO (slotno : nat) (w : World) : World :=
  let w := LWLockRelease_ControlLock w in
  let w := LWLockAcquire_buffer slotno LW_SHARED w in
  let w := LWLockRelease_buffer slotno w in
  let w := LWLockAcquire_ControlLock LW_EXCLUSIVE w in
  if io_in_progress (status_of w slotno) then
    match LWLockConditionalAcquire_buffer slotno LW_SHARED w with
    | (true, w) =>
        (* indeed, the I/O must have failed *)
        let w :=
          if decide (status_of w slotno = SLRU_PAGE_READ_IN_PROGRESS)
          then set_status slotno SLRU_PAGE_EMPTY w
          else set_dirty slotno true (set_status slotno SLRU_PAGE_VALID w) in
        LWLockRelease_buffer slotno w
    | (false, w) => w
    end
  else w.

(** ** SlruReportIOError *)

Definition SlruReportIOError {A} (pageno xid : Z) : M A :=
  fun w =>
    Raised (SlruIOError (slru_errcause w) (slru_errno w) pageno xid)
      (set_errno (slru_errno w) w).

(** The file and the offset that the report names. *)
Definition report_segno (pageno : Z) : Z := int_div pageno SLRU_PAGES_PER_SEGMENT.

Definition report_offset (pageno : Z) : Z :=
  int_mul (int_mod pageno SLRU_PAGES_PER_SEGMENT) BLCKSZ.

(** ** SlruFlatFileName *)

(** The path is kept whole whenever the test passes.  At exactly MAXPGPATH
    characters [snprintf] stores all but the last one and still returns
    MAXPGPATH, so the C code goes on with the cut path; that one length is
    not modelled. *)
Definition SlruFlatFileName (ctl : SlruCtlData) (simpleFileName : string)
    : M Path :=
  fun w =>
    let dir := TxnDir (Dir ctl) w in
    if decide (path_length (dir, simpleFileName) > MAXPGPATH)
    then Raised (CannotGeneratePath dir simpleFileName) w
    else Returned (dir, simpleFileName) w.

(** ** SlruPhysicalReadPage *)

Definition SlruPhysicalReadPage (ctl : SlruCtlData) (pageno : Z) (slotno : nat)
    : M bool :=
  let segno := int_div pageno SLRU_PAGES_PER_SEGMENT in
  let rpageno := int_mod pageno SLRU_PAGES_PER_SEGMENT in
  let offset := int_mul rpageno BLCKSZ in
  (path <- SlruFlatFileName ctl (SlruSimpleFileName segno) ;;
   fun w =>
     match BasicOpenFile path w with
     | (false, w) =>
         if bool_decide (errno w <> ENOENT) || negb (InRecovery w) then
           Returned false (save_error SLRU_OPEN_FAILED w)
         else
           let w := ereport_LOG (LogReadingAsZeroes path) w in
           Returned true (set_buffer slotno zero_page w)
     | (true, w) =>
         match lseek path offset w with
         | (false, w) =>
             let w := save_error SLRU_SEEK_FAILED w in
             Returned false (os_close path w).2
         | (true, w) =>
             match os_read path offset BLCKSZ w with
             | (n, data, w) =>
                 let w :=
                   set_buffer slotno
                     (data ++ drop (length data) (buffer_of w slotno)) w in
                 if decide (n <> BLCKSZ) then
                   let w := save_error SLRU_READ_FAILED w in
                   Returned false (os_close path w).2
                 else
                   match os_close path w with
                   | (false, w) => Returned false (save_error SLRU_CLOSE_FAILED w)
                   | (true, w) => Returned true w
                   end
             end
         end
     end)%slru.

(** ** SlruFlushData and SlruPhysicalWritePage *)

Record SlruFlushData : Type := mkFlush {
  num_files : nat;
  mirroredOpens : list MirroredFlatFileOpen;
  segno_of : list Z
}.

Global Instance MirroredFlatFileOpen_inhabited : Inhabited MirroredFlatFileOpen :=
  populate MirroredFlatFileOpen_Init.

(** A fresh [SlruFlushData] with [num_files = 0]. *)
Definition SlruFlushData_new : SlruFlushData :=
  mkFlush 0 (replicate MAX_FLUSH_BUFFERS MirroredFlatFileOpen_Init)
    (replicate MAX_FLUSH_BUFFERS 0).

(** The first [i < num_files] with [fdata->segno[i] == segno]. *)
Fixpoint find_open (fdata : SlruFlushData) (segno : Z) (idxs : list nat)
    : option nat :=
  match idxs with
  | i :: rest =>
      if decide (segno_of fdata !!! i = segno) then Some i
      else find_open fdata segno rest
  | [] => None
  end.

(** The largest LSN of the slot's group. *)
Definition max_group_lsn (s : SlruSharedData) (lsns : list Z) (slotno : nat)
    : Z :=
  let n := Z.to_nat (lsn_groups_per_page s) in
  let lsnindex := (slotno * n)%nat in
  fold_left
    (fun max_lsn lsnoff =>
       let this_lsn := lsns !!! (lsnindex + lsnoff)%nat in
       if decide (max_lsn < this_lsn) then this_lsn else max_lsn)
    (seq 1 (n - 1)) (lsns !!! lsnindex).

(** The part of [SlruPhysicalWritePage] from the seek on.  [in_flush] says
    whether the local [fdata] is still non-null; [fdata] is the caller's
    structure, handed back as it now stands.  Closing the handle of a
    standalone write leaves nothing behind in the world. *)
Definition SlruPhysicalWritePage_tail (ctl : SlruCtlData)
    (useMirroredOpen : MirroredFlatFileOpen) (in_flush : bool)
    (fdata : option SlruFlushData) (offset : Z) (slotno : nat) (w : World)
    : bool * option SlruFlushData * World :=
  match MirroredFlatFile_SeekSet useMirroredOpen offset w with
  | (pos, w) =>
      if decide (pos <> offset) then
        (false, fdata, save_error SLRU_SEEK_FAILED w)
      else
        match MirroredFlatFile_Write useMirroredOpen offset
                (buffer_of w slotno) w with
        | (true, w) => (false, fdata, save_error SLRU_WRITE_FAILED w)
        | (false, w) =>
            if in_flush then (true, fdata, w)
            else if do_fsync ctl then
              match MirroredFlatFile_Flush useMirroredOpen w with
              | (true, w) => (false, fdata, save_error SLRU_FSYNC_FAILED w)
              | (false, w) => (true, fdata, w)
              end
            else (true, fdata, w)
        end
  end.

Definition SlruPhysicalWritePage (ctl : SlruCtlData) (pageno : Z)
    (slotno : nat) (fdata : option SlruFlushData) (w : World)
    : bool * option SlruFlushData * World :=
  let segno := int_div pageno SLRU_PAGES_PER_SEGMENT in
  let rpageno := int_mod pageno SLRU_PAGES_PER_SEGMENT in
  let offset := int_mul rpageno BLCKSZ in
  (* write-WAL-before-data *)
  let w :=
    match group_lsn (shared w) with
    | Some lsns =>
        let max_lsn := max_group_lsn (shared w) lsns slotno in
        if decide (max_lsn <> 0) then XLogFlush max_lsn w else w
    | None => w
    end in
  let existingMirroredOpen :=
    match fdata with
    | Some fd =>
        match find_open fd segno (seq 0 (num_files fd)) with
        | Some i => Some (mirroredOpens fd !!! i)
        | None => None
        end
    | None => None
    end in
  let reusable :=
    match existingMirroredOpen with
    | Some o => if MirroredFlatFile_IsActive o then Some o else None
    | None => None
    end in
  match reusable with
  | Some o =>
      SlruPhysicalWritePage_tail ctl o (bool_decide (is_Some fdata)) fdata
        offset slotno w
  | None =>
      match MirroredFlatFile_Open (Dir ctl) (SlruSimpleFileName segno) w with
      | (true, _, w) => (false, fdata, save_error SLRU_OPEN_FAILED w)
      | (false, newMirroredOpen, w) =>
          match fdata with
          | Some fd =>
              if decide (num_files fd < MAX_FLUSH_BUFFERS)%nat then
                let fd' :=
                  mkFlush (S (num_files fd))
                    (<[num_files fd := newMirroredOpen]> (mirroredOpens fd))
                    (<[num_files fd := segno]> (segno_of fd)) in
                SlruPhysicalWritePage_tail ctl newMirroredOpen true
                  (Some fd') offset slotno w
              else
                (* more than MAX_FLUSH_BUFFERS files: a standalone write *)
                SlruPhysicalWritePage_tail ctl newMirroredOpen false
                  fdata offset slotno w
          | None =>
              SlruPhysicalWritePage_tail ctl newMirroredOpen false None
                offset slotno w
          end
      end
  end.

(** ** SimpleLruWritePage *)

(** [while (page_status[slotno] == SLRU_PAGE_WRITE_IN_PROGRESS &&
            page_number[slotno] == pageno) SimpleLruWaitIO(ctl, slotno);] *)
Fixpoint SimpleLruWritePage_wait (fuel : nat) (slotno : nat) (pageno : Z)
    (w : World) {struct fuel} : Outcome unit :=
  if bool_decide (status_of w slotno = SLRU_PAGE_WRITE_IN_PROGRESS) &&
     bool_decide (number_of w slotno = pageno)
  then
    match fuel with
    | O => OutOfFuel
    | S fuel' =>
        SimpleLruWritePage_wait fuel' slotno pageno (SimpleLruWaitIO slotno w)
    end
  else Returned tt w.

(** [MirroredFlatFile_Close] on the first [num_files] handles. *)
Definition close_all (fd : SlruFlushData) : SlruFlushData :=
  mkFlush (num_files fd)
    (fold_left (fun opens i => <[i := MirroredFlatFile_Close (opens !!! i)]> opens)
       (seq 0 (num_files fd)) (mirroredOpens fd))
    (segno_of fd).

(** The world in which the physical write of a slot runs: the slot is
    write-busy and clean, its lock is taken, the control lock is let go. *)
Definition begin_write (slotno : nat) (w : World) : World :=
  let w := set_status slotno SLRU_PAGE_WRITE_IN_PROGRESS w in
  let w := set_dirty slotno false w in
  let w := LWLockAcquire_buffer slotno LW_EXCLUSIVE w in
  LWLockRelease_ControlLock w.

(** Re-acquire the control lock and update the page state: dirty again if
    the write failed, VALID in any case. *)
Definition end_write (slotno : nat) (ok : bool) (w : World) : World :=
  let w := LWLockAcquire_ControlLock LW_EXCLUSIVE w in
  let w := if ok then w else set_dirty slotno true w in
  let w := set_status slotno SLRU_PAGE_VALID w in
  LWLockRelease_buffer slotno w.

(** The caller's [SlruFlushData], if any, comes back as the call left it. *)
Definition SimpleLruWritePage (fuel : nat) (ctl : SlruCtlData) (slotno : nat)
    (fdata : option SlruFlushData) : M (option SlruFlushData) :=
  (pageno <- gets (fun w => number_of w slotno) ;;
   (* If a write is in progress, wait for it to finish *)
   SimpleLruWritePage_wait fuel slotno pageno ;;;
   w0 <- gets id ;;
   if negb (dirty_of w0 slotno) ||
      bool_decide (status_of w0 slotno <> SLRU_PAGE_VALID) ||
      bool_decide (number_of w0 slotno <> pageno)
   then ret fdata
   else
     (* Mark the slot write-busy, and clear the dirtybit *)
     step (begin_write slotno) ;;;
     (* Do the write *)
     r <- (fun w => let '(ok, fd, w') :=
                      SlruPhysicalWritePage ctl pageno slotno fdata w
                    in Returned (ok, fd) w') ;;
     let ok := r.1 in
     (* If we failed, and we're in a flush, better close the files *)
     let fdata' := if ok then r.2 else close_all <$> r.2 in
     step (end_write slotno ok) ;;;
     (* Now it's okay to ereport if we failed *)
     if ok then ret fdata'
     else SlruReportIOError pageno InvalidTransactionId)%slru.

(** ** SlruSelectLRUPage *)

(** The first loop: a slot that holds [pageno] and is not EMPTY. *)
Fixpoint find_page (s : SlruSharedData) (pageno : Z) (slots : list nat)
    : option nat :=
  match slots with
  | slotno :: rest =>
      if bool_decide (page_number s !!! slotno = pageno) &&
         bool_decide (page_status s !!! slotno <> SLRU_PAGE_EMPTY)
      then Some slotno
      else find_page s pageno rest
  | [] => None
  end.

(** The locals of the second loop. *)
Record BestSlot : Type := mkBest {
  bestslot : nat;
  best_delta : Z;
  best_page_number : Z
}.

Definition BestSlot_init : BestSlot := mkBest 0 (-1) 0.

(** The second loop: [inl slotno] when it returns an EMPTY slot at once,
    [inr best] when it runs to its end. *)
Fixpoint victim_scan (ctl : SlruCtlData) (cur_count : Z) (slots : list nat)
    (best : BestSlot) (s : SlruSharedData) : (nat + BestSlot) * SlruSharedData :=
  match slots with
  | slotno :: rest =>
      if decide (page_status s !!! slotno = SLRU_PAGE_EMPTY) then (inl slotno, s)
      else
        let this_delta := int_sub cur_count (page_lru_count s !!! slotno) in
        let s' :=
          if decide (this_delta < 0)
          then set_page_lru_count (<[slotno := cur_count]>) s else s in
        let this_delta := if decide (this_delta < 0) then 0 else this_delta in
        let this_page_number := page_number s' !!! slotno in
        let best' :=
          if (bool_decide (this_delta > best_delta best) ||
              (bool_decide (this_delta = best_delta best) &&
               PagePrecedes ctl this_page_number (best_page_number best))) &&
             bool_decide (this_page_number <> latest_page_number s')
          then mkBest slotno this_delta this_page_number
          else best in
        victim_scan ctl cur_count rest best' s'
  | [] => (inr best, s)
  end.

Definition all_slots (s : SlruSharedData) : list nat := seq 0 (num_slots s).

Fixpoint SlruSelectLRUPage (fuel : nat) (ctl : SlruCtlData) (pageno : Z)
    (w : World) {struct fuel} : Outcome nat :=
  match fuel with
  | O => OutOfFuel
  | S fuel' =>
      (* See if page already has a buffer assigned *)
      match find_page (shared w) pageno (all_slots (shared w)) with
      | Some slotno => Returned slotno w
      | None =>
          let cur_count := cur_lru_count (shared w) in
          let w := upd_shared (set_cur_lru_count (int_add cur_count 1)) w in
          match victim_scan ctl cur_count (all_slots (shared w))
                  BestSlot_init (shared w) with
          | (inl slotno, s) => Returned slotno (upd_shared (fun _ => s) w)
          | (inr best, s) =>
              let w := upd_shared (fun _ => s) w in
              let bestslot := bestslot best in
              (* If the selected page is clean, we're set. *)
              if bool_decide (status_of w bestslot = SLRU_PAGE_VALID) &&
                 negb (dirty_of w bestslot)
              then Returned bestslot w
              else
                (* We need to wait for I/O, then loop back and try again *)
                bind
                  (if decide (status_of w bestslot = SLRU_PAGE_VALID)
                   then (SimpleLruWritePage fuel' ctl bestslot None ;;; ret tt)%slru
                   else step (SimpleLruWaitIO bestslot))
                  (fun _ => SlruSelectLRUPage fuel' ctl pageno) w
          end
      end
  end.

(** ** SimpleLruZeroPage *)

Definition SimpleLruZeroPage (fuel : nat) (ctl : SlruCtlData) (pageno : Z)
    : M nat :=
  (slotno <- SlruSelectLRUPage fuel ctl pageno ;;
   (* Mark the slot as containing this page *)
   step (set_number slotno pageno) ;;;
   step (set_status slotno SLRU_PAGE_VALID) ;;;
   step (set_dirty slotno true) ;;;
   step (upd_shared (SlruRecentlyUsed slotno)) ;;;
   (* Set the buffer to zeroes *)
   step (set_buffer slotno zero_page) ;;;
   (* Set the LSNs for this new page to zero *)
   step (upd_shared (SimpleLruZeroLSNs slotno)) ;;;
   (* Assume this page is now the latest active page *)
   step (upd_shared (set_latest_page_number pageno)) ;;;
   ret slotno)%slru.

(** ** SimpleLruReadPage *)

(** What a read hands back: the slot number ([-1] after a failed read) and
    what was stored through [valid] ([None] when [valid] is the null
    pointer). *)
Definition ReadResult : Type := (Z * option bool)%type.

Definition store_valid (valid : bool) (b : bool) : option bool :=
  if valid then Some b else None.

(** Mark the slot read-busy, take the per-buffer lock and let go of the
    control lock. *)
Definition begin_read (slotno : nat) (pageno : Z) (w : World) : World :=
  let w := set_number slotno pageno w in
  let w := set_status slotno SLRU_PAGE_READ_IN_PROGRESS w in
  let w := set_dirty slotno false w in
  let w := LWLockAcquire_buffer slotno LW_EXCLUSIVE w in
  let w := upd_shared (SlruRecentlyUsed slotno) w in
  LWLockRelease_ControlLock w.

(** Re-acquire the control lock and update the page state. *)
Definition end_read (slotno : nat) (ok : bool) (w : World) : World :=
  let w := LWLockAcquire_ControlLock LW_EXCLUSIVE w in
  let w := set_status slotno
             (if ok then SLRU_PAGE_VALID else SLRU_PAGE_EMPTY) w in
  LWLockRelease_buffer slotno w.

(** [valid] is true when the caller passed a non-null pointer. *)
Fixpoint SimpleLruReadPage_Internal (fuel : nat) (ctl : SlruCtlData)
    (pageno : Z) (write_ok : bool) (xid : Z) (valid : bool) {struct fuel}
    : M ReadResult :=
  match fuel with
  | O => fun _ => OutOfFuel
  | S fuel' =>
      (slotno <- SlruSelectLRUPage fuel ctl pageno ;;
       w0 <- gets id ;;
       (* Did we find the page in memory? *)
       if bool_decide (number_of w0 slotno = pageno) &&
          bool_decide (status_of w0 slotno <> SLRU_PAGE_EMPTY)
       then
         if bool_decide (status_of w0 slotno = SLRU_PAGE_READ_IN_PROGRESS) ||
            (bool_decide (status_of w0 slotno = SLRU_PAGE_WRITE_IN_PROGRESS) &&
             negb write_ok)
         then
           step (SimpleLruWaitIO slotno) ;;;
           (* Now we must recheck state from the top *)
           SimpleLruReadPage_Internal fuel' ctl pageno write_ok xid valid
         else
           step (upd_shared (SlruRecentlyUsed slotno)) ;;;
           ret (Z.of_nat slotno, store_valid valid true)
       else
         step (begin_read slotno pageno) ;;;
         ok <- SlruPhysicalReadPage ctl pageno slotno ;;
         step (upd_shared (SimpleLruZeroLSNs slotno)) ;;;
         step (end_read slotno ok) ;;;
         (* Now it's okay to ereport if we failed *)
         if negb ok && negb valid then SlruReportIOError pageno xid
         else if valid && negb ok then
           step LWLockRelease_ControlLock ;;;
           ret (-1, Some false)
         else
           step (upd_shared (SlruRecentlyUsed slotno)) ;;;
           ret (Z.of_nat slotno, store_valid valid true))%slru
  end.

Definition SimpleLruReadPage (fuel : nat) (ctl : SlruCtlData) (pageno : Z)
    (write_ok : bool) (xid : Z) : M ReadResult :=
  SimpleLruReadPage_Internal fuel ctl pageno write_ok xid false.

(** The scan of the read-only entry point. *)
Fixpoint find_page_readonly (s : SlruSharedData) (pageno : Z)
    (slots : list nat) : option nat :=
  match slots with
  | slotno :: rest =>
      if bool_decide (page_number s !!! slotno = pageno) &&
         bool_decide (page_status s !!! slotno <> SLRU_PAGE_EMPTY) &&
         bool_decide (page_status s !!! slotno <> SLRU_PAGE_READ_IN_PROGRESS)
      then Some slotno
      else find_page_readonly s pageno rest
  | [] => None
  end.

Definition SimpleLruReadPage_ReadOnly (fuel : nat) (ctl : SlruCtlData)
    (pageno : Z) (xid : Z) (valid : bool) : M ReadResult :=
  ((* Try to find the page while holding only shared lock *)
   step (LWLockAcquire_ControlLock LW_SHARED) ;;;
   s <- gets shared ;;
   match find_page_readonly s pageno (all_slots s) with
   | Some slotno =>
       step (upd_shared (SlruRecentlyUsed slotno)) ;;;
       ret (Z.of_nat slotno, store_valid valid true)
   | None =>
       (* No luck, so switch to normal exclusive lock and do regular read *)
       step LWLockRelease_ControlLock ;;;
       step (LWLockAcquire_ControlLock LW_EXCLUSIVE) ;;;
       SimpleLruReadPage_Internal fuel ctl pageno true xid valid
   end)%slru.

(** ** SimpleLruPageExists *)

Fixpoint SimpleLruPageExists (fuel : nat) (ctl : SlruCtlData) (pageno : Z)
    {struct fuel} : M bool :=
  match fuel with
  | O => fun _ => OutOfFuel
  | S fuel' =>
      (slotno <- SlruSelectLRUPage fuel ctl pageno ;;
       w0 <- gets id ;;
       if bool_decide (number_of w0 slotno = pageno) &&
          bool_decide (status_of w0 slotno <> SLRU_PAGE_EMPTY)
       then
         (* If page is still being read in, we must wait for I/O *)
         if bool_decide (status_of w0 slotno = SLRU_PAGE_READ_IN_PROGRESS)
         then
           step (SimpleLruWaitIO slotno) ;;;
           SimpleLruPageExists fuel' ctl pageno
         else ret true
       else
         step (begin_read slotno pageno) ;;;
         ok <- SlruPhysicalReadPage ctl pageno slotno ;;
         step (end_read slotno ok) ;;;
         ret ok)%slru
  end.

(** ** SimpleLruFlush *)

(** The first loop: [SimpleLruWritePage(ctl, slotno, &fdata)] for every
    slot. *)
Fixpoint SimpleLruFlush_write (fuel : nat) (ctl : SlruCtlData)
    (slots : list nat) (fdata : SlruFlushData) : M SlruFlushData :=
  match slots with
  | slotno :: rest =>
      (r <- SimpleLruWritePage fuel ctl slotno (Some fdata) ;;
       SimpleLruFlush_write fuel ctl rest (default fdata r))%slru
  | [] => ret fdata
  end.

(** The locals [ok] and [pageno] of [SimpleLruFlush]. *)
Record FsyncState : Type := mkFsync {
  fsync_ok : bool;
  fsync_pageno : Z
}.

(** The second loop: fsync and close any files that were open. *)
Fixpoint SimpleLruFlush_fsync (ctl : SlruCtlData) (fdata : SlruFlushData)
    (idxs : list nat) (st : FsyncState) (w : World) : FsyncState * World :=
  match idxs with
  | i :: rest =>
      if do_fsync ctl then
        match MirroredFlatFile_Flush (mirroredOpens fdata !!! i) w with
        | (true, w) =>
            let w := save_error SLRU_FSYNC_FAILED w in
            let pageno := int_mul (segno_of fdata !!! i) SLRU_PAGES_PER_SEGMENT in
            SimpleLruFlush_fsync ctl fdata rest (mkFsync false pageno) w
        | (false, w) => SimpleLruFlush_fsync ctl fdata rest st w
        end
      else SimpleLruFlush_fsync ctl fdata rest st w
  | [] => (st, w)
  end.

(** The end of [SimpleLruFlush], from [ok = true] on. *)
Definition SimpleLruFlush_sync (ctl : SlruCtlData) (fdata : SlruFlushData)
    : M unit :=
  fun w =>
    match SimpleLruFlush_fsync ctl fdata (seq 0 (num_files fdata))
            (mkFsync true 0) w with
    | (st, w) =>
        if fsync_ok st then Returned tt w
        else SlruReportIOError (fsync_pageno st) InvalidTransactionId w
    end.

Definition SimpleLruFlush (fuel : nat) (ctl : SlruCtlData) (checkpoint : bool)
    : M unit :=
  (step (LWLockAcquire_ControlLock LW_EXCLUSIVE) ;;;
   s <- gets shared ;;
   fdata <- SimpleLruFlush_write fuel ctl (all_slots s) SlruFlushData_new ;;
   step LWLockRelease_ControlLock ;;;
   SimpleLruFlush_sync ctl fdata)%slru.

(** ** SlruScanDirectory *)

(** The names that [ReadDir] yields for a directory. *)
Definition dir_entries (dir : string) (d : gmap (string * string) (list byte))
    : list string :=
  (fun kv : string * string * list byte => kv.1.2)
    <$> filter (fun kv : string * string * list byte => kv.1.1 = dir)
          (map_to_list d).

(** The start of the segment containing [cutoffPage]:
    [cutoffPage -= cutoffPage % SLRU_PAGES_PER_SEGMENT]. *)
Definition segment_start (cutoffPage : Z) : Z :=
  int_sub cutoffPage (int_mod cutoffPage SLRU_PAGES_PER_SEGMENT).

(** Is the file a segment that ends before the cutoff? *)
Definition removable (ctl : SlruCtlData) (cutoffPage : Z) (d_name : string)
    : bool :=
  isSlruFileName d_name &&
  PagePrecedes ctl (int_mul (strtol16 d_name) SLRU_PAGES_PER_SEGMENT) cutoffPage.

(** The body of the [while ((clde = ReadDir(cldir, dir)) != NULL)] loop. *)
Fixpoint SlruScanDirectory_loop (ctl : SlruCtlData) (cutoffPage : Z)
    (doDeletions : bool) (dir : string) (entries : list string) (found : bool)
    : M bool :=
  match entries with
  | d_name :: rest =>
      if removable ctl cutoffPage d_name then
        if doDeletions then
          if decide (path_length (dir, d_name) > MAXPGPATH)
          then raise (CannotFormPath dir d_name)
          else
            (step (ereport_LOG (LogRemovingFile (dir, d_name))) ;;;
             step (MirroredFlatFile_Drop (Dir ctl) d_name) ;;;
             SlruScanDirectory_loop ctl cutoffPage doDeletions dir rest true)%slru
        else SlruScanDirectory_loop ctl cutoffPage doDeletions dir rest true
      else SlruScanDirectory_loop ctl cutoffPage doDeletions dir rest found
  | [] => ret found
  end.

Definition SlruScanDirectory (ctl : SlruCtlData) (cutoffPage : Z)
    (doDeletions : bool) : M bool :=
  fun w =>
    let cutoffPage := segment_start cutoffPage in
    let dir := TxnDir (Dir ctl) w in
    SlruScanDirectory_loop ctl cutoffPage doDeletions dir
      (dir_entries dir (disk w)) false w.

(** ** SimpleLruTruncate *)

(** The [for] loop over the slots: [inr tt] when it runs to its end, [inl
    slotno] when it stops at a slot that needs I/O before the restart. *)
Fixpoint truncate_scan (ctl : SlruCtlData) (cutoffPage : Z) (slots : list nat)
    (w : World) : (nat + unit) * World :=
  match slots with
  | slotno :: rest =>
      if decide (status_of w slotno = SLRU_PAGE_EMPTY)
      then truncate_scan ctl cutoffPage rest w
      else if negb (PagePrecedes ctl (number_of w slotno) cutoffPage)
      then truncate_scan ctl cutoffPage rest w
      else if bool_decide (status_of w slotno = SLRU_PAGE_VALID) &&
              negb (dirty_of w slotno)
      then
        (* If page is clean, just change state to EMPTY (expected case). *)
        truncate_scan ctl cutoffPage rest (set_status slotno SLRU_PAGE_EMPTY w)
      else (inl slotno, w)
  | [] => (inr tt, w)
  end.

(** From the label [restart] to the end of the slot loop: [false] when the
    truncation is refused, [true] when the loop has run to its end. *)
Fixpoint SimpleLruTruncate_restart (fuel : nat) (ctl : SlruCtlData)
    (cutoffPage : Z) (lockHeld : bool) (w : World) {struct fuel}
    : Outcome bool :=
  match fuel with
  | O => OutOfFuel
  | S fuel' =>
      if PagePrecedes ctl (latest_page_number (shared w)) cutoffPage then
        let w := if lockHeld then w else LWLockRelease_ControlLock w in
        Returned false (ereport_LOG (LogApparentWraparound (Dir ctl)) w)
      else
        match truncate_scan ctl cutoffPage (all_slots (shared w)) w with
        | (inr _, w) => Returned true w
        | (inl slotno, w) =>
            bind
              (if decide (status_of w slotno = SLRU_PAGE_VALID)
               then (SimpleLruWritePage fuel' ctl slotno None ;;; ret tt)%slru
               else step (SimpleLruWaitIO slotno))
              (fun _ => SimpleLruTruncate_restart fuel' ctl cutoffPage lockHeld)
              w
        end
  end.

Definition SimpleLruTruncate_internal (fuel : nat) (ctl : SlruCtlData)
    (cutoffPage : Z) (lockHeld : bool) : M unit :=
  let cutoffPage := segment_start cutoffPage in
  (step (fun w => if lockHeld then w
                  else LWLockAcquire_ControlLock LW_EXCLUSIVE w) ;;;
   completed <- SimpleLruTruncate_restart fuel ctl cutoffPage lockHeld ;;
   if completed then
     step (fun w => if lockHeld then w else LWLockRelease_ControlLock w) ;;;
     (* Now we can remove the old segment(s) *)
     SlruScanDirectory ctl cutoffPage true ;;; ret tt
   else ret tt)%slru.

Definition SimpleLruTruncate (fuel : nat) (ctl : SlruCtlData) (cutoffPage : Z)
    : M unit :=
  SimpleLruTruncate_internal fuel ctl cutoffPage false.

Definition SimpleLruTruncateWithLock (fuel : nat) (ctl : SlruCtlData)
    (cutoffPage : Z) : M unit :=
  SimpleLruTruncate_internal fuel ctl cutoffPage true.

(** * Notions used in the properties *)

(** ** The victim scan of SlruSelectLRUPage *)

(** The delta of a slot as the scan computes it from the counts it finds:
    [cur_count - page_lru_count[slotno]], and zero when that is negative. *)
Definition raw_delta (cur_count : Z) (s : SlruSharedData) (slotno : nat) : Z :=
  int_sub cur_count (page_lru_count s !!! slotno).

Definition slot_delta (cur_count : Z) (s : SlruSharedData) (slotno : nat) : Z :=
  if decide (raw_delta cur_count s slotno < 0) then 0
  else raw_delta cur_count s slotno.

(** The count of a slot after the scan has passed over it. *)
Definition repaired_count (cur_count : Z) (s : SlruSharedData) (slotno : nat)
    : Z :=
  if decide (raw_delta cur_count s slotno < 0) then cur_count
  else page_lru_count s !!! slotno.

Definition repair (cur_count : Z) (slotno : nat) (s : SlruSharedData)
    : SlruSharedData :=
  if decide (raw_delta cur_count s slotno < 0)
  then set_page_lru_count (<[slotno := cur_count]>) s else s.

(** Does a slot with this delta and page take over from [best]? *)
Definition takes_over (ctl : SlruCtlData) (s : SlruSharedData) (delta page : Z)
    (best : BestSlot) : bool :=
  (bool_decide (delta > best_delta best) ||
   (bool_decide (delta = best_delta best) &&
    PagePrecedes ctl page (best_page_number best))) &&
  bool_decide (page <> latest_page_number s).

Definition consider (ctl : SlruCtlData) (cur_count : Z) (s : SlruSharedData)
    (slotno : nat) (best : BestSlot) : BestSlot :=
  if takes_over ctl s (slot_delta cur_count s slotno)
       (page_number s !!! slotno) best
  then mkBest slotno (slot_delta cur_count s slotno) (page_number s !!! slotno)
  else best.

(** ** Concrete pools *)

(** A pool whose pages are ordered by [<], in the directory [pg_clog]. *)
Definition ex_ctl : SlruCtlData := mkCtl true Z.ltb "pg_clog".

(** A backend that holds the control lock, over an empty directory where
    no call fails. *)
Definition ex_world (s : SlruSharedData) : World :=
  mkWorld s (Some LW_EXCLUSIVE) (replicate (num_slots s) None) ∅
    (fun _ _ => None) 0 (fun _ => None) false SLRU_OPEN_FAILED 0 [] [].

(** The world after a run, or the starting one when the run does not
    return. *)
Definition world_after {A} (c : M A) (w : World) : World :=
  match c w with
  | Returned _ w' => w'
  | _ => w
  end.

(** The value a run returns, if it returns. *)
Definition value_after {A} (c : M A) (w : World) : option A :=
  match c w with
  | Returned a _ => Some a
  | _ => None
  end.

(** [SimpleLruZeroPage] for each page of a list in turn. *)
Definition zero_pages (ctl : SlruCtlData) (pages : list Z) (w : World) : World :=
  fold_left (fun w p => world_after (SimpleLruZeroPage 4 ctl p) w) pages w.

(** A pool of one slot after [SimpleLruZeroPage(ctl, 5)]. *)
Definition world_one_slot : World :=
  zero_pages ex_ctl [5] (ex_world (SimpleLruInit 1 0)).

(** A pool of four slots after pages 0, 32, 64 and 96 were created. *)
Definition world_four_slots : World :=
  zero_pages ex_ctl [0; 32; 64; 96] (ex_world (SimpleLruInit 4 0)).

(** Two slots, both VALID and clean; slot 0 holds the latest page 7 and is
    the least recently used. *)
Definition pool_latest_oldest : SlruSharedData :=
  mkShared 2 [zero_page; zero_page] [SLRU_PAGE_VALID; SLRU_PAGE_VALID]
    [false; false] [7; 3] [0; 5] 0 None 10 7.

(** ** What slot I/O leaves alone *)

(** Writing out or waiting for a slot changes statuses and dirty bits
    only: the page numbers, the latest page, the buffers and the sizes of
    the arrays stay, and so do the fault table, the filespace and the
    recovery flag. *)
Definition stable (w w' : World) : Prop :=
  num_slots (shared w') = num_slots (shared w) /\
  page_number (shared w') = page_number (shared w) /\
  latest_page_number (shared w') = latest_page_number (shared w) /\
  page_buffer (shared w') = page_buffer (shared w) /\
  length (page_status (shared w')) = length (page_status (shared w)) /\
  length (page_dirty (shared w')) = length (page_dirty (shared w)) /\
  length (page_lru_count (shared w')) = length (page_lru_count (shared w)) /\
  os_fault w' = os_fault w /\
  txn_filespace w' = txn_filespace w /\
  InRecovery w' = InRecovery w.

(** The I/O a slot still owes before it is free: two steps from
    WRITE_IN_PROGRESS (roll back, then write), one from READ_IN_PROGRESS
    or from a dirty page. *)
Definition slot_weight (st : SlruPageStatus) (d : bool) : nat :=
  match st with
  | SLRU_PAGE_WRITE_IN_PROGRESS => 2
  | SLRU_PAGE_READ_IN_PROGRESS => 1
  | SLRU_PAGE_VALID => if d then 1 else 0
  | SLRU_PAGE_EMPTY => 0
  end.

Definition pending (w : World) : nat :=
  sum_list_with (fun i => slot_weight (status_of w i) (dirty_of w i))
    (all_slots (shared w)).

(** ** SlruPhysicalWritePage and SimpleLruWritePage *)

(** The physical write touches the directory, errno, the saved error and
    the WAL; shared memory and the locks are as before. *)
Definition io_only (w w' : World) : Prop :=
  shared w' = shared w /\
  ControlLock w' = ControlLock w /\
  buffer_locks w' = buffer_locks w /\
  os_fault w' = os_fault w /\
  txn_filespace w' = txn_filespace w /\
  InRecovery w' = InRecovery w /\
  server_log w' = server_log w.

(** The outcome of [SlruSelectLRUPage] when it returns. *)
Definition select_post (pageno : Z) (w : World) (slotno : nat) (w' : World)
    : Prop :=
  stable w w' /\
  (slotno < num_slots (shared w'))%nat /\
  (pending w' <= pending w)%nat /\
  ((number_of w' slotno = pageno /\ status_of w' slotno <> SLRU_PAGE_EMPTY) \/
   status_of w' slotno = SLRU_PAGE_EMPTY \/
   (status_of w' slotno = SLRU_PAGE_VALID /\ dirty_of w' slotno = false)).

(** The outcome when it raises: the write of a dirty victim failed, and
    the victim is VALID and dirty again. *)
Definition select_raise (w : World) (e : PgError) (w' : World) : Prop :=
  stable w w' /\
  ControlLock w' = Some LW_EXCLUSIVE /\
  exists cause en victim,
    e = SlruIOError cause en (number_of w' victim) InvalidTransactionId /\
    (victim < num_slots (shared w'))%nat /\
    status_of w' victim = SLRU_PAGE_VALID /\
    dirty_of w' victim = true.

(** ** SimpleLruZeroPage *)

(** Touching a slot or zeroing its LSNs leaves the slot table alone. *)
Definition same_slots (w w' : World) : Prop :=
  num_slots (shared w') = num_slots (shared w) /\
  page_number (shared w') = page_number (shared w) /\
  page_status (shared w') = page_status (shared w) /\
  page_dirty (shared w') = page_dirty (shared w) /\
  page_buffer (shared w') = page_buffer (shared w) /\
  latest_page_number (shared w') = latest_page_number (shared w) /\
  length (page_lru_count (shared w')) = length (page_lru_count (shared w)).

(** ** SlruPhysicalReadPage: a segment file that cannot be opened *)

(** The pool of [ex_world] during crash recovery. *)
Definition ex_world_in_recovery (s : SlruSharedData) : World :=
  mkWorld s (Some LW_EXCLUSIVE) (replicate (num_slots s) None) ∅
    (fun _ _ => None) 0 (fun _ => None) true SLRU_OPEN_FAILED 0 [] [].

(** ** SimpleLruTruncate: the wraparound refusal *)

(** Four empty slots; the latest page is 16. *)
Definition pool_latest_16 : SlruSharedData :=
  set_latest_page_number 16 (SimpleLruInit 4 0).

(** ** SimpleLruTruncate: the slots *)

(** Worlds that differ in the page statuses only. *)
Definition only_status (w w1 : World) : Prop :=
  exists l, length l = length (page_status (shared w)) /\
            w1 = upd_shared (set_page_status (fun _ => l)) w.

(** ** SimpleLruFlush: the error after the fsync loop *)

(** The errno with which the fsync of the [i]-th open file fails, if it
    does. *)
Definition fsync_failure (ctl : SlruCtlData) (fdata : SlruFlushData)
    (w : World) (i : nat) : option Z :=
  if do_fsync ctl
  then os_fault w OS_FSYNC (mirrored_path (mirroredOpens fdata !!! i))
  else None.

(** The world in which every fsync fails with errno [e]. *)
Definition fsync_fails_with (e : Z) (w : World) : World :=
  mkWorld (shared w) (ControlLock w) (buffer_locks w) (disk w)
    (fun op _ => match op with OS_FSYNC => Some e | _ => None end)
    (errno w) (txn_filespace w) (InRecovery w)
    (slru_errcause w) (slru_errno w) (XLogFlushed w) (server_log w).

(** The error a run raises, if it raises. *)
Definition error_after {A} (c : M A) (w : World) : option PgError :=
  match c w with
  | Raised e _ => Some e
  | _ => None
  end.

(** The files of segments 1 and 2, open after the writes of a flush. *)
Definition two_open_files : SlruFlushData :=
  mkFlush 2
    (<[1%nat := mkMirroredOpen true ("pg_clog", "0002")%string]>
       (<[0%nat := mkMirroredOpen true ("pg_clog", "0001")%string]>
          (mirroredOpens SlruFlushData_new)))
    (<[1%nat := 2]> (<[0%nat := 1]> (segno_of SlruFlushData_new))).

(** ** SimpleLruReadPage_ReadOnly and the control lock *)

(** A backend that holds no lock, over a pool of two empty slots and an
    empty directory, outside recovery. *)
Definition world_no_lock : World :=
  set_ControlLock None (ex_world (SimpleLruInit 2 0)).

(** ** SlruPhysicalReadPage: what it leaves alone *)

(** The physical read fills the buffer of its slot and sets errno, the
    saved error and the log; nothing else. *)
Definition read_only_buffer (slotno : nat) (w w2 : World) : Prop :=
  num_slots (shared w2) = num_slots (shared w) /\
  page_status (shared w2) = page_status (shared w) /\
  page_dirty (shared w2) = page_dirty (shared w) /\
  page_number (shared w2) = page_number (shared w) /\
  page_lru_count (shared w2) = page_lru_count (shared w) /\
  cur_lru_count (shared w2) = cur_lru_count (shared w) /\
  latest_page_number (shared w2) = latest_page_number (shared w) /\
  group_lsn (shared w2) = group_lsn (shared w) /\
  lsn_groups_per_page (shared w2) = lsn_groups_per_page (shared w) /\
  length (page_buffer (shared w2)) = length (page_buffer (shared w)) /\
  (forall j, j <> slotno -> buffer_of w2 j = buffer_of w j) /\
  ControlLock w2 = ControlLock w /\
  buffer_locks w2 = buffer_locks w /\
  disk w2 = disk w /\
  os_fault w2 = os_fault w /\
  txn_filespace w2 = txn_filespace w /\
  InRecovery w2 = InRecovery w.

(** ** Failed I/O: the slot is restored before the error surfaces *)

(** The world in which every write fails with errno [e]. *)
Definition write_fails_with (e : Z) (w : World) : World :=
  mkWorld (shared w) (ControlLock w) (buffer_locks w) (disk w)
    (fun op _ => match op with OS_WRITE => Some e | _ => None end)
    (errno w) (txn_filespace w) (InRecovery w)
    (slru_errcause w) (slru_errno w) (XLogFlushed w) (server_log w).

(** ** Pages in segment files *)

(** Where a page lives: the segment file and the offset in it. *)
Definition page_path (ctl : SlruCtlData) (w : World) (pageno : Z) : Path :=
  (TxnDir (Dir ctl) w,
   SlruSimpleFileName (int_div pageno SLRU_PAGES_PER_SEGMENT)).

Definition page_offset (pageno : Z) : Z :=
  int_mul (int_mod pageno SLRU_PAGES_PER_SEGMENT) BLCKSZ.

(** The page is on disk with contents [b]: its segment file exists and
    holds the [BLCKSZ] bytes [b] at the page's offset. *)
Definition on_disk (ctl : SlruCtlData) (pageno : Z) (b : list byte) (w : World)
    : Prop :=
  0 <= page_offset pageno /\
  length b = Z.to_nat BLCKSZ /\
  exists f, disk w !! page_path ctl w pageno = Some f /\
            take (Z.to_nat BLCKSZ) (drop (Z.to_nat (page_offset pageno)) f) = b.

(** ** A page that reads the same wherever it is *)

(** Slot [i] holds page [p]. *)
Definition holds (p : Z) (w : World) (i : nat) : Prop :=
  status_of w i <> SLRU_PAGE_EMPTY /\ number_of w i = p.

(** A slot that holds page [p] is VALID and clean with [b] in its buffer;
    with [buffered = false] no slot holds the page.  With [stored = true]
    the page is on disk as [b].  The buffers are blocks and the page
    numbers are ints. *)
Definition settled (ctl : SlruCtlData) (p : Z) (b : list byte)
    (buffered stored : bool) (w : World) : Prop :=
  shared_wf (shared w) /\
  (0 < num_slots (shared w))%nat /\
  (forall i, (i < num_slots (shared w))%nat ->
     length (buffer_of w i) = Z.to_nat BLCKSZ /\ in_int (number_of w i)) /\
  (stored = true -> on_disk ctl p b w) /\
  (forall i, (i < num_slots (shared w))%nat -> holds p w i ->
     buffered = true /\ status_of w i = SLRU_PAGE_VALID /\
     dirty_of w i = false /\ buffer_of w i = b).

(** ** Reading a settled page *)

(** The requests that push a page out of the pool: pages other than [p]
    are created, one after the other, each taking a slot. *)
Inductive evict (ctl : SlruCtlData) (p : Z) : World -> World -> Prop :=
  | evict_done w : evict ctl p w w
  | evict_zero w q fuel slotno w1 w2 :
      q <> p -> in_int q ->
      SimpleLruZeroPage fuel ctl q w = Returned slotno w1 ->
      evict ctl p w1 w2 ->
      evict ctl p w w2.

(** ** The round trip of a new page *)

(** A pool of blocks: the arrays have one cell per slot, every buffer is
    a block and every page number is an int. *)
Definition block_pool (w : World) : Prop :=
  shared_wf (shared w) /\
  (0 < num_slots (shared w))%nat /\
  (forall i, (i < num_slots (shared w))%nat ->
     length (buffer_of w i) = Z.to_nat BLCKSZ /\ in_int (number_of w i)).

(** At most one slot holds page [p]. *)
Definition one_holder (p : Z) (w : World) : Prop :=
  forall i j, (i < num_slots (shared w))%nat -> (j < num_slots (shared w))%nat ->
    holds p w i -> holds p w j -> i = j.

(** A pool of two slots, fresh from [SimpleLruInit]. *)
Definition world_two_slots : World := ex_world (SimpleLruInit 2 0).

(** Page 5 created in it and written out. *)
Definition world_page5_written : World :=
  world_after (SimpleLruWritePage 4 ex_ctl 0 None)
    (world_after (SimpleLruZeroPage 4 ex_ctl 5) world_two_slots).

(** Then page 6 takes the other slot. *)
Definition world_page6_created : World :=
  world_after (SimpleLruZeroPage 4 ex_ctl 6) world_page5_written.

(** Then page 7 takes the slot of page 5. *)
Definition world_page5_evicted : World :=
  world_after (SimpleLruZeroPage 4 ex_ctl 7) world_page6_created.

Global Instance byte_eq_dec : EqDecision byte := Byte.byte_eq_dec.

(** [on_disk] as a test. *)
Definition on_disk_b (ctl : SlruCtlData) (pageno : Z) (b : list byte)
    (w : World) : bool :=
  bool_decide (0 <= page_offset pageno) &&
  bool_decide (length b = Z.to_nat BLCKSZ) &&
  match disk w !! page_path ctl w pageno with
  | Some f =>
      bool_decide
        (take (Z.to_nat BLCKSZ) (drop (Z.to_nat (page_offset pageno)) f) = b)
  | None => false
  end.

(** The table of open files of a flush is within its arrays. *)
Definition flush_wf (fd : SlruFlushData) : Prop :=
  (num_files fd <= MAX_FLUSH_BUFFERS)%nat /\
  length (mirroredOpens fd) = MAX_FLUSH_BUFFERS /\
  length (segno_of fd) = MAX_FLUSH_BUFFERS.

(** ** SimpleLruFlush *)

(** What the Assert in the loop of [SimpleLruFlush] states of a slot:
    EMPTY, or VALID and clean. *)
Definition flushed (w : World) (slotno : nat) : Prop :=
  status_of w slotno = SLRU_PAGE_EMPTY \/
  (status_of w slotno = SLRU_PAGE_VALID /\ dirty_of w slotno = false).

(** The slots that [SimpleLruWritePage] writes out: a dirty VALID page, or
    a page whose write is still marked in progress. *)
Definition needs_write (w : World) (slotno : nat) : Prop :=
  status_of w slotno = SLRU_PAGE_WRITE_IN_PROGRESS \/
  (status_of w slotno = SLRU_PAGE_VALID /\ dirty_of w slotno = true).

(** No page is held by two slots. *)
Definition distinct_pages (w : World) : Prop :=
  forall i j, (i < num_slots (shared w))%nat -> (j < num_slots (shared w))%nat ->
    status_of w i <> SLRU_PAGE_EMPTY -> status_of w j <> SLRU_PAGE_EMPTY ->
    number_of w i = number_of w j -> i = j.

(** The files a flush holds open: the first [num_files] handles are
    active, each on the segment file of its [segno]. *)
Definition flush_open (ctl : SlruCtlData) (w : World) (fd : SlruFlushData)
    : Prop :=
  flush_wf fd /\
  forall i, (i < num_files fd)%nat ->
    isActive (mirroredOpens fd !!! i) = true /\
    mirrored_path (mirroredOpens fd !!! i)
    = (TxnDir (Dir ctl) w, SlruSimpleFileName (segno_of fd !!! i)).

(** What a physical write of [b] as page [pageno] does to the directory:
    nothing, or the segment file is created empty, or [b] is written at
    the page's offset (into the file, created if need be). *)
Definition write_effect (ctl : SlruCtlData) (pageno : Z) (b : list byte)
    (w : World) (ok : bool) (w' : World) : Prop :=
  let path := page_path ctl w pageno in
  (ok = false /\
   (disk w' = disk w \/
    (disk w !! path = None /\ disk w' = <[path := []]> (disk w)))) \/
  (0 <= page_offset pageno /\
   disk w' = <[path := write_at (Z.to_nat (page_offset pageno)) b
                         (default [] (disk w !! path))]> (disk w)).

(** A pool whose pages are ordered the way transaction ids are, by the
    sign of the wrap-around difference [(int32) (a - b) < 0]. *)
Definition cyclic_ctl : SlruCtlData :=
  mkCtl true (fun a b => bool_decide (int_sub a b < 0)) "pg_clog".

(** Three VALID, clean slots with the same count, holding pages that the
    cyclic order arranges in a circle: each precedes the one before it. *)
Definition pool_cyclic_tie : SlruSharedData :=
  mkShared 3 [zero_page; zero_page; zero_page]
    [SLRU_PAGE_VALID; SLRU_PAGE_VALID; SLRU_PAGE_VALID]
    [false; false; false] [0; -1431655765; 1431655766] [4; 4; 4] 0 None 10 7.

(** A pool of two slots under the cyclic order: page 2097120, the first of
    segment FFFF, was created and written out, then page 16 was created
    and is the latest page. *)
Definition world_latest_16 : World :=
  world_after (SimpleLruZeroPage 4 cyclic_ctl 16)
    (world_after (SimpleLruWritePage 4 cyclic_ctl 0 None)
       (world_after (SimpleLruZeroPage 4 cyclic_ctl 2097120)
          (ex_world (SimpleLruInit 2 0)))).

(** A pool of two slots: page 2097152, the first of segment 10000, was
    created and written out, then page 2097216 was created. *)
Definition world_long_segment : World :=
  world_after (SimpleLruZeroPage 4 ex_ctl 2097216)
    (world_after (SimpleLruWritePage 4 ex_ctl 0 None)
       (world_after (SimpleLruZeroPage 4 ex_ctl 2097152)
          (ex_world (SimpleLruInit 2 0)))).

(** * Properties *)

(** ** Segment file names *)

Example SlruSimpleFileName_5 : SlruSimpleFileName 5 = "0005"%string.
Proof. reflexivity. Qed.

Example SlruSimpleFileName_big : SlruSimpleFileName 74565 = "12345"%string.
Proof. reflexivity. Qed.

Example strtol16_00AF : strtol16 "00AF" = 175.
Proof. reflexivity. Qed.

Example isSlruFileName_examples :
  isSlruFileName "00AF" = true /\ isSlruFileName "00af" = false /\
  isSlruFileName "00AF0" = false /\ isSlruFileName "0A" = false.
Proof. repeat split; vm_compute; reflexivity. Qed.

(** ** Arithmetic *)

Lemma int32_range z : in_int (int32 z).
Proof.
  unfold in_int, int32.
  pose proof (Z.mod_pos_bound (z + 2147483648) 4294967296). lia.
Qed.

Lemma int32_id z : in_int z -> int32 z = z.
Proof.
  unfold in_int, int32. intros H.
  rewrite Z.mod_small; lia.
Qed.

(** For a page number that is not negative, [segment_start] rounds down to
    a multiple of the segment size. *)
Lemma segment_start_floor p :
  0 <= p -> in_int p ->
  segment_start p = SLRU_PAGES_PER_SEGMENT * (p / SLRU_PAGES_PER_SEGMENT).
Proof.
  intros Hp Hr. unfold segment_start, int_sub, int_mod, SLRU_PAGES_PER_SEGMENT.
  rewrite Z.rem_mod_nonneg by lia.
  pose proof (Z.mod_pos_bound p 32). pose proof (Z.div_mod p 32).
  rewrite int32_id; [lia|]. unfold in_int in *. lia.
Qed.

(** In general [segment_start] rounds toward zero, as C's [%] does: up,
    for a negative page number. *)
Lemma segment_start_toward_zero p :
  in_int p ->
  segment_start p = SLRU_PAGES_PER_SEGMENT * (p ÷ SLRU_PAGES_PER_SEGMENT).
Proof.
  intros Hr. unfold segment_start, int_sub, int_mod, SLRU_PAGES_PER_SEGMENT.
  pose proof (Z.quot_rem' p 32) as Hqr.
  unfold in_int in Hr.
  destruct (Z.le_gt_cases 0 p) as [Hp|Hp].
  - assert (H32 : 0 < 32) by lia.
    pose proof (Z.rem_bound_pos p 32 Hp H32).
    rewrite int32_id; [lia|]. unfold in_int. lia.
  - assert (Hn : 0 <= - p) by lia. assert (H32 : 0 < 32) by lia.
    pose proof (Z.rem_bound_pos (- p) 32 Hn H32) as Hb.
    rewrite Z.rem_opp_l in Hb by lia.
    rewrite int32_id; [lia|]. unfold in_int. lia.
Qed.

(** ** Frame facts for the setters *)

Lemma status_of_set_status w i j st :
  status_of (set_status i st w) j =
    if decide (i = j /\ (i < length (page_status (shared w)))%nat)
    then st else status_of w j.
Proof.
  unfold status_of, set_status. cbn.
  case_decide as H.
  - destruct H as [-> H]. by apply list_lookup_total_insert_eq.
  - destruct (decide (i = j)) as [->|Hne].
    + rewrite list_insert_ge; [done|]. lia.
    + by apply list_lookup_total_insert_ne.
Qed.

Lemma status_of_set_status_eq w i st :
  (i < length (page_status (shared w)))%nat ->
  status_of (set_status i st w) i = st.
Proof. intros. rewrite status_of_set_status. by rewrite decide_True. Qed.

Lemma status_of_set_status_ne w i j st :
  i <> j -> status_of (set_status i st w) j = status_of w j.
Proof.
  intros. rewrite status_of_set_status. rewrite decide_False; [done|]. tauto.
Qed.

Lemma dirty_of_set_dirty_eq w i d :
  (i < length (page_dirty (shared w)))%nat ->
  dirty_of (set_dirty i d w) i = d.
Proof. intros. unfold dirty_of, set_dirty. cbn. by apply list_lookup_total_insert_eq. Qed.

Lemma dirty_of_set_dirty_ne w i j d :
  i <> j -> dirty_of (set_dirty i d w) j = dirty_of w j.
Proof. intros. unfold dirty_of, set_dirty. cbn. by apply list_lookup_total_insert_ne. Qed.

Lemma number_of_set_number_eq w i p :
  (i < length (page_number (shared w)))%nat ->
  number_of (set_number i p w) i = p.
Proof. intros. unfold number_of, set_number. cbn. by apply list_lookup_total_insert_eq. Qed.

Lemma buffer_of_set_buffer_eq w i b :
  (i < length (page_buffer (shared w)))%nat ->
  buffer_of (set_buffer i b w) i = b.
Proof. intros. unfold buffer_of, set_buffer. cbn. by apply list_lookup_total_insert_eq. Qed.

(** ** The victim scan of SlruSelectLRUPage *)

Lemma slot_delta_nonneg cur s i : 0 <= slot_delta cur s i.
Proof. unfold slot_delta. case_decide; lia. Qed.

Section victim_scan.

Context (ctl : SlruCtlData) (cur : Z).

Lemma victim_scan_cons slotno rest best s :
  victim_scan ctl cur (slotno :: rest) best s =
    if decide (page_status s !!! slotno = SLRU_PAGE_EMPTY) then (inl slotno, s)
    else victim_scan ctl cur rest (consider ctl cur s slotno best)
           (repair cur slotno s).
Proof.
  cbn [victim_scan]. case_decide; [done|].
  unfold consider, repair, takes_over, slot_delta, raw_delta.
  destruct (decide (int_sub cur (page_lru_count s !!! slotno) < 0)); done.
Qed.

Lemma repair_frame slotno s :
  num_slots (repair cur slotno s) = num_slots s /\
  page_status (repair cur slotno s) = page_status s /\
  page_dirty (repair cur slotno s) = page_dirty s /\
  page_number (repair cur slotno s) = page_number s /\
  page_buffer (repair cur slotno s) = page_buffer s /\
  group_lsn (repair cur slotno s) = group_lsn s /\
  lsn_groups_per_page (repair cur slotno s) = lsn_groups_per_page s /\
  cur_lru_count (repair cur slotno s) = cur_lru_count s /\
  latest_page_number (repair cur slotno s) = latest_page_number s /\
  length (page_lru_count (repair cur slotno s)) = length (page_lru_count s).
Proof.
  unfold repair. case_decide; cbn; rewrite ?length_insert; done.
Qed.

Lemma repair_count_ne slotno j s :
  slotno <> j ->
  page_lru_count (repair cur slotno s) !!! j = page_lru_count s !!! j.
Proof.
  intros. unfold repair. case_decide; cbn; [|done].
  by apply list_lookup_total_insert_ne.
Qed.

Lemma repair_count_eq slotno s :
  (slotno < length (page_lru_count s))%nat ->
  page_lru_count (repair cur slotno s) !!! slotno = repaired_count cur s slotno.
Proof.
  intros. unfold repair, repaired_count. case_decide; cbn; [|done].
  by apply list_lookup_total_insert_eq.
Qed.

Lemma slot_delta_repair_ne slotno j s :
  slotno <> j -> slot_delta cur (repair cur slotno s) j = slot_delta cur s j.
Proof.
  intros. unfold slot_delta, raw_delta. by rewrite repair_count_ne.
Qed.

(** The scan changes nothing but the counts it repairs. *)
Lemma victim_scan_frame slots best s r s' :
  victim_scan ctl cur slots best s = (r, s') ->
  num_slots s' = num_slots s /\
  page_status s' = page_status s /\
  page_dirty s' = page_dirty s /\
  page_number s' = page_number s /\
  page_buffer s' = page_buffer s /\
  group_lsn s' = group_lsn s /\
  lsn_groups_per_page s' = lsn_groups_per_page s /\
  cur_lru_count s' = cur_lru_count s /\
  latest_page_number s' = latest_page_number s /\
  length (page_lru_count s') = length (page_lru_count s).
Proof.
  revert best s. induction slots as [|k rest IH]; intros best s H.
  - cbn in H. by inversion H.
  - rewrite victim_scan_cons in H. case_decide.
    + by inversion H.
    + apply IH in H. pose proof (repair_frame k s) as F.
      destruct H as (?&?&?&?&?&?&?&?&?&?), F as (?&?&?&?&?&?&?&?&?&?).
      repeat split; congruence.
Qed.

(** An EMPTY slot is returned at once: the scan stops at the first one. *)
Lemma victim_scan_inl slots best s i s' :
  victim_scan ctl cur slots best s = (inl i, s') ->
  page_status s !!! i = SLRU_PAGE_EMPTY /\
  exists before after,
    slots = before ++ i :: after /\
    forall j, j ∈ before -> page_status s !!! j <> SLRU_PAGE_EMPTY.
Proof.
  revert best s. induction slots as [|k rest IH]; intros best s H.
  - cbn in H. by inversion H.
  - rewrite victim_scan_cons in H. case_decide as Hk.
    + inversion H; subst. split; [done|]. exists [], rest.
      split; [done|]. intros j Hj. by apply elem_of_nil in Hj.
    + apply IH in H as [He (before & after & -> & Hb)].
      destruct (repair_frame k s) as (_ & Hst & _). rewrite Hst in He, Hb.
      split; [done|]. exists (k :: before), after. split; [done|].
      intros j Hj. apply elem_of_cons in Hj as [->|Hj]; auto.
Qed.

Lemma victim_scan_some_empty slots best s i :
  i ∈ slots -> page_status s !!! i = SLRU_PAGE_EMPTY ->
  exists j s', victim_scan ctl cur slots best s = (inl j, s').
Proof.
  revert best s. induction slots as [|k rest IH]; intros best s Hi He.
  - by apply elem_of_nil in Hi.
  - rewrite victim_scan_cons. case_decide as Hk; [eauto|].
    apply elem_of_cons in Hi as [->|Hi]; [done|].
    apply IH; [done|]. destruct (repair_frame k s) as (_ & -> & _). done.
Qed.

Lemma victim_scan_inr_no_empty slots best s best' s' :
  victim_scan ctl cur slots best s = (inr best', s') ->
  forall j, j ∈ slots -> page_status s !!! j <> SLRU_PAGE_EMPTY.
Proof.
  intros H j Hj He.
  destruct (victim_scan_some_empty slots best s j Hj He) as (i & s2 & H2).
  congruence.
Qed.

End victim_scan.

Section victim_choice.

Context (ctl : SlruCtlData) (cur : Z).

Lemma takes_over_true s delta page best :
  takes_over ctl s delta page best = true ->
  (delta > best_delta best \/
   (delta = best_delta best /\
    PagePrecedes ctl page (best_page_number best) = true)) /\
  page <> latest_page_number s.
Proof.
  unfold takes_over. intros H.
  apply andb_true_iff in H as [H1 H2].
  apply bool_decide_eq_true in H2. split; [|done].
  apply orb_true_iff in H1 as [H1|H1].
  - apply bool_decide_eq_true in H1. by left.
  - apply andb_true_iff in H1 as [H1 H3].
    apply bool_decide_eq_true in H1. by right.
Qed.

Lemma takes_over_false s delta page best :
  takes_over ctl s delta page best = false ->
  page = latest_page_number s \/
  (delta <= best_delta best /\
   (delta = best_delta best ->
    PagePrecedes ctl page (best_page_number best) = false)).
Proof.
  unfold takes_over. intros H.
  apply andb_false_iff in H as [H|H].
  - right. apply orb_false_iff in H as [H1 H2].
    apply bool_decide_eq_false in H1. split; [lia|]. intros ->.
    apply andb_false_iff in H2 as [H2|H2]; [|done].
    apply bool_decide_eq_false in H2. done.
  - left. apply bool_decide_eq_false in H.
    destruct (decide (page = latest_page_number s)); tauto.
Qed.

(** How the locals stand when the scan has run to its end, from any
    starting values. *)
Lemma victim_scan_best slots best s best' s' :
  NoDup slots ->
  victim_scan ctl cur slots best s = (inr best', s') ->
  best_delta best <= best_delta best' /\
  (best' = best \/
   exists k, k ∈ slots /\
     best' = mkBest k (slot_delta cur s k) (page_number s !!! k) /\
     page_number s !!! k <> latest_page_number s) /\
  (forall j, j ∈ slots ->
     page_number s !!! j <> latest_page_number s ->
     slot_delta cur s j <= best_delta best').
Proof.
  revert best s. induction slots as [|k rest IH]; intros best s Hnd H.
  - cbn in H. inversion H; subst. split; [lia|]. split; [by left|].
    intros j Hj. by apply elem_of_nil in Hj.
  - rewrite victim_scan_cons in H. case_decide as Hk; [done|].
    apply NoDup_cons in Hnd as [Hk' Hnd].
    apply IH in H as (Hmono & Horigin & Hmax); [|done].
    destruct (repair_frame cur k s) as (_ & _ & _ & Hnum & _ & _ & _ & _ & Hlat & _).
    rewrite Hnum, Hlat in *.
    assert (Hrest : forall j, j ∈ rest ->
              slot_delta cur (repair cur k s) j = slot_delta cur s j).
    { intros j Hj. apply slot_delta_repair_ne. intros ->. done. }
    unfold consider in *.
    destruct (takes_over ctl s (slot_delta cur s k) (page_number s !!! k) best)
      eqn:Hto.
    + apply takes_over_true in Hto as [Hbeat Hne]. cbn in Hmono.
      split; [lia|]. split.
      * right. destruct Horigin as [->|(k' & Hk'in & -> & Hk'ne)].
        -- exists k. split; [by left|]. done.
        -- exists k'. split; [by right|]. by rewrite <- Hrest.
      * intros j Hj Hjne. apply elem_of_cons in Hj as [->|Hj]; [lia|].
        rewrite <- Hrest by done. auto.
    + apply takes_over_false in Hto.
      split; [done|]. split.
      * destruct Horigin as [->|(k' & Hk'in & -> & Hk'ne)]; [by left|].
        right. exists k'. split; [by right|]. by rewrite <- Hrest.
      * intros j Hj Hjne. apply elem_of_cons in Hj as [->|Hj].
        -- destruct Hto as [?|[? _]]; [done|lia].
        -- rewrite <- Hrest by done. auto.
Qed.

Context (precedes_irrefl : forall a, PagePrecedes ctl a a = false).

Context (precedes_trans : forall a b c,
            PagePrecedes ctl a b = true -> PagePrecedes ctl b c = true ->
            PagePrecedes ctl a c = true).

(** With the delta unchanged, the page of the final best is the starting
    one or precedes it. *)
Lemma victim_scan_chain slots best s best' s' :
  NoDup slots ->
  victim_scan ctl cur slots best s = (inr best', s') ->
  best_delta best' = best_delta best ->
  best_page_number best' = best_page_number best \/
  PagePrecedes ctl (best_page_number best') (best_page_number best) = true.
Proof.
  revert best s. induction slots as [|k rest IH]; intros best s Hnd H Heq.
  - cbn in H. inversion H; subst. by left.
  - rewrite victim_scan_cons in H. case_decide as Hk; [done|].
    apply NoDup_cons in Hnd as [Hk' Hnd].
    pose proof (victim_scan_best _ _ _ _ _ Hnd H) as (Hmono & _ & _).
    specialize (IH _ _ Hnd H).
    unfold consider in *.
    destruct (takes_over ctl s (slot_delta cur s k) (page_number s !!! k) best)
      eqn:Hto; [|auto].
    apply takes_over_true in Hto as [Hbeat Hne]. cbn in *.
    destruct Hbeat as [?|[Hd Hp]]; [lia|].
    destruct IH as [->| IH]; [lia| |]; [by right|].
    right. eapply precedes_trans; eauto.
Qed.

(** No slot that ties with the winner holds a page that precedes the
    winner's page. *)
Lemma victim_scan_tie slots best s best' s' :
  NoDup slots ->
  victim_scan ctl cur slots best s = (inr best', s') ->
  forall j, j ∈ slots ->
    page_number s !!! j <> latest_page_number s ->
    slot_delta cur s j = best_delta best' ->
    PagePrecedes ctl (page_number s !!! j) (best_page_number best') = false.
Proof.
  revert best s. induction slots as [|k rest IH]; intros best s Hnd H j Hj Hne Hd.
  - by apply elem_of_nil in Hj.
  - rewrite victim_scan_cons in H. case_decide as Hk; [done|].
    apply NoDup_cons in Hnd as [Hk' Hnd].
    destruct (repair_frame cur k s) as (_ & _ & _ & Hnum & _ & _ & _ & _ & Hlat & _).
    pose proof (victim_scan_best _ _ _ _ _ Hnd H) as (Hmono & _ & _).
    pose proof (victim_scan_chain _ _ _ _ _ Hnd H) as Hchain.
    apply elem_of_cons in Hj as [->|Hj].
    + unfold consider in *.
      destruct (takes_over ctl s (slot_delta cur s k) (page_number s !!! k) best)
        eqn:Hto.
      * cbn in Hchain, Hmono.
        destruct Hchain as [->|Hc]; [lia|by apply precedes_irrefl|].
        destruct (PagePrecedes ctl (page_number s !!! k) (best_page_number best'))
          eqn:Hp; [|done].
        pose proof (precedes_trans _ _ _ Hp Hc) as Hkk.
        by rewrite precedes_irrefl in Hkk.
      * apply takes_over_false in Hto as [?|[Hle Htie]]; [done|].
        assert (slot_delta cur s k = best_delta best) as Heq by lia.
        specialize (Htie Heq).
        destruct Hchain as [Hc|Hc]; [lia|by rewrite Hc|].
        destruct (PagePrecedes ctl (page_number s !!! k) (best_page_number best'))
          eqn:Hp; [|done].
        pose proof (precedes_trans _ _ _ Hp Hc) as Hkk. congruence.
    + specialize (IH _ _ Hnd H j Hj). rewrite Hnum, Hlat in IH.
      rewrite slot_delta_repair_ne in IH by (intros ->; done). auto.
Qed.

End victim_choice.

Section victim_pass.

Context (ctl : SlruCtlData) (cur : Z).

(** After a scan that ran to its end, every slot it passed over has its
    count repaired; the other counts are as they were. *)
Lemma victim_scan_counts slots best s best' s' :
  NoDup slots ->
  (forall j, j ∈ slots -> (j < length (page_lru_count s))%nat) ->
  victim_scan ctl cur slots best s = (inr best', s') ->
  forall j, page_lru_count s' !!! j =
    if decide (j ∈ slots) then repaired_count cur s j
    else page_lru_count s !!! j.
Proof.
  revert best s. induction slots as [|k rest IH]; intros best s Hnd Hlen H j.
  - cbn in H. inversion H; subst. rewrite decide_False; [done|].
    apply not_elem_of_nil.
  - rewrite victim_scan_cons in H. case_decide as Hk; [done|].
    apply NoDup_cons in Hnd as [Hk' Hnd].
    destruct (repair_frame cur k s) as (_ & _ & _ & _ & _ & _ & _ & _ & _ & Hl).
    assert (Hlen' : forall i, i ∈ rest ->
              (i < length (page_lru_count (repair cur k s)))%nat).
    { intros i Hi. rewrite Hl. apply Hlen. by right. }
    rewrite (IH _ _ Hnd Hlen' H j).
    destruct (decide (j = k)) as [->|Hjk].
    + rewrite decide_False by done. rewrite decide_True by by left.
      apply repair_count_eq. apply Hlen. by left.
    + destruct (decide (j ∈ rest)) as [Hj|Hj].
      * rewrite decide_True by by right.
        unfold repaired_count, raw_delta. by rewrite repair_count_ne.
      * rewrite decide_False by (intros [?|?]%elem_of_cons; done).
        by rewrite repair_count_ne.
Qed.

Lemma seq_split_at n before i after :
  seq 0 n = before ++ i :: after -> before = seq 0 i /\ (i < n)%nat.
Proof.
  intros H.
  assert (Hi : seq 0 n !! length before = Some i).
  { rewrite H. by apply list_lookup_middle. }
  apply lookup_seq in Hi as [Hi Hlt]. cbn in Hi.
  split; [|lia].
  rewrite <- (take_app_length before (i :: after)), <- H, take_seq.
  f_equal. lia.
Qed.

End victim_pass.

Section victim_later.

Context (ctl : SlruCtlData) (cur : Z).

(** When the winner is none of the slots passed over, none of them took
    over: the locals are as at the start, and no slot that ties with them
    holds a page that precedes the best page. *)
Lemma victim_scan_untouched slots best s best' s' :
  victim_scan ctl cur slots best s = (inr best', s') ->
  bestslot best' ∉ slots ->
  best' = best /\
  forall j, j ∈ slots ->
    page_number s !!! j <> latest_page_number s ->
    slot_delta cur s j = best_delta best ->
    PagePrecedes ctl (page_number s !!! j) (best_page_number best) = false.
Proof.
  revert best s. induction slots as [|k rest IH]; intros best s H Hout.
  - cbn in H. inversion H; subst. split; [done|].
    intros j Hj. by apply elem_of_nil in Hj.
  - rewrite victim_scan_cons in H. case_decide as Hk; [done|].
    apply not_elem_of_cons in Hout as [Hne Hout].
    destruct (IH _ _ H Hout) as [Hbest Htie].
    destruct (repair_frame cur k s) as (_ & _ & _ & Hnum & _ & _ & _ & _ & Hlat & _).
    rewrite Hnum, Hlat in Htie.
    unfold consider in *.
    destruct (takes_over ctl s (slot_delta cur s k) (page_number s !!! k) best)
      eqn:Hto.
    { exfalso. apply Hne. by rewrite Hbest. }
    split; [done|].
    intros j Hj Hjne Hd. apply elem_of_cons in Hj as [->|Hj].
    + apply takes_over_false in Hto as [?|[_ Hp]]; [done|]. by apply Hp.
    + destruct (decide (k = j)) as [->|Hkj].
      * apply takes_over_false in Hto as [?|[_ Hp]]; [done|]. by apply Hp.
      * apply Htie; [done|done|]. by rewrite slot_delta_repair_ne.
Qed.

(** No slot that is scanned after the winner and ties with it holds a page
    that precedes the winner's page, whatever the page order. *)
Lemma victim_scan_tie_later before :
  forall k after best s best' s',
    NoDup (before ++ k :: after) ->
    victim_scan ctl cur (before ++ k :: after) best s = (inr best', s') ->
    bestslot best' = k ->
    forall j, j ∈ after ->
      page_number s !!! j <> latest_page_number s ->
      slot_delta cur s j = best_delta best' ->
      PagePrecedes ctl (page_number s !!! j) (best_page_number best') = false.
Proof.
  induction before as [|b before IH]; intros k after best s best' s' Hnd H Hk.
  - cbn [app] in *. rewrite victim_scan_cons in H. case_decide as He; [done|].
    apply NoDup_cons in Hnd as [Hkout _].
    destruct (victim_scan_untouched _ _ _ _ _ H) as [Hbest Htie];
      [by rewrite Hk|].
    destruct (repair_frame cur k s) as (_ & _ & _ & Hnum & _ & _ & _ & _ & Hlat & _).
    rewrite Hnum, Hlat in Htie.
    intros j Hj Hjne Hd. rewrite Hbest. apply Htie; [done|done|].
    rewrite slot_delta_repair_ne by (intros ->; done). by rewrite <- Hbest.
  - cbn [app] in *. rewrite victim_scan_cons in H. case_decide as He; [done|].
    apply NoDup_cons in Hnd as [Hbout Hnd].
    destruct (repair_frame cur b s) as (_ & _ & _ & Hnum & _ & _ & _ & _ & Hlat & _).
    intros j Hj Hjne Hd.
    pose proof (IH _ _ _ _ _ _ Hnd H Hk j Hj) as Hres.
    rewrite Hnum, Hlat in Hres. apply Hres; [done|].
    rewrite slot_delta_repair_ne; [done|].
    intros ->. apply Hbout. apply elem_of_app. right. by apply elem_of_cons; right.
Qed.

Lemma victim_scan_app l1 l2 best s best' s' :
  victim_scan ctl cur (l1 ++ l2) best s = (inr best', s') ->
  exists bm sm,
    victim_scan ctl cur l1 best s = (inr bm, sm) /\
    victim_scan ctl cur l2 bm sm = (inr best', s').
Proof.
  revert best s. induction l1 as [|k l1 IH]; intros best s H.
  - by exists best, s.
  - cbn [app] in H. rewrite victim_scan_cons in H |- *.
    case_decide; [done|]. by apply IH.
Qed.

(** A winner that ties with a slot scanned before it displaced one: its
    page precedes the page of a slot scanned before it that ties with it,
    whatever the page order. *)
Lemma victim_scan_displaces k n s best' s' :
  (k < n)%nat -> (n <= length (page_lru_count s))%nat ->
  victim_scan ctl cur (seq 0 n) BestSlot_init s = (inr best', s') ->
  best' = mkBest k (slot_delta cur s k) (page_number s !!! k) ->
  forall j, (j < k)%nat ->
    page_number s !!! j <> latest_page_number s ->
    slot_delta cur s j = slot_delta cur s k ->
    exists b, (b < k)%nat /\
      page_number s !!! b <> latest_page_number s /\
      slot_delta cur s b = slot_delta cur s k /\
      PagePrecedes ctl (page_number s !!! k) (page_number s !!! b) = true.
Proof.
  intros Hk Hlen Hscan Hbest j Hj Hjne Hd.
  assert (Hsplit : seq 0 n = seq 0 k ++ k :: seq (S k) (n - S k)).
  { replace n with (k + S (n - S k))%nat at 1 by lia. by rewrite seq_app. }
  pose proof (NoDup_seq 0 n) as Hnd.
  rewrite Hsplit in Hscan, Hnd.
  apply NoDup_app in Hnd as (_ & _ & Hnd). apply NoDup_cons in Hnd as [Hkout _].
  apply victim_scan_app in Hscan as (bm & sm & H1 & H2).
  pose proof (victim_scan_best ctl cur _ _ _ _ _ (NoDup_seq 0 k) H1)
    as (_ & Horigin & Hmax).
  pose proof (victim_scan_frame ctl cur _ _ _ _ _ H1)
    as (_ & _ & _ & Hnum & _ & _ & _ & _ & Hlat & _).
  assert (Hdk : slot_delta cur sm k = slot_delta cur s k).
  { assert (Hin : forall i, i ∈ seq 0 k ->
              (i < length (page_lru_count s))%nat).
    { intros i Hi. apply elem_of_seq in Hi. lia. }
    assert (Hc : page_lru_count sm !!! k = page_lru_count s !!! k).
    { rewrite (victim_scan_counts ctl cur _ _ _ _ _ (NoDup_seq 0 k) Hin H1 k).
      case_decide as Hkin; [|done]. apply elem_of_seq in Hkin. lia. }
    unfold slot_delta, raw_delta. by rewrite Hc. }
  assert (Hjmax : slot_delta cur s k <= best_delta bm).
  { rewrite <- Hd. apply Hmax; [apply elem_of_seq; lia|done]. }
  pose proof (slot_delta_nonneg cur s k) as Hnn.
  rewrite victim_scan_cons in H2. case_decide; [done|].
  unfold consider in H2. rewrite Hdk, Hnum in H2.
  destruct (takes_over ctl sm (slot_delta cur s k) (page_number s !!! k) bm)
    eqn:Hto.
  - apply takes_over_true in Hto as [[Hgt|[Heq Hp]] _]; [lia|].
    destruct Horigin as [->|(b & Hb & -> & Hbne)]; [cbn in Heq; lia|].
    cbn in Heq, Hp. apply elem_of_seq in Hb. exists b. repeat split; [lia|done..].
  - apply victim_scan_untouched in H2 as [Hsame _]; [|by rewrite Hbest].
    exfalso. destruct Horigin as [->|(b & Hb & -> & Hbne)].
    + rewrite Hbest in Hsame. cbn in Hjmax. lia.
    + rewrite Hbest in Hsame. inversion Hsame; subst.
      apply elem_of_seq in Hb. lia.
Qed.

End victim_later.

(** C6, as amended.  In the victim-selection pass of SlruSelectLRUPage,
    whatever the page order: the first slot with status EMPTY is returned
    at once; when no slot is EMPTY the pass runs to its end, each slot's
    delta is [cur_count - page_lru_count[i]] in wrap-around signed
    arithmetic, a negative delta is repaired in place by storing
    [cur_count] in [page_lru_count[i]] and counts as 0, and among the
    slots whose page is not [latest_page_number] the winner has the
    largest delta.  Ties are broken pairwise, in scan order: of the slots
    that tie with the winner, none that is scanned after it holds a page
    that precedes the winner's page, and if one is scanned before it, the
    winner's page precedes the page of such a one.  When the page order is
    irreflexive and transitive, no slot at all that ties with the winner
    holds a page that precedes the winner's page. *)
Theorem victim_scan_selection (ctl : SlruCtlData) (cur : Z) (s : SlruSharedData) :
  length (page_lru_count s) = num_slots s ->
  (forall i, (i < num_slots s)%nat ->
     page_status s !!! i = SLRU_PAGE_EMPTY ->
     (forall j, (j < i)%nat -> page_status s !!! j <> SLRU_PAGE_EMPTY) ->
     exists s', victim_scan ctl cur (all_slots s) BestSlot_init s = (inl i, s')) /\
  ((forall i, (i < num_slots s)%nat -> page_status s !!! i <> SLRU_PAGE_EMPTY) ->
   exists best s',
     victim_scan ctl cur (all_slots s) BestSlot_init s = (inr best, s') /\
     (forall i, (i < num_slots s)%nat ->
        raw_delta cur s i = int_sub cur (page_lru_count s !!! i) /\
        slot_delta cur s i = Z.max 0 (raw_delta cur s i) /\
        page_lru_count s' !!! i =
          if decide (raw_delta cur s i < 0) then cur
          else page_lru_count s !!! i) /\
     (forall j, (j < num_slots s)%nat ->
        page_number s !!! j <> latest_page_number s ->
        (bestslot best < num_slots s)%nat /\
        page_number s !!! bestslot best <> latest_page_number s /\
        best_delta best = slot_delta cur s (bestslot best) /\
        slot_delta cur s j <= slot_delta cur s (bestslot best) /\
        (slot_delta cur s j = slot_delta cur s (bestslot best) ->
         (bestslot best < j)%nat ->
         PagePrecedes ctl (page_number s !!! j)
           (page_number s !!! bestslot best) = false) /\
        (slot_delta cur s j = slot_delta cur s (bestslot best) ->
         (j < bestslot best)%nat ->
         exists b, (b < bestslot best)%nat /\
           page_number s !!! b <> latest_page_number s /\
           slot_delta cur s b = slot_delta cur s (bestslot best) /\
           PagePrecedes ctl (page_number s !!! bestslot best)
             (page_number s !!! b) = true) /\
        ((forall a, PagePrecedes ctl a a = false) ->
         (forall a b c,
            PagePrecedes ctl a b = true -> PagePrecedes ctl b c = true ->
            PagePrecedes ctl a c = true) ->
         slot_delta cur s j = slot_delta cur s (bestslot best) ->
         PagePrecedes ctl (page_number s !!! j)
           (page_number s !!! bestslot best) = false))).
Proof.
  intros Hlen. unfold all_slots. split.
  - intros i Hi He Hfirst.
    destruct (victim_scan_some_empty ctl cur (seq 0 (num_slots s)) BestSlot_init s i)
      as (j & s' & Hscan); [apply elem_of_seq; lia|done|].
    exists s'. rewrite Hscan. repeat f_equal.
    apply victim_scan_inl in Hscan as (Hj & before & after & Hsplit & Hb).
    apply seq_split_at in Hsplit as [-> Hjn].
    destruct (decide (j < i)%nat) as [Hlt|Hge].
    + exfalso. by apply (Hfirst j).
    + destruct (decide (i < j)%nat) as [Hlt|Hge']; [|lia].
      exfalso. apply (Hb i); [|done]. apply elem_of_seq. lia.
  - intros Hne.
    destruct (victim_scan ctl cur (seq 0 (num_slots s)) BestSlot_init s)
      as [[i|best] s'] eqn:Hscan.
    { apply victim_scan_inl in Hscan as (Hi & before & after & Hsplit & _).
      apply seq_split_at in Hsplit as [_ Hin]. exfalso. by apply (Hne i). }
    exists best, s'. split; [done|].
    pose proof (NoDup_seq 0 (num_slots s)) as Hnd.
    split.
    + intros i Hi. split; [done|]. split.
      { unfold slot_delta. case_decide; lia. }
      assert (Hin : forall j, j ∈ seq 0 (num_slots s) ->
                (j < length (page_lru_count s))%nat).
      { intros j Hj. apply elem_of_seq in Hj. lia. }
      rewrite (victim_scan_counts ctl cur _ _ _ _ _ Hnd Hin Hscan i).
      rewrite decide_True by (apply elem_of_seq; lia). done.
    + intros j Hj Hjne.
      pose proof (victim_scan_best ctl cur _ _ _ _ _ Hnd Hscan)
        as (_ & Horigin & Hmax).
      assert (Hjin : j ∈ seq 0 (num_slots s)) by (apply elem_of_seq; lia).
      specialize (Hmax j Hjin Hjne).
      destruct Horigin as [->|(k & Hk & -> & Hkne)].
      { cbn in Hmax. pose proof (slot_delta_nonneg cur s j). lia. }
      cbn in *. apply elem_of_seq in Hk.
      split; [lia|]. split; [done|]. split; [done|]. split; [done|].
      split; [|split].
      * intros Heq Hlater.
        assert (Hsplit : seq 0 (num_slots s)
                         = seq 0 k ++ k :: seq (S k) (num_slots s - S k)).
        { replace (num_slots s) with (k + S (num_slots s - S k))%nat at 1 by lia.
          rewrite seq_app. done. }
        rewrite Hsplit in Hnd, Hscan.
        apply (victim_scan_tie_later ctl cur _ _ _ _ _ _ _ Hnd Hscan eq_refl j);
          [apply elem_of_seq; lia|done|done].
      * intros Heq Hearlier.
        eapply (victim_scan_displaces ctl cur k (num_slots s) s _ s');
          [lia|lia|done|done|exact Hearlier|done|done].
      * intros Hirr Htr Heq.
        apply (victim_scan_tie ctl cur Hirr Htr _ _ _ _ _ Hnd Hscan j Hjin Hjne).
        done.
Qed.

(** ** Outcomes of composed steps *)

Lemma bind_Returned {A B} (c : M A) (k : A -> M B) w b w' :
  bind c k w = Returned b w' ->
  exists a w1, c w = Returned a w1 /\ k a w1 = Returned b w'.
Proof.
  unfold bind. destruct (c w) as [a w1| |]; [|done..]. eauto.
Qed.

Lemma bind_Raised {A B} (c : M A) (k : A -> M B) w e w' :
  bind c k w = Raised e w' ->
  c w = Raised e w' \/
  exists a w1, c w = Returned a w1 /\ k a w1 = Raised e w'.
Proof.
  unfold bind. destruct (c w) as [a w1|e1 w1|]; [|intros [= -> ->]; by left|done].
  intros H. right. eauto.
Qed.

(** ** The first loop of SlruSelectLRUPage *)

Lemma find_page_Some s pageno slots i :
  find_page s pageno slots = Some i ->
  i ∈ slots /\ page_number s !!! i = pageno /\
  page_status s !!! i <> SLRU_PAGE_EMPTY.
Proof.
  induction slots as [|k rest IH]; cbn; [done|].
  destruct (bool_decide (page_number s !!! k = pageno)) eqn:H1;
    destruct (bool_decide (page_status s !!! k <> SLRU_PAGE_EMPTY)) eqn:H2; cbn.
  2-4: intros Hf; apply IH in Hf as (? & ? & ?); split; [by apply elem_of_cons; right|done].
  intros [= <-]. apply bool_decide_eq_true in H1, H2.
  split; [by apply elem_of_cons; left|done].
Qed.

Lemma find_page_None s pageno slots :
  find_page s pageno slots = None ->
  forall i, i ∈ slots ->
    ~ (page_number s !!! i = pageno /\ page_status s !!! i <> SLRU_PAGE_EMPTY).
Proof.
  induction slots as [|k rest IH]; cbn; intros H i Hi.
  { by apply elem_of_nil in Hi. }
  destruct (bool_decide (page_number s !!! k = pageno)) eqn:H1;
    destruct (bool_decide (page_status s !!! k <> SLRU_PAGE_EMPTY)) eqn:H2;
    cbn in H; [done| | |].
  all: apply elem_of_cons in Hi as [->|Hi]; [|by apply IH].
  all: try apply bool_decide_eq_false in H1; try apply bool_decide_eq_false in H2.
  all: tauto.
Qed.

(** ** The latest page is spared *)

(** The latest page is spared wherever there is another slot to take:
    when SlruSelectLRUPage returns without a hit (no slot holds the
    requested page) and no slot is EMPTY, and some slot holds a page other
    than [latest_page_number], the slot it returns for replacement does not
    hold [latest_page_number], whatever the counts. *)
Theorem SlruSelectLRUPage_spares_latest (fuel : nat) (ctl : SlruCtlData)
    (pageno : Z) (w : World) (slotno : nat) (w' : World) :
  SlruSelectLRUPage fuel ctl pageno w = Returned slotno w' ->
  (forall i, (i < num_slots (shared w'))%nat ->
     ~ (number_of w' i = pageno /\ status_of w' i <> SLRU_PAGE_EMPTY)) ->
  (forall i, (i < num_slots (shared w'))%nat ->
     status_of w' i <> SLRU_PAGE_EMPTY) ->
  (exists k, (k < num_slots (shared w'))%nat /\
     number_of w' k <> latest_page_number (shared w')) ->
  (slotno < num_slots (shared w'))%nat /\
  number_of w' slotno <> latest_page_number (shared w').
Proof.
  revert w. induction fuel as [|fuel IH]; intros w Hrun Hnohit Hnoempty Hother.
  { done. }
  cbn [SlruSelectLRUPage] in Hrun.
  destruct (find_page (shared w) pageno (all_slots (shared w))) as [i|] eqn:Hfind.
  { inversion Hrun; subst.
    apply find_page_Some in Hfind as (Hi & Hp & Hst).
    apply elem_of_seq in Hi. exfalso. apply (Hnohit slotno); [lia|done]. }
  cbn in Hrun.
  destruct (victim_scan ctl (cur_lru_count (shared w)) _ BestSlot_init _)
    as [[i|best] s] eqn:Hscan.
  { inversion Hrun; subst. clear Hrun.
    pose proof (victim_scan_frame _ _ _ _ _ _ _ Hscan) as (Hn & Hst & _).
    apply victim_scan_inl in Hscan as (He & before & after & Hsplit & _).
    apply seq_split_at in Hsplit as [_ Hin]. cbn in *.
    exfalso. apply (Hnoempty slotno); [lia|].
    unfold status_of. cbn. by rewrite Hst. }
  match type of Hrun with
  | (if ?c then _ else _) = _ => destruct c eqn:Hclean
  end.
  - inversion Hrun; subst. clear Hrun.
    pose proof (victim_scan_frame _ _ _ _ _ _ _ Hscan)
      as (Hn & Hst & _ & Hnum & _ & _ & _ & _ & Hlat & _).
    pose proof (victim_scan_best _ _ _ _ _ _ _ (NoDup_seq _ _) Hscan)
      as (_ & Horigin & Hmax).
    destruct Hother as (k & Hk & Hkne).
    unfold number_of in *. cbn in *.
    rewrite Hn, Hnum, Hlat in *. cbn in *.
    assert (Hkin : k ∈ seq 0 (num_slots (shared w))) by (apply elem_of_seq; lia).
    specialize (Hmax k Hkin Hkne).
    destruct Horigin as [->|(b & Hb & -> & Hbne)].
    { cbn in Hmax. pose proof (slot_delta_nonneg (cur_lru_count (shared w))
        (set_cur_lru_count (int_add (cur_lru_count (shared w)) 1) (shared w)) k).
      lia. }
    cbn. apply elem_of_seq in Hb. split; [lia|done].
  - apply bind_Returned in Hrun as (_ & w2 & _ & Hrun).
    by apply (IH w2).
Qed.

(** ** Concrete pools *)

Lemma ex_ctl_irrefl a : PagePrecedes ex_ctl a a = false.
Proof. apply Z.ltb_irrefl. Qed.

Lemma ex_ctl_trans a b c :
  PagePrecedes ex_ctl a b = true -> PagePrecedes ex_ctl b c = true ->
  PagePrecedes ex_ctl a c = true.
Proof. cbn. rewrite !Z.ltb_lt. lia. Qed.

Lemma Returned_after {A} (c : M A) (w : World) (a : A) :
  value_after c w = Some a -> c w = Returned a (world_after c w).
Proof.
  unfold value_after, world_after. destruct (c w); congruence.
Qed.

(** C1, at the failing input.  In a pool of one slot that holds the latest
    page 5, the request for page 6 ends with no hit and no slot EMPTY, and
    the slot returned for replacement is the one holding
    [latest_page_number]: the guard of the scan rejects the only slot, and
    [bestslot] keeps the 0 it was initialised with. *)
Lemma SlruSelectLRUPage_takes_latest :
  let w' := world_after (SlruSelectLRUPage 2 ex_ctl 6) world_one_slot in
  SlruSelectLRUPage 2 ex_ctl 6 world_one_slot = Returned 0%nat w' /\
  num_slots (shared w') = 1%nat /\
  status_of w' 0 = SLRU_PAGE_VALID /\
  number_of w' 0 = 5 /\
  latest_page_number (shared w') = 5.
Proof.
  split; [apply (Returned_after (SlruSelectLRUPage 2 ex_ctl 6) world_one_slot 0%nat);
          vm_compute; reflexivity|].
  repeat split; vm_compute; reflexivity.
Qed.

Lemma SlruSelectLRUPage_spares_latest_witness :
  let w' := world_after (SlruSelectLRUPage 2 ex_ctl 128) world_four_slots in
  SlruSelectLRUPage 2 ex_ctl 128 world_four_slots = Returned 0%nat w' /\
  number_of w' 0 <> latest_page_number (shared w').
Proof.
  intros w'.
  assert (Hrun : SlruSelectLRUPage 2 ex_ctl 128 world_four_slots
                 = Returned 0%nat w').
  { apply (Returned_after (SlruSelectLRUPage 2 ex_ctl 128) world_four_slots 0%nat).
    vm_compute. reflexivity. }
  split; [exact Hrun|].
  apply (SlruSelectLRUPage_spares_latest 2 ex_ctl 128 world_four_slots 0 w' Hrun).
  - intros i Hi [H1 _]. vm_compute in Hi.
    destruct i as [|[|[|[|i]]]]; [vm_compute in H1; discriminate..|lia].
  - intros i Hi H1. vm_compute in Hi.
    destruct i as [|[|[|[|i]]]]; [vm_compute in H1; discriminate..|lia].
  - exists 0%nat. split; [vm_compute; lia|]. vm_compute. discriminate.
Defined.

(** C6, as stated, fails in two ways.  The slot with the largest delta
    does not win when it holds the latest page: in [pool_latest_oldest]
    slot 0 has delta 10 and holds [latest_page_number], and the winner is
    slot 1, with delta 5.  And a tie is not always broken in favour of the
    earlier page: under the cyclic page order the three slots of
    [pool_cyclic_tie] tie, the winner is slot 2, and the page of slot 0
    precedes the winner's page. *)
Lemma victim_scan_not_as_claimed :
  ((victim_scan ex_ctl 10 (all_slots pool_latest_oldest) BestSlot_init
      pool_latest_oldest).1 = inr (mkBest 1 5 3) /\
   slot_delta 10 pool_latest_oldest 0 = 10 /\
   slot_delta 10 pool_latest_oldest 1 = 5 /\
   page_number pool_latest_oldest !!! 0%nat
     = latest_page_number pool_latest_oldest) /\
  ((victim_scan cyclic_ctl 10 (all_slots pool_cyclic_tie) BestSlot_init
      pool_cyclic_tie).1 = inr (mkBest 2 6 1431655766) /\
   slot_delta 10 pool_cyclic_tie 0 = 6 /\
   slot_delta 10 pool_cyclic_tie 2 = 6 /\
   page_number pool_cyclic_tie !!! 0%nat = 0 /\
   page_number pool_cyclic_tie !!! 0%nat <> latest_page_number pool_cyclic_tie /\
   PagePrecedes cyclic_ctl 0 1431655766 = true).
Proof. split; repeat split; vm_compute; (reflexivity || discriminate). Qed.

Lemma victim_scan_selection_witness :
  (exists best s',
     victim_scan cyclic_ctl 10 (all_slots pool_cyclic_tie) BestSlot_init
       pool_cyclic_tie = (inr best, s') /\
     (bestslot best < 3)%nat /\
     page_number pool_cyclic_tie !!! bestslot best <> 7 /\
     slot_delta 10 pool_cyclic_tie 0
       <= slot_delta 10 pool_cyclic_tie (bestslot best)) /\
  (exists best s',
     victim_scan ex_ctl 10 (all_slots pool_cyclic_tie) BestSlot_init
       pool_cyclic_tie = (inr best, s') /\
     bestslot best = 1%nat /\
     PagePrecedes ex_ctl (page_number pool_cyclic_tie !!! 0%nat)
       (page_number pool_cyclic_tie !!! bestslot best) = false).
Proof.
  split.
  - destruct (victim_scan_selection cyclic_ctl 10 pool_cyclic_tie eq_refl)
      as [_ H].
    destruct H as (best & s' & Hscan & _ & Hwin).
    { intros i Hi. vm_compute in Hi.
      destruct i as [|[|[|i]]]; [vm_compute; discriminate..|lia]. }
    exists best, s'. split; [exact Hscan|].
    destruct (Hwin 0%nat) as (Hb & Hne & _ & Hle & _).
    + vm_compute. lia.
    + vm_compute. discriminate.
    + split; [exact Hb|]. split; [exact Hne|exact Hle].
  - destruct (victim_scan_selection ex_ctl 10 pool_cyclic_tie eq_refl)
      as [_ H].
    destruct H as (best & s' & Hscan & _ & Hwin).
    { intros i Hi. vm_compute in Hi.
      destruct i as [|[|[|i]]]; [vm_compute; discriminate..|lia]. }
    exists best, s'. split; [exact Hscan|].
    assert (Hbest : (victim_scan ex_ctl 10 (all_slots pool_cyclic_tie)
                       BestSlot_init pool_cyclic_tie).1
                    = inr (mkBest 1 6 (-1431655765)))
      by (vm_compute; reflexivity).
    rewrite Hscan in Hbest. cbn in Hbest. injection Hbest as ->.
    split; [reflexivity|].
    destruct (Hwin 0%nat) as (_ & _ & _ & _ & _ & _ & Hord).
    + vm_compute. lia.
    + vm_compute. discriminate.
    + apply (Hord ex_ctl_irrefl ex_ctl_trans). vm_compute. reflexivity.
Defined.

(** ** What slot I/O leaves alone *)

Lemma stable_refl w : stable w w.
Proof. by repeat split. Qed.

Lemma stable_trans w1 w2 w3 : stable w1 w2 -> stable w2 w3 -> stable w1 w3.
Proof.
  unfold stable. intros (?&?&?&?&?&?&?&?&?&?) (?&?&?&?&?&?&?&?&?&?).
  repeat split; congruence.
Qed.

Lemma stable_wf w w' :
  stable w w' -> shared_wf (shared w) -> shared_wf (shared w').
Proof.
  unfold stable, shared_wf.
  intros (?&?&?&?&?&?&?&?&?&?) (?&?&?&?&?).
  repeat split; congruence.
Qed.

Lemma sum_list_with_le {A} (f g : A -> nat) (l : list A) :
  (forall j, j ∈ l -> (f j <= g j)%nat) ->
  (sum_list_with f l <= sum_list_with g l)%nat.
Proof.
  induction l as [|a l IH]; intros H; cbn; [lia|].
  pose proof (H a ltac:(by apply elem_of_cons; left)).
  assert (sum_list_with f l <= sum_list_with g l)%nat.
  { apply IH. intros j Hj. apply H. by apply elem_of_cons; right. }
  lia.
Qed.

Lemma sum_list_with_lt {A} (f g : A -> nat) (l : list A) (i : A) :
  (forall j, j ∈ l -> (f j <= g j)%nat) ->
  i ∈ l -> (f i < g i)%nat ->
  (sum_list_with f l < sum_list_with g l)%nat.
Proof.
  induction l as [|a l IH]; intros H Hi Hlt; cbn.
  { by apply elem_of_nil in Hi. }
  pose proof (H a ltac:(by apply elem_of_cons; left)).
  assert (Hle : (sum_list_with f l <= sum_list_with g l)%nat).
  { apply sum_list_with_le. intros j Hj. apply H. by apply elem_of_cons; right. }
  apply elem_of_cons in Hi as [->|Hi]; [lia|].
  assert (sum_list_with f l < sum_list_with g l)%nat; [|lia].
  apply IH; [|done..]. intros j Hj. apply H. by apply elem_of_cons; right.
Qed.

(** One slot owes less, the others owe no more. *)
Lemma pending_lt w w' i :
  num_slots (shared w') = num_slots (shared w) ->
  (i < num_slots (shared w))%nat ->
  (forall j, j <> i -> status_of w' j = status_of w j /\ dirty_of w' j = dirty_of w j) ->
  (slot_weight (status_of w' i) (dirty_of w' i)
   < slot_weight (status_of w i) (dirty_of w i))%nat ->
  (pending w' < pending w)%nat.
Proof.
  intros Hn Hi Hothers Hlt. unfold pending, all_slots. rewrite Hn.
  apply sum_list_with_lt with (i := i); [|apply elem_of_seq; lia|done].
  intros j _. destruct (decide (j = i)) as [->|Hne]; [lia|].
  destruct (Hothers j Hne) as [-> ->]. lia.
Qed.

Lemma pending_le w w' :
  num_slots (shared w') = num_slots (shared w) ->
  (forall j, (j < num_slots (shared w))%nat ->
     (slot_weight (status_of w' j) (dirty_of w' j)
      <= slot_weight (status_of w j) (dirty_of w j))%nat) ->
  (pending w' <= pending w)%nat.
Proof.
  intros Hn H. unfold pending, all_slots. rewrite Hn.
  apply sum_list_with_le. intros j Hj. apply elem_of_seq in Hj. apply H. lia.
Qed.

(** ** SimpleLruWaitIO *)

Lemma io_in_progress_true st :
  io_in_progress st = true <->
  st = SLRU_PAGE_READ_IN_PROGRESS \/ st = SLRU_PAGE_WRITE_IN_PROGRESS.
Proof. destruct st; vm_compute; intuition congruence. Qed.

(** With no other backend at work, the conditional acquire in
    [SimpleLruWaitIO] succeeds: the I/O on the slot is gone, and the slot
    is rolled back. *)
Lemma SimpleLruWaitIO_eq slotno w :
  SimpleLruWaitIO slotno w =
    let w1 := LWLockAcquire_ControlLock LW_EXCLUSIVE
                (LWLockRelease_buffer slotno
                   (LWLockAcquire_buffer slotno LW_SHARED
                      (LWLockRelease_ControlLock w))) in
    match status_of w slotno with
    | SLRU_PAGE_READ_IN_PROGRESS =>
        LWLockRelease_buffer slotno
          (set_status slotno SLRU_PAGE_EMPTY
             (LWLockAcquire_buffer slotno LW_SHARED w1))
    | SLRU_PAGE_WRITE_IN_PROGRESS =>
        LWLockRelease_buffer slotno
          (set_dirty slotno true
             (set_status slotno SLRU_PAGE_VALID
                (LWLockAcquire_buffer slotno LW_SHARED w1)))
    | _ => w1
    end.
Proof.
  unfold SimpleLruWaitIO.
  set (w1 := LWLockAcquire_ControlLock _ _). cbv zeta.
  assert (Hst1 : status_of w1 slotno = status_of w slotno) by done.
  rewrite Hst1.
  assert (Hacq : LWLockConditionalAcquire_buffer slotno LW_SHARED w1
                 = (true, LWLockAcquire_buffer slotno LW_SHARED w1)).
  { unfold LWLockConditionalAcquire_buffer.
    assert (Hl : buffer_locks w1 !! slotno = Some None \/
                 buffer_locks w1 !! slotno = None).
    { subst w1. cbn.
      destruct (decide (slotno < length (buffer_locks w))%nat).
      - left. rewrite list_lookup_insert_eq by (rewrite length_insert; lia). done.
      - right. rewrite !list_insert_ge by (rewrite ?length_insert; lia).
        apply lookup_ge_None_2. lia. }
    destruct Hl as [-> | ->]; done. }
  rewrite Hacq.
  destruct (status_of w slotno) eqn:Hst; cbn [io_in_progress]; try done.
  - rewrite decide_True; done.
  - rewrite decide_False; [done|]. unfold status_of in *. cbn. congruence.
Qed.

Lemma SimpleLruWaitIO_spec slotno w :
  let w' := SimpleLruWaitIO slotno w in
  stable w w' /\
  ControlLock w' = Some LW_EXCLUSIVE /\
  disk w' = disk w /\
  cur_lru_count (shared w') = cur_lru_count (shared w) /\
  page_lru_count (shared w') = page_lru_count (shared w) /\
  (forall j, j <> slotno ->
     status_of w' j = status_of w j /\ dirty_of w' j = dirty_of w j) /\
  (io_in_progress (status_of w slotno) = false -> shared w' = shared w) /\
  ((slotno < length (page_status (shared w)))%nat ->
   status_of w slotno = SLRU_PAGE_READ_IN_PROGRESS ->
   status_of w' slotno = SLRU_PAGE_EMPTY /\
   dirty_of w' slotno = dirty_of w slotno) /\
  ((slotno < length (page_status (shared w)))%nat ->
   (slotno < length (page_dirty (shared w)))%nat ->
   status_of w slotno = SLRU_PAGE_WRITE_IN_PROGRESS ->
   status_of w' slotno = SLRU_PAGE_VALID /\ dirty_of w' slotno = true).
Proof.
  cbv zeta. rewrite SimpleLruWaitIO_eq. cbv zeta.
  destruct (status_of w slotno) eqn:Hst.
  all: unfold stable, status_of, dirty_of in *; cbn.
  all: rewrite ?length_insert.
  all: repeat split; try done; try congruence.
  all: try (intros; by apply list_lookup_total_insert_ne).
  all: try (intros; by apply list_lookup_total_insert_eq).
Qed.

(** ** SlruPhysicalWritePage and SimpleLruWritePage *)

Lemma io_only_refl w : io_only w w.
Proof. by repeat split. Qed.

Lemma io_only_trans w1 w2 w3 : io_only w1 w2 -> io_only w2 w3 -> io_only w1 w3.
Proof.
  unfold io_only. intros (?&?&?&?&?&?&?) (?&?&?&?&?&?&?).
  repeat split; congruence.
Qed.

Lemma SlruPhysicalWritePage_tail_io_only ctl o in_flush fdata offset slotno w :
  io_only w (SlruPhysicalWritePage_tail ctl o in_flush fdata offset slotno w).2.
Proof.
  unfold SlruPhysicalWritePage_tail, MirroredFlatFile_SeekSet,
    MirroredFlatFile_Write, MirroredFlatFile_Flush.
  repeat (case_match; simplify_eq/=); by repeat split.
Qed.

Lemma SlruPhysicalWritePage_io_only ctl pageno slotno fdata w :
  io_only w (SlruPhysicalWritePage ctl pageno slotno fdata w).2.
Proof.
  unfold SlruPhysicalWritePage.
  set (w1 := match group_lsn (shared w) with Some _ => _ | None => _ end).
  assert (H1 : io_only w w1).
  { subst w1. repeat case_match; by repeat split. }
  cbv zeta.
  destruct (match match fdata with Some _ => _ | None => _ end with
            | Some _ => _ | None => _ end) as [o|].
  { eapply io_only_trans; [exact H1|]. apply SlruPhysicalWritePage_tail_io_only. }
  unfold MirroredFlatFile_Open.
  destruct (os_fault w1 OS_OPEN _) as [e|].
  { cbn. eapply io_only_trans; [exact H1|]. by repeat split. }
  set (w2 := upd_disk _ w1).
  assert (H2 : io_only w w2).
  { eapply io_only_trans; [exact H1|]. by repeat split. }
  destruct fdata as [fd|]; [case_decide|];
    (eapply io_only_trans; [exact H2|]; apply SlruPhysicalWritePage_tail_io_only).
Qed.

Lemma status_of_in_range w i :
  status_of w i <> SLRU_PAGE_EMPTY ->
  (i < length (page_status (shared w)))%nat.
Proof.
  unfold status_of. intros H.
  destruct (decide (i < length (page_status (shared w)))%nat); [done|].
  exfalso. apply H. rewrite list_lookup_total_alt.
  rewrite lookup_ge_None_2 by lia. done.
Qed.

(** [SimpleLruWritePage] on a slot that holds a dirty VALID page. *)
Lemma SimpleLruWritePage_dirty fuel ctl slotno fdata w :
  status_of w slotno = SLRU_PAGE_VALID ->
  dirty_of w slotno = true ->
  SimpleLruWritePage fuel ctl slotno fdata w =
    let r := SlruPhysicalWritePage ctl (number_of w slotno) slotno fdata
               (begin_write slotno w) in
    let w' := end_write slotno r.1.1 r.2 in
    if r.1.1 then Returned r.1.2 w'
    else Raised (SlruIOError (slru_errcause w') (slru_errno w')
                   (number_of w slotno) InvalidTransactionId)
           (set_errno (slru_errno w') w').
Proof.
  intros Hst Hd. unfold SimpleLruWritePage, bind, gets, step, ret.
  assert (Hwait : SimpleLruWritePage_wait fuel slotno (number_of w slotno) w
                  = Returned tt w).
  { destruct fuel; cbn; rewrite Hst; done. }
  rewrite Hwait. unfold id. rewrite Hd, Hst. cbn [negb orb].
  rewrite bool_decide_eq_false_2 by (intros H; by apply H).
  rewrite bool_decide_eq_false_2 by (intros H; by apply H).
  cbn [orb].
  destruct (SlruPhysicalWritePage ctl (number_of w slotno) slotno fdata
              (begin_write slotno w)) as [[ok fd] w3].
  cbv zeta. cbn [fst snd]. unfold end_write.
  destruct ok; done.
Qed.

Lemma pending_ext w w' :
  num_slots (shared w') = num_slots (shared w) ->
  page_status (shared w') = page_status (shared w) ->
  page_dirty (shared w') = page_dirty (shared w) ->
  pending w' = pending w.
Proof.
  intros Hn Hs Hd. unfold pending, all_slots, status_of, dirty_of.
  by rewrite Hn, Hs, Hd.
Qed.

(** What a write of a dirty VALID page leaves behind, whether it succeeds
    or fails. *)
Lemma end_write_begin_write ctl pageno slotno fdata ok w :
  (slotno < length (page_status (shared w)))%nat ->
  (slotno < length (page_dirty (shared w)))%nat ->
  let w3 := (SlruPhysicalWritePage ctl pageno slotno fdata
               (begin_write slotno w)).2 in
  let w' := end_write slotno ok w3 in
  stable w w' /\
  ControlLock w' = Some LW_EXCLUSIVE /\
  cur_lru_count (shared w') = cur_lru_count (shared w) /\
  page_lru_count (shared w') = page_lru_count (shared w) /\
  status_of w' slotno = SLRU_PAGE_VALID /\
  dirty_of w' slotno = negb ok /\
  (forall j, j <> slotno ->
     status_of w' j = status_of w j /\ dirty_of w' j = dirty_of w j).
Proof.
  intros Hs Hd. cbv zeta.
  pose proof (SlruPhysicalWritePage_io_only ctl pageno slotno fdata
                (begin_write slotno w)) as (Hsh & _ & _ & Hf & Ht & Hr & _).
  set (w3 := (SlruPhysicalWritePage _ _ _ _ _).2) in *.
  unfold stable, status_of, dirty_of, end_write.
  destruct ok; cbn; rewrite Hsh, ?Hf, ?Ht, ?Hr; cbn; rewrite ?length_insert.
  all: repeat split; try done.
  all: try (apply list_lookup_total_insert_eq; rewrite ?length_insert; lia).
  all: try (intros; rewrite !list_lookup_total_insert_ne by done; done).
  all: try (rewrite list_lookup_total_insert_eq; rewrite ?length_insert; done).
Qed.

Lemma SlruSelectLRUPage_spec ctl pageno fuel :
  forall w,
    shared_wf (shared w) -> (0 < num_slots (shared w))%nat ->
    match SlruSelectLRUPage fuel ctl pageno w with
    | Returned slotno w' => select_post pageno w slotno w'
    | Raised e w' => select_raise w e w'
    | OutOfFuel => (fuel <= pending w)%nat
    end.
Proof.
  induction fuel as [|fuel IH]; intros w Hwf Hn; [cbn; lia|].
  cbn [SlruSelectLRUPage].
  destruct (find_page (shared w) pageno (all_slots (shared w))) as [i|] eqn:Hfind.
  { apply find_page_Some in Hfind as (Hi & Hp & Hst).
    apply elem_of_seq in Hi.
    split; [apply stable_refl|]. split; [lia|]. split; [lia|]. by left. }
  cbv zeta.
  set (w1 := upd_shared (set_cur_lru_count _) w).
  destruct (victim_scan ctl (cur_lru_count (shared w)) (all_slots (shared w1))
              BestSlot_init (shared w1)) as [[i|best] s] eqn:Hscan.
  all: pose proof (victim_scan_frame _ _ _ _ _ _ _ Hscan)
         as (Hsn & Hsst & Hsd & Hsnum & Hsbuf & _ & _ & _ & Hslat & Hslen).
  all: cbn in Hsn, Hsst, Hsd, Hsnum, Hsbuf, Hslat, Hslen.
  all: set (w2 := upd_shared (fun _ => s) w1).
  all: assert (Hstab : stable w w2) by (unfold stable; cbn; repeat split; congruence).
  all: assert (Hpend : pending w2 = pending w) by (by apply pending_ext).
  { apply victim_scan_inl in Hscan as (He & before & after & Hsplit & _).
    apply seq_split_at in Hsplit as [_ Hin].
    split; [done|]. split; [cbn in *; lia|]. split; [lia|].
    right. left. unfold status_of. cbn. by rewrite Hsst. }
  assert (Hbest : (bestslot best < num_slots (shared w))%nat).
  { pose proof (victim_scan_best _ _ _ _ _ _ _ (NoDup_seq _ _) Hscan)
      as (_ & [->|(k & Hk & -> & _)] & _); [done|].
    apply elem_of_seq in Hk. cbn in *. lia. }
  assert (Hne : status_of w2 (bestslot best) <> SLRU_PAGE_EMPTY).
  { unfold status_of. cbn. rewrite Hsst.
    pose proof (victim_scan_inr_no_empty _ _ _ _ _ _ _ Hscan (bestslot best))
      as Hx.
    apply Hx. apply elem_of_seq. cbn. lia. }
  pose proof (stable_wf _ _ Hstab Hwf) as Hwf2.
  destruct Hwf2 as (_ & Hl2s & Hl2d & _ & _).
  destruct Hstab as (Hn2 & Hrest2). 
  destruct (bool_decide (status_of w2 (bestslot best) = SLRU_PAGE_VALID)
            && negb (dirty_of w2 (bestslot best))) eqn:Hclean.
  { apply andb_true_iff in Hclean as [Hv Hd].
    apply bool_decide_eq_true in Hv. apply negb_true_iff in Hd.
    split; [by split|]. split; [lia|]. split; [lia|]. right. right. done. }
  unfold bind.
  destruct (decide (status_of w2 (bestslot best) = SLRU_PAGE_VALID)) as [Hv|Hv];
    cbv beta.
  - (* the victim is dirty: write it *)
    assert (Hd : dirty_of w2 (bestslot best) = true).
    { rewrite Hv in Hclean. rewrite bool_decide_eq_true_2 in Hclean by done.
      cbn in Hclean. by apply negb_false_iff in Hclean. }
    rewrite (SimpleLruWritePage_dirty _ _ _ _ _ Hv Hd). cbv zeta.
    pose proof (end_write_begin_write ctl (number_of w2 (bestslot best))
                  (bestslot best) None
                  (SlruPhysicalWritePage ctl (number_of w2 (bestslot best))
                     (bestslot best) None (begin_write (bestslot best) w2)).1.1
                  w2 ltac:(lia) ltac:(lia))
      as (Hst3 & Hlock3 & _ & _ & Hv3 & Hd3 & Hoth3).
    cbv zeta in Hst3, Hlock3, Hv3, Hd3, Hoth3.
    destruct (SlruPhysicalWritePage ctl (number_of w2 (bestslot best))
                (bestslot best) None (begin_write (bestslot best) w2))
      as [[ok fd] w3].
    cbn [fst snd] in *.
    set (w4 := end_write (bestslot best) ok w3) in *.
    assert (Hstab4 : stable w w4).
    { eapply stable_trans; [|exact Hst3]. by split. }
    destruct ok; cbn [ret].
    + assert (Hp4 : (pending w4 < pending w)%nat).
      { rewrite <- Hpend. apply pending_lt with (i := bestslot best).
        - apply Hst3.
        - lia.
        - done.
        - rewrite Hv3, Hd3, Hv, Hd. cbn. lia. }
      specialize (IH w4 (stable_wf _ _ Hstab4 Hwf)
                    ltac:(destruct Hstab4 as [-> _]; lia)).
      destruct (SlruSelectLRUPage fuel ctl pageno w4) as [slot w5|e w5|].
      * destruct IH as (Hs5 & Hslot5 & Hp5 & Hcase5).
        split; [by eapply stable_trans|]. split; [done|]. split; [lia|done].
      * destruct IH as (Hs5 & Hrest5).
        split; [by eapply stable_trans|done].
      * lia.
    + set (w5 := set_errno _ w4).
      assert (Hsh5 : shared w5 = shared w4) by done.
      assert (Hstab5 : stable w4 w5) by (by repeat split).
      unfold select_raise, number_of, status_of, dirty_of in *.
      rewrite Hsh5.
      split; [by eapply stable_trans|]. split; [apply Hlock3|].
      exists (slru_errcause w4), (slru_errno w4), (bestslot best).
      destruct Hst3 as (Hn3 & Hnum3 & _).
      rewrite Hnum3, Hn3, Hn2.
      split; [done|]. split; [lia|]. by split.
  - (* the victim is busy: wait for its I/O *)
    unfold step.
    pose proof (SimpleLruWaitIO_spec (bestslot best) w2)
      as (Hst3 & _ & _ & _ & _ & Hoth3 & _ & Hrd & Hwr).
    cbv zeta in Hst3, Hoth3, Hrd, Hwr.
    set (w3 := SimpleLruWaitIO (bestslot best) w2) in *.
    assert (Hstab3 : stable w w3).
    { eapply stable_trans; [|exact Hst3]. by split. }
    assert (Hp3 : (pending w3 < pending w)%nat).
    { rewrite <- Hpend. apply pending_lt with (i := bestslot best).
      - apply Hst3.
      - lia.
      - done.
      - destruct (status_of w2 (bestslot best)) eqn:Hst; try done.
        + destruct Hrd as [-> _]; [lia|done|]. cbn. lia.
        + destruct Hwr as [-> ->]; [lia|lia|done|]. cbn. lia. }
    specialize (IH w3 (stable_wf _ _ Hstab3 Hwf)
                  ltac:(destruct Hstab3 as [-> _]; lia)).
    destruct (SlruSelectLRUPage fuel ctl pageno w3) as [slot w5|e w5|].
    * destruct IH as (Hs5 & Hslot5 & Hp5 & Hcase5).
      split; [by eapply stable_trans|]. split; [done|]. split; [lia|done].
    * destruct IH as (Hs5 & Hrest5).
      split; [by eapply stable_trans|done].
    * lia.
Qed.

(** With more fuel than the I/O the pool owes, slot selection ends. *)
Lemma SlruSelectLRUPage_fuel ctl pageno fuel w :
  shared_wf (shared w) -> (0 < num_slots (shared w))%nat ->
  (pending w < fuel)%nat ->
  SlruSelectLRUPage fuel ctl pageno w <> OutOfFuel.
Proof.
  intros Hwf Hn Hfuel H.
  pose proof (SlruSelectLRUPage_spec ctl pageno fuel w Hwf Hn) as Hs.
  rewrite H in Hs. lia.
Qed.

(** ** SimpleLruZeroPage *)

Lemma SimpleLruZeroPage_eq fuel ctl pageno w :
  SimpleLruZeroPage fuel ctl pageno w =
    match SlruSelectLRUPage fuel ctl pageno w with
    | Returned slotno w1 =>
        Returned slotno
          (upd_shared (set_latest_page_number pageno)
             (upd_shared (SimpleLruZeroLSNs slotno)
                (set_buffer slotno zero_page
                   (upd_shared (SlruRecentlyUsed slotno)
                      (set_dirty slotno true
                         (set_status slotno SLRU_PAGE_VALID
                            (set_number slotno pageno w1)))))))
    | Raised e w1 => Raised e w1
    | OutOfFuel => OutOfFuel
    end.
Proof.
  unfold SimpleLruZeroPage, bind, step, ret.
  destruct (SlruSelectLRUPage fuel ctl pageno w); done.
Qed.

Lemma SlruRecentlyUsed_frame slotno s :
  let s' := SlruRecentlyUsed slotno s in
  num_slots s' = num_slots s /\
  page_buffer s' = page_buffer s /\
  page_status s' = page_status s /\
  page_dirty s' = page_dirty s /\
  page_number s' = page_number s /\
  latest_page_number s' = latest_page_number s /\
  group_lsn s' = group_lsn s /\
  lsn_groups_per_page s' = lsn_groups_per_page s /\
  length (page_lru_count s') = length (page_lru_count s).
Proof.
  unfold SlruRecentlyUsed. cbv zeta.
  case_decide; cbn; rewrite ?length_insert; done.
Qed.

Lemma SimpleLruZeroLSNs_frame slotno s :
  let s' := SimpleLruZeroLSNs slotno s in
  num_slots s' = num_slots s /\
  page_buffer s' = page_buffer s /\
  page_status s' = page_status s /\
  page_dirty s' = page_dirty s /\
  page_number s' = page_number s /\
  latest_page_number s' = latest_page_number s /\
  page_lru_count s' = page_lru_count s /\
  cur_lru_count s' = cur_lru_count s.
Proof.
  unfold SimpleLruZeroLSNs. cbv zeta. case_decide; done.
Qed.

Lemma same_slots_RecentlyUsed slotno w :
  same_slots w (upd_shared (SlruRecentlyUsed slotno) w).
Proof.
  destruct (SlruRecentlyUsed_frame slotno (shared w)) as (?&?&?&?&?&?&?&?&?).
  by repeat split.
Qed.

Lemma same_slots_ZeroLSNs slotno w :
  same_slots w (upd_shared (SimpleLruZeroLSNs slotno) w).
Proof.
  destruct (SimpleLruZeroLSNs_frame slotno (shared w)) as (?&?&?&?&?&?&Hl&?).
  repeat split; try done. cbn. by rewrite Hl.
Qed.

Lemma same_slots_accessors w w' :
  same_slots w w' ->
  (forall j, number_of w' j = number_of w j) /\
  (forall j, status_of w' j = status_of w j) /\
  (forall j, dirty_of w' j = dirty_of w j) /\
  (forall j, buffer_of w' j = buffer_of w j).
Proof.
  intros (_ & Hn & Hs & Hd & Hb & _).
  unfold number_of, status_of, dirty_of, buffer_of.
  rewrite Hn, Hs, Hd, Hb. done.
Qed.

(** What [SimpleLruZeroPage] does to the slot that selection returned. *)
Lemma zero_slot_spec slotno pageno w1 :
  (slotno < num_slots (shared w1))%nat -> shared_wf (shared w1) ->
  let w' :=
    upd_shared (set_latest_page_number pageno)
      (upd_shared (SimpleLruZeroLSNs slotno)
         (set_buffer slotno zero_page
            (upd_shared (SlruRecentlyUsed slotno)
               (set_dirty slotno true
                  (set_status slotno SLRU_PAGE_VALID
                     (set_number slotno pageno w1)))))) in
  num_slots (shared w') = num_slots (shared w1) /\
  shared_wf (shared w') /\
  number_of w' slotno = pageno /\
  status_of w' slotno = SLRU_PAGE_VALID /\
  dirty_of w' slotno = true /\
  buffer_of w' slotno = zero_page /\
  latest_page_number (shared w') = pageno.
Proof.
  intros Hslot (Hb & Hs & Hd & Hn & Hl).
  set (w2 := set_number slotno pageno w1).
  set (w3 := set_status slotno SLRU_PAGE_VALID w2).
  set (w4 := set_dirty slotno true w3).
  set (w5 := upd_shared (SlruRecentlyUsed slotno) w4).
  set (w6 := set_buffer slotno zero_page w5).
  set (w7 := upd_shared (SimpleLruZeroLSNs slotno) w6).
  intros w'.
  pose proof (same_slots_RecentlyUsed slotno w4) as H5. fold w5 in H5.
  pose proof (same_slots_ZeroLSNs slotno w6) as H7. fold w7 in H7.
  destruct H5 as (H5n & H5num & H5st & H5d & H5b & H5lat & H5l).
  destruct H7 as (H7n & H7num & H7st & H7d & H7b & H7lat & H7l).
  assert (Hnum : page_number (shared w') = <[slotno := pageno]> (page_number (shared w1))).
  { change (page_number (shared w')) with (page_number (shared w7)).
    rewrite H7num.
    change (page_number (shared w6)) with (page_number (shared w5)).
    rewrite H5num. done. }
  assert (Hst : page_status (shared w') = <[slotno := SLRU_PAGE_VALID]> (page_status (shared w1))).
  { change (page_status (shared w')) with (page_status (shared w7)).
    rewrite H7st.
    change (page_status (shared w6)) with (page_status (shared w5)).
    rewrite H5st. done. }
  assert (Hdi : page_dirty (shared w') = <[slotno := true]> (page_dirty (shared w1))).
  { change (page_dirty (shared w')) with (page_dirty (shared w7)).
    rewrite H7d.
    change (page_dirty (shared w6)) with (page_dirty (shared w5)).
    rewrite H5d. done. }
  assert (Hbu : page_buffer (shared w') = <[slotno := zero_page]> (page_buffer (shared w1))).
  { change (page_buffer (shared w')) with (page_buffer (shared w7)).
    rewrite H7b.
    change (page_buffer (shared w6)) with (<[slotno := zero_page]> (page_buffer (shared w5))).
    rewrite H5b. done. }
  assert (Hns : num_slots (shared w') = num_slots (shared w1)).
  { change (num_slots (shared w')) with (num_slots (shared w7)).
    rewrite H7n.
    change (num_slots (shared w6)) with (num_slots (shared w5)).
    rewrite H5n. done. }
  assert (Hlru : length (page_lru_count (shared w')) = length (page_lru_count (shared w1))).
  { change (page_lru_count (shared w')) with (page_lru_count (shared w7)).
    rewrite H7l.
    change (page_lru_count (shared w6)) with (page_lru_count (shared w5)).
    rewrite H5l. done. }
  unfold shared_wf, number_of, status_of, dirty_of, buffer_of.
  rewrite Hnum, Hst, Hdi, Hbu, Hns, Hlru, !length_insert.
  repeat split; try done.
  all: apply list_lookup_total_insert_eq; lia.
Qed.

(** What [SimpleLruZeroPage] returns. *)
Lemma SimpleLruZeroPage_returned fuel ctl pageno w slotno w' :
  shared_wf (shared w) -> (0 < num_slots (shared w))%nat ->
  SimpleLruZeroPage fuel ctl pageno w = Returned slotno w' ->
  (slotno < num_slots (shared w'))%nat /\
  shared_wf (shared w') /\
  number_of w' slotno = pageno /\
  status_of w' slotno = SLRU_PAGE_VALID /\
  dirty_of w' slotno = true /\
  buffer_of w' slotno = zero_page /\
  latest_page_number (shared w') = pageno.
Proof.
  intros Hwf Hn. rewrite SimpleLruZeroPage_eq.
  pose proof (SlruSelectLRUPage_spec ctl pageno fuel w Hwf Hn) as Hs.
  destruct (SlruSelectLRUPage fuel ctl pageno w) as [slot w1|e w1|]; [|done..].
  intros [= <- <-].
  destruct Hs as (Hstab & Hslot & _ & _).
  pose proof (stable_wf _ _ Hstab Hwf) as Hwf1.
  destruct (zero_slot_spec slot pageno w1 Hslot Hwf1) as (Hns & Hrest).
  split; [|exact Hrest]. rewrite Hns. done.
Qed.

(** ** SlruPhysicalReadPage: a segment file that cannot be opened *)

(** C8.  For every physical read that gets as far as opening the segment
    file: if the open fails with ENOENT while the pool is in recovery, the
    slot's buffer is filled with zeroes and the read reports success; any
    other failure of the open (another errno, or not in recovery) makes
    the read fail with cause SLRU_OPEN_FAILED and the errno of the open. *)
Theorem SlruPhysicalReadPage_open_failure (ctl : SlruCtlData) (pageno : Z)
    (slotno : nat) (w : World) (path : Path) (w1 : World) :
  SlruFlatFileName ctl
    (SlruSimpleFileName (int_div pageno SLRU_PAGES_PER_SEGMENT)) w
    = Returned path w ->
  BasicOpenFile path w = (false, w1) ->
  (slotno < length (page_buffer (shared w)))%nat ->
  (errno w1 = ENOENT /\ InRecovery w = true ->
   exists w', SlruPhysicalReadPage ctl pageno slotno w = Returned true w' /\
              buffer_of w' slotno = zero_page) /\
  (errno w1 <> ENOENT \/ InRecovery w = false ->
   exists w', SlruPhysicalReadPage ctl pageno slotno w = Returned false w' /\
              slru_errcause w' = SLRU_OPEN_FAILED /\
              slru_errno w' = errno w1 /\
              shared w' = shared w).
Proof.
  intros Hpath Hopen Hslot.
  assert (Hrec : InRecovery w1 = InRecovery w /\ shared w1 = shared w).
  { unfold BasicOpenFile in Hopen.
    repeat case_match; simplify_eq; done. }
  destruct Hrec as [Hrec Hsh].
  unfold SlruPhysicalReadPage, bind. rewrite Hpath, Hopen. split.
  - intros [He Hr]. rewrite He, Hrec, Hr.
    rewrite bool_decide_eq_false_2 by (intros H; by apply H). cbn [negb orb].
    eexists. split; [reflexivity|].
    apply buffer_of_set_buffer_eq. cbn. by rewrite Hsh.
  - intros Hor.
    assert (Hc : bool_decide (errno w1 <> ENOENT) || negb (InRecovery w1) = true).
    { destruct Hor as [He|Hr].
      - by rewrite bool_decide_eq_true_2.
      - rewrite Hrec, Hr. apply orb_true_r. }
    rewrite Hc. eexists. split; [reflexivity|]. by repeat split.
Qed.

Lemma SlruPhysicalReadPage_open_failure_witness :
  let w := ex_world_in_recovery (SimpleLruInit 1 0) in
  exists w', SlruPhysicalReadPage ex_ctl 5 0 w = Returned true w' /\
             buffer_of w' 0 = zero_page.
Proof.
  intros w.
  apply (SlruPhysicalReadPage_open_failure ex_ctl 5 0 w ("pg_clog", "0000")%string
           (set_errno ENOENT w)).
  - vm_compute. reflexivity.
  - vm_compute. reflexivity.
  - vm_compute. lia.
  - split; vm_compute; reflexivity.
Defined.

(** ** SimpleLruTruncate: the wraparound refusal *)

(** C3, as amended.  For every cutoff page such that the latest page
    precedes the cutoff as the code rounds it,
    [cutoffPage - cutoffPage % SLRU_PAGES_PER_SEGMENT] with C's remainder,
    the truncation is refused: no segment file is removed and the shared
    state of the slots is as before; only the refusal is logged (and the
    control lock, if the call took it, is released again).  The rounding
    is toward zero: down to the segment boundary for a cutoff that is not
    negative, up for a negative one. *)
Theorem SimpleLruTruncate_refuses_wraparound (fuel : nat) (ctl : SlruCtlData)
    (cutoffPage : Z) (lockHeld : bool) (w : World) :
  PagePrecedes ctl (latest_page_number (shared w)) (segment_start cutoffPage)
    = true ->
  (exists w',
     SimpleLruTruncate_internal (S fuel) ctl cutoffPage lockHeld w
       = Returned tt w' /\
     shared w' = shared w /\
     disk w' = disk w /\
     buffer_locks w' = buffer_locks w /\
     ControlLock w' = (if lockHeld then ControlLock w else None) /\
     server_log w' = LogApparentWraparound (Dir ctl) :: server_log w) /\
  (in_int cutoffPage ->
   segment_start cutoffPage
   = SLRU_PAGES_PER_SEGMENT * (cutoffPage ÷ SLRU_PAGES_PER_SEGMENT)) /\
  (0 <= cutoffPage -> in_int cutoffPage ->
   segment_start cutoffPage
   = SLRU_PAGES_PER_SEGMENT * (cutoffPage / SLRU_PAGES_PER_SEGMENT)).
Proof.
  intros Hwrap. split; [|split].
  - unfold SimpleLruTruncate_internal, bind, step, ret.
    cbn [SimpleLruTruncate_restart].
    destruct lockHeld; cbn; rewrite Hwrap; eexists; split; try reflexivity;
      by repeat split.
  - apply segment_start_toward_zero.
  - apply segment_start_floor.
Qed.

Lemma SimpleLruTruncate_refuses_wraparound_witness :
  exists w',
    SimpleLruTruncate_internal 1 ex_ctl 70 false
      (ex_world pool_latest_16) = Returned tt w' /\
    shared w' = pool_latest_16 /\
    disk w' = ∅ /\
    server_log w' = [LogApparentWraparound "pg_clog"].
Proof.
  destruct (SimpleLruTruncate_refuses_wraparound 0 ex_ctl 70 false
              (ex_world pool_latest_16)) as [(w' & Hrun & Hsh & Hd & _ & _ & Hlog) _].
  - vm_compute. reflexivity.
  - exists w'. split; [exact Hrun|]. split; [exact Hsh|].
    split; [exact Hd|exact Hlog].
Defined.

(** C3, as stated, fails for a negative cutoff under the cyclic page
    order.  In [world_latest_16] the latest page is 16 and segment FFFF is
    on disk.  The latest page precedes the cutoff -2147483632, and also
    the cutoff rounded down to its segment boundary, -2147483648; but the
    code rounds the cutoff up, to -2147483616, which the latest page does
    not precede.  The truncation is not refused: nothing is logged about a
    wraparound, the file of segment FFFF is removed, and slot 0, which
    held its first page, is set EMPTY. *)
Lemma SimpleLruTruncate_negative_cutoff_not_refused :
  let cutoffPage := -2147483632 in
  let w := world_latest_16 in
  let w' := world_after (SimpleLruTruncate_internal 9 cyclic_ctl cutoffPage true) w in
  latest_page_number (shared w) = 16 /\
  PagePrecedes cyclic_ctl (latest_page_number (shared w)) cutoffPage = true /\
  SLRU_PAGES_PER_SEGMENT * (cutoffPage / SLRU_PAGES_PER_SEGMENT) = -2147483648 /\
  PagePrecedes cyclic_ctl (latest_page_number (shared w))
    (SLRU_PAGES_PER_SEGMENT * (cutoffPage / SLRU_PAGES_PER_SEGMENT)) = true /\
  segment_start cutoffPage = -2147483616 /\
  SimpleLruTruncate_internal 9 cyclic_ctl cutoffPage true w = Returned tt w' /\
  server_log w' = [LogRemovingFile ("pg_clog", "FFFF")] /\
  is_Some (disk w !! ("pg_clog", "FFFF")) /\
  disk w' !! ("pg_clog", "FFFF") = None /\
  status_of w 0 = SLRU_PAGE_VALID /\
  status_of w' 0 = SLRU_PAGE_EMPTY.
Proof.
  cbv zeta.
  split; [vm_compute; reflexivity|].
  split; [vm_compute; reflexivity|].
  split; [vm_compute; reflexivity|].
  split; [vm_compute; reflexivity|].
  split; [vm_compute; reflexivity|].
  split.
  { apply (Returned_after
             (SimpleLruTruncate_internal 9 cyclic_ctl (-2147483632) true)
             world_latest_16 tt).
    vm_compute. reflexivity. }
  split; [vm_compute; reflexivity|].
  split.
  { destruct (disk world_latest_16 !! ("pg_clog", "FFFF")) eqn:H; [by eexists|].
    exfalso. revert H. vm_compute. discriminate. }
  repeat split; vm_compute; reflexivity.
Qed.

(** ** SimpleLruTruncate: the slots *)

Lemma only_status_refl w : only_status w w.
Proof.
  exists (page_status (shared w)). split; [done|].
  destruct w as [s ? ? ? ? ? ? ? ? ? ? ?]. by destruct s.
Qed.

Lemma only_status_set_status w w1 i st :
  only_status w w1 -> only_status w (set_status i st w1).
Proof.
  intros (l & Hl & ->). exists (<[i := st]> l).
  split; [by rewrite length_insert|done].
Qed.

Lemma only_status_facts w w1 :
  only_status w w1 ->
  stable w w1 /\
  disk w1 = disk w /\
  ControlLock w1 = ControlLock w /\
  server_log w1 = server_log w /\
  page_dirty (shared w1) = page_dirty (shared w) /\
  page_lru_count (shared w1) = page_lru_count (shared w) /\
  (forall j, dirty_of w1 j = dirty_of w j) /\
  (forall j, number_of w1 j = number_of w j).
Proof.
  intros (l & Hl & ->). unfold stable. cbn. by repeat split.
Qed.

Lemma truncate_scan_spec ctl c slots :
  forall w r w1,
    NoDup slots ->
    (forall i, i ∈ slots -> (i < length (page_status (shared w)))%nat) ->
    truncate_scan ctl c slots w = (r, w1) ->
    only_status w w1 /\
    (forall j, status_of w1 j = status_of w j \/
       (status_of w1 j = SLRU_PAGE_EMPTY /\ status_of w j = SLRU_PAGE_VALID /\
        dirty_of w j = false)) /\
    (forall j, j ∉ slots -> status_of w1 j = status_of w j) /\
    match r with
    | inr _ =>
        forall i, i ∈ slots -> status_of w1 i <> SLRU_PAGE_EMPTY ->
          PagePrecedes ctl (number_of w1 i) c = false
    | inl i =>
        i ∈ slots /\ status_of w1 i <> SLRU_PAGE_EMPTY /\
        ~ (status_of w1 i = SLRU_PAGE_VALID /\ dirty_of w1 i = false)
    end.
Proof.
  induction slots as [|k rest IH]; intros w r w1 Hnd Hlen H.
  { cbn in H. inversion H; subst. split; [apply only_status_refl|].
    split; [by left|]. split; [done|]. intros i Hi. by apply elem_of_nil in Hi. }
  apply NoDup_cons in Hnd as [Hk Hnd].
  assert (Hlen' : forall i, i ∈ rest -> (i < length (page_status (shared w)))%nat).
  { intros i Hi. apply Hlen. by apply elem_of_cons; right. }
  cbn [truncate_scan] in H.
  destruct (decide (status_of w k = SLRU_PAGE_EMPTY)) as [He|He].
  { destruct (IH _ _ _ Hnd Hlen' H) as (Hos & Hch & Hout & Hr).
    split; [done|]. split; [done|].
    split; [intros j Hj; apply Hout; intros ?; apply Hj; by apply elem_of_cons; right|].
    destruct r as [i|[]].
    - destruct Hr as (Hi & Hrest). split; [by apply elem_of_cons; right|done].
    - intros i Hi Hne. apply elem_of_cons in Hi as [->|Hi]; [|by apply Hr].
      rewrite (Hout k Hk) in Hne. done. }
  destruct (PagePrecedes ctl (number_of w k) c) eqn:Hp; cbn [negb] in H.
  2:{ destruct (IH _ _ _ Hnd Hlen' H) as (Hos & Hch & Hout & Hr).
      split; [done|]. split; [done|].
      split; [intros j Hj; apply Hout; intros ?; apply Hj; by apply elem_of_cons; right|].
      destruct r as [i|[]].
      - destruct Hr as (Hi & Hrest). split; [by apply elem_of_cons; right|done].
      - intros i Hi Hne. apply elem_of_cons in Hi as [->|Hi]; [|by apply Hr].
        destruct (only_status_facts _ _ Hos) as (_ & _ & _ & _ & _ & _ & _ & Hnum).
        by rewrite Hnum. }
  destruct (bool_decide (status_of w k = SLRU_PAGE_VALID) && negb (dirty_of w k))
    eqn:Hclean.
  - apply andb_true_iff in Hclean as [Hv Hd].
    apply bool_decide_eq_true in Hv. apply negb_true_iff in Hd.
    assert (Hk_in : (k < length (page_status (shared w)))%nat).
    { apply Hlen. by apply elem_of_cons; left. }
    assert (Hlen2 : forall i, i ∈ rest ->
              (i < length (page_status (shared (set_status k SLRU_PAGE_EMPTY w))))%nat).
    { intros i Hi. cbn. rewrite length_insert. by apply Hlen'. }
    destruct (IH _ _ _ Hnd Hlen2 H) as (Hos & Hch & Hout & Hr).
    assert (Hos' : only_status w w1).
    { destruct Hos as (l & Hl & ->). exists l. split; [|done].
      cbn in Hl. by rewrite length_insert in Hl. }
    split; [done|].
    assert (Hk1 : status_of w1 k = SLRU_PAGE_EMPTY).
    { rewrite (Hout k Hk). by apply status_of_set_status_eq. }
    split.
    { intros j. destruct (decide (j = k)) as [->|Hjk].
      - right. done.
      - destruct (Hch j) as [Hj|(Hj1 & Hj2 & Hj3)].
        + left. rewrite Hj. by apply status_of_set_status_ne.
        + right. rewrite status_of_set_status_ne in Hj2 by done. done. }
    split.
    { intros j Hj. rewrite Hout.
      - apply status_of_set_status_ne. intros ->. apply Hj. by apply elem_of_cons; left.
      - intros ?. apply Hj. by apply elem_of_cons; right. }
    destruct r as [i|[]].
    + destruct Hr as (Hi & Hrest). split; [by apply elem_of_cons; right|done].
    + intros i Hi Hne. apply elem_of_cons in Hi as [->|Hi]; [done|by apply Hr].
  - inversion H; subst. split; [apply only_status_refl|].
    split; [by left|]. split; [done|].
    split; [by apply elem_of_cons; left|]. split; [done|].
    intros [Hv Hd]. rewrite Hv, Hd in Hclean.
    rewrite bool_decide_eq_true_2 in Hclean by done. done.
Qed.

Lemma SimpleLruTruncate_restart_spec ctl c lockHeld fuel :
  forall w,
    shared_wf (shared w) ->
    PagePrecedes ctl (latest_page_number (shared w)) c = false ->
    match SimpleLruTruncate_restart fuel ctl c lockHeld w with
    | Returned b w' =>
        b = true /\ stable w w' /\
        (forall i, (i < num_slots (shared w'))%nat ->
           status_of w' i <> SLRU_PAGE_EMPTY ->
           PagePrecedes ctl (number_of w' i) c = false)
    | Raised e w' => stable w w'
    | OutOfFuel => (fuel <= pending w)%nat
    end.
Proof.
  induction fuel as [|fuel IH]; intros w Hwf Hlatest; [cbn; lia|].
  cbn [SimpleLruTruncate_restart]. rewrite Hlatest.
  destruct Hwf as (Hwb & Hws & Hwd & Hwn & Hwl).
  assert (Hwf : shared_wf (shared w)) by done.
  assert (Hlen : forall i, i ∈ all_slots (shared w) ->
            (i < length (page_status (shared w)))%nat).
  { intros i Hi. apply elem_of_seq in Hi. lia. }
  destruct (truncate_scan ctl c (all_slots (shared w)) w) as [[i|[]] w1] eqn:Hscan.
  all: destruct (truncate_scan_spec ctl c _ _ _ _ (NoDup_seq _ _) Hlen Hscan)
         as (Hos & Hch & _ & Hr).
  all: destruct (only_status_facts _ _ Hos)
         as (Hstab & _ & _ & _ & _ & _ & Hdirty & Hnumber).
  2:{ split; [done|]. split; [done|]. intros j Hj. apply Hr.
      apply elem_of_seq. destruct Hstab as (Hn & _). lia. }
  destruct Hr as (Hi & Hne & Hnc). apply elem_of_seq in Hi.
  assert (Hp1 : (pending w1 <= pending w)%nat).
  { apply pending_le; [apply Hstab|]. intros j _. rewrite Hdirty.
    destruct (Hch j) as [->|(-> & -> & ->)]; [lia|]. cbn. lia. }
  pose proof (stable_wf _ _ Hstab Hwf) as Hwf1.
  destruct Hwf1 as (_ & Hl1s & Hl1d & _ & _).
  destruct Hstab as (Hn1 & Hrest1).
  assert (Hstab : stable w w1) by (by split).
  unfold bind.
  destruct (decide (status_of w1 i = SLRU_PAGE_VALID)) as [Hv|Hv]; cbv beta.
  - assert (Hd : dirty_of w1 i = true).
    { destruct (dirty_of w1 i) eqn:Hd; [done|]. exfalso. by apply Hnc. }
    rewrite (SimpleLruWritePage_dirty _ _ _ _ _ Hv Hd). cbv zeta.
    pose proof (end_write_begin_write ctl (number_of w1 i) i None
                  (SlruPhysicalWritePage ctl (number_of w1 i) i None
                     (begin_write i w1)).1.1
                  w1 ltac:(lia) ltac:(lia))
      as (Hst3 & _ & _ & _ & Hv3 & Hd3 & Hoth3).
    cbv zeta in Hst3, Hv3, Hd3, Hoth3.
    destruct (SlruPhysicalWritePage ctl (number_of w1 i) i None
                (begin_write i w1)) as [[ok fd] w3].
    cbn [fst snd] in *.
    set (w4 := end_write i ok w3) in *.
    assert (Hstab4 : stable w w4) by (by eapply stable_trans).
    destruct ok; cbn [ret].
    + assert (Hp4 : (pending w4 < pending w)%nat).
      { apply Nat.lt_le_trans with (m := pending w1); [|done].
        apply pending_lt with (i := i); [apply Hst3|lia|done|].
        rewrite Hv3, Hd3, Hv, Hd. cbn. lia. }
      assert (Hlat4 : PagePrecedes ctl (latest_page_number (shared w4)) c = false).
      { destruct Hstab4 as (_ & _ & -> & _). done. }
      specialize (IH w4 (stable_wf _ _ Hstab4 Hwf) Hlat4).
      destruct (SimpleLruTruncate_restart fuel ctl c lockHeld w4)
        as [b w5|e w5|].
      * destruct IH as (Hb & Hs5 & Hslots).
        split; [done|]. split; [by eapply stable_trans|done].
      * by eapply stable_trans.
      * lia.
    + set (w5 := set_errno _ w4).
      assert (Hstab5 : stable w4 w5) by (by repeat split).
      by eapply stable_trans.
  - unfold step.
    pose proof (SimpleLruWaitIO_spec i w1)
      as (Hst3 & _ & _ & _ & _ & Hoth3 & _ & Hrd & Hwr).
    cbv zeta in Hst3, Hoth3, Hrd, Hwr.
    set (w3 := SimpleLruWaitIO i w1) in *.
    assert (Hstab3 : stable w w3) by (by eapply stable_trans).
    assert (Hp3 : (pending w3 < pending w)%nat).
    { apply Nat.lt_le_trans with (m := pending w1); [|done].
      apply pending_lt with (i := i); [apply Hst3|lia|done|].
      destruct (status_of w1 i) eqn:Hst; try done.
      + destruct Hrd as [-> _]; [lia|done|]. cbn. lia.
      + destruct Hwr as [-> ->]; [lia|lia|done|]. cbn. lia. }
    assert (Hlat3 : PagePrecedes ctl (latest_page_number (shared w3)) c = false).
    { destruct Hstab3 as (_ & _ & -> & _). done. }
    specialize (IH w3 (stable_wf _ _ Hstab3 Hwf) Hlat3).
    destruct (SimpleLruTruncate_restart fuel ctl c lockHeld w3)
      as [b w5|e w5|].
    * destruct IH as (Hb & Hs5 & Hslots).
      split; [done|]. split; [by eapply stable_trans|done].
    * by eapply stable_trans.
    * lia.
Qed.

(** ** SlruScanDirectory *)

Lemma elem_of_dir_entries (dir : string)
    (d : gmap (string * string) (list byte)) (name : string) :
  name ∈ dir_entries dir d <-> is_Some (d !! (dir, name)).
Proof.
  unfold dir_entries. rewrite list_elem_of_fmap. split.
  - intros ([[d' n] v] & -> & Hin). apply list_elem_of_filter in Hin as [Hd Hin].
    cbn in Hd. subst d'. apply elem_of_map_to_list in Hin. cbn. eauto.
  - intros [v Hv]. exists ((dir, name), v). split; [done|].
    apply list_elem_of_filter. split; [done|]. by apply elem_of_map_to_list.
Qed.

Lemma SlruScanDirectory_loop_spec ctl c dir entries :
  forall found w b w',
    dir = TxnDir (Dir ctl) w ->
    SlruScanDirectory_loop ctl c true dir entries found w = Returned b w' ->
    shared w' = shared w /\
    txn_filespace w' = txn_filespace w /\
    ControlLock w' = ControlLock w /\
    forall name,
      disk w' !! (dir, name) =
        if decide (name ∈ entries /\ removable ctl c name = true) then None
        else disk w !! (dir, name).
Proof.
  induction entries as [|d_name rest IH]; intros found w b w' Hdir H.
  { cbn in H. inversion H; subst. split; [done|]. split; [done|]. split; [done|].
    intros name. rewrite decide_False; [done|]. intros [Hin _].
    by apply elem_of_nil in Hin. }
  cbn [SlruScanDirectory_loop] in H.
  destruct (removable ctl c d_name) eqn:Hrem.
  - case_decide as Hlen; [done|].
    unfold bind, step in H.
    set (w2 := MirroredFlatFile_Drop (Dir ctl) d_name
                 (ereport_LOG (LogRemovingFile (dir, d_name)) w)) in H.
    assert (Hdir2 : dir = TxnDir (Dir ctl) w2) by done.
    destruct (IH _ _ _ _ Hdir2 H) as (Hsh & Hfs & Hcl & Hfiles).
    repeat split; try done.
    intros name. rewrite Hfiles.
    assert (Hd2 : disk w2 = delete (dir, d_name) (disk w)).
    { subst w2. rewrite Hdir. reflexivity. }
    destruct (decide (name = d_name)) as [->|Hne].
    + rewrite (decide_True (P := d_name ∈ d_name :: rest /\ _));
        [|split; [by apply elem_of_cons; left|done]].
      case_decide; [done|]. rewrite Hd2. apply lookup_delete_eq.
    + rewrite Hd2. rewrite lookup_delete_ne by congruence.
      destruct (decide (name ∈ rest /\ removable ctl c name = true)) as [[? ?]|Hn].
      * rewrite decide_True; [done|]. split; [by apply elem_of_cons; right|done].
      * rewrite decide_False; [done|]. intros [Hin ?]. apply Hn.
        apply elem_of_cons in Hin as [?|?]; done.
  - destruct (IH _ _ _ _ Hdir H) as (Hsh & Hfs & Hcl & Hfiles).
    repeat split; try done.
    intros name. rewrite Hfiles.
    destruct (decide (name ∈ rest /\ removable ctl c name = true)) as [[? ?]|Hn].
    + rewrite decide_True; [done|]. split; [by apply elem_of_cons; right|done].
    + rewrite decide_False; [done|]. intros [Hin ?]. apply Hn.
      apply elem_of_cons in Hin as [->|?]; [congruence|done].
Qed.

Lemma int32_mul32 q : exists k, int32 (32 * q) = 32 * k.
Proof.
  unfold int32. exists ((q + 67108864) mod 134217728 - 67108864).
  replace (32 * q + 2147483648) with (32 * (q + 67108864)) by lia.
  replace 4294967296 with (32 * 134217728) by lia.
  rewrite Z.mul_mod_distr_l by lia. lia.
Qed.

(** Rounding to the start of the segment twice is rounding once. *)
Lemma segment_start_idem c : segment_start (segment_start c) = segment_start c.
Proof.
  unfold segment_start, int_sub, int_mod, SLRU_PAGES_PER_SEGMENT.
  pose proof (Z.quot_rem' c 32) as Hqr.
  replace (c - Z.rem c 32) with (32 * (c ÷ 32)) by lia.
  destruct (int32_mul32 (c ÷ 32)) as [k Hk]. rewrite Hk.
  replace (32 * k) with (k * 32) by lia.
  rewrite Z.rem_mul by lia. rewrite Z.sub_0_r.
  replace (k * 32) with (32 * k) by lia. rewrite <- Hk.
  apply int32_id. apply int32_range.
Qed.

(** ** SimpleLruTruncate: what is left afterwards *)

(** The directory scan has no loop that could be cut short. *)
Lemma SlruScanDirectory_loop_ends ctl c doDeletions dir entries :
  forall found w,
    SlruScanDirectory_loop ctl c doDeletions dir entries found w <> OutOfFuel.
Proof.
  induction entries as [|d rest IH]; intros found w; [done|].
  cbn [SlruScanDirectory_loop].
  destruct (removable ctl c d); [|apply IH].
  destruct doDeletions; [|apply IH].
  case_decide; [done|]. unfold bind, step. apply IH.
Qed.

(** C2, as amended.  For every cutoff page, with the cutoff as the code
    rounds it, [cutoffPage - cutoffPage % SLRU_PAGES_PER_SEGMENT] with C's
    remainder: when the truncation is not refused as a wraparound and
    completes, no slot is left with a status other than EMPTY and a page
    that precedes the rounded cutoff, and no segment file whose name is
    four upper-case hex digits is left in the directory whose first page
    (segment number times SLRU_PAGES_PER_SEGMENT) precedes the rounded
    cutoff.  The rounding is toward zero: down to the segment boundary for
    a cutoff that is not negative, up for a negative one.  With more fuel
    than the I/O the pool owes, the truncation does complete or raises the
    error of a failed write. *)
Theorem SimpleLruTruncate_safe (fuel : nat) (ctl : SlruCtlData)
    (cutoffPage : Z) (lockHeld : bool) (w : World) :
  shared_wf (shared w) ->
  PagePrecedes ctl (latest_page_number (shared w)) (segment_start cutoffPage)
    = false ->
  ((pending w < fuel)%nat ->
   SimpleLruTruncate_internal fuel ctl cutoffPage lockHeld w <> OutOfFuel) /\
  (forall w',
     SimpleLruTruncate_internal fuel ctl cutoffPage lockHeld w = Returned tt w' ->
     (forall slotno, (slotno < num_slots (shared w'))%nat ->
        status_of w' slotno <> SLRU_PAGE_EMPTY ->
        PagePrecedes ctl (number_of w' slotno) (segment_start cutoffPage) = false) /\
     (forall name,
        is_Some (disk w' !! (TxnDir (Dir ctl) w', name)) ->
        isSlruFileName name = true ->
        PagePrecedes ctl (int_mul (strtol16 name) SLRU_PAGES_PER_SEGMENT)
          (segment_start cutoffPage) = false)) /\
  (in_int cutoffPage ->
   segment_start cutoffPage
   = SLRU_PAGES_PER_SEGMENT * (cutoffPage ÷ SLRU_PAGES_PER_SEGMENT)) /\
  (0 <= cutoffPage -> in_int cutoffPage ->
   segment_start cutoffPage
   = SLRU_PAGES_PER_SEGMENT * (cutoffPage / SLRU_PAGES_PER_SEGMENT)).
Proof.
  intros Hwf Hlatest.
  set (c := segment_start cutoffPage) in *.
  set (w0 := if lockHeld then w else LWLockAcquire_ControlLock LW_EXCLUSIVE w).
  assert (Hsh0 : shared w0 = shared w) by (subst w0; by destruct lockHeld).
  assert (Hpend0 : pending w0 = pending w).
  { apply pending_ext; by rewrite Hsh0. }
  assert (Hrun : SimpleLruTruncate_internal fuel ctl cutoffPage lockHeld w =
            match SimpleLruTruncate_restart fuel ctl c lockHeld w0 with
            | Returned true w1 =>
                match SlruScanDirectory ctl c true
                        (if lockHeld then w1 else LWLockRelease_ControlLock w1) with
                | Returned _ w3 => Returned tt w3
                | Raised e w3 => Raised e w3
                | OutOfFuel => OutOfFuel
                end
            | Returned false w1 => Returned tt w1
            | Raised e w1 => Raised e w1
            | OutOfFuel => OutOfFuel
            end).
  { unfold SimpleLruTruncate_internal, bind, step, ret. fold c. fold w0.
    destruct (SimpleLruTruncate_restart fuel ctl c lockHeld w0) as [[] w1|e w1|];
      done. }
  rewrite Hrun.
  pose proof (SimpleLruTruncate_restart_spec ctl c lockHeld fuel w0) as Hspec.
  rewrite Hsh0 in Hspec. specialize (Hspec Hwf Hlatest).
  split; [|split; [|split]].
  - intros Hfuel.
    destruct (SimpleLruTruncate_restart fuel ctl c lockHeld w0) as [b w1|e w1|];
      [|done|lia].
    destruct b; [|done].
    unfold SlruScanDirectory.
    set (w2 := if lockHeld then w1 else LWLockRelease_ControlLock w1).
    pose proof (SlruScanDirectory_loop_ends ctl (segment_start c) true
                  (TxnDir (Dir ctl) w2)
                  (dir_entries (TxnDir (Dir ctl) w2) (disk w2)) false w2) as Hends.
    destruct (SlruScanDirectory_loop ctl (segment_start c) true _ _ false w2);
      done.
  - intros w' Hret.
    destruct (SimpleLruTruncate_restart fuel ctl c lockHeld w0) as [b w1|e w1|];
      [|done..].
    destruct Hspec as (-> & Hstab & Hslots).
    set (w2 := if lockHeld then w1 else LWLockRelease_ControlLock w1) in *.
    assert (Hsh2 : shared w2 = shared w1) by (subst w2; by destruct lockHeld).
    destruct (SlruScanDirectory ctl c true w2) as [b w3|e w3|] eqn:Hscan;
      [|done..].
    inversion Hret; subst w3. clear Hret.
    unfold SlruScanDirectory in Hscan.
    unfold c in Hscan at 1. rewrite segment_start_idem in Hscan. fold c in Hscan.
    destruct (SlruScanDirectory_loop_spec ctl c _ _ _ _ _ _ eq_refl Hscan)
      as (Hsh3 & Hfs3 & _ & Hfiles).
    split.
    + intros slotno Hslot Hne. unfold number_of, status_of in *.
      rewrite Hsh3, Hsh2 in *. by apply Hslots.
    + intros name Hsome Hseg.
      assert (Hdir : TxnDir (Dir ctl) w' = TxnDir (Dir ctl) w2).
      { unfold TxnDir. by rewrite Hfs3. }
      rewrite Hdir, Hfiles in Hsome.
      case_decide as Hrem; [by destruct Hsome|].
      assert (Hin : name ∈ dir_entries (TxnDir (Dir ctl) w2) (disk w2))
        by (by apply elem_of_dir_entries).
      unfold removable in Hrem. rewrite Hseg in Hrem. cbn [andb] in Hrem.
      destruct (PagePrecedes ctl (int_mul _ _) c) eqn:Hp; [|done].
      exfalso. by apply Hrem.
  - intros Hint. by apply segment_start_toward_zero.
  - intros Hpos Hint. by apply segment_start_floor.
Qed.

Lemma SimpleLruTruncate_safe_witness :
  let w' :=
    world_after (SimpleLruTruncate_internal 9 ex_ctl 70 false) world_four_slots in
  SimpleLruTruncate_internal 9 ex_ctl 70 false world_four_slots = Returned tt w' /\
  forall slotno, (slotno < num_slots (shared w'))%nat ->
    status_of w' slotno <> SLRU_PAGE_EMPTY ->
    PagePrecedes ex_ctl (number_of w' slotno) (segment_start 70) = false.
Proof.
  intros w'.
  assert (Hrun : SimpleLruTruncate_internal 9 ex_ctl 70 false world_four_slots
                 = Returned tt w').
  { apply (Returned_after (SimpleLruTruncate_internal 9 ex_ctl 70 false)
             world_four_slots tt).
    vm_compute. reflexivity. }
  split; [exact Hrun|].
  destruct (SimpleLruTruncate_safe 9 ex_ctl 70 false world_four_slots)
    as (_ & Hsafe & _).
  - repeat split; vm_compute; reflexivity.
  - vm_compute. reflexivity.
  - destruct (Hsafe w' Hrun) as [Hslots _]. exact Hslots.
Defined.

(** C2, as stated, fails in two ways.  For a negative cutoff the code
    rounds up, not down: in [world_latest_16], under the cyclic page
    order, the truncation at -2147483632 completes unrefused and leaves
    slot 1 VALID with page 16, which precedes the cutoff and the cutoff
    rounded down to its segment boundary.  And a segment file whose name is
    longer than four hex digits is never removed: in [world_long_segment]
    the write of page 2097152 created the file 10000 of segment 65536, its
    first page precedes the cutoff 2097216, the truncation completes
    unrefused, and the file is still there. *)
Lemma SimpleLruTruncate_unsafe_as_claimed :
  (let cutoffPage := -2147483632 in
   let w := world_latest_16 in
   let w' := world_after (SimpleLruTruncate_internal 9 cyclic_ctl cutoffPage true) w in
   SimpleLruTruncate_internal 9 cyclic_ctl cutoffPage true w = Returned tt w' /\
   server_log w' = [LogRemovingFile ("pg_clog", "FFFF")] /\
   status_of w' 1 = SLRU_PAGE_VALID /\
   number_of w' 1 = 16 /\
   PagePrecedes cyclic_ctl (number_of w' 1) cutoffPage = true /\
   PagePrecedes cyclic_ctl (number_of w' 1)
     (SLRU_PAGES_PER_SEGMENT * (cutoffPage / SLRU_PAGES_PER_SEGMENT)) = true) /\
  (let cutoffPage := 2097216 in
   let w := world_long_segment in
   let w' := world_after (SimpleLruTruncate_internal 9 ex_ctl cutoffPage true) w in
   SimpleLruTruncate_internal 9 ex_ctl cutoffPage true w = Returned tt w' /\
   server_log w' = [] /\
   SlruSimpleFileName 65536 = "10000"%string /\
   is_Some (disk w' !! (TxnDir (Dir ex_ctl) w', "10000"%string)) /\
   segment_start cutoffPage = cutoffPage /\
   PagePrecedes ex_ctl (int_mul 65536 SLRU_PAGES_PER_SEGMENT) cutoffPage = true).
Proof.
  cbv zeta. split.
  - split.
    { apply (Returned_after
               (SimpleLruTruncate_internal 9 cyclic_ctl (-2147483632) true)
               world_latest_16 tt).
      vm_compute. reflexivity. }
    repeat split; vm_compute; reflexivity.
  - split.
    { apply (Returned_after
               (SimpleLruTruncate_internal 9 ex_ctl 2097216 true)
               world_long_segment tt).
      vm_compute. reflexivity. }
    split; [vm_compute; reflexivity|].
    split; [vm_compute; reflexivity|].
    split.
    { match goal with |- is_Some ?x => destruct x eqn:H end; [by eexists|].
      exfalso. revert H. vm_compute. discriminate. }
    split; vm_compute; reflexivity.
Qed.

(** ** SimpleLruFlush: the error after the fsync loop *)

Lemma SimpleLruFlush_fsync_spec ctl fdata idxs :
  forall st w,
    let r := SimpleLruFlush_fsync ctl fdata idxs st w in
    os_fault r.2 = os_fault w /\
    shared r.2 = shared w /\
    ((forall j, j ∈ idxs -> fsync_failure ctl fdata w j = None) ->
     r.1 = st /\ slru_errcause r.2 = slru_errcause w /\
     slru_errno r.2 = slru_errno w) /\
    (forall before i after e,
       idxs = before ++ i :: after ->
       fsync_failure ctl fdata w i = Some e ->
       (forall j, j ∈ after -> fsync_failure ctl fdata w j = None) ->
       r.1 = mkFsync false
               (int_mul (segno_of fdata !!! i) SLRU_PAGES_PER_SEGMENT) /\
       slru_errcause r.2 = SLRU_FSYNC_FAILED /\
       slru_errno r.2 = e).
Proof.
  induction idxs as [|k rest IH]; intros st w.
  { cbn. split; [done|]. split; [done|]. split; [done|].
    intros before i after e H. by destruct before. }
  cbn [SimpleLruFlush_fsync]. cbv zeta.
  assert (Hstep :
    exists st1 w1,
      (if do_fsync ctl then
         match MirroredFlatFile_Flush (mirroredOpens fdata !!! k) w with
         | (true, w0) =>
             SimpleLruFlush_fsync ctl fdata rest
               (mkFsync false
                  (int_mul (segno_of fdata !!! k) SLRU_PAGES_PER_SEGMENT))
               (save_error SLRU_FSYNC_FAILED w0)
         | (false, w0) => SimpleLruFlush_fsync ctl fdata rest st w0
         end
       else SimpleLruFlush_fsync ctl fdata rest st w)
      = SimpleLruFlush_fsync ctl fdata rest st1 w1 /\
      os_fault w1 = os_fault w /\ shared w1 = shared w /\
      match fsync_failure ctl fdata w k with
      | Some e =>
          st1 = mkFsync false
                  (int_mul (segno_of fdata !!! k) SLRU_PAGES_PER_SEGMENT) /\
          slru_errcause w1 = SLRU_FSYNC_FAILED /\ slru_errno w1 = e
      | None =>
          st1 = st /\ slru_errcause w1 = slru_errcause w /\
          slru_errno w1 = slru_errno w
      end).
  { unfold fsync_failure, MirroredFlatFile_Flush.
    destruct (do_fsync ctl); [|by exists st, w].
    destruct (os_fault w OS_FSYNC _) as [e|]; [|by exists st, w].
    eexists _, _. split; [reflexivity|]. by repeat split. }
  destruct Hstep as (st1 & w1 & -> & Hf1 & Hsh1 & Hk).
  specialize (IH st1 w1). cbv zeta in IH.
  destruct IH as (Hf & Hsh & Hnone & Hlast).
  assert (Hfail : forall j, fsync_failure ctl fdata w1 j = fsync_failure ctl fdata w j).
  { intros j. unfold fsync_failure. by rewrite Hf1. }
  split; [congruence|]. split; [congruence|]. split.
  - intros Hall.
    rewrite (Hall k ltac:(by apply elem_of_cons; left)) in Hk.
    destruct Hk as (-> & <- & <-). apply Hnone.
    intros j Hj. rewrite Hfail. apply Hall. by apply elem_of_cons; right.
  - intros before i after e Hsplit Hi Hafter.
    destruct before as [|b before]; cbn in Hsplit; inversion Hsplit; subst.
    + rewrite Hi in Hk. destruct Hk as (-> & <- & <-).
      apply Hnone. intros j Hj. rewrite Hfail. by apply Hafter.
    + apply (Hlast before i after e eq_refl).
      * by rewrite Hfail.
      * intros j Hj. rewrite Hfail. by apply Hafter.
Qed.

(** A list with an element that has a decidable property has a last such
    element. *)
Lemma last_such {A} (P : A -> Prop) `{!forall a, Decision (P a)} (l : list A) :
  (exists a, a ∈ l /\ P a) ->
  exists before a after,
    l = before ++ a :: after /\ P a /\ forall b, b ∈ after -> ~ P b.
Proof.
  induction l as [|x l IH]; intros (a & Ha & HP).
  { by apply elem_of_nil in Ha. }
  destruct (decide (Exists P l)) as [Hex|Hnone]; rewrite Exists_exists in *.
  - destruct (IH Hex) as (before & a' & after & -> & HP' & Hafter).
    exists (x :: before), a', after. done.
  - exists [], x, l. split; [done|].
    assert (Hl : forall b, b ∈ l -> ~ P b) by (intros b Hb HPb; apply Hnone; eauto).
    split; [|done].
    apply elem_of_cons in Ha as [->|Ha]; [done|]. by destruct (Hl a Ha).
Qed.

Lemma seq_split_after n before i after :
  seq 0 n = before ++ i :: after ->
  forall j, j ∈ after <-> (i < j < n)%nat.
Proof.
  intros H. destruct (seq_split_at _ _ _ _ H) as [-> Hi].
  assert (Hn : seq 0 n = seq 0 i ++ i :: seq (S i) (n - S i)).
  { replace n with (i + S (n - S i))%nat at 1 by lia.
    rewrite seq_app. done. }
  rewrite Hn in H. apply app_inv_head in H. inversion H; subst.
  intros j. rewrite elem_of_seq. lia.
Qed.

(** C7, as amended.  When one or more fsyncs fail during flush, for every
    table of open files and of fsync outcomes with at least one failure,
    the single I/O error raised after the loop has cause SLRU_FSYNC_FAILED
    and carries the errno and the page number (segment number times
    SLRU_PAGES_PER_SEGMENT) of the LAST segment whose fsync failed. *)
Theorem SimpleLruFlush_reports_last_failure (ctl : SlruCtlData)
    (fdata : SlruFlushData) (w : World) :
  (exists i, (i < num_files fdata)%nat /\ fsync_failure ctl fdata w i <> None) ->
  exists i e w',
    (i < num_files fdata)%nat /\
    fsync_failure ctl fdata w i = Some e /\
    (forall j, (i < j < num_files fdata)%nat ->
       fsync_failure ctl fdata w j = None) /\
    SimpleLruFlush_sync ctl fdata w =
      Raised (SlruIOError SLRU_FSYNC_FAILED e
                (int_mul (segno_of fdata !!! i) SLRU_PAGES_PER_SEGMENT)
                InvalidTransactionId) w'.
Proof.
  intros (i0 & Hi0 & Hf0).
  destruct (last_such (fun i => fsync_failure ctl fdata w i <> None)
              (seq 0 (num_files fdata)))
    as (before & i & after & Hsplit & Hi & Hafter).
  { exists i0. split; [apply elem_of_seq; lia|done]. }
  destruct (fsync_failure ctl fdata w i) as [e|] eqn:He; [|done].
  pose proof (seq_split_after _ _ _ _ Hsplit) as Hrange.
  assert (Hnone : forall j, j ∈ after -> fsync_failure ctl fdata w j = None).
  { intros j Hj. specialize (Hafter j Hj).
    destruct (fsync_failure ctl fdata w j); [|done]. by destruct Hafter. }
  destruct (SimpleLruFlush_fsync_spec ctl fdata (seq 0 (num_files fdata))
              (mkFsync true 0) w) as (_ & _ & _ & Hlast).
  destruct (Hlast before i after e Hsplit He Hnone) as (Hst & Hc & Hn).
  unfold SimpleLruFlush_sync.
  destruct (SimpleLruFlush_fsync ctl fdata (seq 0 (num_files fdata))
              (mkFsync true 0) w) as [st w1].
  cbn [fst snd] in *. subst st. cbn [fsync_ok fsync_pageno].
  unfold SlruReportIOError. rewrite Hc, Hn.
  exists i, e, (set_errno e w1).
  split; [apply seq_split_at in Hsplit; lia|]. split; [done|].
  split; [|done]. intros j Hj. apply Hnone. by apply Hrange.
Qed.

(** C7, as stated, fails: with the files of segments 1 and 2 open and both
    fsyncs failing, the first failing segment is 1, whose first page is 32,
    and the error raised after the loop carries page 64, of segment 2. *)
Lemma SimpleLruFlush_reports_not_first_failure :
  let w := fsync_fails_with 5 (ex_world (SimpleLruInit 1 0)) in
  fsync_failure ex_ctl two_open_files w 0 = Some 5 /\
  int_mul (segno_of two_open_files !!! 0%nat) SLRU_PAGES_PER_SEGMENT = 32 /\
  error_after (SimpleLruFlush_sync ex_ctl two_open_files) w
  = Some (SlruIOError SLRU_FSYNC_FAILED 5 64 InvalidTransactionId).
Proof. repeat split; vm_compute; reflexivity. Qed.

(** The same through [SimpleLruFlush] itself: four dirty pages, of segments
    0 to 3, every fsync failing; the error carries page 96, of the last
    segment. *)
Example SimpleLruFlush_four_segments :
  error_after (SimpleLruFlush 9 ex_ctl true)
    (fsync_fails_with 5 world_four_slots)
  = Some (SlruIOError SLRU_FSYNC_FAILED 5 96 InvalidTransactionId).
Proof. vm_compute. reflexivity. Qed.

Lemma SimpleLruFlush_reports_last_failure_witness :
  let w := fsync_fails_with 5 (ex_world (SimpleLruInit 1 0)) in
  exists i e w',
    (i < num_files two_open_files)%nat /\
    fsync_failure ex_ctl two_open_files w i = Some e /\
    (forall j, (i < j < num_files two_open_files)%nat ->
       fsync_failure ex_ctl two_open_files w j = None) /\
    SimpleLruFlush_sync ex_ctl two_open_files w =
      Raised (SlruIOError SLRU_FSYNC_FAILED e
                (int_mul (segno_of two_open_files !!! i) SLRU_PAGES_PER_SEGMENT)
                InvalidTransactionId) w'.
Proof.
  intros w.
  apply (SimpleLruFlush_reports_last_failure ex_ctl two_open_files w).
  exists 0%nat. split; [vm_compute; lia|]. vm_compute. discriminate.
Defined.

(** ** SimpleLruReadPage_ReadOnly and the control lock *)

(** C9, at the failing input.  [SimpleLruReadPage_ReadOnly] is entered
    without the control lock, with a non-null [valid], for page 5, which is
    in no buffer and whose segment file does not exist.  The read fails,
    [-1] is returned with [*valid = false], and the control lock is NOT
    held at exit: the failure branch of [SimpleLruReadPage_Internal]
    releases it before returning. *)
Theorem SimpleLruReadPage_ReadOnly_failed_read_unlocked :
  let w' := world_after (SimpleLruReadPage_ReadOnly 3 ex_ctl 5 0 true)
              world_no_lock in
  ControlLock world_no_lock = None /\
  SimpleLruReadPage_ReadOnly 3 ex_ctl 5 0 true world_no_lock
  = Returned (-1, Some false) w' /\
  ControlLock w' = None.
Proof.
  intros w'. split; [reflexivity|]. split.
  - apply (Returned_after (SimpleLruReadPage_ReadOnly 3 ex_ctl 5 0 true)
             world_no_lock (-1, Some false)).
    vm_compute. reflexivity.
  - vm_compute. reflexivity.
Qed.

(** ** SlruPhysicalReadPage: what it leaves alone *)

Lemma read_only_buffer_refl slotno w : read_only_buffer slotno w w.
Proof. by repeat split. Qed.

Lemma read_only_buffer_set_buffer slotno b w w2 :
  read_only_buffer slotno w w2 ->
  read_only_buffer slotno w (set_buffer slotno b w2).
Proof.
  unfold read_only_buffer, buffer_of. cbn.
  intros (?&?&?&?&?&?&?&?&?&?&Hb&?&?&?&?&?&?).
  rewrite length_insert. repeat split; try done.
  intros j Hj. rewrite list_lookup_total_insert_ne by done. by apply Hb.
Qed.

Lemma SlruPhysicalReadPage_frame ctl pageno slotno w :
  match SlruPhysicalReadPage ctl pageno slotno w with
  | Returned ok w2 => read_only_buffer slotno w w2
  | Raised e w2 => w2 = w /\ exists dir name, e = CannotGeneratePath dir name
  | OutOfFuel => False
  end.
Proof.
  unfold SlruPhysicalReadPage, bind, SlruFlatFileName.
  case_decide; [split; eauto|].
  unfold BasicOpenFile, lseek, os_read, os_close.
  repeat (case_match; simplify_eq/=);
    try (apply read_only_buffer_set_buffer);
    by repeat split.
Qed.

(** ** Failed I/O: the slot is restored before the error surfaces *)

Lemma SimpleLruReadPage_Internal_miss fuel ctl pageno write_ok xid valid w
    slotno w1 :
  SlruSelectLRUPage (S fuel) ctl pageno w = Returned slotno w1 ->
  ~ (number_of w1 slotno = pageno /\ status_of w1 slotno <> SLRU_PAGE_EMPTY) ->
  SimpleLruReadPage_Internal (S fuel) ctl pageno write_ok xid valid w =
    match SlruPhysicalReadPage ctl pageno slotno (begin_read slotno pageno w1) with
    | Returned ok w2 =>
        let w3 := end_read slotno ok
                    (upd_shared (SimpleLruZeroLSNs slotno) w2) in
        if ok then
          Returned (Z.of_nat slotno, store_valid valid true)
            (upd_shared (SlruRecentlyUsed slotno) w3)
        else if valid then Returned (-1, Some false) (LWLockRelease_ControlLock w3)
        else Raised (SlruIOError (slru_errcause w3) (slru_errno w3) pageno xid)
               (set_errno (slru_errno w3) w3)
    | Raised e w2 => Raised e w2
    | OutOfFuel => OutOfFuel
    end.
Proof.
  intros Hsel Hmiss.
  cbn [SimpleLruReadPage_Internal]. unfold bind at 1. rewrite Hsel.
  unfold bind at 1. unfold gets at 1. unfold id.
  assert (Hc : bool_decide (number_of w1 slotno = pageno) &&
               bool_decide (status_of w1 slotno <> SLRU_PAGE_EMPTY) = false).
  { apply andb_false_iff.
    destruct (decide (number_of w1 slotno = pageno)) as [Hp|Hp].
    - right. apply bool_decide_eq_false. intros Hs. by apply Hmiss.
    - left. by apply bool_decide_eq_false. }
  rewrite Hc. unfold bind, step, ret.
  destruct (SlruPhysicalReadPage ctl pageno slotno (begin_read slotno pageno w1))
    as [ok w2|e w2|]; [|done..].
  cbv zeta. destruct ok, valid; done.
Qed.

Lemma lookup_released (l : list (option LWLockMode)) (i : nat) :
  <[i := None]> l !! i <> Some (Some LW_EXCLUSIVE).
Proof.
  destruct (decide (i < length l)%nat).
  - rewrite list_lookup_insert_eq by done. done.
  - rewrite lookup_ge_None_2; [done|]. rewrite length_insert. lia.
Qed.

Lemma begin_read_length slotno pageno w :
  length (page_status (shared (begin_read slotno pageno w)))
  = length (page_status (shared w)) /\
  length (page_dirty (shared (begin_read slotno pageno w)))
  = length (page_dirty (shared w)).
Proof.
  unfold begin_read.
  set (w3 := LWLockAcquire_buffer _ _ _).
  destruct (same_slots_RecentlyUsed slotno w3) as (_ & _ & Hs & Hd & _).
  change (shared (LWLockRelease_ControlLock ?x)) with (shared x).
  rewrite Hs, Hd. cbn. by rewrite !length_insert.
Qed.

(** C4.  On a physical I/O failure the slot is restored before the error
    surfaces.  A read: when slot selection returns a slot that does not
    hold the page and the physical read into it fails,
    [SimpleLruReadPage_Internal] leaves the slot EMPTY, with its lock
    released, and only then raises the I/O error (or, with [valid] given,
    hands back [-1]).  A write: when the physical write of a dirty VALID
    page fails, [SimpleLruWritePage] leaves the slot VALID and dirty, with
    page number and buffer as they were, and only then raises the I/O
    error; the page can be written again. *)
Theorem io_failure_restores_slot :
  (forall fuel ctl pageno write_ok xid valid w slotno w1 w2,
     SlruSelectLRUPage (S fuel) ctl pageno w = Returned slotno w1 ->
     ~ (number_of w1 slotno = pageno /\ status_of w1 slotno <> SLRU_PAGE_EMPTY) ->
     (slotno < length (page_status (shared w1)))%nat ->
     SlruPhysicalReadPage ctl pageno slotno (begin_read slotno pageno w1)
     = Returned false w2 ->
     exists w',
       SimpleLruReadPage_Internal (S fuel) ctl pageno write_ok xid valid w
       = (if valid then Returned (-1, Some false) w'
          else Raised (SlruIOError (slru_errcause w2) (slru_errno w2) pageno xid)
                 w') /\
       status_of w' slotno = SLRU_PAGE_EMPTY /\
       buffer_locks w' !! slotno <> Some (Some LW_EXCLUSIVE)) /\
  (forall fuel ctl slotno fdata w,
     status_of w slotno = SLRU_PAGE_VALID ->
     dirty_of w slotno = true ->
     (slotno < length (page_dirty (shared w)))%nat ->
     (SlruPhysicalWritePage ctl (number_of w slotno) slotno fdata
        (begin_write slotno w)).1.1 = false ->
     exists cause en w',
       SimpleLruWritePage fuel ctl slotno fdata w
       = Raised (SlruIOError cause en (number_of w slotno) InvalidTransactionId)
           w' /\
       status_of w' slotno = SLRU_PAGE_VALID /\
       dirty_of w' slotno = true /\
       number_of w' slotno = number_of w slotno /\
       buffer_of w' slotno = buffer_of w slotno /\
       ControlLock w' = Some LW_EXCLUSIVE /\
       buffer_locks w' !! slotno <> Some (Some LW_EXCLUSIVE)).
Proof.
  split.
  - intros fuel ctl pageno write_ok xid valid w slotno w1 w2 Hsel Hmiss Hslot Hread.
    rewrite (SimpleLruReadPage_Internal_miss _ _ _ _ _ _ _ _ _ Hsel Hmiss).
    rewrite Hread. cbv zeta.
    pose proof (SlruPhysicalReadPage_frame ctl pageno slotno
                  (begin_read slotno pageno w1)) as Hframe.
    rewrite Hread in Hframe.
    destruct Hframe as (_ & Hst2 & _).
    destruct (begin_read_length slotno pageno w1) as [Hbl _].
    set (w2z := upd_shared (SimpleLruZeroLSNs slotno) w2).
    assert (Hlen : (slotno < length (page_status (shared w2z)))%nat).
    { destruct (same_slots_ZeroLSNs slotno w2) as (_ & _ & Hs & _).
      subst w2z. rewrite Hs, Hst2, Hbl. done. }
    set (w3 := end_read slotno false w2z).
    assert (Hst3 : status_of w3 slotno = SLRU_PAGE_EMPTY).
    { subst w3. unfold end_read.
      change (status_of (LWLockRelease_buffer slotno ?x) slotno)
        with (status_of x slotno).
      apply status_of_set_status_eq. done. }
    assert (Hlock3 : buffer_locks w3 !! slotno <> Some (Some LW_EXCLUSIVE)).
    { subst w3. unfold end_read, LWLockRelease_buffer. cbn.
      apply lookup_released. }
    assert (Herr : slru_errcause w3 = slru_errcause w2 /\
                   slru_errno w3 = slru_errno w2) by done.
    destruct Herr as [-> ->].
    destruct valid; eexists; (split; [reflexivity|]); split; done.
  - intros fuel ctl slotno fdata w Hv Hd Hlen Hfail.
    rewrite (SimpleLruWritePage_dirty _ _ _ _ _ Hv Hd). cbv zeta.
    rewrite Hfail.
    pose proof (status_of_in_range w slotno ltac:(by rewrite Hv)) as Hls.
    pose proof (end_write_begin_write ctl (number_of w slotno) slotno fdata
                  false w Hls Hlen)
      as (Hstab & Hlock & _ & _ & Hv3 & Hd3 & _).
    cbv zeta in Hstab, Hlock, Hv3, Hd3.
    set (w3 := (SlruPhysicalWritePage ctl (number_of w slotno) slotno fdata
                  (begin_write slotno w)).2) in *.
    set (w4 := end_write slotno false w3) in *.
    exists (slru_errcause w4), (slru_errno w4), (set_errno (slru_errno w4) w4).
    split; [done|].
    destruct Hstab as (_ & Hnum & _ & Hbuf & _).
    change (status_of (set_errno ?e w4) slotno) with (status_of w4 slotno).
    change (dirty_of (set_errno ?e w4) slotno) with (dirty_of w4 slotno).
    change (number_of (set_errno ?e w4) slotno) with (number_of w4 slotno).
    change (buffer_of (set_errno ?e w4) slotno) with (buffer_of w4 slotno).
    change (ControlLock (set_errno ?e w4)) with (ControlLock w4).
    change (buffer_locks (set_errno ?e w4)) with (buffer_locks w4).
    unfold number_of, buffer_of. rewrite Hnum, Hbuf.
    repeat split; try done.
    subst w4. unfold end_write, LWLockRelease_buffer. cbn.
    apply lookup_released.
Qed.

Lemma io_failure_restores_slot_witness :
  let w := ex_world (SimpleLruInit 2 0) in
  let w1 := world_after (SlruSelectLRUPage 1 ex_ctl 5) w in
  let w2 := world_after (SlruPhysicalReadPage ex_ctl 5 0) (begin_read 0 5 w1) in
  let ww := write_fails_with 28 world_four_slots in
  (exists w',
     SimpleLruReadPage_Internal 1 ex_ctl 5 false 0 false w
     = Raised (SlruIOError (slru_errcause w2) (slru_errno w2) 5 0) w' /\
     status_of w' 0 = SLRU_PAGE_EMPTY) /\
  (exists cause en w',
     SimpleLruWritePage 1 ex_ctl 0 None ww
     = Raised (SlruIOError cause en (number_of ww 0) InvalidTransactionId) w' /\
     status_of w' 0 = SLRU_PAGE_VALID /\
     dirty_of w' 0 = true).
Proof.
  intros w w1 w2 ww.
  destruct io_failure_restores_slot as [Hread Hwrite].
  split.
  - destruct (Hread 0%nat ex_ctl 5 false 0 false w 0%nat w1 w2)
      as (w' & Heq & Hst & _).
    + apply (Returned_after (SlruSelectLRUPage 1 ex_ctl 5) w 0%nat).
      vm_compute. reflexivity.
    + intros [_ H]. apply H. vm_compute. reflexivity.
    + vm_compute. lia.
    + apply (Returned_after (SlruPhysicalReadPage ex_ctl 5 0)
               (begin_read 0 5 w1) false).
      vm_compute. reflexivity.
    + exists w'. split; [exact Heq|exact Hst].
  - destruct (Hwrite 1%nat ex_ctl 0%nat None ww)
      as (cause & en & w' & Heq & Hst & Hd & _).
    + vm_compute. reflexivity.
    + vm_compute. reflexivity.
    + vm_compute. lia.
    + vm_compute. reflexivity.
    + exists cause, en, w'. split; [exact Heq|]. split; [exact Hst|exact Hd].
Defined.

(** ** SimpleLruPageExists *)

Lemma SimpleLruPageExists_step fuel ctl pageno w :
  SimpleLruPageExists (S fuel) ctl pageno w =
    match SlruSelectLRUPage (S fuel) ctl pageno w with
    | Returned slotno w1 =>
        if bool_decide (number_of w1 slotno = pageno) &&
           bool_decide (status_of w1 slotno <> SLRU_PAGE_EMPTY)
        then
          if bool_decide (status_of w1 slotno = SLRU_PAGE_READ_IN_PROGRESS)
          then SimpleLruPageExists fuel ctl pageno (SimpleLruWaitIO slotno w1)
          else Returned true w1
        else
          match SlruPhysicalReadPage ctl pageno slotno
                  (begin_read slotno pageno w1) with
          | Returned ok w2 => Returned ok (end_read slotno ok w2)
          | Raised e w2 => Raised e w2
          | OutOfFuel => OutOfFuel
          end
    | Raised e w1 => Raised e w1
    | OutOfFuel => OutOfFuel
    end.
Proof.
  cbn [SimpleLruPageExists]. unfold bind at 1.
  destruct (SlruSelectLRUPage (S fuel) ctl pageno w) as [slotno w1|e w1|];
    [|done..].
  unfold bind at 1. unfold gets at 1. unfold id.
  destruct (bool_decide (number_of w1 slotno = pageno) &&
            bool_decide (status_of w1 slotno <> SLRU_PAGE_EMPTY)).
  - destruct (bool_decide (status_of w1 slotno = SLRU_PAGE_READ_IN_PROGRESS));
      done.
  - unfold bind, step, ret.
    destruct (SlruPhysicalReadPage ctl pageno slotno
                (begin_read slotno pageno w1)); done.
Qed.

(** An error that [SimpleLruPageExists] raises comes from slot selection,
    where the write of a dirty victim failed, or from a path too long. *)
Lemma SimpleLruPageExists_raised ctl pageno fuel :
  forall w e w',
    shared_wf (shared w) -> (0 < num_slots (shared w))%nat ->
    SimpleLruPageExists fuel ctl pageno w = Raised e w' ->
    (exists dir name, e = CannotGeneratePath dir name) \/
    (exists cause en victim,
       e = SlruIOError cause en (number_of w' victim) InvalidTransactionId /\
       (victim < num_slots (shared w'))%nat /\
       status_of w' victim = SLRU_PAGE_VALID /\
       dirty_of w' victim = true).
Proof.
  induction fuel as [|fuel IH]; intros w e w' Hwf Hn H; [done|].
  rewrite SimpleLruPageExists_step in H.
  pose proof (SlruSelectLRUPage_spec ctl pageno (S fuel) w Hwf Hn) as Hsel.
  destruct (SlruSelectLRUPage (S fuel) ctl pageno w) as [slotno w1|e1 w1|];
    [| |done].
  - destruct Hsel as (Hstab & Hslot & _).
    destruct (bool_decide (number_of w1 slotno = pageno) &&
              bool_decide (status_of w1 slotno <> SLRU_PAGE_EMPTY)).
    + destruct (bool_decide (status_of w1 slotno = SLRU_PAGE_READ_IN_PROGRESS));
        [|done].
      destruct (SimpleLruWaitIO_spec slotno w1) as (Hstab2 & _).
      cbv zeta in Hstab2.
      assert (Hstab3 : stable w (SimpleLruWaitIO slotno w1))
        by (by eapply stable_trans).
      apply (IH _ _ _ (stable_wf _ _ Hstab3 Hwf)); [|done].
      destruct Hstab3 as (-> & _). done.
    + pose proof (SlruPhysicalReadPage_frame ctl pageno slotno
                    (begin_read slotno pageno w1)) as Hframe.
      destruct (SlruPhysicalReadPage ctl pageno slotno
                  (begin_read slotno pageno w1)) as [ok w2|e2 w2|]; [done| |done].
      inversion H; subst. left. apply Hframe.
  - inversion H; subst. right.
    destruct Hsel as (_ & _ & cause & en & victim & He & Hrest).
    exists cause, en, victim. done.
Qed.

(** With more fuel than the I/O the pool owes, the test ends. *)
Lemma SimpleLruPageExists_fuel ctl pageno fuel :
  forall w,
    shared_wf (shared w) -> (0 < num_slots (shared w))%nat ->
    (pending w < fuel)%nat ->
    SimpleLruPageExists fuel ctl pageno w <> OutOfFuel.
Proof.
  induction fuel as [|fuel IH]; intros w Hwf Hn Hfuel; [lia|].
  rewrite SimpleLruPageExists_step.
  pose proof (SlruSelectLRUPage_spec ctl pageno (S fuel) w Hwf Hn) as Hsel.
  destruct (SlruSelectLRUPage (S fuel) ctl pageno w) as [slotno w1|e1 w1|];
    [|done|lia].
  destruct Hsel as (Hstab & Hslot & Hpend & _).
  destruct (bool_decide (number_of w1 slotno = pageno) &&
            bool_decide (status_of w1 slotno <> SLRU_PAGE_EMPTY)).
  - destruct (bool_decide (status_of w1 slotno = SLRU_PAGE_READ_IN_PROGRESS))
      eqn:Hrd; [|done].
    apply bool_decide_eq_true in Hrd.
    pose proof (stable_wf _ _ Hstab Hwf) as Hwf1.
    destruct (SimpleLruWaitIO_spec slotno w1)
      as (Hstab2 & _ & _ & _ & _ & Hoth & _ & Hread & _).
    cbv zeta in Hstab2, Hoth, Hread.
    assert (Hstab3 : stable w (SimpleLruWaitIO slotno w1))
      by (by eapply stable_trans).
    apply IH.
    + by apply (stable_wf _ _ Hstab3).
    + destruct Hstab3 as (-> & _). done.
    + assert (pending (SimpleLruWaitIO slotno w1) < pending w1)%nat; [|lia].
      apply pending_lt with (i := slotno); [apply Hstab2|done|done|].
      destruct Hwf1 as (_ & Hl & _).
      destruct Hread as [-> _]; [lia|done|]. rewrite Hrd. cbn. lia.
  - pose proof (SlruPhysicalReadPage_frame ctl pageno slotno
                  (begin_read slotno pageno w1)) as Hframe.
    destruct (SlruPhysicalReadPage ctl pageno slotno
                (begin_read slotno pageno w1)); done.
Qed.

(** C10, as amended.  [SimpleLruPageExists] does not report the failure of
    its own read.  When slot selection returns a slot holding the page,
    not in the course of being read, it returns true.  When selection
    returns a slot that does not hold the page, it performs the physical
    read itself: after a failed read it leaves the slot EMPTY and returns
    false, after a successful read (the zero-fill of a missing segment
    during recovery included) it leaves the slot VALID and returns true.
    An I/O error is raised all the same when, during slot selection, the
    write of a dirty victim fails: the errors it raises are that of such a
    write and that of a path too long.  With more fuel than the I/O the
    pool owes, the test does end. *)
Theorem SimpleLruPageExists_outcomes (fuel : nat) (ctl : SlruCtlData)
    (pageno : Z) (w : World) :
  shared_wf (shared w) -> (0 < num_slots (shared w))%nat ->
  (forall slotno w1,
     SlruSelectLRUPage (S fuel) ctl pageno w = Returned slotno w1 ->
     number_of w1 slotno = pageno ->
     status_of w1 slotno = SLRU_PAGE_VALID \/
     status_of w1 slotno = SLRU_PAGE_WRITE_IN_PROGRESS ->
     SimpleLruPageExists (S fuel) ctl pageno w = Returned true w1) /\
  (forall slotno w1 ok w2,
     SlruSelectLRUPage (S fuel) ctl pageno w = Returned slotno w1 ->
     ~ (number_of w1 slotno = pageno /\ status_of w1 slotno <> SLRU_PAGE_EMPTY) ->
     SlruPhysicalReadPage ctl pageno slotno (begin_read slotno pageno w1)
     = Returned ok w2 ->
     exists w',
       SimpleLruPageExists (S fuel) ctl pageno w = Returned ok w' /\
       status_of w' slotno = (if ok then SLRU_PAGE_VALID else SLRU_PAGE_EMPTY) /\
       ControlLock w' = Some LW_EXCLUSIVE) /\
  (forall e w',
     SimpleLruPageExists (S fuel) ctl pageno w = Raised e w' ->
     (exists dir name, e = CannotGeneratePath dir name) \/
     (exists cause en victim,
        e = SlruIOError cause en (number_of w' victim) InvalidTransactionId /\
        (victim < num_slots (shared w'))%nat /\
        status_of w' victim = SLRU_PAGE_VALID /\
        dirty_of w' victim = true)) /\
  ((pending w < S fuel)%nat ->
   SimpleLruPageExists (S fuel) ctl pageno w <> OutOfFuel).
Proof.
  intros Hwf Hn. split; [|split; [|split]].
  - intros slotno w1 Hsel Hp Hst.
    rewrite SimpleLruPageExists_step, Hsel.
    rewrite (bool_decide_eq_true_2 _ Hp).
    rewrite bool_decide_eq_true_2 by (destruct Hst as [-> | ->]; done).
    rewrite bool_decide_eq_false_2 by (destruct Hst as [-> | ->]; done).
    done.
  - intros slotno w1 ok w2 Hsel Hmiss Hread.
    rewrite SimpleLruPageExists_step, Hsel.
    assert (Hc : bool_decide (number_of w1 slotno = pageno) &&
                 bool_decide (status_of w1 slotno <> SLRU_PAGE_EMPTY) = false).
    { apply andb_false_iff.
      destruct (decide (number_of w1 slotno = pageno)) as [Hp|Hp].
      - right. apply bool_decide_eq_false. intros Hs. by apply Hmiss.
      - left. by apply bool_decide_eq_false. }
    rewrite Hc, Hread. eexists. split; [reflexivity|].
    split; [|done].
    pose proof (SlruSelectLRUPage_spec ctl pageno (S fuel) w Hwf Hn) as Hspec.
    rewrite Hsel in Hspec. destruct Hspec as (Hstab & Hslot & _).
    pose proof (stable_wf _ _ Hstab Hwf) as (_ & Hl1 & _).
    pose proof (SlruPhysicalReadPage_frame ctl pageno slotno
                  (begin_read slotno pageno w1)) as Hframe.
    rewrite Hread in Hframe. destruct Hframe as (_ & Hst2 & _).
    destruct (begin_read_length slotno pageno w1) as [Hbl _].
    unfold end_read.
    change (status_of (LWLockRelease_buffer slotno ?x) slotno)
      with (status_of x slotno).
    apply status_of_set_status_eq.
    change (shared (LWLockAcquire_ControlLock LW_EXCLUSIVE w2)) with (shared w2).
    rewrite Hst2, Hbl. lia.
  - intros e w' H. by apply (SimpleLruPageExists_raised ctl pageno (S fuel) w).
  - intros Hfuel. by apply SimpleLruPageExists_fuel.
Qed.

(** C10, as stated, fails: with four dirty pages in four slots and every
    write failing, the test for page 5 raises the I/O error of the write
    of the victim, page 0. *)
Lemma SimpleLruPageExists_raises_io_error :
  error_after (SimpleLruPageExists 3 ex_ctl 5)
    (write_fails_with 28 world_four_slots)
  = Some (SlruIOError SLRU_WRITE_FAILED 28 0 InvalidTransactionId).
Proof. vm_compute. reflexivity. Qed.

Lemma SimpleLruPageExists_outcomes_witness :
  let w := ex_world (SimpleLruInit 2 0) in
  let w1 := world_after (SlruSelectLRUPage 1 ex_ctl 5) w in
  exists w',
    SimpleLruPageExists 1 ex_ctl 5 w = Returned false w' /\
    status_of w' 0 = SLRU_PAGE_EMPTY.
Proof.
  intros w w1.
  destruct (SimpleLruPageExists_outcomes 0 ex_ctl 5 w) as (_ & Hread & _ & _).
  - repeat split; vm_compute; reflexivity.
  - vm_compute. lia.
  - destruct (Hread 0%nat w1 false
                (world_after (SlruPhysicalReadPage ex_ctl 5 0) (begin_read 0 5 w1)))
      as (w' & Heq & Hst & _).
    + apply (Returned_after (SlruSelectLRUPage 1 ex_ctl 5) w 0%nat).
      vm_compute. reflexivity.
    + intros [_ H]. apply H. vm_compute. reflexivity.
    + apply (Returned_after (SlruPhysicalReadPage ex_ctl 5 0)
               (begin_read 0 5 w1) false).
      vm_compute. reflexivity.
    + exists w'. split; [exact Heq|exact Hst].
Defined.

(** ** Segment names tell segments apart *)

Lemma hex_value_hex_char d : 0 <= d < 16 -> hex_value (hex_char d) = Some d.
Proof.
  intros H.
  assert (d = 0 \/ d = 1 \/ d = 2 \/ d = 3 \/ d = 4 \/ d = 5 \/ d = 6 \/ d = 7 \/
          d = 8 \/ d = 9 \/ d = 10 \/ d = 11 \/ d = 12 \/ d = 13 \/ d = 14 \/
          d = 15) as Hd by lia.
  repeat (destruct Hd as [->|Hd]; [vm_compute; reflexivity|]).
  subst. vm_compute. reflexivity.
Qed.

Lemma hex_char_inj a b :
  0 <= a < 16 -> 0 <= b < 16 -> hex_char a = hex_char b -> a = b.
Proof.
  intros Ha Hb H.
  pose proof (hex_value_hex_char a Ha) as H1.
  pose proof (hex_value_hex_char b Hb) as H2.
  rewrite H in H1. congruence.
Qed.

Lemma div_digit_step a b q :
  0 < q ->
  (a / q) mod 16 = (b / q) mod 16 ->
  a / (q * 16) = b / (q * 16) ->
  a / q = b / q.
Proof.
  intros Hq Hd Hhi.
  rewrite <- !Z.div_div in Hhi by lia.
  pose proof (Z.div_mod (a / q) 16 ltac:(lia)).
  pose proof (Z.div_mod (b / q) 16 ltac:(lia)).
  lia.
Qed.

Lemma hex_digits8_inj u v :
  0 <= u < 4294967296 -> 0 <= v < 4294967296 ->
  hex_digits8 u = hex_digits8 v -> u = v.
Proof.
  intros Hu Hv H. unfold hex_digits8 in H. cbn [map] in H.
  injection H as H7 H6 H5 H4 H3 H2 H1 H0.
  apply hex_char_inj in H7, H6, H5, H4, H3, H2, H1, H0;
    try (apply Z.mod_pos_bound; lia).
  change (16 ^ 7) with 268435456 in *. change (16 ^ 6) with 16777216 in *.
  change (16 ^ 5) with 1048576 in *. change (16 ^ 4) with 65536 in *.
  change (16 ^ 3) with 4096 in *. change (16 ^ 2) with 256 in *.
  change (16 ^ 1) with 16 in *. change (16 ^ 0) with 1 in *.
  assert (E8 : u / (268435456 * 16) = v / (268435456 * 16)).
  { rewrite !Z.div_small by lia. done. }
  pose proof (div_digit_step u v 268435456 ltac:(lia) H7 E8) as E7.
  pose proof (div_digit_step u v 16777216 ltac:(lia) H6 E7) as E6.
  pose proof (div_digit_step u v 1048576 ltac:(lia) H5 E6) as E5.
  pose proof (div_digit_step u v 65536 ltac:(lia) H4 E5) as E4.
  pose proof (div_digit_step u v 4096 ltac:(lia) H3 E4) as E3.
  pose proof (div_digit_step u v 256 ltac:(lia) H2 E3) as E2.
  pose proof (div_digit_step u v 16 ltac:(lia) H1 E2) as E1.
  pose proof (div_digit_step u v 1 ltac:(lia) H0 E1) as E0.
  by rewrite !Z.div_1_r in E0.
Qed.

Lemma strip_zeroes_spec width l :
  exists k, l = replicate k "0"%char ++ strip_zeroes width l.
Proof.
  induction l as [|c l IH]; [by exists 0%nat|].
  cbn [strip_zeroes]. case_decide as Hc; [|by exists 0%nat].
  destruct Hc as [-> _]. destruct IH as [k Hk].
  exists (S k). cbn. by rewrite <- Hk.
Qed.

Lemma strip_zeroes_inj width l l' :
  length l = length l' ->
  strip_zeroes width l = strip_zeroes width l' -> l = l'.
Proof.
  intros Hlen H.
  destruct (strip_zeroes_spec width l) as [k Hk].
  destruct (strip_zeroes_spec width l') as [k' Hk'].
  rewrite H in Hk.
  remember (strip_zeroes width l') as r eqn:Hr. clear Hr H.
  subst l l'. rewrite !length_app, !length_replicate in Hlen.
  assert (k = k') as -> by lia. done.
Qed.

Lemma string_of_list_ascii_inj l l' :
  string_of_list_ascii l = string_of_list_ascii l' -> l = l'.
Proof.
  intros H.
  rewrite <- (list_ascii_of_string_of_list_ascii l),
          <- (list_ascii_of_string_of_list_ascii l'). by rewrite H.
Qed.

(** Segment numbers that differ as unsigned ints have different names. *)
Lemma SlruSimpleFileName_inj a b :
  SlruSimpleFileName a = SlruSimpleFileName b ->
  a mod 4294967296 = b mod 4294967296.
Proof.
  unfold SlruSimpleFileName. intros H.
  apply string_of_list_ascii_inj, strip_zeroes_inj in H; [|done].
  apply hex_digits8_inj in H; [done|apply Z.mod_pos_bound; lia..].
Qed.

(** ** Pages in segment files *)

Lemma page_offset_eq p :
  page_offset p = Z.rem p 32 * BLCKSZ /\ -32 < Z.rem p 32 < 32.
Proof.
  unfold page_offset, int_mul, int_mod, SLRU_PAGES_PER_SEGMENT, BLCKSZ.
  pose proof (Z.rem_bound_abs p 32 ltac:(lia)) as H.
  split; [|lia]. apply int32_id. unfold in_int. lia.
Qed.

(** Different pages do not share a place. *)
Lemma page_location_inj p q :
  in_int p -> in_int q ->
  SlruSimpleFileName (int_div q SLRU_PAGES_PER_SEGMENT)
  = SlruSimpleFileName (int_div p SLRU_PAGES_PER_SEGMENT) ->
  page_offset q = page_offset p ->
  q = p.
Proof.
  unfold in_int. intros Hp Hq Hname Hoff.
  apply SlruSimpleFileName_inj in Hname.
  destruct (page_offset_eq p) as [Hop Hrp].
  destruct (page_offset_eq q) as [Hoq Hrq].
  rewrite Hop, Hoq in Hoff. unfold BLCKSZ in Hoff.
  unfold int_div, SLRU_PAGES_PER_SEGMENT in Hname.
  pose proof (Z.quot_rem' p 32). pose proof (Z.quot_rem' q 32).
  assert (Z.rem q 32 = Z.rem p 32) as Hr by lia.
  assert (-67108864 <= p ÷ 32 <= 67108864) by lia.
  assert (-67108864 <= q ÷ 32 <= 67108864) by lia.
  assert (q ÷ 32 = p ÷ 32); [|lia].
  pose proof (Z.div_mod (q ÷ 32) 4294967296 ltac:(lia)).
  pose proof (Z.div_mod (p ÷ 32) 4294967296 ltac:(lia)).
  pose proof (Z.mod_pos_bound (q ÷ 32) 4294967296 ltac:(lia)).
  pose proof (Z.mod_pos_bound (p ÷ 32) 4294967296 ltac:(lia)).
  lia.
Qed.

Lemma length_write_at_prefix off (f : list byte) :
  length (take off (f ++ replicate (off - length f) x00)) = off.
Proof. rewrite length_take, length_app, length_replicate. lia. Qed.

Lemma lookup_write_at off data f i :
  write_at off data f !! i =
    if decide (i < off)%nat then
      if decide (i < length f)%nat then f !! i else Some x00
    else if decide (i < off + length data)%nat then data !! (i - off)%nat
    else f !! i.
Proof.
  unfold write_at.
  pose proof (length_write_at_prefix off f) as Hlen.
  case_decide as H1.
  - rewrite lookup_app_l by lia. rewrite lookup_take_lt by done.
    case_decide as H2.
    + by rewrite lookup_app_l.
    + rewrite lookup_app_r by lia. apply lookup_replicate_2. lia.
  - rewrite lookup_app_r by lia. rewrite Hlen.
    case_decide as H2.
    + by rewrite lookup_app_l by lia.
    + rewrite lookup_app_r by lia. rewrite lookup_drop. f_equal. lia.
Qed.

(** Reading back what was written. *)
Lemma read_after_write off data f :
  take (length data) (drop off (write_at off data f)) = data.
Proof.
  unfold write_at.
  rewrite drop_app_length' by (by rewrite length_write_at_prefix).
  by rewrite take_app_length.
Qed.

(** A write of one block leaves the other blocks of the file alone. *)
Lemma read_after_other_write B offq offp data f :
  length data = B ->
  (offq + B <= offp \/ offp + B <= offq)%nat ->
  (offp + B <= length f)%nat ->
  take B (drop offp (write_at offq data f)) = take B (drop offp f).
Proof.
  intros Hd Hdisj Hf. apply list_eq. intros i.
  destruct (decide (i < B)%nat) as [Hi|Hi].
  - rewrite !lookup_take_lt by done. rewrite !lookup_drop, lookup_write_at.
    repeat case_decide; try done; lia.
  - rewrite !lookup_take_ge by lia. done.
Qed.

(** What a standalone physical write does to the directory: nothing, or
    the segment file is created empty, or the buffer is written at the
    page's offset (into the file, created if need be). *)
Lemma SlruPhysicalWritePage_disk ctl pageno slotno w :
  let r := SlruPhysicalWritePage ctl pageno slotno None w in
  let path := page_path ctl w pageno in
  (r.1.1 = false /\
   (disk r.2 = disk w \/
    (disk w !! path = None /\ disk r.2 = <[path := []]> (disk w)))) \/
  (0 <= page_offset pageno /\
   disk r.2 = <[path := write_at (Z.to_nat (page_offset pageno))
                          (buffer_of w slotno)
                          (default [] (disk w !! path))]> (disk w)).
Proof.
  cbv zeta. unfold SlruPhysicalWritePage. cbv zeta.
  set (w1 := match group_lsn (shared w) with Some _ => _ | None => _ end).
  assert (H1 : disk w1 = disk w /\ os_fault w1 = os_fault w /\
               txn_filespace w1 = txn_filespace w /\ shared w1 = shared w).
  { subst w1. repeat case_match; by repeat split. }
  destruct H1 as (Hd1 & Hf1 & Ht1 & Hs1).
  fold (page_offset pageno).
  assert (Hpath : (TxnDir (Dir ctl) w1,
                   SlruSimpleFileName (int_div pageno SLRU_PAGES_PER_SEGMENT))
                  = page_path ctl w pageno).
  { unfold page_path, TxnDir. by rewrite Ht1. }
  unfold MirroredFlatFile_Open. rewrite Hpath.
  set (path := page_path ctl w pageno) in *.
  destruct (os_fault w1 OS_OPEN path) as [e|].
  { left. cbn. split; [done|]. by left. }
  set (w2 := upd_disk _ w1).
  assert (Hd2 : (disk w2 = disk w /\ is_Some (disk w !! path)) \/
                (disk w !! path = None /\ disk w2 = <[path := []]> (disk w))).
  { subst w2. unfold upd_disk. cbn [disk]. rewrite Hd1.
    case_match eqn:Hl; [left|right]; (split; [|done]); [done|exact Hl]. }
  assert (Hb2 : buffer_of w2 slotno = buffer_of w slotno).
  { unfold buffer_of. subst w2. cbn. by rewrite Hs1. }
  unfold SlruPhysicalWritePage_tail, MirroredFlatFile_SeekSet,
    MirroredFlatFile_Write, MirroredFlatFile_Flush.
  cbn [mirrored_path].
  assert (Hfail : forall (w3 : World), disk w3 = disk w2 ->
            disk w3 = disk w \/
            disk w !! path = None /\ disk w3 = <[path := []]> (disk w)).
  { intros w3 ->. destruct Hd2 as [[-> _]|[? ->]]; [by left|by right]. }
  destruct (os_fault w2 OS_SEEK path) as [e|].
  { left. cbv beta iota. rewrite decide_True.
    - split; [done|]. by apply Hfail.
    - destruct (page_offset_eq pageno) as [-> ?]. unfold BLCKSZ. lia. }
  destruct (decide (page_offset pageno < 0)) as [Hneg|Hneg]; cbv beta iota.
  { left. rewrite decide_True.
    - split; [done|]. by apply Hfail.
    - destruct (page_offset_eq pageno) as [-> ?]. unfold BLCKSZ. lia. }
  rewrite decide_False by (intros H; by apply H).
  destruct (os_fault w2 OS_WRITE path) as [e|].
  { left. split; [done|]. by apply Hfail. }
  assert (Hwritten :
    disk (upd_disk (fun d => <[path := write_at (Z.to_nat (page_offset pageno))
                                          (buffer_of w2 slotno)
                                          (default [] (d !! path))]> d) w2)
    = <[path := write_at (Z.to_nat (page_offset pageno)) (buffer_of w slotno)
                  (default [] (disk w !! path))]> (disk w)).
  { unfold upd_disk at 1. cbn [disk]. rewrite Hb2.
    destruct Hd2 as [[-> _]|[Hnone ->]]; [done|].
    rewrite lookup_insert_eq, insert_insert_eq, Hnone. done. }
  set (w3 := upd_disk _ w2) in *.
  right. split; [lia|].
  destruct (do_fsync ctl); [|done].
  destruct (os_fault w3 OS_FSYNC path); done.
Qed.

(** A successful standalone write puts the buffer on disk. *)
Lemma SlruPhysicalWritePage_ok_on_disk ctl pageno slotno w :
  (SlruPhysicalWritePage ctl pageno slotno None w).1.1 = true ->
  length (buffer_of w slotno) = Z.to_nat BLCKSZ ->
  on_disk ctl pageno (buffer_of w slotno)
    (SlruPhysicalWritePage ctl pageno slotno None w).2.
Proof.
  intros Hok Hlen.
  pose proof (SlruPhysicalWritePage_io_only ctl pageno slotno None w)
    as (_ & _ & _ & _ & Hfs & _).
  destruct (SlruPhysicalWritePage_disk ctl pageno slotno w) as [[Hf _]|[Hoff Hd]];
    [congruence|].
  cbv zeta in Hd.
  split; [done|]. split; [done|].
  assert (Hpath : page_path ctl (SlruPhysicalWritePage ctl pageno slotno None w).2
                    pageno = page_path ctl w pageno).
  { unfold page_path, TxnDir. by rewrite Hfs. }
  rewrite Hpath, Hd. eexists. split; [apply lookup_insert_eq|].
  rewrite <- Hlen. apply read_after_write.
Qed.

(** A standalone write of another page leaves the page on disk as it
    was. *)
Lemma SlruPhysicalWritePage_keeps_on_disk ctl p b q slotno w :
  in_int p -> in_int q -> q <> p ->
  length (buffer_of w slotno) = Z.to_nat BLCKSZ ->
  on_disk ctl p b w ->
  on_disk ctl p b (SlruPhysicalWritePage ctl q slotno None w).2.
Proof.
  intros Hp Hq Hne Hlen (Hoff & Hb & f & Hf & Hread).
  pose proof (SlruPhysicalWritePage_io_only ctl q slotno None w)
    as (_ & _ & _ & _ & Hfs & _).
  assert (Hpath : page_path ctl (SlruPhysicalWritePage ctl q slotno None w).2 p
                  = page_path ctl w p).
  { unfold page_path, TxnDir. by rewrite Hfs. }
  split; [done|]. split; [done|]. rewrite Hpath.
  destruct (SlruPhysicalWritePage_disk ctl q slotno w)
    as [[_ [Hd|[Hnone Hd]]]|[Hoffq Hd]]; cbv zeta in Hd; rewrite Hd.
  - eauto.
  - exists f. split; [|done]. rewrite lookup_insert_ne; [done|].
    intros Heq. rewrite Heq in Hnone. congruence.
  - destruct (decide (page_path ctl w q = page_path ctl w p)) as [Heq|Hneq].
    + rewrite Heq, Hf. cbn [default].
      eexists. split; [apply lookup_insert_eq|].
      rewrite <- Hread.
      assert (Hoffne : page_offset q <> page_offset p).
      { intros Ho. apply Hne. apply page_location_inj; try done.
        unfold page_path in Heq. congruence. }
      destruct (page_offset_eq p) as [Hop Hrp].
      destruct (page_offset_eq q) as [Hoq Hrq].
      assert (Hflen : (Z.to_nat (page_offset p) + Z.to_nat BLCKSZ <= length f)%nat).
      { assert (length (take (Z.to_nat BLCKSZ)
                          (drop (Z.to_nat (page_offset p)) f))
                = Z.to_nat BLCKSZ) as Hl by (by rewrite Hread).
        rewrite length_take, length_drop in Hl.
        assert (0 < Z.to_nat BLCKSZ)%nat by (unfold BLCKSZ; lia). lia. }
      apply read_after_other_write; [done| |done].
      rewrite Hop, Hoq in *. unfold BLCKSZ in *. lia.
    + exists f. split; [|done]. by rewrite lookup_insert_ne.
Qed.

(** ** A page that reads the same wherever it is *)

Lemma on_disk_ext ctl p b w w' :
  disk w' = disk w -> txn_filespace w' = txn_filespace w ->
  on_disk ctl p b w -> on_disk ctl p b w'.
Proof.
  intros Hd Ht (Hoff & Hb & f & Hf & Hread).
  split; [done|]. split; [done|]. exists f. split; [|done].
  unfold page_path, TxnDir in *. by rewrite Hd, Ht.
Qed.

(** One step of the pool that leaves the page numbers and the buffers
    alone, and neither makes a holder of the page nor touches one. *)
Lemma settled_step ctl p b buffered stored w w' :
  settled ctl p b buffered stored w ->
  stable w w' ->
  (stored = true -> on_disk ctl p b w') ->
  (forall i, (i < num_slots (shared w))%nat -> holds p w' i ->
     holds p w i /\ status_of w' i = status_of w i /\
     dirty_of w' i = dirty_of w i) ->
  settled ctl p b buffered stored w'.
Proof.
  intros (Hwf & Hn & Hslots & Hdisk & Hhold) Hstab Hdisk' Hstep.
  pose proof (stable_wf _ _ Hstab Hwf) as Hwf'.
  destruct Hstab as (Hn' & Hnum & _ & Hbuf & _).
  split; [done|]. split; [by rewrite Hn'|].
  unfold buffer_of, number_of in *. rewrite Hn', Hnum, Hbuf.
  split; [done|]. split; [done|].
  intros i Hi Hh. destruct (Hstep i Hi Hh) as (Hh0 & -> & ->).
  by apply Hhold.
Qed.

(** ** An invariant through slot selection *)

Section select_invariant.

Variable ctl : SlruCtlData.

Variable I : World -> Prop.

Hypothesis I_wf : forall w,
  I w -> shared_wf (shared w) /\ (0 < num_slots (shared w))%nat.

Hypothesis I_scan : forall w slots best r s,
  I w ->
  victim_scan ctl (cur_lru_count (shared w)) slots best
    (set_cur_lru_count (int_add (cur_lru_count (shared w)) 1) (shared w))
    = (r, s) ->
  I (upd_shared (fun _ => s)
       (upd_shared (set_cur_lru_count (int_add (cur_lru_count (shared w)) 1))
          w)).

Hypothesis I_write : forall w i,
  I w -> (i < num_slots (shared w))%nat ->
  status_of w i = SLRU_PAGE_VALID -> dirty_of w i = true ->
  I (end_write i
       (SlruPhysicalWritePage ctl (number_of w i) i None (begin_write i w)).1.1
       (SlruPhysicalWritePage ctl (number_of w i) i None (begin_write i w)).2).

Hypothesis I_errno : forall w e, I w -> I (set_errno e w).

Hypothesis I_wait : forall w i,
  I w -> (i < num_slots (shared w))%nat ->
  status_of w i <> SLRU_PAGE_VALID -> status_of w i <> SLRU_PAGE_EMPTY ->
  I (SimpleLruWaitIO i w).

Lemma SlruSelectLRUPage_invariant pageno fuel :
  forall w, I w ->
    match SlruSelectLRUPage fuel ctl pageno w with
    | Returned _ w' => I w'
    | Raised _ w' => I w'
    | OutOfFuel => True
    end.
Proof.
  induction fuel as [|fuel IH]; intros w HI; [done|].
  cbn [SlruSelectLRUPage].
  destruct (find_page (shared w) pageno (all_slots (shared w))); [done|].
  cbv zeta.
  set (w1 := upd_shared (set_cur_lru_count _) w).
  destruct (victim_scan ctl (cur_lru_count (shared w)) (all_slots (shared w1))
              BestSlot_init (shared w1)) as [[i|best] s] eqn:Hscan.
  all: pose proof (I_scan w _ _ _ _ HI Hscan) as HI2.
  all: pose proof (victim_scan_frame _ _ _ _ _ _ _ Hscan)
         as (Hsn & Hsst & _).
  all: cbn in Hsn, Hsst.
  all: fold w1 in HI2.
  all: set (w2 := upd_shared (fun _ => s) w1) in *.
  { done. }
  assert (Hbest : (bestslot best < num_slots (shared w2))%nat).
  { destruct (I_wf _ HI) as [_ Hn].
    pose proof (victim_scan_best _ _ _ _ _ _ _ (NoDup_seq _ _) Hscan)
      as (_ & [->|(k & Hk & -> & _)] & _); [cbn in *; lia|].
    apply elem_of_seq in Hk. cbn in *. lia. }
  assert (Hne : status_of w2 (bestslot best) <> SLRU_PAGE_EMPTY).
  { unfold status_of. cbn. rewrite Hsst.
    pose proof (victim_scan_inr_no_empty _ _ _ _ _ _ _ Hscan (bestslot best))
      as Hx.
    apply Hx. apply elem_of_seq. cbn in *. lia. }
  destruct (bool_decide (status_of w2 (bestslot best) = SLRU_PAGE_VALID)
            && negb (dirty_of w2 (bestslot best))) eqn:Hclean; [done|].
  unfold bind.
  destruct (decide (status_of w2 (bestslot best) = SLRU_PAGE_VALID)) as [Hv|Hv];
    cbv beta.
  - assert (Hd : dirty_of w2 (bestslot best) = true).
    { rewrite Hv in Hclean. rewrite bool_decide_eq_true_2 in Hclean by done.
      cbn in Hclean. by apply negb_false_iff in Hclean. }
    rewrite (SimpleLruWritePage_dirty _ _ _ _ _ Hv Hd). cbv zeta.
    pose proof (I_write w2 (bestslot best) HI2 Hbest Hv Hd) as HI4.
    destruct (SlruPhysicalWritePage ctl (number_of w2 (bestslot best))
                (bestslot best) None (begin_write (bestslot best) w2))
      as [[ok fd] w3].
    cbn [fst snd] in *.
    destruct ok; cbn [ret].
    + by apply IH.
    + by apply I_errno.
  - unfold step. apply IH. by apply I_wait.
Qed.

End select_invariant.

(** ** Slot selection keeps a settled page settled *)

Section settled_select.

Variable ctl : SlruCtlData.

Variable p : Z.

Variable b : list byte.

Variable buffered stored : bool.

Hypothesis p_int : in_int p.

Lemma settled_wf w :
  settled ctl p b buffered stored w ->
  shared_wf (shared w) /\ (0 < num_slots (shared w))%nat.
Proof. intros (? & ? & _). done. Qed.

Lemma settled_scan w slots best r s :
  settled ctl p b buffered stored w ->
  victim_scan ctl (cur_lru_count (shared w)) slots best
    (set_cur_lru_count (int_add (cur_lru_count (shared w)) 1) (shared w))
    = (r, s) ->
  settled ctl p b buffered stored
    (upd_shared (fun _ => s)
       (upd_shared (set_cur_lru_count (int_add (cur_lru_count (shared w)) 1))
          w)).
Proof.
  intros HI Hscan.
  pose proof (victim_scan_frame _ _ _ _ _ _ _ Hscan)
    as (Hsn & Hsst & Hsd & Hsnum & Hsbuf & _ & _ & _ & Hslat & Hslen).
  cbn in Hsn, Hsst, Hsd, Hsnum, Hsbuf, Hslat, Hslen.
  apply (settled_step ctl p b buffered stored w); [done| | |].
  - unfold stable; cbn; repeat split; congruence.
  - intros Hs. apply (on_disk_ext ctl p b w); [done|done|]. by apply HI.
  - intros i Hi [Hst Hnum]. unfold holds, status_of, dirty_of, number_of in *.
    cbn in *. rewrite Hsst, Hsd, Hsnum in *. done.
Qed.

Lemma settled_errno w e :
  settled ctl p b buffered stored w -> settled ctl p b buffered stored (set_errno e w).
Proof.
  intros HI. apply (settled_step ctl p b buffered stored w); [done| | |].
  - by repeat split.
  - intros Hs. apply (on_disk_ext ctl p b w); [done|done|]. by apply HI.
  - intros i Hi Hh. done.
Qed.

Lemma end_write_disk slotno ok w :
  disk (end_write slotno ok w) = disk w /\
  txn_filespace (end_write slotno ok w) = txn_filespace w.
Proof. by destruct ok. Qed.

Lemma settled_write w i :
  settled ctl p b buffered stored w -> (i < num_slots (shared w))%nat ->
  status_of w i = SLRU_PAGE_VALID -> dirty_of w i = true ->
  settled ctl p b buffered stored
    (end_write i
       (SlruPhysicalWritePage ctl (number_of w i) i None (begin_write i w)).1.1
       (SlruPhysicalWritePage ctl (number_of w i) i None (begin_write i w)).2).
Proof.
  intros HI Hi Hv Hd.
  pose proof HI as ((Hlb & Hls & Hld & Hln & Hll) & Hn & Hslots & Hdisk & Hhold).
  assert (Hq : number_of w i <> p).
  { intros Hq. destruct (Hhold i Hi) as (_ & _ & Hc & _); [|congruence].
    split; [by rewrite Hv|done]. }
  pose proof (end_write_begin_write ctl (number_of w i) i None
                (SlruPhysicalWritePage ctl (number_of w i) i None
                   (begin_write i w)).1.1 w ltac:(lia) ltac:(lia))
    as (Hst3 & _ & _ & _ & Hv3 & Hd3 & Hoth3).
  cbv zeta in Hst3, Hv3, Hd3, Hoth3.
  destruct (Hslots i Hi) as [Hlen Hint].
  pose proof (fun Hs : stored = true =>
                SlruPhysicalWritePage_keeps_on_disk ctl p b (number_of w i) i
                  (begin_write i w) p_int Hint Hq Hlen
                  (on_disk_ext ctl p b w (begin_write i w) eq_refl eq_refl
                     (Hdisk Hs)))
    as Hdisk3.
  set (r := SlruPhysicalWritePage ctl (number_of w i) i None (begin_write i w))
    in *.
  clearbody r.
  apply (settled_step ctl p b buffered stored w); [exact HI|exact Hst3| |].
  - intros Hs.
    apply (on_disk_ext ctl p b r.2); [apply end_write_disk..|exact (Hdisk3 Hs)].
  - intros j Hj [Hst Hnum].
    destruct Hst3 as (_ & Hnum3 & _). unfold holds, number_of in *.
    rewrite Hnum3 in Hnum.
    destruct (decide (j = i)) as [->|Hji]; [done|].
    destruct (Hoth3 j Hji) as [Hs Hdd]. rewrite Hs in Hst. done.
Qed.

Lemma settled_wait w i :
  settled ctl p b buffered stored w -> (i < num_slots (shared w))%nat ->
  status_of w i <> SLRU_PAGE_VALID -> status_of w i <> SLRU_PAGE_EMPTY ->
  settled ctl p b buffered stored (SimpleLruWaitIO i w).
Proof.
  intros HI Hi Hv He.
  pose proof HI as ((Hlb & Hls & Hld & Hln & Hll) & Hn & Hslots & Hdisk & Hhold).
  assert (Hq : number_of w i <> p).
  { intros Hq. destruct (Hhold i Hi) as (_ & Hc & _); [by split|done]. }
  pose proof (SimpleLruWaitIO_spec i w)
    as (Hst3 & _ & Hd3 & _ & _ & Hoth3 & _).
  cbv zeta in Hst3, Hd3, Hoth3.
  apply (settled_step ctl p b buffered stored w); [done|done| |].
  - intros Hs. apply (on_disk_ext ctl p b w); [done|apply Hst3|by apply Hdisk].
  - intros j Hj [Hst Hnum].
    destruct Hst3 as (_ & Hnum3 & _). unfold holds, number_of in *.
    rewrite Hnum3 in Hnum.
    destruct (decide (j = i)) as [->|Hji]; [done|].
    destruct (Hoth3 j Hji) as [Hs Hdd]. rewrite Hs in Hst. done.
Qed.

Lemma SlruSelectLRUPage_settled pageno fuel w :
  settled ctl p b buffered stored w ->
  match SlruSelectLRUPage fuel ctl pageno w with
  | Returned _ w' => settled ctl p b buffered stored w'
  | Raised _ w' => settled ctl p b buffered stored w'
  | OutOfFuel => True
  end.
Proof.
  apply (SlruSelectLRUPage_invariant ctl (settled ctl p b buffered stored)).
  - apply settled_wf.
  - apply settled_scan.
  - apply settled_write.
  - apply settled_errno.
  - apply settled_wait.
Qed.

End settled_select.

Lemma length_zero_page : length zero_page = Z.to_nat BLCKSZ.
Proof. unfold zero_page. apply length_replicate. Qed.

(** The arrays after [SimpleLruZeroPage] has set up the slot that
    selection returned. *)
Lemma zero_slot_frame slotno pageno w1 :
  let w' :=
    upd_shared (set_latest_page_number pageno)
      (upd_shared (SimpleLruZeroLSNs slotno)
         (set_buffer slotno zero_page
            (upd_shared (SlruRecentlyUsed slotno)
               (set_dirty slotno true
                  (set_status slotno SLRU_PAGE_VALID
                     (set_number slotno pageno w1)))))) in
  page_number (shared w') = <[slotno := pageno]> (page_number (shared w1)) /\
  page_status (shared w')
    = <[slotno := SLRU_PAGE_VALID]> (page_status (shared w1)) /\
  page_dirty (shared w') = <[slotno := true]> (page_dirty (shared w1)) /\
  page_buffer (shared w') = <[slotno := zero_page]> (page_buffer (shared w1)) /\
  disk w' = disk w1 /\
  txn_filespace w' = txn_filespace w1.
Proof.
  set (w2 := set_number slotno pageno w1).
  set (w3 := set_status slotno SLRU_PAGE_VALID w2).
  set (w4 := set_dirty slotno true w3).
  set (w5 := upd_shared (SlruRecentlyUsed slotno) w4).
  set (w6 := set_buffer slotno zero_page w5).
  set (w7 := upd_shared (SimpleLruZeroLSNs slotno) w6).
  intros w'.
  pose proof (same_slots_RecentlyUsed slotno w4) as H5. fold w5 in H5.
  pose proof (same_slots_ZeroLSNs slotno w6) as H7. fold w7 in H7.
  destruct H5 as (H5n & H5num & H5st & H5d & H5b & H5lat & H5l).
  destruct H7 as (H7n & H7num & H7st & H7d & H7b & H7lat & H7l).
  split.
  { change (page_number (shared w')) with (page_number (shared w7)).
    rewrite H7num.
    change (page_number (shared w6)) with (page_number (shared w5)).
    rewrite H5num. done. }
  split.
  { change (page_status (shared w')) with (page_status (shared w7)).
    rewrite H7st.
    change (page_status (shared w6)) with (page_status (shared w5)).
    rewrite H5st. done. }
  split.
  { change (page_dirty (shared w')) with (page_dirty (shared w7)).
    rewrite H7d.
    change (page_dirty (shared w6)) with (page_dirty (shared w5)).
    rewrite H5d. done. }
  split.
  { change (page_buffer (shared w')) with (page_buffer (shared w7)).
    rewrite H7b.
    change (page_buffer (shared w6))
      with (<[slotno := zero_page]> (page_buffer (shared w5))).
    rewrite H5b. done. }
  done.
Qed.

(** Creating another page keeps a settled page settled. *)
Lemma SimpleLruZeroPage_settled ctl p b buffered stored q fuel w slotno w' :
  in_int p -> in_int q -> q <> p ->
  settled ctl p b buffered stored w ->
  SimpleLruZeroPage fuel ctl q w = Returned slotno w' ->
  settled ctl p b buffered stored w'.
Proof.
  intros Hp Hq Hne HI. rewrite SimpleLruZeroPage_eq.
  pose proof (SlruSelectLRUPage_settled ctl p b buffered stored Hp q fuel w HI)
    as HI1.
  destruct HI as (Hwf & Hn & _).
  pose proof (SlruSelectLRUPage_spec ctl q fuel w Hwf Hn) as Hs.
  destruct (SlruSelectLRUPage fuel ctl q w) as [slot w1|e w1|]; [|done..].
  intros [= <- <-].
  destruct Hs as (_ & Hslot & _ & _).
  destruct HI1 as (Hwf1 & Hn1 & Hslots1 & Hdisk1 & Hhold1).
  destruct (zero_slot_spec slot q w1 Hslot Hwf1) as (Hns & Hwf' & _).
  destruct (zero_slot_frame slot q w1) as (Hnum & Hst & Hdi & Hbu & Hd & Ht).
  cbv zeta in *.
  set (w' := upd_shared (set_latest_page_number q) _) in *.
  destruct Hwf1 as (Hlb & Hls & Hld & Hln & Hll).
  split; [done|]. split; [by rewrite Hns|].
  unfold holds, buffer_of, number_of, status_of, dirty_of in *.
  rewrite Hns, Hnum, Hst, Hdi, Hbu.
  split; [|split].
  - intros i Hi. destruct (decide (i = slot)) as [->|Hi'].
    + rewrite !list_lookup_total_insert_eq by lia.
      split; [apply length_zero_page|done].
    + rewrite !list_lookup_total_insert_ne by done. by apply Hslots1.
  - intros Hs. apply (on_disk_ext ctl p b w1); [done|done|by apply Hdisk1].
  - intros i Hi. destruct (decide (i = slot)) as [->|Hi'].
    + rewrite !list_lookup_total_insert_eq by lia. intros [_ ?]. done.
    + rewrite !list_lookup_total_insert_ne by done. by apply Hhold1.
Qed.

(** ** Reading a settled page *)

Lemma SlruPhysicalReadPage_on_disk ctl p b slotno w w' :
  on_disk ctl p b w ->
  (slotno < length (page_buffer (shared w)))%nat ->
  length (buffer_of w slotno) = Z.to_nat BLCKSZ ->
  SlruPhysicalReadPage ctl p slotno w = Returned true w' ->
  buffer_of w' slotno = b \/ buffer_of w' slotno = zero_page.
Proof.
  intros (Hoff & Hb & f & Hf & Hread) Hslot Hlen.
  unfold SlruPhysicalReadPage, bind, SlruFlatFileName.
  case_decide; [done|].
  fold (page_offset p). fold (page_path ctl w p).
  set (path := page_path ctl w p) in *.
  unfold BasicOpenFile.
  destruct (os_fault w OS_OPEN path) as [e|].
  { case_match; [done|]. intros [= <-]. right.
    unfold buffer_of. cbn. by apply list_lookup_total_insert_eq. }
  rewrite Hf. unfold lseek.
  destruct (os_fault w OS_SEEK path) as [e|]; [done|].
  rewrite decide_False by lia.
  unfold os_read.
  destruct (os_fault w OS_READ path) as [e|].
  { rewrite decide_True; [done|]. unfold BLCKSZ. lia. }
  rewrite Hf. cbn [default]. change (id f) with f. rewrite Hread.
  case_decide; [done|].
  unfold os_close. cbn [os_fault set_buffer upd_shared].
  destruct (os_fault w OS_CLOSE path) as [e|]; [done|].
  intros [= <-]. left.
  unfold buffer_of in *. cbn.
  rewrite list_lookup_total_insert_eq by done.
  rewrite Hb, <- Hlen, drop_all. apply app_nil_r.
Qed.

Lemma evict_settled ctl p b buffered stored w w' :
  in_int p -> evict ctl p w w' ->
  settled ctl p b buffered stored w -> settled ctl p b buffered stored w'.
Proof.
  intros Hp Hev. induction Hev as [|w q fuel slotno w1 w2 Hq Hqi Hz _ IH];
    [done|].
  intros HI. apply IH. by eapply SimpleLruZeroPage_settled.
Qed.

Lemma begin_read_frame slotno pageno w :
  let w' := begin_read slotno pageno w in
  num_slots (shared w') = num_slots (shared w) /\
  page_buffer (shared w') = page_buffer (shared w) /\
  page_number (shared w') = <[slotno := pageno]> (page_number (shared w)) /\
  disk w' = disk w /\
  txn_filespace w' = txn_filespace w.
Proof.
  cbv zeta. unfold begin_read.
  set (w3 := LWLockAcquire_buffer _ _ _).
  destruct (same_slots_RecentlyUsed slotno w3) as (Hn & Hnum & _ & _ & Hb & _).
  change (shared (LWLockRelease_ControlLock ?x)) with (shared x).
  rewrite Hn, Hnum, Hb. done.
Qed.

(** The page found VALID in a buffer. *)
Lemma SimpleLruReadPage_Internal_hit fuel ctl pageno write_ok xid valid w
    slotno w1 :
  SlruSelectLRUPage (S fuel) ctl pageno w = Returned slotno w1 ->
  number_of w1 slotno = pageno ->
  status_of w1 slotno = SLRU_PAGE_VALID ->
  SimpleLruReadPage_Internal (S fuel) ctl pageno write_ok xid valid w =
    Returned (Z.of_nat slotno, store_valid valid true)
      (upd_shared (SlruRecentlyUsed slotno) w1).
Proof.
  intros Hsel Hnum Hst.
  cbn [SimpleLruReadPage_Internal]. unfold bind at 1. rewrite Hsel.
  unfold bind at 1. unfold gets at 1. unfold id.
  rewrite Hnum, Hst.
  rewrite bool_decide_eq_true_2 by done.
  rewrite bool_decide_eq_true_2 by done.
  rewrite bool_decide_eq_false_2 by done.
  rewrite bool_decide_eq_false_2 by done.
  done.
Qed.

(** The slot and the buffer after a successful read. *)
Lemma read_done_frame slotno w2 :
  (slotno < length (page_status (shared w2)))%nat ->
  let w' := upd_shared (SlruRecentlyUsed slotno)
              (end_read slotno true
                 (upd_shared (SimpleLruZeroLSNs slotno) w2)) in
  num_slots (shared w') = num_slots (shared w2) /\
  page_number (shared w') = page_number (shared w2) /\
  page_buffer (shared w') = page_buffer (shared w2) /\
  status_of w' slotno = SLRU_PAGE_VALID.
Proof.
  intros Hslot. cbv zeta.
  set (w3 := upd_shared (SimpleLruZeroLSNs slotno) w2).
  set (w4 := end_read slotno true w3).
  pose proof (same_slots_ZeroLSNs slotno w2) as H3. fold w3 in H3.
  pose proof (same_slots_RecentlyUsed slotno w4) as H5.
  destruct H3 as (H3n & H3num & H3st & _ & H3b & _).
  destruct H5 as (H5n & H5num & H5st & _ & H5b & _).
  unfold status_of. rewrite H5n, H5num, H5b, H5st.
  change (num_slots (shared w4)) with (num_slots (shared w3)).
  change (page_number (shared w4)) with (page_number (shared w3)).
  change (page_buffer (shared w4)) with (page_buffer (shared w3)).
  change (page_status (shared w4))
    with (<[slotno := SLRU_PAGE_VALID]> (page_status (shared w3))).
  rewrite H3n, H3num, H3b, H3st.
  repeat split. by apply list_lookup_total_insert_eq.
Qed.

(** Reading a settled page that is on disk: the read ends, and when it
    hands back a slot, the slot holds the page with the stored bytes (or
    with the zeroes that recovery fills in). *)
Lemma SimpleLruReadPage_settled ctl p b buffered fuel write_ok xid valid w :
  in_int p -> settled ctl p b buffered true w ->
  match SimpleLruReadPage_Internal fuel ctl p write_ok xid valid w with
  | Returned r w' =>
      (valid = true /\ r = (-1, Some false)) \/
      exists slotno,
        r = (Z.of_nat slotno, store_valid valid true) /\
        (slotno < num_slots (shared w'))%nat /\
        number_of w' slotno = p /\
        status_of w' slotno = SLRU_PAGE_VALID /\
        (buffer_of w' slotno = b \/ buffer_of w' slotno = zero_page)
  | Raised e w' => True
  | OutOfFuel => (fuel <= pending w)%nat
  end.
Proof.
  intros Hp HI. destruct fuel as [|fuel]; [cbn; lia|].
  pose proof HI as (Hwf & Hn & Hslots & Hdisk & Hhold).
  destruct (find_page (shared w) p (all_slots (shared w))) as [i|] eqn:Hfind.
  - (* the page is in a buffer *)
    assert (Hsel : SlruSelectLRUPage (S fuel) ctl p w = Returned i w).
    { cbn [SlruSelectLRUPage]. by rewrite Hfind. }
    apply find_page_Some in Hfind as (Hi & Hnum & Hst).
    apply elem_of_seq in Hi.
    destruct (Hhold i ltac:(lia) (conj Hst Hnum)) as (_ & Hv & Hd & Hb).
    rewrite (SimpleLruReadPage_Internal_hit _ _ _ _ _ _ _ _ _ Hsel Hnum Hv).
    right. exists i. split; [done|].
    destruct (same_slots_RecentlyUsed i w) as (H5n & H5num & H5st & _ & H5b & _).
    unfold number_of, status_of, buffer_of in *.
    rewrite H5n, H5num, H5st, H5b.
    split; [lia|]. split; [done|]. split; [done|]. by left.
  - (* it is not: select a slot and read *)
    assert (HI0 : settled ctl p b false true w).
    { split; [done|]. split; [done|]. split; [done|]. split; [done|].
      intros j Hj [Hst Hnum]. exfalso.
      apply (find_page_None _ _ _ Hfind j); [apply elem_of_seq; lia|].
      by split. }
    pose proof (SlruSelectLRUPage_settled ctl p b false true Hp p (S fuel) w HI0)
      as HI1.
    pose proof (SlruSelectLRUPage_spec ctl p (S fuel) w Hwf Hn) as Hs.
    destruct (SlruSelectLRUPage (S fuel) ctl p w) as [slot w1|e w1|] eqn:Hsel.
    + destruct Hs as (_ & Hslot & _ & _).
      destruct HI1 as (Hwf1 & Hn1 & Hslots1 & Hdisk1 & Hhold1).
      assert (Hmiss : ~ (number_of w1 slot = p /\
                         status_of w1 slot <> SLRU_PAGE_EMPTY)).
      { intros [Hnum Hst]. by destruct (Hhold1 slot Hslot (conj Hst Hnum)). }
      rewrite (SimpleLruReadPage_Internal_miss _ _ _ _ _ _ _ _ _ Hsel Hmiss).
      destruct (begin_read_frame slot p w1) as (H0n & H0b & H0num & H0d & H0t).
      cbv zeta in H0n, H0b, H0num, H0d, H0t.
      set (w0 := begin_read slot p w1) in *.
      pose proof (SlruPhysicalReadPage_frame ctl p slot w0) as Hfr.
      pose proof (SlruPhysicalReadPage_on_disk ctl p b slot w0) as Hrd.
      destruct (SlruPhysicalReadPage ctl p slot w0) as [ok w2|e w2|];
        [|done..].
      cbv zeta.
      destruct ok; [|destruct valid; [by left|done]].
      right. exists slot. split; [done|].
      destruct Hwf1 as (Hlb & Hls & Hld & Hln & Hll).
      destruct Hfr as (H2n & H2st & _ & H2num & _ & _ & _ & _ & _ & H2bl & _).
      assert (Hls0 : length (page_status (shared w0)) = num_slots (shared w1)).
      { exact (eq_trans (proj1 (begin_read_length slot p w1)) Hls). }
      destruct (read_done_frame slot w2) as (H5n & H5num & H5b & H5st).
      { rewrite H2st, Hls0. done. }
      cbv zeta in H5n, H5num, H5b, H5st.
      unfold number_of, buffer_of in *.
      rewrite H5n, H5num, H5b, H2n, H2num, H0n, H0num.
      split; [done|].
      split; [apply list_lookup_total_insert_eq; lia|].
      split; [exact H5st|].
      apply Hrd; [|rewrite H0b; lia| |done].
      * apply (on_disk_ext ctl p b w1); [done|done|by apply Hdisk1].
      * rewrite H0b. by apply Hslots1.
    + cbn [SimpleLruReadPage_Internal]. unfold bind at 1. by rewrite Hsel.
    + cbn [SimpleLruReadPage_Internal]. unfold bind at 1. by rewrite Hsel.
Qed.

(** ** The round trip of a new page *)

Lemma SlruSelectLRUPage_one_holder ctl p fuel w slotno w1 :
  in_int p -> block_pool w -> one_holder p w ->
  SlruSelectLRUPage fuel ctl p w = Returned slotno w1 ->
  block_pool w1 /\ (slotno < num_slots (shared w1))%nat /\
  (forall j, (j < num_slots (shared w1))%nat -> j <> slotno ->
     ~ holds p w1 j).
Proof.
  intros Hp (Hwf & Hn & Hslots) Huniq Hsel.
  destruct (find_page (shared w) p (all_slots (shared w))) as [i|] eqn:Hfind.
  - destruct fuel as [|fuel]; [done|].
    cbn [SlruSelectLRUPage] in Hsel. rewrite Hfind in Hsel.
    injection Hsel as <- <-.
    apply find_page_Some in Hfind as (Hi & Hnum & Hst).
    apply elem_of_seq in Hi.
    split; [done|]. split; [lia|].
    intros j Hj Hne Hh. apply Hne. apply Huniq; [done|lia|done|by split].
  - assert (HI0 : settled ctl p [] false false w).
    { split; [done|]. split; [done|]. split; [done|]. split; [done|].
      intros j Hj [Hst Hnum]. exfalso.
      apply (find_page_None _ _ _ Hfind j); [apply elem_of_seq; lia|].
      by split. }
    pose proof (SlruSelectLRUPage_settled ctl p [] false false Hp p fuel w HI0)
      as HI1.
    pose proof (SlruSelectLRUPage_spec ctl p fuel w Hwf Hn) as Hs.
    rewrite Hsel in HI1, Hs.
    destruct Hs as (_ & Hslot & _ & _).
    destruct HI1 as (Hwf1 & Hn1 & Hslots1 & _ & Hhold1).
    split; [done|]. split; [done|].
    intros j Hj _ Hh. by destruct (Hhold1 j Hj Hh).
Qed.

(** After [SimpleLruZeroPage(p)] the slot it returns is the one holder of
    the page. *)
Lemma SimpleLruZeroPage_one_holder ctl p fuel w slotno w1 :
  in_int p -> block_pool w -> one_holder p w ->
  SimpleLruZeroPage fuel ctl p w = Returned slotno w1 ->
  block_pool w1 /\ (slotno < num_slots (shared w1))%nat /\
  (forall j, (j < num_slots (shared w1))%nat -> j <> slotno ->
     ~ holds p w1 j).
Proof.
  intros Hp Hpool Huniq. rewrite SimpleLruZeroPage_eq.
  destruct (SlruSelectLRUPage fuel ctl p w) as [slot w0|e w0|] eqn:Hsel;
    [|done..].
  intros [= <- <-].
  destruct (SlruSelectLRUPage_one_holder ctl p fuel w slot w0 Hp Hpool Huniq Hsel)
    as ((Hwf0 & Hn0 & Hslots0) & Hslot & Hoth).
  destruct (zero_slot_spec slot p w0 Hslot Hwf0) as (Hns & Hwf' & _).
  destruct (zero_slot_frame slot p w0) as (Hnum & Hst & Hdi & Hbu & _).
  cbv zeta in *.
  set (w' := upd_shared (set_latest_page_number p) _) in *.
  destruct Hwf0 as (Hlb & Hls & Hld & Hln & Hll).
  unfold block_pool, holds, buffer_of, number_of, status_of in *.
  rewrite Hns, Hnum, Hst, Hbu.
  split; [split; [done|split; [done|]]|split; [done|]].
  - intros i Hi. destruct (decide (i = slot)) as [->|Hi'].
    + rewrite !list_lookup_total_insert_eq by lia.
      split; [apply length_zero_page|done].
    + rewrite !list_lookup_total_insert_ne by done. by apply Hslots0.
  - intros j Hj Hne. rewrite !list_lookup_total_insert_ne by done.
    by apply Hoth.
Qed.

(** A successful write of the one holder of a page settles the page: it
    is on disk as the buffer has it, and the slot is clean. *)
Lemma SimpleLruWritePage_settles ctl fuel slotno w1 fdata w2 :
  in_int (number_of w1 slotno) -> block_pool w1 ->
  (slotno < num_slots (shared w1))%nat ->
  status_of w1 slotno = SLRU_PAGE_VALID ->
  dirty_of w1 slotno = true ->
  (forall j, (j < num_slots (shared w1))%nat -> j <> slotno ->
     ~ holds (number_of w1 slotno) w1 j) ->
  SimpleLruWritePage fuel ctl slotno None w1 = Returned fdata w2 ->
  settled ctl (number_of w1 slotno) (buffer_of w1 slotno) true true w2.
Proof.
  intros Hp (Hwf & Hn & Hslots) Hslot Hv Hd Hoth.
  rewrite (SimpleLruWritePage_dirty _ _ _ _ _ Hv Hd). cbv zeta.
  pose proof Hwf as (Hlb & Hls & Hld & Hln & Hll).
  pose proof (end_write_begin_write ctl (number_of w1 slotno) slotno None
                (SlruPhysicalWritePage ctl (number_of w1 slotno) slotno None
                   (begin_write slotno w1)).1.1 w1 ltac:(lia) ltac:(lia))
    as (Hst3 & _ & _ & _ & Hv3 & Hd3 & Hoth3).
  cbv zeta in Hst3, Hv3, Hd3, Hoth3.
  destruct (Hslots slotno Hslot) as [Hlen _].
  pose proof (fun Hok =>
                SlruPhysicalWritePage_ok_on_disk ctl (number_of w1 slotno)
                  slotno (begin_write slotno w1) Hok Hlen) as Hdisk3.
  change (buffer_of (begin_write slotno w1) slotno)
    with (buffer_of w1 slotno) in Hdisk3.
  set (r := SlruPhysicalWritePage ctl (number_of w1 slotno) slotno None
              (begin_write slotno w1)) in *.
  clearbody r.
  destruct (r.1.1) eqn:Hok; [|done].
  intros [= _ <-].
  pose proof (stable_wf _ _ Hst3 Hwf) as Hwf3.
  destruct Hst3 as (Hn3 & Hnum3 & _ & Hbuf3 & _).
  split; [done|]. split; [by rewrite Hn3|].
  unfold holds, buffer_of, number_of in *. rewrite Hn3, Hnum3, Hbuf3.
  split; [done|]. split.
  - intros _. apply (on_disk_ext ctl _ _ r.2); [apply end_write_disk..|].
    by apply Hdisk3.
  - intros j Hj [Hst Hnum].
    destruct (decide (j = slotno)) as [->|Hne]; [done|].
    exfalso. apply (Hoth j Hj Hne). split; [|done].
    destruct (Hoth3 j Hne) as [<- _]. done.
Qed.

(** C5.  For every page number [p] (an int) and every pool of blocks in
    which at most one slot holds [p]: [SimpleLruZeroPage(p)] ends when it
    has more fuel than the pool owes I/O, and the slot it returns has
    page_number = p, status VALID, dirty = true, a buffer of zero bytes,
    and latest_page_number = p.  Consequently, when that slot is then
    written with [SimpleLruWritePage] and other pages are created (which
    is what evicts [p]), a following [SimpleLruReadPage(p)] ends, and the
    slot it returns holds [p], VALID, with a buffer of zero bytes. *)
Theorem SimpleLruZeroPage_round_trip (ctl : SlruCtlData) (p : Z) (fuel : nat)
    (w : World) :
  in_int p -> block_pool w -> one_holder p w ->
  ((pending w < fuel)%nat -> SimpleLruZeroPage fuel ctl p w <> OutOfFuel) /\
  forall slotno w1,
    SimpleLruZeroPage fuel ctl p w = Returned slotno w1 ->
    ((slotno < num_slots (shared w1))%nat /\
     number_of w1 slotno = p /\
     status_of w1 slotno = SLRU_PAGE_VALID /\
     dirty_of w1 slotno = true /\
     buffer_of w1 slotno = zero_page /\
     latest_page_number (shared w1) = p) /\
    forall fuel2 fdata w2 w3 fuel4 write_ok xid,
      SimpleLruWritePage fuel2 ctl slotno None w1 = Returned fdata w2 ->
      evict ctl p w2 w3 ->
      ((pending w3 < fuel4)%nat ->
       SimpleLruReadPage fuel4 ctl p write_ok xid w3 <> OutOfFuel) /\
      forall r w4,
        SimpleLruReadPage fuel4 ctl p write_ok xid w3 = Returned r w4 ->
        exists slotno',
          r = (Z.of_nat slotno', None) /\
          (slotno' < num_slots (shared w4))%nat /\
          number_of w4 slotno' = p /\
          status_of w4 slotno' = SLRU_PAGE_VALID /\
          buffer_of w4 slotno' = zero_page.
Proof.
  intros Hp Hpool Huniq. split.
  { intros Hfuel. rewrite SimpleLruZeroPage_eq.
    destruct Hpool as (Hwf & Hn & _).
    pose proof (SlruSelectLRUPage_fuel ctl p fuel w Hwf Hn Hfuel) as Hsel.
    by destruct (SlruSelectLRUPage fuel ctl p w). }
  intros slotno w1 Hzero.
  pose proof Hpool as (Hwf & Hn & _).
  destruct (SimpleLruZeroPage_returned fuel ctl p w slotno w1 Hwf Hn Hzero)
    as (Hslot & Hwf1 & Hnum & Hst & Hd & Hb & Hlat).
  split; [done|].
  destruct (SimpleLruZeroPage_one_holder ctl p fuel w slotno w1 Hp Hpool Huniq
              Hzero) as (Hpool1 & _ & Hoth).
  intros fuel2 fdata w2 w3 fuel4 write_ok xid Hwrite Hev.
  assert (HI3 : settled ctl p zero_page true true w3).
  { apply (evict_settled ctl p zero_page true true w2 w3 Hp Hev).
    rewrite <- Hnum at 1. rewrite <- Hb.
    apply (SimpleLruWritePage_settles ctl fuel2 slotno w1 fdata w2); try done.
    - by rewrite Hnum.
    - by rewrite Hnum. }
  pose proof (SimpleLruReadPage_settled ctl p zero_page true fuel4 write_ok xid
                false w3 Hp HI3) as Hread.
  unfold SimpleLruReadPage.
  destruct (SimpleLruReadPage_Internal fuel4 ctl p write_ok xid false w3)
    as [r w4|e w4|].
  - split; [done|]. intros r' w4' [= <- <-].
    destruct Hread as [[? _]|(s & -> & Hs & Hn4 & Hv4 & Hb4)]; [done|].
    exists s. split; [done|]. split; [done|]. split; [done|]. split; [done|].
    by destruct Hb4.
  - split; done.
  - split; [lia|done].
Qed.

Lemma SimpleLruZeroPage_round_trip_witness :
  find_page (shared world_page5_evicted) 5
    (all_slots (shared world_page5_evicted)) = None /\
  exists slotno',
    value_after (SimpleLruReadPage 4 ex_ctl 5 false 0) world_page5_evicted
      = Some (Z.of_nat slotno', None) /\
    buffer_of (world_after (SimpleLruReadPage 4 ex_ctl 5 false 0)
                 world_page5_evicted) slotno' = zero_page.
Proof.
  split; [vm_compute; reflexivity|].
  assert (Hp : in_int 5) by (unfold in_int; lia).
  assert (Hpool : block_pool world_two_slots).
  { split; [by vm_compute|]. split; [vm_compute; lia|].
    intros i Hi. change (num_slots (shared world_two_slots)) with 2%nat in Hi.
    destruct i as [|[|i]]; [| |lia].
    all: split; [vm_compute; reflexivity|unfold in_int].
    all: change (number_of world_two_slots _) with 0; lia. }
  assert (Huniq : one_holder 5 world_two_slots).
  { intros i j Hi Hj [Hst _] _. exfalso. apply Hst.
    change (num_slots (shared world_two_slots)) with 2%nat in Hi.
    destruct i as [|[|i]]; [reflexivity|reflexivity|lia]. }
  destruct (SimpleLruZeroPage_round_trip ex_ctl 5 4 world_two_slots
              Hp Hpool Huniq) as [_ Hrt].
  destruct (Hrt 0%nat (world_after (SimpleLruZeroPage 4 ex_ctl 5) world_two_slots))
    as [_ Hrt2].
  { apply (Returned_after (SimpleLruZeroPage 4 ex_ctl 5) world_two_slots 0%nat).
    vm_compute; reflexivity. }
  destruct (Hrt2 4%nat None world_page5_written world_page5_evicted 4%nat
              false 0) as [_ Hrt3].
  { apply (Returned_after (SimpleLruWritePage 4 ex_ctl 0 None)
             (world_after (SimpleLruZeroPage 4 ex_ctl 5) world_two_slots) None).
    vm_compute; reflexivity. }
  { apply (evict_zero ex_ctl 5 world_page5_written 6 4 1%nat
             world_page6_created); [lia|unfold in_int; lia| |].
    { apply (Returned_after (SimpleLruZeroPage 4 ex_ctl 6)
               world_page5_written 1%nat).
      vm_compute; reflexivity. }
    apply (evict_zero ex_ctl 5 world_page6_created 7 4 0%nat
             world_page5_evicted); [lia|unfold in_int; lia| |].
    { apply (Returned_after (SimpleLruZeroPage 4 ex_ctl 7)
               world_page6_created 0%nat).
      vm_compute; reflexivity. }
    apply evict_done. }
  destruct (Hrt3 (1, None)
              (world_after (SimpleLruReadPage 4 ex_ctl 5 false 0)
                 world_page5_evicted))
    as (s & Hr & _ & _ & _ & Hb).
  { apply (Returned_after (SimpleLruReadPage 4 ex_ctl 5 false 0)
             world_page5_evicted (1, None)).
    vm_compute; reflexivity. }
  exists s. split; [|exact Hb].
  rewrite <- Hr. vm_compute; reflexivity.
Defined.

(** ** The control lock at the exit of a read *)

Lemma SlruSelectLRUPage_keeps_lock ctl pageno fuel w :
  shared_wf (shared w) -> (0 < num_slots (shared w))%nat ->
  ControlLock w = Some LW_EXCLUSIVE ->
  match SlruSelectLRUPage fuel ctl pageno w with
  | Returned _ w' =>
      shared_wf (shared w') /\ (0 < num_slots (shared w'))%nat /\
      ControlLock w' = Some LW_EXCLUSIVE
  | Raised _ w' =>
      shared_wf (shared w') /\ (0 < num_slots (shared w'))%nat /\
      ControlLock w' = Some LW_EXCLUSIVE
  | OutOfFuel => True
  end.
Proof.
  intros Hwf Hn Hlock.
  apply (SlruSelectLRUPage_invariant ctl
           (fun w => shared_wf (shared w) /\ (0 < num_slots (shared w))%nat /\
                     ControlLock w = Some LW_EXCLUSIVE)); [| | | | |done].
  - intros w0 (? & ? & _). done.
  - intros w0 slots best r s (Hwf0 & Hn0 & Hl0) Hscan.
    pose proof (victim_scan_frame _ _ _ _ _ _ _ Hscan)
      as (Hsn & Hsst & Hsd & Hsnum & Hsbuf & _ & _ & _ & Hslat & Hslen).
    cbn in Hsn, Hsst, Hsd, Hsnum, Hsbuf, Hslat, Hslen.
    split; [|split; [cbn; lia|done]].
    apply (stable_wf w0); [|done].
    unfold stable; cbn; repeat split; congruence.
  - intros w0 i (Hwf0 & Hn0 & Hl0) Hi Hv Hd.
    pose proof Hwf0 as (Hlb & Hls & Hld & Hln & Hll).
    pose proof (end_write_begin_write ctl (number_of w0 i) i None
                  (SlruPhysicalWritePage ctl (number_of w0 i) i None
                     (begin_write i w0)).1.1 w0 ltac:(lia) ltac:(lia))
      as (Hst3 & Hlock3 & _).
    cbv zeta in Hst3, Hlock3.
    split; [by apply (stable_wf w0)|]. split; [|done].
    destruct Hst3 as [-> _]. done.
  - intros w0 e H. exact H.
  - intros w0 i (Hwf0 & Hn0 & Hl0) Hi Hv He.
    pose proof (SimpleLruWaitIO_spec i w0) as (Hst3 & Hlock3 & _).
    cbv zeta in Hst3, Hlock3.
    split; [by apply (stable_wf w0)|]. split; [|done].
    destruct Hst3 as [-> _]. done.
Qed.

(** [SimpleLruReadPage_Internal], entered with the control lock held
    exclusively: it is held at exit when a slot is handed back, and it is
    not when the read failed and [-1] comes back through [valid]. *)
Lemma SimpleLruReadPage_Internal_lock ctl pageno write_ok xid valid fuel :
  forall w,
    shared_wf (shared w) -> (0 < num_slots (shared w))%nat ->
    ControlLock w = Some LW_EXCLUSIVE ->
    match SimpleLruReadPage_Internal fuel ctl pageno write_ok xid valid w with
    | Returned r w' =>
        (exists slotno, r.1 = Z.of_nat slotno /\
                        ControlLock w' = Some LW_EXCLUSIVE) \/
        (r = (-1, Some false) /\ valid = true /\ ControlLock w' = None)
    | Raised _ _ => True
    | OutOfFuel => True
    end.
Proof.
  induction fuel as [|fuel IH]; intros w Hwf Hn Hlock; [done|].
  pose proof (SlruSelectLRUPage_keeps_lock ctl pageno (S fuel) w Hwf Hn Hlock)
    as Hsel0.
  destruct (SlruSelectLRUPage (S fuel) ctl pageno w) as [slot w1|e w1|] eqn:Hsel.
  2,3: cbn [SimpleLruReadPage_Internal]; unfold bind at 1; by rewrite Hsel.
  destruct Hsel0 as (Hwf1 & Hn1 & Hlock1).
  destruct (decide (number_of w1 slot = pageno /\
                    status_of w1 slot <> SLRU_PAGE_EMPTY)) as [[Hp Hst]|Hmiss].
  - cbn [SimpleLruReadPage_Internal]. unfold bind at 1. rewrite Hsel.
    unfold bind at 1. unfold gets at 1. unfold id.
    rewrite (bool_decide_eq_true_2 _ Hp), (bool_decide_eq_true_2 _ Hst).
    cbn [andb].
    destruct (bool_decide (status_of w1 slot = SLRU_PAGE_READ_IN_PROGRESS) ||
              bool_decide (status_of w1 slot = SLRU_PAGE_WRITE_IN_PROGRESS) &&
              negb write_ok).
    + unfold bind, step.
      pose proof (SimpleLruWaitIO_spec slot w1) as (Hst3 & Hlock3 & _).
      cbv zeta in Hst3, Hlock3.
      apply IH; [by apply (stable_wf w1)| |done].
      destruct Hst3 as [-> _]. done.
    + left. exists slot. split; [done|]. exact Hlock1.
  - rewrite (SimpleLruReadPage_Internal_miss _ _ _ _ _ _ _ _ _ Hsel Hmiss).
    destruct (SlruPhysicalReadPage ctl pageno slot (begin_read slot pageno w1))
      as [ok w2|e w2|]; [|done..].
    cbv zeta. destruct ok.
    + left. exists slot. split; [done|]. done.
    + destruct valid; [|done]. right. done.
Qed.

(** [SimpleLruReadPage_ReadOnly]: some mode of the control lock is held at
    exit on a buffer hit and after a successful read, and none is after a
    failed read reported through [valid]. *)
Lemma SimpleLruReadPage_ReadOnly_lock ctl pageno xid valid fuel w :
  shared_wf (shared w) -> (0 < num_slots (shared w))%nat ->
  match SimpleLruReadPage_ReadOnly fuel ctl pageno xid valid w with
  | Returned r w' =>
      (exists slotno mode, r.1 = Z.of_nat slotno /\ ControlLock w' = Some mode) \/
      (r = (-1, Some false) /\ valid = true /\ ControlLock w' = None)
  | Raised _ _ => True
  | OutOfFuel => True
  end.
Proof.
  intros Hwf Hn.
  unfold SimpleLruReadPage_ReadOnly, bind, step, gets, ret.
  change (shared (LWLockAcquire_ControlLock LW_SHARED w)) with (shared w).
  destruct (find_page_readonly (shared w) pageno (all_slots (shared w)))
    as [slot|].
  - left. exists slot, LW_SHARED. done.
  - pose proof (SimpleLruReadPage_Internal_lock ctl pageno true xid valid fuel
                  (LWLockAcquire_ControlLock LW_EXCLUSIVE
                     (LWLockRelease_ControlLock
                        (LWLockAcquire_ControlLock LW_SHARED w)))
                  Hwf Hn eq_refl) as H.
    destruct (SimpleLruReadPage_Internal fuel ctl pageno true xid valid _)
      as [r w'|e w'|]; [|done..].
    destruct H as [(slot & Hr & Hl)|H]; [left|right; done].
    exists slot, LW_EXCLUSIVE. done.
Qed.

(** ** Segment names and the directory scan *)

Lemma hex_char_accepted d :
  0 <= d < 16 -> hex_char d ∈ list_ascii_of_string "0123456789ABCDEF".
Proof.
  intros H.
  assert (d = 0 \/ d = 1 \/ d = 2 \/ d = 3 \/ d = 4 \/ d = 5 \/ d = 6 \/ d = 7 \/
          d = 8 \/ d = 9 \/ d = 10 \/ d = 11 \/ d = 12 \/ d = 13 \/ d = 14 \/
          d = 15) as Hd by lia.
  repeat (destruct Hd as [->|Hd];
          [vm_compute; repeat (apply elem_of_cons; first [by left|right])|]).
  subst. vm_compute. repeat (apply elem_of_cons; first [by left|right]).
Qed.

Lemma hex_digits8_small u :
  0 <= u < 65536 ->
  hex_digits8 u =
    ["0"; "0"; "0"; "0";
     hex_char ((u / 4096) mod 16); hex_char ((u / 256) mod 16);
     hex_char ((u / 16) mod 16); hex_char (u mod 16)]%char.
Proof.
  intros Hu. unfold hex_digits8. cbn [map].
  change (16 ^ 7) with 268435456. change (16 ^ 6) with 16777216.
  change (16 ^ 5) with 1048576. change (16 ^ 4) with 65536.
  change (16 ^ 3) with 4096. change (16 ^ 2) with 256.
  change (16 ^ 1) with 16. change (16 ^ 0) with 1.
  rewrite !(Z.div_small u) by lia. rewrite Z.div_1_r. reflexivity.
Qed.

Lemma strip_zeroes_four (a b c d : ascii) :
  strip_zeroes 4 ["0"; "0"; "0"; "0"; a; b; c; d]%char = [a; b; c; d].
Proof.
  cbn [strip_zeroes length].
  repeat (rewrite decide_True by (split; [done|lia])).
  rewrite decide_False by (intros [_ ?]; lia). done.
Qed.

(** X1.  The name of a segment below 0x10000 is a name that the directory
    scan takes for a segment, and [strtol] reads the segment number back
    from it. *)
Theorem SlruSimpleFileName_round_trip (segno : Z) :
  0 <= segno < 65536 ->
  isSlruFileName (SlruSimpleFileName segno) = true /\
  strtol16 (SlruSimpleFileName segno) = segno.
Proof.
  intros Hs. unfold SlruSimpleFileName.
  rewrite Z.mod_small by lia.
  rewrite hex_digits8_small, strip_zeroes_four by done.
  pose proof (Z.mod_pos_bound (segno / 4096) 16 ltac:(lia)) as H3.
  pose proof (Z.mod_pos_bound (segno / 256) 16 ltac:(lia)) as H2.
  pose proof (Z.mod_pos_bound (segno / 16) 16 ltac:(lia)) as H1.
  pose proof (Z.mod_pos_bound segno 16 ltac:(lia)) as H0.
  split.
  - unfold isSlruFileName, strspn.
    rewrite list_ascii_of_string_of_list_ascii.
    cbn [string_of_list_ascii String.length strspn_list].
    rewrite !decide_True by (by apply hex_char_accepted).
    done.
  - unfold strtol16. rewrite list_ascii_of_string_of_list_ascii.
    cbn [strtol16_from]. rewrite !hex_value_hex_char by done.
    pose proof (Z.div_mod segno 16 ltac:(lia)).
    pose proof (Z.div_mod (segno / 16) 16 ltac:(lia)).
    pose proof (Z.div_mod (segno / 256) 16 ltac:(lia)).
    pose proof (Z.div_mod (segno / 4096) 16 ltac:(lia)).
    assert (segno / 256 = segno / 16 / 16) by (rewrite Z.div_div by lia; done).
    assert (segno / 4096 = segno / 256 / 16) by (rewrite Z.div_div by lia; done).
    assert (segno / 4096 / 16 = 0).
    { rewrite Z.div_div by lia. apply Z.div_small. lia. }
    lia.
Qed.

Lemma SlruSimpleFileName_round_trip_witness :
  isSlruFileName (SlruSimpleFileName 175) = true /\
  strtol16 (SlruSimpleFileName 175) = 175.
Proof. apply (SlruSimpleFileName_round_trip 175). lia. Defined.

(** X2.  Two segments that a C int can number have different file
    names. *)
Theorem SlruSimpleFileName_distinct (a b : Z) :
  in_int a -> in_int b -> a <> b ->
  SlruSimpleFileName a <> SlruSimpleFileName b.
Proof.
  intros Ha Hb Hne H. apply SlruSimpleFileName_inj in H.
  unfold in_int in *.
  pose proof (Z.div_mod a 4294967296 ltac:(lia)).
  pose proof (Z.div_mod b 4294967296 ltac:(lia)).
  assert (-1 <= a / 4294967296 <= 0).
  { split; [apply Z.div_le_lower_bound; lia|].
    apply Z.lt_succ_r. apply Z.div_lt_upper_bound; lia. }
  assert (-1 <= b / 4294967296 <= 0).
  { split; [apply Z.div_le_lower_bound; lia|].
    apply Z.lt_succ_r. apply Z.div_lt_upper_bound; lia. }
  lia.
Qed.

Lemma SlruSimpleFileName_distinct_witness :
  SlruSimpleFileName (-1) <> SlruSimpleFileName 65535.
Proof.
  apply (SlruSimpleFileName_distinct (-1) 65535); unfold in_int; lia.
Defined.

Lemma length_string_of_list_ascii (l : list ascii) :
  String.length (string_of_list_ascii l) = length l.
Proof. induction l as [|c l IH]; [done|]. cbn. by rewrite IH. Qed.

Lemma high_digits_zero u :
  0 <= u < 4294967296 ->
  (u / 268435456) mod 16 = 0 -> (u / 16777216) mod 16 = 0 ->
  (u / 1048576) mod 16 = 0 -> (u / 65536) mod 16 = 0 ->
  u < 65536.
Proof.
  intros Hu H7 H6 H5 H4.
  pose proof (Z.div_mod (u / 65536) 16 ltac:(lia)).
  pose proof (Z.div_mod (u / 1048576) 16 ltac:(lia)).
  pose proof (Z.div_mod (u / 16777216) 16 ltac:(lia)).
  pose proof (Z.div_mod (u / 268435456) 16 ltac:(lia)).
  assert (u / 1048576 = u / 65536 / 16) by (rewrite Z.div_div by lia; done).
  assert (u / 16777216 = u / 1048576 / 16) by (rewrite Z.div_div by lia; done).
  assert (u / 268435456 = u / 16777216 / 16) by (rewrite Z.div_div by lia; done).
  assert (u / 268435456 / 16 = 0).
  { rewrite Z.div_div by lia. apply Z.div_small. lia. }
  assert (Hq : u / 65536 = 0) by lia.
  apply Z.div_small_iff in Hq; lia.
Qed.

(** X3.  A segment number outside 0 .. 0xFFFF gets a name of more than
    four digits, which the directory scan does not take for a segment: the
    file of such a segment is never found removable, whatever the
    cutoff. *)
Theorem removable_long_segment (ctl : SlruCtlData) (cutoffPage segno : Z) :
  in_int segno -> ~ (0 <= segno < 65536) ->
  isSlruFileName (SlruSimpleFileName segno) = false /\
  removable ctl cutoffPage (SlruSimpleFileName segno) = false.
Proof.
  intros Hint Hbig.
  assert (Hname : isSlruFileName (SlruSimpleFileName segno) = false).
  2: { split; [done|]. unfold removable. by rewrite Hname. }
  unfold isSlruFileName, SlruSimpleFileName.
  apply andb_false_iff. left. apply bool_decide_eq_false.
  rewrite length_string_of_list_ascii.
  set (u := segno mod 4294967296).
  assert (Hu : 65536 <= u < 4294967296).
  { subst u. unfold in_int in Hint.
    pose proof (Z.mod_pos_bound segno 4294967296 ltac:(lia)).
    destruct (decide (0 <= segno)).
    - rewrite Z.mod_small by lia. lia.
    - rewrite <- (Z.mod_add segno 1 4294967296) by lia.
      rewrite Z.mod_small by lia. lia. }
  unfold hex_digits8. cbn [map].
  change (16 ^ 7) with 268435456. change (16 ^ 6) with 16777216.
  change (16 ^ 5) with 1048576. change (16 ^ 4) with 65536.
  cbn [strip_zeroes length].
  assert (Hz : forall d, 0 <= d < 16 -> hex_char d = "0"%char -> d = 0).
  { intros d Hd H. apply hex_char_inj; [done|lia|done]. }
  pose proof (high_digits_zero u ltac:(lia)) as Hhigh.
  unfold SLRU_FILENAME_LEN.
  repeat case_decide; cbn [length]; try lia.
  all: exfalso.
  all: repeat match goal with H : _ /\ _ |- _ => destruct H as [H _] end.
  all: repeat match goal with
         | H : hex_char _ = "0"%char |- _ =>
             apply Hz in H; [|apply Z.mod_pos_bound; lia]
         end.
  all: lia.
Qed.

Lemma removable_long_segment_witness :
  isSlruFileName (SlruSimpleFileName 65536) = false /\
  removable ex_ctl 99999999 (SlruSimpleFileName 65536) = false.
Proof.
  apply (removable_long_segment ex_ctl 99999999 65536); unfold in_int; lia.
Defined.

Lemma SlruScanDirectory_loop_found ctl c doDeletions dir entries :
  forall found w b w',
    SlruScanDirectory_loop ctl c doDeletions dir entries found w
      = Returned b w' ->
    b = found || existsb (removable ctl c) entries.
Proof.
  induction entries as [|d_name rest IH]; intros found w b w' H.
  { cbn in H. inversion H. by rewrite orb_false_r. }
  cbn [SlruScanDirectory_loop existsb] in *.
  destruct (removable ctl c d_name) eqn:Hrem.
  - rewrite orb_true_r. destruct doDeletions.
    + case_decide; [done|]. unfold bind, step in H. by apply IH in H.
    + by apply IH in H.
  - cbn [orb]. by apply IH in H.
Qed.

Lemma SlruScanDirectory_loop_dry ctl c dir entries :
  forall found w,
    SlruScanDirectory_loop ctl c false dir entries found w
      = Returned (found || existsb (removable ctl c) entries) w.
Proof.
  induction entries as [|d_name rest IH]; intros found w.
  { cbn. by rewrite orb_false_r. }
  cbn [SlruScanDirectory_loop existsb].
  destruct (removable ctl c d_name) eqn:Hrem.
  - rewrite IH. by rewrite orb_true_r.
  - rewrite IH. done.
Qed.

Lemma SlruScanDirectory_loop_elsewhere ctl c dir entries :
  forall found w b w',
    dir = TxnDir (Dir ctl) w ->
    SlruScanDirectory_loop ctl c true dir entries found w = Returned b w' ->
    forall d name, d <> dir -> disk w' !! (d, name) = disk w !! (d, name).
Proof.
  induction entries as [|d_name rest IH]; intros found w b w' Hdir H d name Hd.
  { cbn in H. by inversion H. }
  cbn [SlruScanDirectory_loop] in H.
  destruct (removable ctl c d_name) eqn:Hrem.
  - case_decide as Hlen; [done|].
    unfold bind, step in H.
    set (w2 := MirroredFlatFile_Drop (Dir ctl) d_name
                 (ereport_LOG (LogRemovingFile (dir, d_name)) w)) in H.
    assert (Hdir2 : dir = TxnDir (Dir ctl) w2) by done.
    rewrite (IH _ _ _ _ Hdir2 H) by done.
    assert (Hd2 : disk w2 = delete (dir, d_name) (disk w)).
    { subst w2. rewrite Hdir. reflexivity. }
    rewrite Hd2. apply lookup_delete_ne. congruence.
  - by apply (IH _ _ _ _ Hdir H).
Qed.

Lemma SlruScanDirectory_loop_raises ctl c doDeletions dir entries :
  forall found w e w',
    SlruScanDirectory_loop ctl c doDeletions dir entries found w = Raised e w' ->
    exists name, e = CannotFormPath dir name.
Proof.
  induction entries as [|d_name rest IH]; intros found w e w' H; [done|].
  cbn [SlruScanDirectory_loop] in H.
  destruct (removable ctl c d_name); [|by eapply IH].
  destruct doDeletions; [|by eapply IH].
  case_decide; [inversion H; eauto|]. unfold bind, step in H. by eapply IH.
Qed.

Lemma existsb_removable ctl c (entries : list string) :
  existsb (removable ctl c) entries = true <->
  exists name, name ∈ entries /\ removable ctl c name = true.
Proof.
  rewrite existsb_exists. split; intros (name & Hin & Hr); exists name.
  - split; [by apply list_elem_of_In|done].
  - split; [by apply list_elem_of_In|done].
Qed.

(** X4.  A directory scan that deletes, when it returns: exactly the files
    of the pool's directory with a four-digit segment name whose first page
    precedes the cutoff (rounded to its segment) are gone; every other
    file, of this directory or of another, is there as before, and shared
    memory is not touched.  It reports whether it found such a file.  The
    scan ends, and the one error it raises is that of a path too long. *)
Theorem SlruScanDirectory_removes_only (ctl : SlruCtlData) (cutoffPage : Z)
    (w : World) :
  let dir := TxnDir (Dir ctl) w in
  let c := segment_start cutoffPage in
  match SlruScanDirectory ctl cutoffPage true w with
  | Returned b w' =>
      shared w' = shared w /\
      (forall d name,
         disk w' !! (d, name) =
           if decide (d = dir /\ is_Some (disk w !! (d, name)) /\
                      removable ctl c name = true)
           then None else disk w !! (d, name)) /\
      (b = true <->
       exists name, is_Some (disk w !! (dir, name)) /\
                    removable ctl c name = true)
  | Raised e _ => exists name, e = CannotFormPath dir name
  | OutOfFuel => False
  end.
Proof.
  cbv zeta. unfold SlruScanDirectory. cbv zeta.
  set (dir := TxnDir (Dir ctl) w). set (c := segment_start cutoffPage).
  destruct (SlruScanDirectory_loop ctl c true dir (dir_entries dir (disk w))
              false w) as [b w'|e w'|] eqn:Hrun.
  - destruct (SlruScanDirectory_loop_spec ctl c dir _ _ _ _ _ eq_refl Hrun)
      as (Hsh & _ & _ & Hfiles).
    split; [done|]. split.
    + intros d name. destruct (decide (d = dir)) as [->|Hd].
      * rewrite Hfiles.
        destruct (decide (name ∈ dir_entries dir (disk w) /\
                          removable ctl c name = true)) as [[Hin Hr]|Hn].
        { apply elem_of_dir_entries in Hin. by rewrite decide_True. }
        rewrite decide_False; [done|]. intros (_ & Hin & Hr). apply Hn.
        split; [by apply elem_of_dir_entries|done].
      * rewrite decide_False by (intros [? _]; done).
        by apply (SlruScanDirectory_loop_elsewhere ctl c dir _ _ _ _ _ eq_refl Hrun).
    + apply SlruScanDirectory_loop_found in Hrun. cbn [orb] in Hrun.
      rewrite Hrun, existsb_removable. split; intros (name & Hin & Hr).
      * exists name. split; [by apply elem_of_dir_entries|done].
      * exists name. split; [by apply elem_of_dir_entries|done].
  - by apply SlruScanDirectory_loop_raises in Hrun.
  - by apply SlruScanDirectory_loop_ends in Hrun.
Qed.

(** X5.  A directory scan that does not delete changes nothing and raises
    nothing: it returns whether the pool's directory holds a file with a
    four-digit segment name whose first page precedes the cutoff (rounded
    to its segment). *)
Theorem SlruScanDirectory_dry_run (ctl : SlruCtlData) (cutoffPage : Z)
    (w : World) :
  exists b,
    SlruScanDirectory ctl cutoffPage false w = Returned b w /\
    (b = true <->
     exists name,
       is_Some (disk w !! (TxnDir (Dir ctl) w, name)) /\
       removable ctl (segment_start cutoffPage) name = true).
Proof.
  unfold SlruScanDirectory. cbv zeta.
  rewrite SlruScanDirectory_loop_dry. eexists. split; [reflexivity|].
  cbn [orb]. rewrite existsb_removable.
  split; intros (name & Hin & Hr); exists name.
  - split; [by apply elem_of_dir_entries|done].
  - split; [by apply elem_of_dir_entries|done].
Qed.

(** ** More on the slot operations *)

(** X6.  [SimpleLruWaitIO] on a slot whose I/O was left behind rolls the
    slot back: a read in progress becomes EMPTY, a write in progress
    becomes VALID and dirty, so that the page is written again; a slot that
    is EMPTY or VALID is left as it is.  In every case the page numbers,
    the buffers, the other slots and the directory are as before, the
    slot's lock is free again and the control lock is held exclusively. *)
Theorem SimpleLruWaitIO_rolls_back (slotno : nat) (w : World) :
  (slotno < num_slots (shared w))%nat -> shared_wf (shared w) ->
  (slotno < length (buffer_locks w))%nat ->
  let w' := SimpleLruWaitIO slotno w in
  status_of w' slotno =
    match status_of w slotno with
    | SLRU_PAGE_READ_IN_PROGRESS => SLRU_PAGE_EMPTY
    | SLRU_PAGE_WRITE_IN_PROGRESS => SLRU_PAGE_VALID
    | st => st
    end /\
  dirty_of w' slotno =
    match status_of w slotno with
    | SLRU_PAGE_WRITE_IN_PROGRESS => true
    | _ => dirty_of w slotno
    end /\
  (forall j, j <> slotno ->
     status_of w' j = status_of w j /\ dirty_of w' j = dirty_of w j) /\
  page_number (shared w') = page_number (shared w) /\
  page_buffer (shared w') = page_buffer (shared w) /\
  disk w' = disk w /\
  buffer_locks w' !! slotno = Some None /\
  ControlLock w' = Some LW_EXCLUSIVE.
Proof.
  intros Hslot (Hlb & Hls & Hld & Hln & Hll) Hlock.
  pose proof (SimpleLruWaitIO_spec slotno w)
    as (Hstab & Hcl & Hdisk & _ & _ & Hoth & Hsame & Hrd & Hwr).
  cbv zeta in *.
  destruct Hstab as (_ & Hnum & _ & Hbuf & _).
  assert (Hbl : buffer_locks (SimpleLruWaitIO slotno w) !! slotno = Some None).
  { rewrite SimpleLruWaitIO_eq. cbv zeta.
    destruct (status_of w slotno); cbn;
      rewrite ?list_insert_insert_eq;
      apply list_lookup_insert_eq; by rewrite ?length_insert. }
  destruct (status_of w slotno) eqn:Hst.
  - assert (Hsh : shared (SimpleLruWaitIO slotno w) = shared w) by by apply Hsame.
    unfold status_of, dirty_of in *. rewrite Hsh. done.
  - destruct Hrd as [-> ->]; [lia|done|]. done.
  - assert (Hsh : shared (SimpleLruWaitIO slotno w) = shared w) by by apply Hsame.
    unfold status_of, dirty_of in *. rewrite Hsh. done.
  - destruct Hwr as [-> ->]; [lia|lia|done|]. done.
Qed.

Lemma SimpleLruWaitIO_rolls_back_witness :
  let w := set_status 1 SLRU_PAGE_WRITE_IN_PROGRESS
             (ex_world (SimpleLruInit 2 0)) in
  status_of (SimpleLruWaitIO 1 w) 1 = SLRU_PAGE_VALID /\
  dirty_of (SimpleLruWaitIO 1 w) 1 = true.
Proof.
  intros w.
  destruct (SimpleLruWaitIO_rolls_back 1 w) as (Hs & Hd & _).
  - vm_compute. lia.
  - repeat split; vm_compute; reflexivity.
  - vm_compute. lia.
  - split; [exact Hs|exact Hd].
Defined.

(** X7.  [SlruSelectLRUPage] on a pool with at least one slot: with more
    fuel than the I/O the pool owes it ends; the slot it returns either
    holds the requested page (in any state but EMPTY) or is free to take
    (EMPTY, or VALID and clean); the page numbers, the buffers and the
    latest page are as before.  When it raises, the error is that of the
    failed write of a victim, which is VALID and dirty again. *)
Theorem SlruSelectLRUPage_returns_freeable (ctl : SlruCtlData) (pageno : Z)
    (fuel : nat) (w : World) :
  shared_wf (shared w) -> (0 < num_slots (shared w))%nat ->
  ((pending w < fuel)%nat -> SlruSelectLRUPage fuel ctl pageno w <> OutOfFuel) /\
  (forall slotno w',
     SlruSelectLRUPage fuel ctl pageno w = Returned slotno w' ->
     (slotno < num_slots (shared w'))%nat /\
     (holds pageno w' slotno \/
      status_of w' slotno = SLRU_PAGE_EMPTY \/
      (status_of w' slotno = SLRU_PAGE_VALID /\ dirty_of w' slotno = false)) /\
     num_slots (shared w') = num_slots (shared w) /\
     page_number (shared w') = page_number (shared w) /\
     page_buffer (shared w') = page_buffer (shared w) /\
     latest_page_number (shared w') = latest_page_number (shared w)) /\
  (forall e w',
     SlruSelectLRUPage fuel ctl pageno w = Raised e w' ->
     exists cause en victim,
       e = SlruIOError cause en (number_of w' victim) InvalidTransactionId /\
       (victim < num_slots (shared w'))%nat /\
       status_of w' victim = SLRU_PAGE_VALID /\
       dirty_of w' victim = true).
Proof.
  intros Hwf Hn.
  pose proof (SlruSelectLRUPage_spec ctl pageno fuel w Hwf Hn) as Hs.
  split; [|split].
  - intros Hfuel H. rewrite H in Hs. lia.
  - intros slotno w' H. rewrite H in Hs.
    destruct Hs as ((Hn' & Hnum & Hlat & Hbuf & _) & Hslot & _ & Hcase).
    split; [done|]. split; [|done].
    destruct Hcase as [[? ?]|[?|?]]; [left; by split|right; by left|right; by right].
  - intros e w' H. rewrite H in Hs. by destruct Hs as (_ & _ & Hr).
Qed.

Lemma SlruSelectLRUPage_returns_freeable_witness :
  SlruSelectLRUPage 5 ex_ctl 128 world_four_slots <> OutOfFuel.
Proof.
  destruct (SlruSelectLRUPage_returns_freeable ex_ctl 128 5 world_four_slots)
    as (H & _).
  - repeat split; vm_compute; reflexivity.
  - vm_compute. lia.
  - apply H. vm_compute. lia.
Defined.

(** X8.  [SimpleLruWritePage] does nothing to a slot that has nothing to
    write: when the slot is not being written and is clean, or is not
    VALID, the call returns at once, with the world and the caller's
    [fdata] as they were. *)
Theorem SimpleLruWritePage_nothing_to_write (fuel : nat) (ctl : SlruCtlData)
    (slotno : nat) (fdata : option SlruFlushData) (w : World) :
  status_of w slotno <> SLRU_PAGE_WRITE_IN_PROGRESS ->
  dirty_of w slotno = false \/ status_of w slotno <> SLRU_PAGE_VALID ->
  SimpleLruWritePage fuel ctl slotno fdata w = Returned fdata w.
Proof.
  intros Hst Hclean. unfold SimpleLruWritePage, bind, gets, step, ret.
  assert (Hwait : SimpleLruWritePage_wait fuel slotno (number_of w slotno) w
                  = Returned tt w).
  { destruct fuel; cbn; by rewrite bool_decide_eq_false_2. }
  rewrite Hwait. unfold id.
  destruct Hclean as [Hd|Hv].
  - rewrite Hd. done.
  - rewrite (bool_decide_eq_true_2 _ Hv). by rewrite orb_true_r.
Qed.

Lemma SimpleLruWritePage_nothing_to_write_witness :
  SimpleLruWritePage 0 ex_ctl 1 None (ex_world (SimpleLruInit 2 0))
  = Returned None (ex_world (SimpleLruInit 2 0)).
Proof.
  apply (SimpleLruWritePage_nothing_to_write 0 ex_ctl 1 None
           (ex_world (SimpleLruInit 2 0))).
  - vm_compute. discriminate.
  - left. vm_compute. reflexivity.
Defined.

(** X9.  A standalone [SimpleLruWritePage] of a dirty VALID slot, when it
    returns: the slot is VALID and clean, the page is on disk with the
    bytes of the buffer, at its offset in its segment file; page numbers
    and buffers are as before, the other slots keep their state, and the
    control lock is held exclusively, the slot's lock free. *)
Theorem SimpleLruWritePage_writes_out (fuel : nat) (ctl : SlruCtlData)
    (slotno : nat) (w : World) (fdata : option SlruFlushData) (w' : World) :
  shared_wf (shared w) -> (slotno < num_slots (shared w))%nat ->
  length (buffer_of w slotno) = Z.to_nat BLCKSZ ->
  status_of w slotno = SLRU_PAGE_VALID -> dirty_of w slotno = true ->
  SimpleLruWritePage fuel ctl slotno None w = Returned fdata w' ->
  status_of w' slotno = SLRU_PAGE_VALID /\
  dirty_of w' slotno = false /\
  on_disk ctl (number_of w slotno) (buffer_of w slotno) w' /\
  page_number (shared w') = page_number (shared w) /\
  page_buffer (shared w') = page_buffer (shared w) /\
  (forall j, j <> slotno ->
     status_of w' j = status_of w j /\ dirty_of w' j = dirty_of w j) /\
  ControlLock w' = Some LW_EXCLUSIVE /\
  buffer_locks w' !! slotno <> Some (Some LW_EXCLUSIVE).
Proof.
  intros Hwf Hslot Hlen Hv Hd.
  rewrite (SimpleLruWritePage_dirty _ _ _ _ _ Hv Hd). cbv zeta.
  pose proof Hwf as (Hlb & Hls & Hld & Hln & Hll).
  pose proof (end_write_begin_write ctl (number_of w slotno) slotno None
                (SlruPhysicalWritePage ctl (number_of w slotno) slotno None
                   (begin_write slotno w)).1.1 w ltac:(lia) ltac:(lia))
    as (Hst3 & Hcl3 & _ & _ & Hv3 & Hd3 & Hoth3).
  cbv zeta in Hst3, Hcl3, Hv3, Hd3, Hoth3.
  pose proof (fun Hok =>
                SlruPhysicalWritePage_ok_on_disk ctl (number_of w slotno)
                  slotno (begin_write slotno w) Hok Hlen) as Hdisk3.
  change (buffer_of (begin_write slotno w) slotno)
    with (buffer_of w slotno) in Hdisk3.
  set (r := SlruPhysicalWritePage ctl (number_of w slotno) slotno None
              (begin_write slotno w)) in *.
  clearbody r.
  destruct (r.1.1) eqn:Hok; [|done].
  intros [= _ <-].
  destruct Hst3 as (_ & Hnum3 & _ & Hbuf3 & _).
  split; [done|]. split; [done|]. split.
  { apply (on_disk_ext ctl _ _ r.2); [apply end_write_disk..|by apply Hdisk3]. }
  split; [done|]. split; [done|]. split; [done|]. split; [done|].
  unfold end_write, LWLockRelease_buffer. cbn. apply lookup_released.
Qed.

Lemma SimpleLruWritePage_writes_out_witness :
  on_disk ex_ctl 5 zero_page world_page5_written.
Proof.
  destruct (SimpleLruWritePage_writes_out 4 ex_ctl 0
              (world_after (SimpleLruZeroPage 4 ex_ctl 5) world_two_slots)
              None world_page5_written)
    as (_ & _ & Hdisk & _).
  - repeat split; vm_compute; reflexivity.
  - vm_compute. lia.
  - vm_compute. reflexivity.
  - vm_compute. reflexivity.
  - vm_compute. reflexivity.
  - apply (Returned_after (SimpleLruWritePage 4 ex_ctl 0 None)
             (world_after (SimpleLruZeroPage 4 ex_ctl 5) world_two_slots) None).
    vm_compute. reflexivity.
  - assert (Hn : number_of (world_after (SimpleLruZeroPage 4 ex_ctl 5)
                              world_two_slots) 0 = 5)
      by (vm_compute; reflexivity).
    assert (Hb : buffer_of (world_after (SimpleLruZeroPage 4 ex_ctl 5)
                              world_two_slots) 0 = zero_page)
      by (vm_compute; reflexivity).
    rewrite Hn, Hb in Hdisk. exact Hdisk.
Defined.

Lemma on_disk_set_errno ctl p b e w :
  on_disk ctl p b w -> on_disk ctl p b (set_errno e w).
Proof. by apply on_disk_ext. Qed.

(** X10.  A standalone [SimpleLruWritePage] of a dirty VALID slot leaves
    the other pages on disk alone, whether the write succeeds or fails: a
    page other than the slot's that is on disk is there afterwards with
    the same bytes. *)
Theorem SimpleLruWritePage_spares_other_pages (fuel : nat) (ctl : SlruCtlData)
    (slotno : nat) (w : World) (p : Z) (b : list byte) :
  in_int p -> in_int (number_of w slotno) -> number_of w slotno <> p ->
  length (buffer_of w slotno) = Z.to_nat BLCKSZ ->
  status_of w slotno = SLRU_PAGE_VALID -> dirty_of w slotno = true ->
  on_disk ctl p b w ->
  match SimpleLruWritePage fuel ctl slotno None w with
  | Returned _ w' => on_disk ctl p b w'
  | Raised _ w' => on_disk ctl p b w'
  | OutOfFuel => False
  end.
Proof.
  intros Hp Hq Hne Hlen Hv Hd Hdisk.
  rewrite (SimpleLruWritePage_dirty _ _ _ _ _ Hv Hd). cbv zeta.
  pose proof (SlruPhysicalWritePage_keeps_on_disk ctl p b (number_of w slotno)
                slotno (begin_write slotno w) Hp Hq Hne Hlen
                (on_disk_ext ctl p b w (begin_write slotno w) eq_refl eq_refl
                   Hdisk)) as Hdisk3.
  set (r := SlruPhysicalWritePage ctl (number_of w slotno) slotno None
              (begin_write slotno w)) in *.
  clearbody r.
  assert (Hend : forall ok, on_disk ctl p b (end_write slotno ok r.2)).
  { intros ok. apply (on_disk_ext ctl _ _ r.2); [apply end_write_disk..|done]. }
  destruct (r.1.1); [exact (Hend true)|].
  apply on_disk_set_errno, Hend.
Qed.

Lemma on_disk_b_true ctl pageno b w :
  on_disk_b ctl pageno b w = true -> on_disk ctl pageno b w.
Proof.
  unfold on_disk_b. intros H.
  apply andb_true_iff in H as [H Hf]. apply andb_true_iff in H as [Ho Hb].
  apply bool_decide_eq_true in Ho, Hb.
  destruct (disk w !! page_path ctl w pageno) as [f|] eqn:Hlook; [|done].
  apply bool_decide_eq_true in Hf. split; [done|]. split; [done|]. eauto.
Qed.

Lemma SimpleLruWritePage_spares_other_pages_witness :
  match SimpleLruWritePage 4 ex_ctl 1 None world_page6_created with
  | Returned _ w' => on_disk ex_ctl 5 zero_page w'
  | Raised _ w' => on_disk ex_ctl 5 zero_page w'
  | OutOfFuel => False
  end.
Proof.
  apply (SimpleLruWritePage_spares_other_pages 4 ex_ctl 1 world_page6_created
           5 zero_page).
  - unfold in_int. lia.
  - assert (Hn : number_of world_page6_created 1 = 6) by (vm_compute; reflexivity).
    rewrite Hn. unfold in_int. lia.
  - assert (Hn : number_of world_page6_created 1 = 6) by (vm_compute; reflexivity).
    rewrite Hn. lia.
  - vm_compute. reflexivity.
  - vm_compute. reflexivity.
  - vm_compute. reflexivity.
  - apply on_disk_b_true. vm_compute. reflexivity.
Defined.

(** ** More on the physical write *)


Lemma SlruPhysicalWritePage_tail_XLogFlushed ctl o in_flush fdata offset slotno w :
  XLogFlushed (SlruPhysicalWritePage_tail ctl o in_flush fdata offset slotno w).2
  = XLogFlushed w.
Proof.
  unfold SlruPhysicalWritePage_tail, MirroredFlatFile_SeekSet,
    MirroredFlatFile_Write, MirroredFlatFile_Flush.
  repeat (case_match; simplify_eq/=); done.
Qed.

Lemma SlruPhysicalWritePage_XLogFlushed ctl pageno slotno fdata w :
  XLogFlushed (SlruPhysicalWritePage ctl pageno slotno fdata w).2
  = XLogFlushed
      match group_lsn (shared w) with
      | Some lsns =>
          if decide (max_group_lsn (shared w) lsns slotno <> 0)
          then XLogFlush (max_group_lsn (shared w) lsns slotno) w else w
      | None => w
      end.
Proof.
  unfold SlruPhysicalWritePage.
  set (w1 := match group_lsn (shared w) with Some _ => _ | None => _ end).
  cbv zeta.
  destruct (match match fdata with Some _ => _ | None => _ end with
            | Some _ => _ | None => _ end) as [o|].
  { apply SlruPhysicalWritePage_tail_XLogFlushed. }
  unfold MirroredFlatFile_Open.
  destruct (os_fault w1 OS_OPEN _) as [e|]; [done|].
  destruct fdata as [fd|]; [case_decide|];
    by rewrite SlruPhysicalWritePage_tail_XLogFlushed.
Qed.


Lemma SlruPhysicalWritePage_tail_fdata ctl o in_flush fdata offset slotno w :
  (SlruPhysicalWritePage_tail ctl o in_flush fdata offset slotno w).1.2 = fdata.
Proof.
  unfold SlruPhysicalWritePage_tail.
  repeat (case_match; simplify_eq/=); done.
Qed.

(** X12.  The table of open files of a flush stays within its arrays.
    [SlruPhysicalWritePage], given a table with at most MAX_FLUSH_BUFFERS
    files, hands it back with the files it had, and with at most one file
    more, that of the page's segment, entered only while there is room; a
    full table is left as it is (the write is then a standalone one). *)
Theorem SlruPhysicalWritePage_flush_data_bounded (ctl : SlruCtlData)
    (pageno : Z) (slotno : nat) (fd : SlruFlushData) (w : World) :
  flush_wf fd ->
  exists fd',
    (SlruPhysicalWritePage ctl pageno slotno (Some fd) w).1.2 = Some fd' /\
    flush_wf fd' /\
    (fd' = fd \/
     ((num_files fd < MAX_FLUSH_BUFFERS)%nat /\
      num_files fd' = S (num_files fd) /\
      segno_of fd' !!! num_files fd = int_div pageno SLRU_PAGES_PER_SEGMENT /\
      isActive (mirroredOpens fd' !!! num_files fd) = true)) /\
    (forall i, (i < num_files fd)%nat ->
       segno_of fd' !!! i = segno_of fd !!! i /\
       mirroredOpens fd' !!! i = mirroredOpens fd !!! i).
Proof.
  intros (Hn & Ho & Hs).
  unfold SlruPhysicalWritePage.
  set (w1 := match group_lsn (shared w) with Some _ => _ | None => _ end).
  cbv beta iota zeta.
  assert (Hsame : exists fd',
            Some fd = Some fd' /\ flush_wf fd' /\
            (fd' = fd \/
             ((num_files fd < MAX_FLUSH_BUFFERS)%nat /\
              num_files fd' = S (num_files fd) /\
              segno_of fd' !!! num_files fd
                = int_div pageno SLRU_PAGES_PER_SEGMENT /\
              isActive (mirroredOpens fd' !!! num_files fd) = true)) /\
            (forall i, (i < num_files fd)%nat ->
               segno_of fd' !!! i = segno_of fd !!! i /\
               mirroredOpens fd' !!! i = mirroredOpens fd !!! i)).
  { exists fd. split; [done|]. split; [done|]. split; [by left|done]. }
  destruct (find_open fd _ (seq 0 (num_files fd))) as [i|];
    [destruct (MirroredFlatFile_IsActive (mirroredOpens fd !!! i))|].
  1: by rewrite SlruPhysicalWritePage_tail_fdata.
  all: unfold MirroredFlatFile_Open.
  all: destruct (os_fault w1 OS_OPEN _) as [e|]; [exact Hsame|].
  all: case_decide as Hroom; rewrite SlruPhysicalWritePage_tail_fdata;
         [|exact Hsame].
  all: eexists; split; [reflexivity|].
  all: unfold flush_wf; cbn [num_files mirroredOpens segno_of].
  all: rewrite !length_insert.
  all: split; [split; [lia|done]|].
  all: split;
         [right; split; [done|]; split; [done|];
          rewrite !list_lookup_total_insert_eq by lia; done|].
  all: intros i' Hi; rewrite !list_lookup_total_insert_ne by lia; done.
Qed.

Lemma SlruPhysicalWritePage_flush_data_bounded_witness :
  exists fd',
    (SlruPhysicalWritePage ex_ctl 40 0 (Some SlruFlushData_new)
       world_one_slot).1.2 = Some fd' /\
    (num_files fd' <= MAX_FLUSH_BUFFERS)%nat.
Proof.
  destruct (SlruPhysicalWritePage_flush_data_bounded ex_ctl 40 0
              SlruFlushData_new world_one_slot)
    as (fd' & H & (Hn & _) & _).
  - repeat split; vm_compute; lia.
  - exists fd'. split; [exact H|exact Hn].
Defined.

(** ** More on the physical read *)

(** X13.  [SlruPhysicalReadPage] touches the buffer of its slot and nothing
    else of the pool: the directory, the page states, numbers and counts,
    the other buffers and the locks are as before, whether the read
    succeeds or fails, and the buffer of the slot, a block before, is still
    a block.  The one error it raises, before it opens the file, is that of
    a path too long. *)
Theorem SlruPhysicalReadPage_touches_one_buffer (ctl : SlruCtlData)
    (pageno : Z) (slotno : nat) (w : World) :
  length (buffer_of w slotno) = Z.to_nat BLCKSZ ->
  match SlruPhysicalReadPage ctl pageno slotno w with
  | Returned ok w' =>
      read_only_buffer slotno w w' /\
      length (buffer_of w' slotno) = Z.to_nat BLCKSZ
  | Raised e w' => w' = w /\ exists dir name, e = CannotGeneratePath dir name
  | OutOfFuel => False
  end.
Proof.
  intros Hlen.
  pose proof (SlruPhysicalReadPage_frame ctl pageno slotno w) as Hfr.
  assert (Hblock : forall ok w',
            SlruPhysicalReadPage ctl pageno slotno w = Returned ok w' ->
            length (buffer_of w' slotno) = Z.to_nat BLCKSZ).
  { intros ok w'. unfold SlruPhysicalReadPage, bind, SlruFlatFileName.
    case_decide; [done|].
    assert (Hin : (slotno < length (page_buffer (shared w)))%nat).
    { destruct (decide (slotno < length (page_buffer (shared w)))%nat);
        [done|exfalso].
      unfold buffer_of in Hlen.
      rewrite list_lookup_total_alt, lookup_ge_None_2 in Hlen by lia.
      cbn in Hlen. unfold BLCKSZ in Hlen. lia. }
    unfold BasicOpenFile, lseek, os_read, os_close.
    assert (Hdata : forall f : list byte,
              length (take (Z.to_nat BLCKSZ)
                        (drop (Z.to_nat (int_mul (int_mod pageno
                            SLRU_PAGES_PER_SEGMENT) BLCKSZ)) f)
                      ++ drop (length (take (Z.to_nat BLCKSZ)
                           (drop (Z.to_nat (int_mul (int_mod pageno
                              SLRU_PAGES_PER_SEGMENT) BLCKSZ)) f)))
                           (buffer_of w slotno))
              = Z.to_nat BLCKSZ).
    { intros f. rewrite length_app, length_drop, length_take. lia. }
    repeat (case_match; simplify_eq/=); intros [= <- <-];
      unfold buffer_of in *; cbn;
      rewrite ?list_lookup_total_insert_eq by done;
      first [done | apply length_zero_page | apply Hdata
            | rewrite length_app, length_drop; cbn; lia]. }
  destruct (SlruPhysicalReadPage ctl pageno slotno w) as [ok w'|e w'|];
    [|done..].
  split; [done|]. by apply (Hblock ok).
Qed.

Lemma SlruPhysicalReadPage_touches_one_buffer_witness :
  match SlruPhysicalReadPage ex_ctl 5 0 world_one_slot with
  | Returned ok w' =>
      read_only_buffer 0 world_one_slot w' /\
      length (buffer_of w' 0) = Z.to_nat BLCKSZ
  | Raised e w' =>
      w' = world_one_slot /\ exists dir name, e = CannotGeneratePath dir name
  | OutOfFuel => False
  end.
Proof.
  apply (SlruPhysicalReadPage_touches_one_buffer ex_ctl 5 0 world_one_slot).
  vm_compute. reflexivity.
Defined.

(** X14.  A page that is on disk is read as it is there.  When the segment
    file holds a block at the page's offset, no system call on the file
    fails and the path is shorter than MAXPGPATH, [SlruPhysicalReadPage]
    succeeds, the buffer of the slot holds exactly that block, and the
    saved error cause is not touched. *)
Theorem SlruPhysicalReadPage_reads_block (ctl : SlruCtlData) (pageno : Z)
    (slotno : nat) (b : list byte) (w : World) :
  on_disk ctl pageno b w ->
  (forall op, os_fault w op (page_path ctl w pageno) = None) ->
  path_length (page_path ctl w pageno) < MAXPGPATH ->
  length (buffer_of w slotno) = Z.to_nat BLCKSZ ->
  exists w',
    SlruPhysicalReadPage ctl pageno slotno w = Returned true w' /\
    buffer_of w' slotno = b /\
    slru_errcause w' = slru_errcause w /\
    slru_errno w' = slru_errno w.
Proof.
  intros (Hoff & Hb & f & Hf & Hread) Hfault Hpath Hlen.
  assert (Hin : (slotno < length (page_buffer (shared w)))%nat).
  { destruct (decide (slotno < length (page_buffer (shared w)))%nat);
      [done|exfalso].
    unfold buffer_of in Hlen.
    rewrite list_lookup_total_alt, lookup_ge_None_2 in Hlen by lia.
    cbn in Hlen. unfold BLCKSZ in Hlen. lia. }
  unfold SlruPhysicalReadPage, bind, SlruFlatFileName.
  fold (page_offset pageno). fold (page_path ctl w pageno).
  set (path := page_path ctl w pageno) in *.
  rewrite decide_False by lia.
  unfold BasicOpenFile. rewrite Hfault, Hf.
  unfold lseek. rewrite Hfault. rewrite decide_False by lia.
  unfold os_read. rewrite Hfault, Hf. cbn [default].
  change (id f) with f. rewrite Hread.
  rewrite decide_False by (intros H; apply H; rewrite Hb; unfold BLCKSZ; lia).
  unfold os_close. cbn [os_fault set_buffer upd_shared]. rewrite Hfault.
  eexists. split; [reflexivity|].
  split; [|done]. unfold buffer_of in *. cbn.
  rewrite list_lookup_total_insert_eq by done.
  rewrite Hb, <- Hlen, drop_all. apply app_nil_r.
Qed.

Lemma SlruPhysicalReadPage_reads_block_witness :
  exists w',
    SlruPhysicalReadPage ex_ctl 5 1 world_page5_evicted = Returned true w' /\
    buffer_of w' 1 = zero_page.
Proof.
  destruct (SlruPhysicalReadPage_reads_block ex_ctl 5 1 zero_page
              world_page5_evicted) as (w' & Hrun & Hbuf & _).
  - apply on_disk_b_true. vm_compute. reflexivity.
  - intros op. reflexivity.
  - vm_compute. reflexivity.
  - vm_compute. reflexivity.
  - exists w'. split; [exact Hrun|exact Hbuf].
Defined.

(** X15.  A segment file that ends before the end of the page's block
    gives a failed read: with the file there, its path shorter than
    MAXPGPATH, and no system call failing, [SlruPhysicalReadPage] returns
    false with cause SLRU_READ_FAILED, and the errno saved is the one
    found, since a short read sets none. *)
Theorem SlruPhysicalReadPage_short_file (ctl : SlruCtlData) (pageno : Z)
    (slotno : nat) (f : list byte) (w : World) :
  disk w !! page_path ctl w pageno = Some f ->
  0 <= page_offset pageno ->
  (length f < Z.to_nat (page_offset pageno) + Z.to_nat BLCKSZ)%nat ->
  (forall op, os_fault w op (page_path ctl w pageno) = None) ->
  path_length (page_path ctl w pageno) < MAXPGPATH ->
  exists w',
    SlruPhysicalReadPage ctl pageno slotno w = Returned false w' /\
    slru_errcause w' = SLRU_READ_FAILED /\
    slru_errno w' = errno w /\
    disk w' = disk w.
Proof.
  intros Hf Hoff Hshort Hfault Hpath.
  unfold SlruPhysicalReadPage, bind, SlruFlatFileName.
  fold (page_offset pageno). fold (page_path ctl w pageno).
  set (path := page_path ctl w pageno) in *.
  rewrite decide_False by lia.
  unfold BasicOpenFile. rewrite Hfault, Hf.
  unfold lseek. rewrite Hfault. rewrite decide_False by lia.
  unfold os_read. rewrite Hfault, Hf. cbn [default]. change (id f) with f.
  rewrite decide_True.
  2: { rewrite length_take, length_drop. unfold BLCKSZ in *. lia. }
  unfold os_close. cbn [os_fault set_buffer upd_shared save_error].
  rewrite Hfault. eexists. split; [reflexivity|]. done.
Qed.

Lemma SlruPhysicalReadPage_short_file_witness :
  exists w',
    SlruPhysicalReadPage ex_ctl 9 1 world_page5_evicted = Returned false w' /\
    slru_errcause w' = SLRU_READ_FAILED.
Proof.
  destruct (SlruPhysicalReadPage_short_file ex_ctl 9 1
              (default [] (disk world_page5_evicted
                             !! page_path ex_ctl world_page5_evicted 9))
              world_page5_evicted) as (w' & Hrun & Hc & _).
  - assert (H : is_Some (disk world_page5_evicted
                           !! page_path ex_ctl world_page5_evicted 9)).
    { apply (bool_decide_eq_true_1 (is_Some _)). vm_compute. reflexivity. }
    destruct H as [f Hf]. rewrite Hf. reflexivity.
  - vm_compute. discriminate.
  - apply Nat.ltb_lt. vm_compute. reflexivity.
  - intros op. reflexivity.
  - vm_compute. reflexivity.
  - exists w'. split; [exact Hrun|exact Hc].
Defined.

(** ** What a read hands back *)

Lemma SimpleLruReadPage_Internal_post ctl pageno write_ok xid valid fuel :
  forall w,
    shared_wf (shared w) -> (0 < num_slots (shared w))%nat ->
    match SimpleLruReadPage_Internal fuel ctl pageno write_ok xid valid w with
    | Returned r w' =>
        (r = (-1, Some false) /\ valid = true) \/
        exists slotno,
          r = (Z.of_nat slotno, store_valid valid true) /\
          (slotno < num_slots (shared w'))%nat /\
          number_of w' slotno = pageno /\
          (status_of w' slotno = SLRU_PAGE_VALID \/
           (write_ok = true /\
            status_of w' slotno = SLRU_PAGE_WRITE_IN_PROGRESS))
    | Raised _ _ => True
    | OutOfFuel => (fuel <= pending w)%nat
    end.
Proof.
  induction fuel as [|fuel IH]; intros w Hwf Hn; [cbn; lia|].
  pose proof (SlruSelectLRUPage_spec ctl pageno (S fuel) w Hwf Hn) as Hs.
  destruct (SlruSelectLRUPage (S fuel) ctl pageno w) as [slot w1|e w1|] eqn:Hsel.
  2,3: cbn [SimpleLruReadPage_Internal]; unfold bind at 1; by rewrite Hsel.
  destruct Hs as (Hstab & Hslot & Hpend & _).
  pose proof (stable_wf _ _ Hstab Hwf) as Hwf1.
  destruct (decide (number_of w1 slot = pageno /\
                    status_of w1 slot <> SLRU_PAGE_EMPTY)) as [[Hp Hst]|Hmiss].
  - cbn [SimpleLruReadPage_Internal]. unfold bind at 1. rewrite Hsel.
    unfold bind at 1. unfold gets at 1. unfold id.
    rewrite (bool_decide_eq_true_2 _ Hp), (bool_decide_eq_true_2 _ Hst).
    cbn [andb].
    destruct (bool_decide (status_of w1 slot = SLRU_PAGE_READ_IN_PROGRESS) ||
              bool_decide (status_of w1 slot = SLRU_PAGE_WRITE_IN_PROGRESS) &&
              negb write_ok) eqn:Hbusy.
    + unfold bind, step.
      pose proof (SimpleLruWaitIO_spec slot w1)
        as (Hst3 & _ & _ & _ & _ & Hoth3 & _ & Hrd & Hwr).
      cbv zeta in Hst3, Hoth3, Hrd, Hwr.
      set (w2 := SimpleLruWaitIO slot w1) in *.
      destruct Hwf1 as (Hlb & Hls & Hld & Hln & Hll).
      assert (Hp2 : (pending w2 < pending w1)%nat).
      { apply pending_lt with (i := slot).
        - apply Hst3.
        - lia.
        - done.
        - destruct (status_of w1 slot) eqn:Hs1; try done.
          + destruct Hrd as [-> _]; [lia|done|]. cbn. lia.
          + destruct Hwr as [-> ->]; [lia|lia|done|]. cbn. lia. }
      assert (Hwf2 : shared_wf (shared w2)).
      { by apply (stable_wf w1). }
      specialize (IH w2 Hwf2 ltac:(destruct Hst3 as [-> _]; lia)).
      destruct (SimpleLruReadPage_Internal fuel ctl pageno write_ok xid valid w2);
        [done|done|lia].
    + right. exists slot. split; [done|].
      destruct (same_slots_RecentlyUsed slot w1) as (H5n & H5num & H5st & _).
      unfold number_of, status_of in *. rewrite H5n, H5num, H5st.
      split; [done|]. split; [done|].
      apply orb_false_iff in Hbusy as [Hr Hw].
      apply bool_decide_eq_false in Hr.
      destruct (page_status (shared w1) !!! slot) eqn:Hs1; try done.
      * by left.
      * right. rewrite bool_decide_eq_true_2 in Hw by done.
        split; [|done]. by destruct write_ok.
  - rewrite (SimpleLruReadPage_Internal_miss _ _ _ _ _ _ _ _ _ Hsel Hmiss).
    destruct (begin_read_frame slot pageno w1) as (H0n & H0b & H0num & _).
    cbv zeta in H0n, H0b, H0num.
    set (w0 := begin_read slot pageno w1) in *.
    pose proof (SlruPhysicalReadPage_frame ctl pageno slot w0) as Hfr.
    destruct (SlruPhysicalReadPage ctl pageno slot w0) as [ok w2|e w2|];
      [|done..].
    cbv zeta.
    destruct ok; [|destruct valid; [by left|done]].
    right. exists slot. split; [done|].
    destruct Hwf1 as (Hlb & Hls & Hld & Hln & Hll).
    destruct Hfr as (H2n & H2st & _ & H2num & _).
    assert (Hls0 : length (page_status (shared w0)) = num_slots (shared w1)).
    { exact (eq_trans (proj1 (begin_read_length slot pageno w1)) Hls). }
    destruct (read_done_frame slot w2) as (H5n & H5num & _ & H5st).
    { rewrite H2st, Hls0. done. }
    cbv zeta in H5n, H5num, H5st.
    unfold number_of in *.
    rewrite H5n, H5num, H2n, H2num, H0n, H0num.
    split; [done|].
    split; [apply list_lookup_total_insert_eq; lia|].
    left. exact H5st.
Qed.

(** X16.  [SimpleLruReadPage], entered with the control lock held
    exclusively on a pool with at least one slot: with more fuel than the
    I/O the pool owes it ends; the slot it returns holds the requested
    page and is VALID (or, when [write_ok] is given, still being written),
    and the control lock is held exclusively at exit. *)
Theorem SimpleLruReadPage_returns_page (ctl : SlruCtlData) (pageno : Z)
    (write_ok : bool) (xid : Z) (fuel : nat) (w : World) :
  shared_wf (shared w) -> (0 < num_slots (shared w))%nat ->
  ControlLock w = Some LW_EXCLUSIVE ->
  ((pending w < fuel)%nat ->
   SimpleLruReadPage fuel ctl pageno write_ok xid w <> OutOfFuel) /\
  forall r w',
    SimpleLruReadPage fuel ctl pageno write_ok xid w = Returned r w' ->
    exists slotno,
      r = (Z.of_nat slotno, None) /\
      (slotno < num_slots (shared w'))%nat /\
      number_of w' slotno = pageno /\
      (status_of w' slotno = SLRU_PAGE_VALID \/
       (write_ok = true /\ status_of w' slotno = SLRU_PAGE_WRITE_IN_PROGRESS)) /\
      ControlLock w' = Some LW_EXCLUSIVE.
Proof.
  intros Hwf Hn Hlock. unfold SimpleLruReadPage.
  pose proof (SimpleLruReadPage_Internal_post ctl pageno write_ok xid false
                fuel w Hwf Hn) as Hpost.
  pose proof (SimpleLruReadPage_Internal_lock ctl pageno write_ok xid false
                fuel w Hwf Hn Hlock) as Hl.
  destruct (SimpleLruReadPage_Internal fuel ctl pageno write_ok xid false w)
    as [r w'|e w'|].
  - split; [done|]. intros r0 w0 [= <- <-].
    destruct Hpost as [[_ ?]|(slot & -> & Hs & Hnum & Hst)]; [done|].
    exists slot. split; [done|]. split; [done|]. split; [done|]. split; [done|].
    destruct Hl as [(s & _ & Hcl)|(_ & ? & _)]; done.
  - split; done.
  - split; [lia|done].
Qed.

Lemma SimpleLruReadPage_returns_page_witness :
  SimpleLruReadPage 4 ex_ctl 5 false 0 world_page5_evicted <> OutOfFuel.
Proof.
  destruct (SimpleLruReadPage_returns_page ex_ctl 5 false 0 4
              world_page5_evicted) as [H _].
  - repeat split; vm_compute; reflexivity.
  - vm_compute. lia.
  - vm_compute. reflexivity.
  - apply H. vm_compute. lia.
Defined.

Lemma find_page_readonly_Some s pageno slots i :
  find_page_readonly s pageno slots = Some i ->
  i ∈ slots /\ page_number s !!! i = pageno /\
  page_status s !!! i <> SLRU_PAGE_EMPTY /\
  page_status s !!! i <> SLRU_PAGE_READ_IN_PROGRESS.
Proof.
  induction slots as [|k rest IH]; cbn; [done|].
  destruct (bool_decide (page_number s !!! k = pageno)) eqn:H1;
    destruct (bool_decide (page_status s !!! k <> SLRU_PAGE_EMPTY)) eqn:H2;
    destruct (bool_decide (page_status s !!! k <> SLRU_PAGE_READ_IN_PROGRESS))
      eqn:H3; cbn.
  2-8: intros Hf; apply IH in Hf as (? & ? & ? & ?);
       split; [by apply elem_of_cons; right|done].
  intros [= <-]. apply bool_decide_eq_true in H1, H2, H3.
  split; [by apply elem_of_cons; left|done].
Qed.

Lemma find_page_readonly_is_Some s pageno slots i :
  i ∈ slots -> page_number s !!! i = pageno ->
  page_status s !!! i <> SLRU_PAGE_EMPTY ->
  page_status s !!! i <> SLRU_PAGE_READ_IN_PROGRESS ->
  is_Some (find_page_readonly s pageno slots).
Proof.
  intros Hin Hp He Hr. induction slots as [|k rest IH]; cbn.
  { by apply elem_of_nil in Hin. }
  apply elem_of_cons in Hin as [<-|Hin].
  - rewrite !bool_decide_eq_true_2 by done. cbn. eauto.
  - destruct (_ && _ && _); [eauto|by apply IH].
Qed.

(** X17.  A page that is in a buffer, and not in the course of being read
    in, is found by [SimpleLruReadPage_ReadOnly] under the shared lock
    alone: the call returns a slot holding the page, with [*valid = true]
    if asked, the control lock held in shared mode; it does no I/O, uses no
    fuel, and the page states, numbers and buffers are as before (only the
    LRU counts move). *)
Theorem SimpleLruReadPage_ReadOnly_hit (ctl : SlruCtlData) (pageno xid : Z)
    (valid : bool) (fuel : nat) (w : World) (i : nat) :
  (i < num_slots (shared w))%nat ->
  number_of w i = pageno ->
  status_of w i = SLRU_PAGE_VALID \/
  status_of w i = SLRU_PAGE_WRITE_IN_PROGRESS ->
  exists slotno w',
    SimpleLruReadPage_ReadOnly fuel ctl pageno xid valid w
      = Returned (Z.of_nat slotno, store_valid valid true) w' /\
    (slotno < num_slots (shared w))%nat /\
    number_of w' slotno = pageno /\
    (status_of w' slotno = SLRU_PAGE_VALID \/
     status_of w' slotno = SLRU_PAGE_WRITE_IN_PROGRESS) /\
    ControlLock w' = Some LW_SHARED /\
    disk w' = disk w /\
    page_status (shared w') = page_status (shared w) /\
    page_dirty (shared w') = page_dirty (shared w) /\
    page_number (shared w') = page_number (shared w) /\
    page_buffer (shared w') = page_buffer (shared w).
Proof.
  intros Hi Hp Hst.
  unfold SimpleLruReadPage_ReadOnly, bind, step, gets, ret.
  change (shared (LWLockAcquire_ControlLock LW_SHARED w)) with (shared w).
  destruct (find_page_readonly_is_Some (shared w) pageno (all_slots (shared w)) i)
    as [slot Hfind].
  { apply elem_of_seq. lia. }
  { done. }
  { unfold status_of in Hst. destruct Hst as [-> | ->]; done. }
  { unfold status_of in Hst. destruct Hst as [-> | ->]; done. }
  rewrite Hfind.
  apply find_page_readonly_Some in Hfind as (Hin & Hnum & He & Hr).
  apply elem_of_seq in Hin.
  set (w1 := LWLockAcquire_ControlLock LW_SHARED w).
  destruct (same_slots_RecentlyUsed slot w1) as (H5n & H5num & H5st & H5d & H5b & _).
  exists slot, (upd_shared (SlruRecentlyUsed slot) w1).
  unfold number_of, status_of. rewrite H5num, H5st, H5d, H5b.
  split; [done|]. split; [lia|]. split; [done|]. split.
  { change (page_status (shared w1)) with (page_status (shared w)).
    destruct (page_status (shared w) !!! slot); try done; [by left|by right]. }
  done.
Qed.

Lemma SimpleLruReadPage_ReadOnly_hit_witness :
  exists slotno w',
    SimpleLruReadPage_ReadOnly 0 ex_ctl 64 0 true world_four_slots
      = Returned (Z.of_nat slotno, Some true) w' /\
    ControlLock w' = Some LW_SHARED.
Proof.
  destruct (SimpleLruReadPage_ReadOnly_hit ex_ctl 64 0 true 0
              world_four_slots 2)
    as (slotno & w' & Hrun & _ & _ & _ & Hl & _).
  - vm_compute. lia.
  - vm_compute. reflexivity.
  - left. vm_compute. reflexivity.
  - exists slotno, w'. split; [exact Hrun|exact Hl].
Defined.

(** ** SimpleLruFlush: what the write loop leaves behind *)

Lemma SimpleLruWritePage_skip fuel ctl slotno fdata w :
  status_of w slotno <> SLRU_PAGE_WRITE_IN_PROGRESS ->
  dirty_of w slotno = false \/ status_of w slotno <> SLRU_PAGE_VALID ->
  SimpleLruWritePage fuel ctl slotno fdata w = Returned fdata w.
Proof.
  intros Hst Hclean. unfold SimpleLruWritePage, bind, gets, step, ret.
  assert (Hwait : SimpleLruWritePage_wait fuel slotno (number_of w slotno) w
                  = Returned tt w).
  { destruct fuel; cbn; by rewrite bool_decide_eq_false_2. }
  rewrite Hwait. unfold id.
  destruct Hclean as [Hd|Hv].
  - rewrite Hd. done.
  - rewrite (bool_decide_eq_true_2 _ Hv). by rewrite orb_true_r.
Qed.

(** A slot whose write is marked in progress is rolled back by the wait
    and then written like any dirty page. *)
Lemma SimpleLruWritePage_write_busy fuel fuel' ctl slotno fdata w :
  shared_wf (shared w) -> (slotno < num_slots (shared w))%nat ->
  status_of w slotno = SLRU_PAGE_WRITE_IN_PROGRESS ->
  SimpleLruWritePage (S fuel) ctl slotno fdata w
  = SimpleLruWritePage fuel' ctl slotno fdata (SimpleLruWaitIO slotno w).
Proof.
  intros (Hlb & Hls & Hld & Hln & Hll) Hslot Hst.
  pose proof (SimpleLruWaitIO_spec slotno w) as H. cbv zeta in H.
  destruct H as (Hstab & _ & _ & _ & _ & _ & _ & _ & Hw).
  destruct (Hw ltac:(lia) ltac:(lia) Hst) as [Hv Hd].
  destruct Hstab as (_ & Hnum & _).
  assert (Hno : number_of (SimpleLruWaitIO slotno w) slotno = number_of w slotno).
  { unfold number_of. by rewrite Hnum. }
  unfold SimpleLruWritePage, bind, gets, step, ret. rewrite Hno.
  assert (H1 : SimpleLruWritePage_wait (S fuel) slotno (number_of w slotno) w
               = Returned tt (SimpleLruWaitIO slotno w)).
  { cbn [SimpleLruWritePage_wait]. rewrite Hst.
    rewrite !bool_decide_eq_true_2 by done. cbn [andb].
    destruct fuel; cbn [SimpleLruWritePage_wait]; rewrite Hv; done. }
  assert (H2 : SimpleLruWritePage_wait fuel' slotno (number_of w slotno)
                 (SimpleLruWaitIO slotno w)
               = Returned tt (SimpleLruWaitIO slotno w)).
  { destruct fuel'; cbn [SimpleLruWritePage_wait]; rewrite Hv; done. }
  by rewrite H1, H2.
Qed.

Lemma find_open_Some fd segno idxs i :
  find_open fd segno idxs = Some i -> i ∈ idxs /\ segno_of fd !!! i = segno.
Proof.
  induction idxs as [|k rest IH]; cbn; [done|].
  case_decide as Hk.
  - intros [= <-]. split; [by apply elem_of_cons; left|done].
  - intros H. destruct (IH H) as [? ?]. split; [by apply elem_of_cons; right|done].
Qed.

(** The seek and the write through a handle: nothing happens to the
    directory, or the buffer is written to the handle's file. *)
Lemma SlruPhysicalWritePage_tail_disk ctl o in_flush fdata pageno slotno w :
  let r := SlruPhysicalWritePage_tail ctl o in_flush fdata (page_offset pageno)
             slotno w in
  r.1.2 = fdata /\
  ((r.1.1 = false /\ disk r.2 = disk w) \/
   (0 <= page_offset pageno /\
    disk r.2 = <[mirrored_path o :=
                   write_at (Z.to_nat (page_offset pageno)) (buffer_of w slotno)
                     (default [] (disk w !! mirrored_path o))]> (disk w))).
Proof.
  cbv zeta.
  unfold SlruPhysicalWritePage_tail, MirroredFlatFile_SeekSet,
    MirroredFlatFile_Write, MirroredFlatFile_Flush.
  assert (Hne : -1 <> page_offset pageno).
  { destruct (page_offset_eq pageno) as [-> ?]. unfold BLCKSZ. lia. }
  destruct (os_fault w OS_SEEK (mirrored_path o)) as [e|].
  { cbv beta iota. rewrite decide_True by done. split; [done|]. by left. }
  destruct (decide (page_offset pageno < 0)) as [Hneg|Hneg]; cbv beta iota.
  { rewrite decide_True by done. split; [done|]. by left. }
  rewrite decide_False by (intros H; by apply H).
  destruct (os_fault w OS_WRITE (mirrored_path o)) as [e|].
  { split; [done|]. by left. }
  set (w3 := upd_disk _ w).
  assert (Hd3 : disk w3 = <[mirrored_path o :=
                   write_at (Z.to_nat (page_offset pageno)) (buffer_of w slotno)
                     (default [] (disk w !! mirrored_path o))]> (disk w)) by done.
  clearbody w3.
  destruct in_flush.
  { split; [done|]. right. split; [lia|done]. }
  destruct (do_fsync ctl).
  2:{ split; [done|]. right. split; [lia|done]. }
  destruct (os_fault w3 OS_FSYNC (mirrored_path o));
    (split; [done|]; right; split; [lia|done]).
Qed.

(** What a physical write within a flush does to the directory, and to
    the files the flush holds open. *)
Lemma SlruPhysicalWritePage_flush_disk ctl pageno slotno fd w :
  flush_open ctl w fd ->
  let r := SlruPhysicalWritePage ctl pageno slotno (Some fd) w in
  write_effect ctl pageno (buffer_of w slotno) w r.1.1 r.2 /\
  exists fd', r.1.2 = Some fd' /\ flush_open ctl r.2 fd'.
Proof.
  intros [Hwf Hopen]. cbv zeta.
  pose proof (SlruPhysicalWritePage_io_only ctl pageno slotno (Some fd) w)
    as (_ & _ & _ & _ & Hfs & _).
  assert (Hkeep : forall fd', flush_open ctl w fd' ->
            flush_open ctl (SlruPhysicalWritePage ctl pageno slotno (Some fd) w).2
              fd').
  { intros fd' [? H]. split; [done|]. unfold TxnDir in *. by rewrite Hfs. }
  revert Hkeep. clear Hfs.
  unfold SlruPhysicalWritePage. cbv zeta.
  set (w1 := match group_lsn (shared w) with Some _ => _ | None => _ end).
  assert (H1 : disk w1 = disk w /\ os_fault w1 = os_fault w /\
               txn_filespace w1 = txn_filespace w /\ shared w1 = shared w).
  { subst w1. repeat case_match; by repeat split. }
  destruct H1 as (Hd1 & Hf1 & Ht1 & Hs1).
  assert (Hb1 : buffer_of w1 slotno = buffer_of w slotno).
  { unfold buffer_of. by rewrite Hs1. }
  fold (page_offset pageno).
  assert (Hpath : (TxnDir (Dir ctl) w1,
                   SlruSimpleFileName (int_div pageno SLRU_PAGES_PER_SEGMENT))
                  = page_path ctl w pageno).
  { unfold page_path, TxnDir. by rewrite Ht1. }
  clearbody w1.
  destruct (find_open fd _ (seq 0 (num_files fd))) as [i|] eqn:Hfind.
  { apply find_open_Some in Hfind as [Hi Hseg]. apply elem_of_seq in Hi.
    destruct (Hopen i ltac:(lia)) as [Hact Hp].
    unfold MirroredFlatFile_IsActive. rewrite Hact.
    assert (Hp' : mirrored_path (mirroredOpens fd !!! i) = page_path ctl w pageno).
    { rewrite Hp, Hseg. done. }
    pose proof (SlruPhysicalWritePage_tail_disk ctl (mirroredOpens fd !!! i)
                  (bool_decide (is_Some (Some fd))) (Some fd) pageno slotno w1)
      as [Hfd Heff].
    cbv zeta in Hfd, Heff. rewrite Hp', Hd1, Hb1 in Heff.
    set (r := SlruPhysicalWritePage_tail _ _ _ _ _ _ _) in *. clearbody r.
    intros Hkeep. split.
    - destruct Heff as [[Hok Hd]|[Hoff Hd]]; [left|right]; (split; [done|]);
        [by left|done].
    - exists fd. split; [done|]. by apply Hkeep. }
  unfold MirroredFlatFile_Open. rewrite Hpath.
  set (path := page_path ctl w pageno) in *.
  destruct (os_fault w1 OS_OPEN path) as [e|].
  { intros Hkeep. split.
    - left. cbn. split; [done|]. by left.
    - exists fd. split; [done|]. by apply Hkeep. }
  set (w2 := upd_disk _ w1).
  assert (Hd2 : (disk w2 = disk w /\ is_Some (disk w !! path)) \/
                (disk w !! path = None /\ disk w2 = <[path := []]> (disk w))).
  { subst w2. unfold upd_disk. cbn [disk]. rewrite Hd1.
    case_match eqn:Hl; [left|right]; (split; [|done]); [done|exact Hl]. }
  assert (Hb2 : buffer_of w2 slotno = buffer_of w slotno).
  { unfold buffer_of. subst w2. cbn. by rewrite Hs1. }
  clearbody w2.
  assert (Htail : forall in_flush fdata,
            let r := SlruPhysicalWritePage_tail ctl (mkMirroredOpen true path)
                       in_flush fdata (page_offset pageno) slotno w2 in
            r.1.2 = fdata /\
            write_effect ctl pageno (buffer_of w slotno) w r.1.1 r.2).
  { intros in_flush fdata.
    pose proof (SlruPhysicalWritePage_tail_disk ctl (mkMirroredOpen true path)
                  in_flush fdata pageno slotno w2) as [Hfd Heff].
    cbv zeta in *. cbn [mirrored_path] in Heff. rewrite Hb2 in Heff.
    set (r := SlruPhysicalWritePage_tail _ _ _ _ _ _ _) in *. clearbody r.
    split; [done|]. unfold write_effect. fold path.
    destruct Heff as [[Hok Hd]|[Hoff Hd]]; [left|right]; (split; [done|]).
    - rewrite Hd. destruct Hd2 as [[-> _]|[? ->]]; [by left|by right].
    - rewrite Hd. destruct Hd2 as [[-> _]|[Hnone ->]]; [done|].
      rewrite lookup_insert_eq, insert_insert_eq, Hnone. done. }
  case_decide as Hroom.
  - destruct (Htail true (Some (mkFlush (S (num_files fd))
                 (<[num_files fd := mkMirroredOpen true path]> (mirroredOpens fd))
                 (<[num_files fd := int_div pageno SLRU_PAGES_PER_SEGMENT]>
                    (segno_of fd))))) as [Hfd Heff].
    cbv zeta in Hfd, Heff.
    set (r := SlruPhysicalWritePage_tail _ _ _ _ _ _ _) in *. clearbody r.
    intros Hkeep. split; [done|]. eexists. split; [exact Hfd|].
    apply Hkeep. destruct Hwf as (Hn & Hlo & Hls).
    split.
    + unfold flush_wf. cbn [num_files mirroredOpens segno_of].
      rewrite !length_insert. repeat split; [lia|done|done].
    + cbn [num_files mirroredOpens segno_of]. intros j Hj.
      destruct (decide (j = num_files fd)) as [->|Hne].
      * rewrite !list_lookup_total_insert_eq by lia. cbn. split; [done|].
        subst path. unfold page_path. done.
      * rewrite !list_lookup_total_insert_ne by done. apply Hopen. lia.
  - destruct (Htail false (Some fd)) as [Hfd Heff].
    cbv zeta in Hfd, Heff.
    set (r := SlruPhysicalWritePage_tail _ _ _ _ _ _ _) in *. clearbody r.
    intros Hkeep. split; [done|]. exists fd. split; [done|]. by apply Hkeep.
Qed.

(** A write that succeeded put the block on disk. *)
Lemma write_effect_on_disk ctl pageno b w w' :
  write_effect ctl pageno b w true w' ->
  txn_filespace w' = txn_filespace w ->
  length b = Z.to_nat BLCKSZ ->
  on_disk ctl pageno b w'.
Proof.
  intros [[Hf _]|[Hoff Hd]] Hfs Hlen; [done|].
  split; [done|]. split; [done|].
  assert (Hpath : page_path ctl w' pageno = page_path ctl w pageno).
  { unfold page_path, TxnDir. by rewrite Hfs. }
  rewrite Hpath, Hd. eexists. split; [apply lookup_insert_eq|].
  rewrite <- Hlen. apply read_after_write.
Qed.

(** A write of another page, whether it succeeds or not, leaves the page
    on disk as it was. *)
Lemma write_effect_keeps_on_disk ctl p b q bq ok w w' :
  write_effect ctl q bq w ok w' ->
  txn_filespace w' = txn_filespace w ->
  in_int p -> in_int q -> q <> p ->
  length bq = Z.to_nat BLCKSZ ->
  on_disk ctl p b w -> on_disk ctl p b w'.
Proof.
  intros Heff Hfs Hp Hq Hne Hlen (Hoff & Hb & f & Hf & Hread).
  assert (Hpath : page_path ctl w' p = page_path ctl w p).
  { unfold page_path, TxnDir. by rewrite Hfs. }
  split; [done|]. split; [done|]. rewrite Hpath.
  destruct Heff as [[_ [Hd|[Hnone Hd]]]|[Hoffq Hd]]; rewrite Hd.
  - eauto.
  - exists f. split; [|done]. rewrite lookup_insert_ne; [done|].
    intros Heq. rewrite Heq in Hnone. congruence.
  - destruct (decide (page_path ctl w q = page_path ctl w p)) as [Heq|Hneq].
    + rewrite Heq, Hf. cbn [default].
      eexists. split; [apply lookup_insert_eq|].
      rewrite <- Hread.
      assert (Hoffne : page_offset q <> page_offset p).
      { intros Ho. apply Hne. apply page_location_inj; try done.
        unfold page_path in Heq. congruence. }
      destruct (page_offset_eq p) as [Hop Hrp].
      destruct (page_offset_eq q) as [Hoq Hrq].
      assert (Hflen : (Z.to_nat (page_offset p) + Z.to_nat BLCKSZ <= length f)%nat).
      { assert (length (take (Z.to_nat BLCKSZ)
                          (drop (Z.to_nat (page_offset p)) f))
                = Z.to_nat BLCKSZ) as Hl by (by rewrite Hread).
        rewrite length_take, length_drop in Hl.
        assert (0 < Z.to_nat BLCKSZ)%nat by (unfold BLCKSZ; lia). lia. }
      apply read_after_other_write; [done| |done].
      rewrite Hop, Hoq in *. unfold BLCKSZ in *. lia.
    + exists f. split; [|done]. by rewrite lookup_insert_ne.
Qed.

Lemma flush_open_ext ctl w w' fd :
  txn_filespace w' = txn_filespace w ->
  flush_open ctl w fd -> flush_open ctl w' fd.
Proof. intros Hfs [? H]. split; [done|]. unfold TxnDir in *. by rewrite Hfs. Qed.

(** [SimpleLruWritePage] within a flush, on a dirty VALID slot. *)
Lemma SimpleLruWritePage_flush_dirty fuel ctl slotno fd w :
  shared_wf (shared w) -> (slotno < num_slots (shared w))%nat ->
  status_of w slotno = SLRU_PAGE_VALID -> dirty_of w slotno = true ->
  match SimpleLruWritePage fuel ctl slotno (Some fd) w with
  | Returned r w' =>
      stable w w' /\ ControlLock w' = Some LW_EXCLUSIVE /\
      flushed w' slotno /\
      (forall j, j <> slotno ->
         status_of w' j = status_of w j /\ dirty_of w' j = dirty_of w j) /\
      (flush_open ctl w fd ->
       (exists fd', r = Some fd' /\ flush_open ctl w' fd') /\
       (length (buffer_of w slotno) = Z.to_nat BLCKSZ ->
        on_disk ctl (number_of w slotno) (buffer_of w slotno) w') /\
       (forall p b, in_int p -> in_int (number_of w slotno) ->
          number_of w slotno <> p ->
          length (buffer_of w slotno) = Z.to_nat BLCKSZ ->
          on_disk ctl p b w -> on_disk ctl p b w'))
  | Raised _ _ => True
  | OutOfFuel => False
  end.
Proof.
  intros Hwf Hslot Hv Hd.
  rewrite (SimpleLruWritePage_dirty _ _ _ _ _ Hv Hd). cbv zeta.
  pose proof Hwf as (Hlb & Hls & Hld & Hln & Hll).
  pose proof (end_write_begin_write ctl (number_of w slotno) slotno (Some fd)
                (SlruPhysicalWritePage ctl (number_of w slotno) slotno (Some fd)
                   (begin_write slotno w)).1.1 w ltac:(lia) ltac:(lia))
    as (Hst3 & Hcl3 & _ & _ & Hv3 & Hd3 & Hoth3).
  cbv zeta in Hst3, Hcl3, Hv3, Hd3, Hoth3.
  pose proof (SlruPhysicalWritePage_io_only ctl (number_of w slotno) slotno
                (Some fd) (begin_write slotno w)) as (_ & _ & _ & _ & Hfs & _).
  pose proof (fun H => SlruPhysicalWritePage_flush_disk ctl (number_of w slotno)
                slotno fd (begin_write slotno w)
                (flush_open_ext ctl w (begin_write slotno w) fd eq_refl H))
    as Hdisk.
  cbv zeta in Hdisk.
  change (buffer_of (begin_write slotno w) slotno) with (buffer_of w slotno)
    in Hdisk.
  assert (Hfs0 : txn_filespace (begin_write slotno w) = txn_filespace w) by done.
  assert (Hon : forall p b, on_disk ctl p b w ->
                  on_disk ctl p b (begin_write slotno w)).
  { intros p b. by apply on_disk_ext. }
  set (r := SlruPhysicalWritePage ctl (number_of w slotno) slotno (Some fd)
              (begin_write slotno w)) in *.
  set (w0 := begin_write slotno w) in *.
  clearbody r w0.
  pose proof (end_write_disk slotno true r.2) as [Hde Hfe].
  destruct (r.1.1) eqn:Hok; [|done].
  split; [done|]. split; [done|].
  split; [right; by split|]. split; [done|].
  intros Hopen. destruct (Hdisk Hopen) as (Heff & fd' & Hfd' & Hopen').
  rewrite ?Hok in Heff.
  split; [|split].
  - exists fd'. split; [done|].
    apply (flush_open_ext ctl r.2); [done|done].
  - intros Hlen. apply (on_disk_ext ctl _ _ r.2); [done..|].
    by apply (write_effect_on_disk ctl _ _ w0).
  - intros p b Hp Hq Hne Hlen Hb.
    apply (on_disk_ext ctl _ _ r.2); [done..|].
    apply (write_effect_keeps_on_disk ctl p b (number_of w slotno)
             (buffer_of w slotno) true w0); try done.
    by apply Hon.
Qed.

Lemma SimpleLruWritePage_no_fuel ctl slotno fdata w :
  status_of w slotno = SLRU_PAGE_WRITE_IN_PROGRESS ->
  SimpleLruWritePage 0 ctl slotno fdata w = OutOfFuel.
Proof.
  intros Hst. unfold SimpleLruWritePage, bind, gets. cbn [SimpleLruWritePage_wait].
  by rewrite Hst, !bool_decide_eq_true_2.
Qed.

(** One turn of the write loop of [SimpleLruFlush]. *)
Lemma SimpleLruWritePage_flush_step fuel ctl slotno fd w :
  shared_wf (shared w) -> (slotno < num_slots (shared w))%nat ->
  match SimpleLruWritePage fuel ctl slotno (Some fd) w with
  | Returned r w' =>
      stable w w' /\
      (ControlLock w = Some LW_EXCLUSIVE -> ControlLock w' = Some LW_EXCLUSIVE) /\
      (status_of w slotno <> SLRU_PAGE_READ_IN_PROGRESS -> flushed w' slotno) /\
      (forall j, j <> slotno ->
         status_of w' j = status_of w j /\ dirty_of w' j = dirty_of w j) /\
      (flush_open ctl w fd ->
       length (buffer_of w slotno) = Z.to_nat BLCKSZ ->
       in_int (number_of w slotno) ->
       (exists fd', r = Some fd' /\ flush_open ctl w' fd') /\
       (needs_write w slotno ->
        on_disk ctl (number_of w slotno) (buffer_of w slotno) w') /\
       (forall p b, in_int p ->
          (needs_write w slotno -> number_of w slotno <> p) ->
          on_disk ctl p b w -> on_disk ctl p b w'))
  | Raised _ _ => True
  | OutOfFuel => fuel = 0%nat
  end.
Proof.
  intros Hwf Hslot.
  destruct (decide (status_of w slotno = SLRU_PAGE_WRITE_IN_PROGRESS)) as [Hw|Hw].
  { destruct fuel as [|fuel]; [by rewrite SimpleLruWritePage_no_fuel|].
    rewrite (SimpleLruWritePage_write_busy fuel 0 ctl slotno (Some fd) w Hwf Hslot Hw).
    pose proof Hwf as (Hlb & Hls & Hld & Hln & Hll).
    pose proof (SimpleLruWaitIO_spec slotno w) as H. cbv zeta in H.
    destruct H as (Hstab & Hcl & Hdk & _ & _ & Hoth & _ & _ & Hroll).
    destruct (Hroll ltac:(lia) ltac:(lia) Hw) as [Hv Hd].
    pose proof (stable_wf _ _ Hstab Hwf) as Hwf2.
    pose proof Hstab as (Hn2 & Hnum2 & _ & Hbuf2 & _ & _ & _ & _ & Hfs2 & _).
    pose proof (SimpleLruWritePage_flush_dirty 0 ctl slotno fd
                  (SimpleLruWaitIO slotno w) Hwf2 ltac:(lia) Hv Hd) as Hstep.
    unfold number_of, buffer_of in *. rewrite Hnum2, Hbuf2 in Hstep.
    set (w2 := SimpleLruWaitIO slotno w) in *. clearbody w2.
    destruct (SimpleLruWritePage 0 ctl slotno (Some fd) w2) as [r w'|e w'|];
      [|done|done].
    destruct Hstep as (Hstab' & Hcl' & Hfl & Hoth' & Hdisk).
    split; [by eapply stable_trans|]. split; [done|]. split; [done|].
    split.
    { intros j Hj. destruct (Hoth' j Hj) as [-> ->]. by apply Hoth. }
    intros Hopen Hlen Hint.
    destruct (Hdisk (flush_open_ext ctl w w2 fd Hfs2 Hopen))
      as (Hfd & Hon & Hkeep).
    split; [done|]. split; [intros _; by apply Hon|].
    intros p b Hp Hne Hb. apply Hkeep; try done.
    - apply Hne. by left.
    - by apply (on_disk_ext ctl p b w). }
  destruct (decide (status_of w slotno = SLRU_PAGE_VALID /\ dirty_of w slotno = true))
    as [[Hv Hd]|Hclean].
  { pose proof (SimpleLruWritePage_flush_dirty fuel ctl slotno fd w Hwf Hslot Hv Hd)
      as Hstep.
    destruct (SimpleLruWritePage fuel ctl slotno (Some fd) w) as [r w'|e w'|];
      [|done|done].
    destruct Hstep as (Hstab' & Hcl' & Hfl & Hoth' & Hdisk).
    split; [done|]. split; [done|]. split; [done|]. split; [done|].
    intros Hopen Hlen Hint. destruct (Hdisk Hopen) as (Hfd & Hon & Hkeep).
    split; [done|]. split; [intros _; by apply Hon|].
    intros p b Hp Hne Hb. apply Hkeep; try done. apply Hne. by right. }
  rewrite SimpleLruWritePage_skip; [|done|].
  2:{ destruct (dirty_of w slotno); [right|by left]. intros Hv. by apply Hclean. }
  split; [apply stable_refl|]. split; [done|]. split.
  { intros Hr. unfold flushed.
    destruct (status_of w slotno) eqn:Hst; try done; [by left|right].
    split; [done|]. destruct (dirty_of w slotno); [|done].
    exfalso. by apply Hclean. }
  split; [done|]. intros Hopen Hlen Hint.
  split; [by exists fd|]. split; [|done].
  intros [Hn|Hn]; [done|]. exfalso. by apply Hclean.
Qed.

(** The write loop of [SimpleLruFlush] over a list of distinct slots. *)
Lemma SimpleLruFlush_write_spec fuel ctl slots :
  forall fd w,
    shared_wf (shared w) -> NoDup slots ->
    (forall j, j ∈ slots -> (j < num_slots (shared w))%nat) ->
    match SimpleLruFlush_write fuel ctl slots fd w with
    | Returned fd' w' =>
        stable w w' /\
        (ControlLock w = Some LW_EXCLUSIVE ->
         ControlLock w' = Some LW_EXCLUSIVE) /\
        (forall j, j ∈ slots -> status_of w j <> SLRU_PAGE_READ_IN_PROGRESS ->
           flushed w' j) /\
        (forall j, j ∉ slots ->
           status_of w' j = status_of w j /\ dirty_of w' j = dirty_of w j) /\
        (flush_open ctl w fd ->
         (forall j, j ∈ slots ->
            length (buffer_of w j) = Z.to_nat BLCKSZ /\ in_int (number_of w j)) ->
         flush_open ctl w' fd' /\
         (forall p b, in_int p ->
            (forall j, j ∈ slots -> needs_write w j -> number_of w j <> p) ->
            on_disk ctl p b w -> on_disk ctl p b w') /\
         ((forall i j, i ∈ slots -> j ∈ slots ->
             needs_write w i -> needs_write w j ->
             number_of w i = number_of w j -> i = j) ->
          forall j, j ∈ slots -> needs_write w j ->
            on_disk ctl (number_of w j) (buffer_of w j) w'))
    | Raised _ _ => True
    | OutOfFuel => fuel = 0%nat
    end.
Proof.
  induction slots as [|k rest IH]; intros fd w Hwf Hnd Hin.
  { cbn. split; [apply stable_refl|]. split; [done|].
    split; [intros j Hj; by apply elem_of_nil in Hj|]. split; [done|].
    intros Hopen _. split; [done|]. split; [done|].
    intros _ j Hj. by apply elem_of_nil in Hj. }
  apply NoDup_cons in Hnd as [Hk Hnd].
  assert (Hkn : (k < num_slots (shared w))%nat).
  { apply Hin. by apply elem_of_cons; left. }
  cbn [SimpleLruFlush_write]. unfold bind.
  pose proof (SimpleLruWritePage_flush_step fuel ctl k fd w Hwf Hkn) as Hstep.
  destruct (SimpleLruWritePage fuel ctl k (Some fd) w) as [r w1|e w1|];
    [|done|done].
  destruct Hstep as (Hstab1 & Hcl1 & Hfl1 & Hoth1 & Hdisk1).
  pose proof (stable_wf _ _ Hstab1 Hwf) as Hwf1.
  pose proof Hstab1 as (Hn1 & Hnum1 & _ & Hbuf1 & _).
  assert (Hin1 : forall j, j ∈ rest -> (j < num_slots (shared w1))%nat).
  { intros j Hj. rewrite Hn1. apply Hin. by apply elem_of_cons; right. }
  specialize (IH (default fd r) w1 Hwf1 Hnd Hin1).
  destruct (SimpleLruFlush_write fuel ctl rest (default fd r) w1)
    as [fd' w'|e w'|]; [|done|done].
  destruct IH as (Hstab2 & Hcl2 & Hfl2 & Hoth2 & Hdisk2).
  assert (Hsame : forall j, j ∈ rest ->
            status_of w1 j = status_of w j /\ dirty_of w1 j = dirty_of w j).
  { intros j Hj. apply Hoth1. intros ->. done. }
  assert (Hneeds : forall j, j ∈ rest -> needs_write w1 j <-> needs_write w j).
  { intros j Hj. unfold needs_write. by destruct (Hsame j Hj) as [-> ->]. }
  split; [by eapply stable_trans|]. split; [by auto|].
  split.
  { intros j Hj Hr. apply elem_of_cons in Hj as [->|Hj].
    - destruct (Hoth2 k Hk) as [Hs Hd]. unfold flushed. rewrite Hs, Hd.
      by apply Hfl1.
    - apply Hfl2; [done|]. by destruct (Hsame j Hj) as [-> _]. }
  split.
  { intros j Hj. apply not_elem_of_cons in Hj as [Hjk Hj].
    destruct (Hoth2 j Hj) as [-> ->]. by apply Hoth1. }
  intros Hopen Hblocks.
  destruct (Hblocks k ltac:(by apply elem_of_cons; left)) as [Hlenk Hintk].
  destruct (Hdisk1 Hopen Hlenk Hintk) as ((fd1 & -> & Hopen1) & Hon1 & Hkeep1).
  cbn [default] in Hdisk2.
  assert (Hblocks1 : forall j, j ∈ rest ->
            length (buffer_of w1 j) = Z.to_nat BLCKSZ /\ in_int (number_of w1 j)).
  { intros j Hj. unfold buffer_of, number_of. rewrite Hbuf1, Hnum1.
    apply Hblocks. by apply elem_of_cons; right. }
  destruct (Hdisk2 Hopen1 Hblocks1) as (Hopen2 & Hkeep2 & Hon2).
  assert (Hno : forall j, number_of w1 j = number_of w j).
  { intros j. unfold number_of. by rewrite Hnum1. }
  assert (Hbo : forall j, buffer_of w1 j = buffer_of w j).
  { intros j. unfold buffer_of. by rewrite Hbuf1. }
  split; [done|]. split.
  { intros p b Hp Hne Hb. apply Hkeep2; [done| |].
    - intros j Hj Hnw. rewrite Hno. apply Hne; [by apply elem_of_cons; right|].
      by apply Hneeds.
    - apply Hkeep1; [done| |done].
      apply Hne. by apply elem_of_cons; left. }
  intros Hdist j Hj Hnw. apply elem_of_cons in Hj as [->|Hj].
  - apply Hkeep2; [done| |by apply Hon1].
    intros j Hj Hnwj Heq. rewrite Hno in Heq.
    assert (j = k); [|by subst].
    apply Hdist; [by apply elem_of_cons; right|by apply elem_of_cons; left| |done|done].
    by apply Hneeds.
  - rewrite <- Hno, <- Hbo. apply Hon2; [|done|by apply Hneeds].
    intros i j' Hi Hj' Hnwi Hnwj. rewrite !Hno.
    apply Hdist; [by apply elem_of_cons; right|by apply elem_of_cons; right| |];
      by apply Hneeds.
Qed.

(** The fsync loop changes only errno and the saved error. *)
Lemma SimpleLruFlush_fsync_frame ctl fdata idxs :
  forall st w,
    let w' := (SimpleLruFlush_fsync ctl fdata idxs st w).2 in
    shared w' = shared w /\ ControlLock w' = ControlLock w /\
    buffer_locks w' = buffer_locks w /\ disk w' = disk w /\
    txn_filespace w' = txn_filespace w /\ os_fault w' = os_fault w /\
    InRecovery w' = InRecovery w.
Proof.
  induction idxs as [|k rest IH]; intros st w; [done|].
  cbn [SimpleLruFlush_fsync]. cbv zeta.
  destruct (do_fsync ctl); [|apply IH].
  unfold MirroredFlatFile_Flush.
  destruct (os_fault w OS_FSYNC _) as [e|]; [|apply IH].
  match goal with
  | |- context [SimpleLruFlush_fsync ctl fdata rest ?s ?x] =>
      pose proof (IH s x) as H
  end.
  cbv zeta in H. exact H.
Qed.

Lemma SimpleLruFlush_sync_frame ctl fdata w w' :
  SimpleLruFlush_sync ctl fdata w = Returned tt w' ->
  shared w' = shared w /\ ControlLock w' = ControlLock w /\
  buffer_locks w' = buffer_locks w /\ disk w' = disk w /\
  txn_filespace w' = txn_filespace w /\ os_fault w' = os_fault w /\
  InRecovery w' = InRecovery w.
Proof.
  unfold SimpleLruFlush_sync.
  pose proof (SimpleLruFlush_fsync_frame ctl fdata (seq 0 (num_files fdata))
                (mkFsync true 0) w) as H.
  cbv zeta in H.
  destruct (SimpleLruFlush_fsync _ _ _ _ _) as [st w1]. cbn [snd] in H.
  destruct (fsync_ok st); [|done].
  by intros [= <-].
Qed.

Lemma SimpleLruFlush_sync_returns ctl fdata w :
  SimpleLruFlush_sync ctl fdata w <> OutOfFuel.
Proof.
  unfold SimpleLruFlush_sync.
  destruct (SimpleLruFlush_fsync _ _ _ _ _) as [st w1].
  by destruct (fsync_ok st).
Qed.

Lemma flush_open_new ctl w : flush_open ctl w SlruFlushData_new.
Proof.
  split.
  - unfold flush_wf, SlruFlushData_new. cbn [num_files mirroredOpens segno_of].
    rewrite !length_replicate. repeat split. lia.
  - cbn [num_files SlruFlushData_new]. intros i Hi. lia.
Qed.

(** [SimpleLruFlush] as its two loops. *)
Lemma SimpleLruFlush_spec fuel ctl checkpoint w :
  shared_wf (shared w) ->
  match SimpleLruFlush fuel ctl checkpoint w with
  | Returned _ w' =>
      stable w w' /\ ControlLock w' = None /\
      (forall j, (j < num_slots (shared w))%nat ->
         status_of w j <> SLRU_PAGE_READ_IN_PROGRESS -> flushed w' j) /\
      (block_pool w ->
       (forall p b, in_int p ->
          (forall j, (j < num_slots (shared w))%nat -> needs_write w j ->
             number_of w j <> p) ->
          on_disk ctl p b w -> on_disk ctl p b w') /\
       (distinct_pages w ->
        forall j, (j < num_slots (shared w))%nat -> needs_write w j ->
          on_disk ctl (number_of w j) (buffer_of w j) w'))
  | Raised _ _ => True
  | OutOfFuel => fuel = 0%nat
  end.
Proof.
  intros Hwf. unfold SimpleLruFlush, bind, step, gets.
  set (w0 := LWLockAcquire_ControlLock LW_EXCLUSIVE w).
  assert (Hsh0 : shared w0 = shared w) by done.
  assert (Hd0 : disk w0 = disk w /\ txn_filespace w0 = txn_filespace w) by done.
  assert (Hcl0 : ControlLock w0 = Some LW_EXCLUSIVE) by done.
  assert (Hstab0 : stable w w0) by (by repeat split).
  pose proof (SimpleLruFlush_write_spec fuel ctl (all_slots (shared w0))
                SlruFlushData_new w0) as Hloop.
  rewrite Hsh0 in *.
  assert (Hslots : forall j, j ∈ all_slots (shared w) <->
                             (j < num_slots (shared w))%nat).
  { intros j. unfold all_slots. rewrite elem_of_seq. lia. }
  specialize (Hloop Hwf (NoDup_seq _ _) (fun j Hj => proj1 (Hslots j) Hj)).
  assert (Hacc : forall j, status_of w0 j = status_of w j /\
                           dirty_of w0 j = dirty_of w j /\
                           number_of w0 j = number_of w j /\
                           buffer_of w0 j = buffer_of w j) by done.
  assert (Hnw : forall j, needs_write w0 j <-> needs_write w j) by done.
  clearbody w0.
  destruct (SimpleLruFlush_write fuel ctl (all_slots (shared w))
              SlruFlushData_new w0) as [fd1 w1|e w1|]; [|done|done].
  destruct Hloop as (Hstab1 & Hcl1 & Hfl1 & _ & Hdisk1).
  set (w2 := LWLockRelease_ControlLock w1).
  assert (Hw2 : shared w2 = shared w1 /\ disk w2 = disk w1 /\
                txn_filespace w2 = txn_filespace w1 /\
                os_fault w2 = os_fault w1 /\ InRecovery w2 = InRecovery w1 /\
                ControlLock w2 = None) by done.
  clearbody w2. destruct Hw2 as (Hsh2 & Hd2 & Ht2 & Hof2 & Hir2 & Hcl2).
  destruct (SimpleLruFlush_sync ctl fd1 w2) as [[] w'|e w'|] eqn:Hsync;
    [|done|by apply SimpleLruFlush_sync_returns in Hsync].
  apply SimpleLruFlush_sync_frame in Hsync
    as (Hsh3 & Hcl3 & _ & Hd3 & Hfs3 & Hof3 & Hir3).
  assert (Hshared : shared w' = shared w1) by congruence.
  assert (Hon : forall p b, on_disk ctl p b w1 -> on_disk ctl p b w').
  { intros p b. apply on_disk_ext; congruence. }
  assert (Hst : stable w w1) by (by eapply stable_trans).
  assert (Hst' : stable w w').
  { destruct Hst as (?&?&?&?&?&?&?&Hf&Ht&Hr).
    unfold stable. rewrite Hshared. repeat split; try done; congruence. }
  split; [done|]. split; [congruence|]. split.
  { intros j Hj Hr. unfold flushed, status_of, dirty_of. rewrite Hshared.
    apply Hfl1; [by apply Hslots|]. by destruct (Hacc j) as [-> _]. }
  intros (_ & _ & Hblocks).
  destruct Hdisk1 as (_ & Hkeep & Hdur).
  { apply flush_open_new. }
  { intros j Hj. destruct (Hacc j) as (_ & _ & -> & ->).
    apply Hblocks. by apply Hslots. }
  split.
  { intros p b Hp Hne Hb. apply Hon, Hkeep; [done| |].
    2:{ apply (on_disk_ext ctl p b w); [apply Hd0..|done]. }
    intros j Hj Hn. destruct (Hacc j) as (_ & _ & -> & _).
    apply Hne; [by apply Hslots|by apply Hnw]. }
  intros Hdist j Hj Hn.
  destruct (Hacc j) as (_ & _ & Hno & Hbo). rewrite <- Hno, <- Hbo.
  apply Hon, Hdur; [|by apply Hslots|by apply Hnw].
  intros i k Hi Hk Hni Hnk Heq.
  destruct (Hacc i) as (_ & _ & Hnoi & _). destruct (Hacc k) as (_ & _ & Hnok & _).
  rewrite Hnoi, Hnok in Heq.
  apply Hnw in Hni, Hnk.
  apply Hdist; [by apply Hslots|by apply Hslots| | |done].
  - destruct Hni as [->|[-> _]]; done.
  - destruct Hnk as [->|[-> _]]; done.
Qed.

(** X18.  The Assert in the loop of [SimpleLruFlush], as a postcondition:
    with one turn of waiting allowed, a flush does not hang, and when it
    returns every slot that was not being read is EMPTY, or VALID and
    clean; the page numbers and the buffers are as before, and the control
    lock is free. *)
Theorem SimpleLruFlush_leaves_slots_clean (fuel : nat) (ctl : SlruCtlData)
    (checkpoint : bool) (w : World) :
  shared_wf (shared w) -> (0 < fuel)%nat ->
  SimpleLruFlush fuel ctl checkpoint w <> OutOfFuel /\
  forall w', SimpleLruFlush fuel ctl checkpoint w = Returned tt w' ->
    ControlLock w' = None /\
    page_number (shared w') = page_number (shared w) /\
    page_buffer (shared w') = page_buffer (shared w) /\
    forall slotno, (slotno < num_slots (shared w))%nat ->
      status_of w slotno <> SLRU_PAGE_READ_IN_PROGRESS ->
      status_of w' slotno = SLRU_PAGE_EMPTY \/
      (status_of w' slotno = SLRU_PAGE_VALID /\ dirty_of w' slotno = false).
Proof.
  intros Hwf Hfuel.
  pose proof (SimpleLruFlush_spec fuel ctl checkpoint w Hwf) as H.
  destruct (SimpleLruFlush fuel ctl checkpoint w) as [[] w1|e w1|].
  - split; [done|]. intros w' [= <-].
    destruct H as ((_ & Hnum & _ & Hbuf & _) & Hcl & Hfl & _).
    split; [done|]. split; [done|]. split; [done|]. exact Hfl.
  - split; [done|]. intros w' [=].
  - lia.
Qed.

Lemma SimpleLruFlush_leaves_slots_clean_witness :
  SimpleLruFlush 1 ex_ctl false world_four_slots <> OutOfFuel /\
  forall w', SimpleLruFlush 1 ex_ctl false world_four_slots = Returned tt w' ->
    status_of w' 2 = SLRU_PAGE_EMPTY \/
    (status_of w' 2 = SLRU_PAGE_VALID /\ dirty_of w' 2 = false).
Proof.
  destruct (SimpleLruFlush_leaves_slots_clean 1 ex_ctl false world_four_slots)
    as [Hret Hpost].
  - repeat split; vm_compute; reflexivity.
  - lia.
  - split; [exact Hret|]. intros w' Hrun.
    destruct (Hpost w' Hrun) as (_ & _ & _ & Hfl).
    apply Hfl; [vm_compute; lia|vm_compute; discriminate].
Defined.

(** X19.  What a flush makes durable: when [SimpleLruFlush] returns, every
    page that was dirty in a VALID slot, or whose write was marked in
    progress, is on disk with the contents of its buffer, at its offset in
    its segment file.  The pool holds blocks, and no page twice. *)
Theorem SimpleLruFlush_writes_dirty_pages (fuel : nat) (ctl : SlruCtlData)
    (checkpoint : bool) (w w' : World) (slotno : nat) :
  block_pool w -> distinct_pages w ->
  SimpleLruFlush fuel ctl checkpoint w = Returned tt w' ->
  (slotno < num_slots (shared w))%nat ->
  status_of w slotno = SLRU_PAGE_WRITE_IN_PROGRESS \/
  (status_of w slotno = SLRU_PAGE_VALID /\ dirty_of w slotno = true) ->
  on_disk ctl (number_of w slotno) (buffer_of w slotno) w'.
Proof.
  intros Hpool Hdist Hrun Hslot Hneeds.
  pose proof Hpool as (Hwf & _).
  pose proof (SimpleLruFlush_spec fuel ctl checkpoint w Hwf) as H.
  rewrite Hrun in H. destruct H as (_ & _ & _ & Hdisk).
  destruct (Hdisk Hpool) as [_ Hdur]. by apply Hdur.
Qed.

Lemma SimpleLruFlush_writes_dirty_pages_witness :
  on_disk ex_ctl 64 zero_page
    (world_after (SimpleLruFlush 1 ex_ctl false) world_four_slots).
Proof.
  assert (Hn : number_of world_four_slots 2 = 64) by (vm_compute; reflexivity).
  assert (Hb : buffer_of world_four_slots 2 = zero_page)
    by (vm_compute; reflexivity).
  rewrite <- Hn at 1. rewrite <- Hb.
  apply (SimpleLruFlush_writes_dirty_pages 1 ex_ctl false world_four_slots
           (world_after (SimpleLruFlush 1 ex_ctl false) world_four_slots) 2).
  - split; [repeat split; vm_compute; reflexivity|].
    split; [vm_compute; lia|].
    intros i Hi.
    assert (Hn4 : num_slots (shared world_four_slots) = 4%nat)
      by (vm_compute; reflexivity).
    rewrite Hn4 in Hi. clear Hn4.
    destruct i as [|[|[|[|i]]]]; [..|exfalso; clear -Hi; lia];
      (split; [vm_compute; reflexivity|vm_compute; split; [discriminate|reflexivity]]).
  - intros i j Hi Hj _ _.
    assert (Hn4 : num_slots (shared world_four_slots) = 4%nat)
      by (vm_compute; reflexivity).
    rewrite Hn4 in Hi, Hj. clear Hn4.
    destruct i as [|[|[|[|i]]]]; [..|exfalso; clear -Hi; lia];
      (destruct j as [|[|[|[|j]]]]; [..|exfalso; clear -Hj; lia]);
      vm_compute; congruence.
  - apply (Returned_after (SimpleLruFlush 1 ex_ctl false) world_four_slots tt).
    vm_compute. reflexivity.
  - vm_compute. lia.
  - right. split; vm_compute; reflexivity.
Defined.

(** X20.  A flush leaves the other pages on disk alone: a page that is on
    disk, and that no slot is about to write, reads the same after
    [SimpleLruFlush] returns. *)
Theorem SimpleLruFlush_spares_other_pages (fuel : nat) (ctl : SlruCtlData)
    (checkpoint : bool) (w w' : World) (p : Z) (b : list byte) :
  block_pool w -> in_int p ->
  (forall slotno, (slotno < num_slots (shared w))%nat ->
     status_of w slotno = SLRU_PAGE_WRITE_IN_PROGRESS \/
     (status_of w slotno = SLRU_PAGE_VALID /\ dirty_of w slotno = true) ->
     number_of w slotno <> p) ->
  on_disk ctl p b w ->
  SimpleLruFlush fuel ctl checkpoint w = Returned tt w' ->
  on_disk ctl p b w'.
Proof.
  intros Hpool Hp Hne Hb Hrun.
  pose proof Hpool as (Hwf & _).
  pose proof (SimpleLruFlush_spec fuel ctl checkpoint w Hwf) as H.
  rewrite Hrun in H. destruct H as (_ & _ & _ & Hdisk).
  destruct (Hdisk Hpool) as [Hkeep _]. by apply Hkeep.
Qed.

Lemma SimpleLruFlush_spares_other_pages_witness :
  on_disk ex_ctl 5 zero_page
    (world_after (SimpleLruFlush 1 ex_ctl false) world_page5_evicted).
Proof.
  apply (SimpleLruFlush_spares_other_pages 1 ex_ctl false world_page5_evicted
           (world_after (SimpleLruFlush 1 ex_ctl false) world_page5_evicted)
           5 zero_page).
  - split; [repeat split; vm_compute; reflexivity|].
    split; [vm_compute; lia|].
    intros i Hi.
    assert (Hn2 : num_slots (shared world_page5_evicted) = 2%nat)
      by (vm_compute; reflexivity).
    rewrite Hn2 in Hi. clear Hn2.
    destruct i as [|[|i]]; [..|exfalso; clear -Hi; lia];
      (split; [vm_compute; reflexivity|vm_compute; split; [discriminate|reflexivity]]).
  - vm_compute. split; [discriminate|reflexivity].
  - intros i Hi _.
    assert (Hn2 : num_slots (shared world_page5_evicted) = 2%nat)
      by (vm_compute; reflexivity).
    rewrite Hn2 in Hi. clear Hn2.
    destruct i as [|[|i]]; [..|exfalso; clear -Hi; lia]; vm_compute; discriminate.
  - apply on_disk_b_true. vm_compute. reflexivity.
  - apply (Returned_after (SimpleLruFlush 1 ex_ctl false) world_page5_evicted tt).
    vm_compute. reflexivity.
Defined.

Lemma SimpleLruFlush_write_skip fuel ctl slots :
  forall fd w,
    (forall j, j ∈ slots -> ~ needs_write w j) ->
    SimpleLruFlush_write fuel ctl slots fd w = Returned fd w.
Proof.
  induction slots as [|k rest IH]; intros fd w Hclean; [done|].
  cbn [SimpleLruFlush_write]. unfold bind.
  assert (Hk : ~ needs_write w k) by (apply Hclean; by apply elem_of_cons; left).
  rewrite SimpleLruWritePage_skip.
  - cbn [default]. apply IH. intros j Hj. apply Hclean. by apply elem_of_cons; right.
  - intros Hw. apply Hk. by left.
  - destruct (dirty_of w k) eqn:Hd; [right|by left].
    intros Hv. apply Hk. by right.
Qed.

(** X21.  A flush with nothing to write does no I/O: when no slot holds a
    dirty VALID page or a write in progress, [SimpleLruFlush] returns, and
    the world is as before but for the control lock, which was taken and
    let go. *)
Theorem SimpleLruFlush_nothing_to_write (fuel : nat) (ctl : SlruCtlData)
    (checkpoint : bool) (w : World) :
  (forall slotno, (slotno < num_slots (shared w))%nat ->
     status_of w slotno <> SLRU_PAGE_WRITE_IN_PROGRESS /\
     (status_of w slotno = SLRU_PAGE_VALID -> dirty_of w slotno = false)) ->
  SimpleLruFlush fuel ctl checkpoint w =
    Returned tt
      (LWLockRelease_ControlLock (LWLockAcquire_ControlLock LW_EXCLUSIVE w)).
Proof.
  intros Hclean. unfold SimpleLruFlush, bind, step, gets.
  rewrite SimpleLruFlush_write_skip; [done|].
  intros j Hj. apply elem_of_seq in Hj.
  destruct (Hclean j) as [Hw Hd]; [cbn in Hj; lia|].
  intros [H|[Hv Hdirty]].
  - by apply Hw.
  - specialize (Hd Hv). unfold dirty_of in *. cbn in Hdirty. congruence.
Qed.

Lemma SimpleLruFlush_nothing_to_write_witness :
  SimpleLruFlush 0 ex_ctl true world_page5_written =
    Returned tt
      (LWLockRelease_ControlLock
         (LWLockAcquire_ControlLock LW_EXCLUSIVE world_page5_written)).
Proof.
  apply (SimpleLruFlush_nothing_to_write 0 ex_ctl true world_page5_written).
  intros i Hi.
  assert (Hn2 : num_slots (shared world_page5_written) = 2%nat)
    by (vm_compute; reflexivity).
  rewrite Hn2 in Hi. clear Hn2.
  destruct i as [|[|i]]; [..|exfalso; clear -Hi; lia];
    (split; [vm_compute; discriminate|intros _; vm_compute; reflexivity]).
Defined.

(** ** The pool holds no page twice *)

(** No slot comes to hold a page: the page numbers are as before, and a
    slot that is not EMPTY was not EMPTY before. *)
Lemma distinct_pages_fewer w w' :
  num_slots (shared w') = num_slots (shared w) ->
  page_number (shared w') = page_number (shared w) ->
  (forall j, status_of w' j <> SLRU_PAGE_EMPTY -> status_of w j <> SLRU_PAGE_EMPTY) ->
  distinct_pages w -> distinct_pages w'.
Proof.
  intros Hn Hnum Hst Hd i j Hi Hj Hsi Hsj Heq.
  unfold number_of in *. rewrite Hn in *. rewrite Hnum in Heq.
  apply Hd; auto.
Qed.

(** One slot is given to page [p], which no other slot holds. *)
Lemma distinct_pages_take p slotno w w' :
  distinct_pages w ->
  (forall j, (j < num_slots (shared w))%nat -> j <> slotno -> ~ holds p w j) ->
  num_slots (shared w') = num_slots (shared w) ->
  (forall j, j <> slotno ->
     number_of w' j = number_of w j /\
     (status_of w' j <> SLRU_PAGE_EMPTY -> status_of w j <> SLRU_PAGE_EMPTY)) ->
  (status_of w' slotno <> SLRU_PAGE_EMPTY -> number_of w' slotno = p) ->
  distinct_pages w'.
Proof.
  intros Hd Hnone Hn Hoth Hslot i j Hi Hj Hsi Hsj Heq.
  rewrite Hn in *.
  destruct (decide (i = slotno)) as [->|Hi'];
    destruct (decide (j = slotno)) as [->|Hj']; [done| | |].
  - exfalso. destruct (Hoth j Hj') as [Hnj Hstj].
    apply (Hnone j Hj Hj'). split; [by apply Hstj|].
    rewrite <- Hnj, <- Heq. by apply Hslot.
  - exfalso. destruct (Hoth i Hi') as [Hni Hsti].
    apply (Hnone i Hi Hi'). split; [by apply Hsti|].
    rewrite <- Hni, Heq. by apply Hslot.
  - destruct (Hoth i Hi') as [Hni Hsti]. destruct (Hoth j Hj') as [Hnj Hstj].
    apply Hd; auto. by rewrite <- Hni, <- Hnj.
Qed.

Lemma distinct_pages_one_holder p w : distinct_pages w -> one_holder p w.
Proof.
  intros Hd i j Hi Hj [Hsi Hni] [Hsj Hnj]. apply Hd; auto. by rewrite Hni, Hnj.
Qed.

(** Slot selection makes no holder. *)
Lemma SlruSelectLRUPage_fewer_holders ctl pageno fuel w :
  shared_wf (shared w) -> (0 < num_slots (shared w))%nat ->
  match SlruSelectLRUPage fuel ctl pageno w with
  | Returned _ w' | Raised _ w' =>
      forall j, status_of w' j <> SLRU_PAGE_EMPTY ->
                status_of w j <> SLRU_PAGE_EMPTY
  | OutOfFuel => True
  end.
Proof.
  intros Hwf Hn.
  pose (I := fun w' : World =>
          (shared_wf (shared w') /\ (0 < num_slots (shared w'))%nat) /\
          forall j, status_of w' j <> SLRU_PAGE_EMPTY ->
                    status_of w j <> SLRU_PAGE_EMPTY).
  pose proof (SlruSelectLRUPage_invariant ctl I) as Hinv.
  assert (HI : I w) by (by split).
  specialize (Hinv ltac:(by intros ? [? _])).
  assert (Hscan : forall w0 slots best r s,
    I w0 ->
    victim_scan ctl (cur_lru_count (shared w0)) slots best
      (set_cur_lru_count (int_add (cur_lru_count (shared w0)) 1) (shared w0))
      = (r, s) ->
    I (upd_shared (fun _ => s)
         (upd_shared (set_cur_lru_count (int_add (cur_lru_count (shared w0)) 1))
            w0))).
  { intros w0 slots best r s [[Hwf0 Hn0] Hst0] Hs.
    apply victim_scan_frame in Hs
      as (Hsn & Hsst & Hsd & Hsnum & Hsb & _ & _ & _ & _ & Hsl).
    cbn in Hsn, Hsst, Hsd, Hsnum, Hsb, Hsl.
    destruct Hwf0 as (?&?&?&?&?).
    split; [split|].
    - unfold shared_wf. cbn. rewrite Hsn, Hsst, Hsd, Hsnum, Hsb, Hsl. done.
    - cbn. by rewrite Hsn.
    - intros j. unfold status_of. cbn. rewrite Hsst. apply Hst0. }
  specialize (Hinv Hscan). clear Hscan.
  assert (Hwrite : forall w0 i,
    I w0 -> (i < num_slots (shared w0))%nat ->
    status_of w0 i = SLRU_PAGE_VALID -> dirty_of w0 i = true ->
    I (end_write i
         (SlruPhysicalWritePage ctl (number_of w0 i) i None (begin_write i w0)).1.1
         (SlruPhysicalWritePage ctl (number_of w0 i) i None (begin_write i w0)).2)).
  { intros w0 i [[Hwf0 Hn0] Hst0] Hi Hv Hd.
    pose proof Hwf0 as (Hlb & Hls & Hld & Hln & Hll).
    pose proof (end_write_begin_write ctl (number_of w0 i) i None
                  (SlruPhysicalWritePage ctl (number_of w0 i) i None
                     (begin_write i w0)).1.1 w0 ltac:(lia) ltac:(lia))
      as (Hst3 & _ & _ & _ & Hv3 & _ & Hoth3).
    cbv zeta in Hst3, Hv3, Hoth3.
    set (w3 := end_write _ _ _) in *. clearbody w3.
    split; [split; [by apply (stable_wf w0)|destruct Hst3 as [-> _]; done]|].
    intros j Hj. apply Hst0.
    destruct (decide (j = i)) as [->|Hne]; [by rewrite Hv|].
    by destruct (Hoth3 j Hne) as [<- _]. }
  specialize (Hinv Hwrite). clear Hwrite.
  specialize (Hinv ltac:(by intros ? ? [? ?])).
  assert (Hwait : forall w0 i,
    I w0 -> (i < num_slots (shared w0))%nat ->
    status_of w0 i <> SLRU_PAGE_VALID -> status_of w0 i <> SLRU_PAGE_EMPTY ->
    I (SimpleLruWaitIO i w0)).
  { intros w0 i [[Hwf0 Hn0] Hst0] Hi Hv He.
    pose proof (SimpleLruWaitIO_spec i w0) as H. cbv zeta in H.
    destruct H as (Hstab & _ & _ & _ & _ & Hoth & _).
    set (w3 := SimpleLruWaitIO i w0) in *. clearbody w3.
    split; [split; [by apply (stable_wf w0)|destruct Hstab as [-> _]; done]|].
    intros j Hj. apply Hst0.
    destruct (decide (j = i)) as [->|Hne]; [done|].
    by destruct (Hoth j Hne) as [<- _]. }
  specialize (Hinv Hwait pageno fuel w HI).
  destruct (SlruSelectLRUPage fuel ctl pageno w); [apply Hinv|apply Hinv|done].
Qed.

Lemma SlruSelectLRUPage_distinct ctl p fuel w slotno w1 :
  in_int p -> block_pool w -> distinct_pages w ->
  SlruSelectLRUPage fuel ctl p w = Returned slotno w1 ->
  block_pool w1 /\ distinct_pages w1 /\
  (slotno < num_slots (shared w1))%nat /\
  (forall j, (j < num_slots (shared w1))%nat -> j <> slotno -> ~ holds p w1 j).
Proof.
  intros Hp Hpool Hd Hsel.
  destruct (SlruSelectLRUPage_one_holder ctl p fuel w slotno w1 Hp Hpool
              (distinct_pages_one_holder p w Hd) Hsel) as (Hpool1 & Hslot & Hnone).
  destruct Hpool as (Hwf & Hn & _).
  pose proof (SlruSelectLRUPage_fewer_holders ctl p fuel w Hwf Hn) as Hfew.
  pose proof (SlruSelectLRUPage_spec ctl p fuel w Hwf Hn) as Hs.
  rewrite Hsel in Hfew, Hs. destruct Hs as ((Hn1 & Hnum1 & _) & _).
  split; [done|]. split; [|done].
  by apply (distinct_pages_fewer w).
Qed.

(** X22.  [SimpleLruZeroPage] keeps the pool in order: in a pool of blocks
    in which no page is held by two slots, this is still so after a new
    page was created. *)
Theorem SimpleLruZeroPage_keeps_pages_distinct (fuel : nat) (ctl : SlruCtlData)
    (pageno : Z) (w : World) (slotno : nat) (w' : World) :
  in_int pageno -> block_pool w -> distinct_pages w ->
  SimpleLruZeroPage fuel ctl pageno w = Returned slotno w' ->
  block_pool w' /\ distinct_pages w'.
Proof.
  intros Hp Hpool Hd Hrun.
  destruct (SimpleLruZeroPage_one_holder ctl pageno fuel w slotno w' Hp Hpool
              (distinct_pages_one_holder pageno w Hd) Hrun) as (Hpool' & _ & _).
  split; [done|].
  rewrite SimpleLruZeroPage_eq in Hrun.
  destruct (SlruSelectLRUPage fuel ctl pageno w) as [slot w1|e w1|] eqn:Hsel;
    [|done..].
  injection Hrun as <- <-.
  destruct (SlruSelectLRUPage_distinct ctl pageno fuel w slot w1 Hp Hpool Hd Hsel)
    as ((Hwf1 & _) & Hd1 & Hslot & Hnone).
  destruct (zero_slot_spec slot pageno w1 Hslot Hwf1) as (Hns & _ & Hnum & _).
  destruct (zero_slot_frame slot pageno w1) as (Hpn & Hps & _).
  cbv zeta in *.
  set (w' := upd_shared (set_latest_page_number pageno) _) in *. clearbody w'.
  apply (distinct_pages_take pageno slot w1); try done.
  intros j Hj. unfold number_of, status_of. rewrite Hpn, Hps.
  by rewrite !list_lookup_total_insert_ne.
Qed.

Lemma SimpleLruZeroPage_keeps_pages_distinct_witness :
  distinct_pages (world_after (SimpleLruZeroPage 4 ex_ctl 7) world_page6_created).
Proof.
  apply (SimpleLruZeroPage_keeps_pages_distinct 4 ex_ctl 7 world_page6_created 0
           (world_after (SimpleLruZeroPage 4 ex_ctl 7) world_page6_created)).
  - vm_compute. split; [discriminate|reflexivity].
  - split; [repeat split; vm_compute; reflexivity|].
    split; [vm_compute; lia|].
    intros i Hi.
    assert (Hn2 : num_slots (shared world_page6_created) = 2%nat)
      by (vm_compute; reflexivity).
    rewrite Hn2 in Hi. clear Hn2.
    destruct i as [|[|i]]; [..|exfalso; clear -Hi; lia];
      (split; [vm_compute; reflexivity
              |vm_compute; split; [discriminate|reflexivity]]).
  - intros i j Hi Hj _ _.
    assert (Hn2 : num_slots (shared world_page6_created) = 2%nat)
      by (vm_compute; reflexivity).
    rewrite Hn2 in Hi, Hj. clear Hn2.
    destruct i as [|[|i]]; [..|exfalso; clear -Hi; lia];
      (destruct j as [|[|j]]; [..|exfalso; clear -Hj; lia]);
      vm_compute; congruence.
  - apply (Returned_after (SimpleLruZeroPage 4 ex_ctl 7) world_page6_created 0%nat).
    vm_compute. reflexivity.
Defined.

(** A physical read leaves a block in the buffer of its slot. *)
Lemma SlruPhysicalReadPage_block ctl pageno slotno w ok w' :
  length (buffer_of w slotno) = Z.to_nat BLCKSZ ->
  SlruPhysicalReadPage ctl pageno slotno w = Returned ok w' ->
  length (buffer_of w' slotno) = Z.to_nat BLCKSZ.
Proof.
  intros Hlen. unfold SlruPhysicalReadPage, bind, SlruFlatFileName.
  case_decide; [done|].
  assert (Hin : (slotno < length (page_buffer (shared w)))%nat).
  { destruct (decide (slotno < length (page_buffer (shared w)))%nat);
      [done|exfalso].
    unfold buffer_of in Hlen.
    rewrite list_lookup_total_alt, lookup_ge_None_2 in Hlen by lia.
    cbn in Hlen. unfold BLCKSZ in Hlen. lia. }
  unfold BasicOpenFile, lseek, os_read, os_close.
  assert (Hdata : forall f : list byte,
            length (take (Z.to_nat BLCKSZ)
                      (drop (Z.to_nat (int_mul (int_mod pageno
                          SLRU_PAGES_PER_SEGMENT) BLCKSZ)) f)
                    ++ drop (length (take (Z.to_nat BLCKSZ)
                         (drop (Z.to_nat (int_mul (int_mod pageno
                            SLRU_PAGES_PER_SEGMENT) BLCKSZ)) f)))
                         (buffer_of w slotno))
            = Z.to_nat BLCKSZ).
  { intros f. rewrite length_app, length_drop, length_take. lia. }
  repeat (case_match; simplify_eq/=); intros [= <- <-];
    unfold buffer_of in *; cbn;
    rewrite ?list_lookup_total_insert_eq by done;
    first [done | apply length_zero_page | apply Hdata
          | rewrite length_app, length_drop; cbn; lia].
Qed.

(** The world after a read into a slot that no holder of the page is
    left beside: the slot holds the page or is EMPTY. *)
Lemma read_into_slot_distinct ctl p slotno w1 ok w2 w' :
  in_int p -> block_pool w1 -> distinct_pages w1 ->
  (slotno < num_slots (shared w1))%nat ->
  (forall j, (j < num_slots (shared w1))%nat -> j <> slotno -> ~ holds p w1 j) ->
  SlruPhysicalReadPage ctl p slotno (begin_read slotno p w1) = Returned ok w2 ->
  shared w' = shared (end_read slotno ok (upd_shared (SimpleLruZeroLSNs slotno) w2))
  \/ shared w' = shared (upd_shared (SlruRecentlyUsed slotno)
                 (end_read slotno ok (upd_shared (SimpleLruZeroLSNs slotno) w2))) ->
  block_pool w' /\ distinct_pages w'.
Proof.
  intros Hp (Hwf1 & Hn1 & Hslots1) Hd1 Hslot Hnone Hread Hw'.
  destruct (begin_read_frame slotno p w1) as (H0n & H0b & H0num & _).
  cbv zeta in H0n, H0b, H0num.
  pose proof (begin_read_length slotno p w1) as [H0ls H0ld].
  assert (H0st : forall j, j <> slotno ->
            status_of (begin_read slotno p w1) j = status_of w1 j).
  { intros j Hj. unfold status_of, begin_read, SlruRecentlyUsed. cbn.
    case_decide; cbn; by rewrite list_lookup_total_insert_ne. }
  assert (H0ll : length (page_lru_count (shared (begin_read slotno p w1)))
                 = length (page_lru_count (shared w1))).
  { unfold begin_read, SlruRecentlyUsed. cbn.
    case_decide; cbn; by rewrite ?length_insert. }
  set (w0 := begin_read slotno p w1) in *. clearbody w0.
  destruct (Hslots1 slotno Hslot) as [Hlen _].
  assert (Hlen0 : length (buffer_of w0 slotno) = Z.to_nat BLCKSZ).
  { unfold buffer_of in *. by rewrite H0b. }
  pose proof (SlruPhysicalReadPage_block ctl p slotno w0 ok w2 Hlen0 Hread)
    as Hlen2.
  pose proof (SlruPhysicalReadPage_frame ctl p slotno w0) as Hfr.
  rewrite Hread in Hfr.
  destruct Hfr as (H2n & H2st & H2d & H2num & H2l & _ & _ & _ & _ & H2bl & H2b & _).
  set (w3 := end_read slotno ok (upd_shared (SimpleLruZeroLSNs slotno) w2)) in *.
  assert (H3 : num_slots (shared w3) = num_slots (shared w2) /\
               page_number (shared w3) = page_number (shared w2) /\
               page_buffer (shared w3) = page_buffer (shared w2) /\
               page_dirty (shared w3) = page_dirty (shared w2) /\
               page_lru_count (shared w3) = page_lru_count (shared w2) /\
               page_status (shared w3)
               = <[slotno := if ok then SLRU_PAGE_VALID else SLRU_PAGE_EMPTY]>
                   (page_status (shared w2))).
  { subst w3. unfold end_read, SimpleLruZeroLSNs. cbn.
    case_decide; cbn; done. }
  clearbody w3. destruct H3 as (H3n & H3num & H3b & H3d & H3l & H3st).
  assert (H4 : num_slots (shared w') = num_slots (shared w3) /\
               page_number (shared w') = page_number (shared w3) /\
               page_buffer (shared w') = page_buffer (shared w3) /\
               page_dirty (shared w') = page_dirty (shared w3) /\
               page_status (shared w') = page_status (shared w3) /\
               length (page_lru_count (shared w'))
               = length (page_lru_count (shared w3))).
  { destruct Hw' as [->| ->]; [done|].
    unfold SlruRecentlyUsed. cbn. case_decide; cbn; by rewrite ?length_insert. }
  destruct H4 as (H4n & H4num & H4b & H4d & H4st & H4l).
  destruct Hwf1 as (Hlb & Hls & Hld & Hln & Hll).
  assert (Hnum' : page_number (shared w') = <[slotno := p]> (page_number (shared w1))).
  { by rewrite H4num, H3num, H2num, H0num. }
  assert (Hst' : forall j, j <> slotno -> status_of w' j = status_of w1 j).
  { intros j Hj. rewrite <- (H0st j Hj). unfold status_of.
    rewrite H4st, H3st, H2st. by rewrite list_lookup_total_insert_ne. }
  assert (Hns' : num_slots (shared w') = num_slots (shared w1)) by congruence.
  split.
  - split.
    { unfold shared_wf. rewrite Hns', H4b, H3b, H2bl, H0b, H4st, H3st,
        length_insert, H2st, H0ls, H4d, H3d, H2d, H0ld, Hnum', length_insert,
        H4l, H3l, H2l, H0ll. done. }
    split; [by rewrite Hns'|].
    intros i Hi. rewrite Hns' in Hi. unfold buffer_of, number_of.
    rewrite Hnum', H4b, H3b.
    destruct (decide (i = slotno)) as [->|Hne].
    + rewrite list_lookup_total_insert_eq by lia. split; [exact Hlen2|done].
    + rewrite list_lookup_total_insert_ne by done.
      fold (buffer_of w2 i). rewrite (H2b i Hne). unfold buffer_of.
      rewrite H0b. by apply Hslots1.
  - apply (distinct_pages_take p slotno w1); try done.
    + intros j Hj. split; [|by rewrite (Hst' j Hj)].
      unfold number_of. rewrite Hnum'. by rewrite list_lookup_total_insert_ne.
    + intros _. unfold number_of. rewrite Hnum'.
      apply list_lookup_total_insert_eq. lia.
Qed.

(** [SimpleLruReadPage_Internal] keeps the pool in order. *)
Lemma SimpleLruReadPage_Internal_distinct ctl p write_ok xid valid fuel :
  in_int p ->
  forall w r w',
    block_pool w -> distinct_pages w ->
    SimpleLruReadPage_Internal fuel ctl p write_ok xid valid w = Returned r w' ->
    block_pool w' /\ distinct_pages w'.
Proof.
  intros Hp. induction fuel as [|fuel IH]; intros w r w' Hpool Hd; [done|].
  destruct (SlruSelectLRUPage (S fuel) ctl p w) as [slot w1|e w1|] eqn:Hsel.
  2,3: cbn [SimpleLruReadPage_Internal]; unfold bind at 1; by rewrite Hsel.
  destruct (SlruSelectLRUPage_distinct ctl p (S fuel) w slot w1 Hp Hpool Hd Hsel)
    as (Hpool1 & Hd1 & Hslot & Hnone).
  destruct (decide (number_of w1 slot = p /\
                    status_of w1 slot <> SLRU_PAGE_EMPTY)) as [[Hp1 Hst]|Hmiss].
  - cbn [SimpleLruReadPage_Internal]. unfold bind at 1. rewrite Hsel.
    unfold bind at 1. unfold gets at 1. unfold id.
    rewrite (bool_decide_eq_true_2 _ Hp1), (bool_decide_eq_true_2 _ Hst).
    cbn [andb].
    destruct (bool_decide (status_of w1 slot = SLRU_PAGE_READ_IN_PROGRESS) ||
              bool_decide (status_of w1 slot = SLRU_PAGE_WRITE_IN_PROGRESS) &&
              negb write_ok) eqn:Hbusy.
    + unfold bind, step.
      pose proof (SimpleLruWaitIO_spec slot w1) as H. cbv zeta in H.
      destruct H as (Hst3 & _ & _ & _ & _ & Hoth3 & _).
      set (w2 := SimpleLruWaitIO slot w1) in *. clearbody w2.
      apply IH.
      * destruct Hpool1 as (Hwf1 & Hn1 & Hslots1).
        pose proof Hst3 as (Hn3 & Hnum3 & _ & Hbuf3 & _).
        split; [by apply (stable_wf w1)|]. split; [by rewrite Hn3|].
        unfold buffer_of, number_of. rewrite Hn3, Hnum3, Hbuf3. exact Hslots1.
      * destruct Hst3 as (Hn3 & Hnum3 & _).
        apply (distinct_pages_fewer w1); try done.
        intros j Hj. destruct (decide (j = slot)) as [->|Hne]; [done|].
        by destruct (Hoth3 j Hne) as [<- _].
    + unfold bind, step, ret. intros [= <- <-].
      destruct (same_slots_RecentlyUsed slot w1)
        as (H5n & H5num & H5st & H5d & H5b & _ & H5l).
      destruct Hpool1 as ((Hlb & Hls & Hld & Hln & Hll) & Hn1 & Hslots1).
      split.
      * split.
        { unfold shared_wf. rewrite H5n, H5b, H5st, H5d, H5num, H5l. done. }
        split; [by rewrite H5n|].
        unfold buffer_of, number_of. rewrite H5n, H5num, H5b. exact Hslots1.
      * apply (distinct_pages_fewer w1); try done.
        intros j. unfold status_of. by rewrite H5st.
  - rewrite (SimpleLruReadPage_Internal_miss _ _ _ _ _ _ _ _ _ Hsel Hmiss).
    destruct (SlruPhysicalReadPage ctl p slot (begin_read slot p w1))
      as [ok w2|e w2|] eqn:Hread; [|done..].
    cbv zeta.
    pose proof (fun w' => read_into_slot_distinct ctl p slot w1 ok w2 w' Hp Hpool1
                            Hd1 Hslot Hnone Hread) as Hfin.
    destruct ok.
    + intros [= <- <-]. apply Hfin. by right.
    + destruct valid; [|done]. intros [= <- <-]. apply Hfin. by left.
Qed.

(** X23.  [SimpleLruReadPage] keeps the pool in order: in a pool of blocks
    in which no page is held by two slots, this is still so after a page
    was looked up or read in. *)
Theorem SimpleLruReadPage_keeps_pages_distinct (fuel : nat) (ctl : SlruCtlData)
    (pageno : Z) (write_ok : bool) (xid : Z) (w : World) (r : ReadResult)
    (w' : World) :
  in_int pageno -> block_pool w -> distinct_pages w ->
  SimpleLruReadPage fuel ctl pageno write_ok xid w = Returned r w' ->
  block_pool w' /\ distinct_pages w'.
Proof.
  intros Hp Hpool Hd Hrun.
  by apply (SimpleLruReadPage_Internal_distinct ctl pageno write_ok xid false fuel
              Hp w r w').
Qed.

Lemma SimpleLruReadPage_keeps_pages_distinct_witness :
  distinct_pages
    (world_after (SimpleLruReadPage 5 ex_ctl 5 false 0) world_page5_evicted).
Proof.
  apply (SimpleLruReadPage_keeps_pages_distinct 5 ex_ctl 5 false 0
           world_page5_evicted (1, None)
           (world_after (SimpleLruReadPage 5 ex_ctl 5 false 0)
              world_page5_evicted)).
  - vm_compute. split; [discriminate|reflexivity].
  - split; [repeat split; vm_compute; reflexivity|].
    split; [vm_compute; lia|].
    intros i Hi.
    assert (Hn2 : num_slots (shared world_page5_evicted) = 2%nat)
      by (vm_compute; reflexivity).
    rewrite Hn2 in Hi. clear Hn2.
    destruct i as [|[|i]]; [..|exfalso; clear -Hi; lia];
      (split; [vm_compute; reflexivity
              |vm_compute; split; [discriminate|reflexivity]]).
  - intros i j Hi Hj _ _.
    assert (Hn2 : num_slots (shared world_page5_evicted) = 2%nat)
      by (vm_compute; reflexivity).
    rewrite Hn2 in Hi, Hj. clear Hn2.
    destruct i as [|[|i]]; [..|exfalso; clear -Hi; lia];
      (destruct j as [|[|j]]; [..|exfalso; clear -Hj; lia]);
      vm_compute; congruence.
  - apply (Returned_after (SimpleLruReadPage 5 ex_ctl 5 false 0)
             world_page5_evicted (1, None)).
    vm_compute. reflexivity.
Defined.

(** ** The LSNs of a new page *)

Lemma length_MemSet {A} start len (val : A) l :
  length (MemSet start len val l) = length l.
Proof.
  unfold MemSet. rewrite !length_app, length_take, length_replicate, length_drop.
  lia.
Qed.

(** A cell of the range that [MemSet] fills reads as the value. *)
Lemma MemSet_zero start len (l : list Z) k :
  (start + len <= length l)%nat -> (k < len)%nat ->
  MemSet start len 0 l !!! (start + k)%nat = 0.
Proof.
  intros Hin Hk.
  unfold MemSet. rewrite list_lookup_total_alt.
  rewrite lookup_app_r by (rewrite length_take; lia).
  rewrite length_take, lookup_app_l by (rewrite length_replicate; lia).
  rewrite lookup_replicate_2 by lia. done.
Qed.

Lemma fold_max_zero (f : nat -> Z) (l : list nat) :
  (forall k, k ∈ l -> f k = 0) ->
  fold_left (fun m k => if decide (m < f k) then f k else m) l 0 = 0.
Proof.
  induction l as [|x l IH]; intros H; cbn [fold_left]; [done|].
  rewrite (H x) by (by apply elem_of_cons; left).
  rewrite decide_False by lia.
  apply IH. intros k Hk. apply H. by apply elem_of_cons; right.
Qed.

(** After [SimpleLruZeroLSNs] the largest LSN of the slot's group is 0. *)
Lemma SimpleLruZeroLSNs_max_group_lsn slotno s lsns :
  0 < lsn_groups_per_page s ->
  (forall l0, group_lsn s = Some l0 ->
     ((slotno + 1) * Z.to_nat (lsn_groups_per_page s) <= length l0)%nat) ->
  group_lsn (SimpleLruZeroLSNs slotno s) = Some lsns ->
  max_group_lsn (SimpleLruZeroLSNs slotno s) lsns slotno = 0.
Proof.
  intros Hn Hlen. unfold SimpleLruZeroLSNs. rewrite decide_True by lia.
  cbn [group_lsn set_group_lsn]. destruct (group_lsn s) as [l0|]; [|done].
  specialize (Hlen l0 eq_refl).
  cbn [fmap option_fmap option_map]. intros [= <-].
  unfold max_group_lsn. cbn [lsn_groups_per_page set_group_lsn]. cbv zeta.
  set (n := Z.to_nat (lsn_groups_per_page s)) in *.
  assert (Hn0 : (0 < n)%nat) by lia.
  assert (Hfit : (slotno * n + n <= length l0)%nat) by lia.
  pose proof (MemSet_zero (slotno * n) n l0 0 Hfit Hn0) as H0.
  rewrite Nat.add_0_r in H0. rewrite H0.
  apply fold_max_zero. intros k Hk. apply elem_of_seq in Hk.
  apply MemSet_zero; [done|lia].
Qed.

(** Slot selection leaves the LSN arrays alone. *)
Lemma SlruSelectLRUPage_group_lsn ctl pageno fuel w :
  shared_wf (shared w) -> (0 < num_slots (shared w))%nat ->
  match SlruSelectLRUPage fuel ctl pageno w with
  | Returned _ w' | Raised _ w' =>
      group_lsn (shared w') = group_lsn (shared w) /\
      lsn_groups_per_page (shared w') = lsn_groups_per_page (shared w)
  | OutOfFuel => True
  end.
Proof.
  intros Hwf Hn.
  pose (I := fun w' : World =>
          (shared_wf (shared w') /\ (0 < num_slots (shared w'))%nat) /\
          group_lsn (shared w') = group_lsn (shared w) /\
          lsn_groups_per_page (shared w') = lsn_groups_per_page (shared w)).
  pose proof (SlruSelectLRUPage_invariant ctl I) as Hinv.
  assert (HI : I w) by (by split).
  specialize (Hinv ltac:(by intros ? [? _])).
  assert (Hscan : forall w0 slots best r s,
    I w0 ->
    victim_scan ctl (cur_lru_count (shared w0)) slots best
      (set_cur_lru_count (int_add (cur_lru_count (shared w0)) 1) (shared w0))
      = (r, s) ->
    I (upd_shared (fun _ => s)
         (upd_shared (set_cur_lru_count (int_add (cur_lru_count (shared w0)) 1))
            w0))).
  { intros w0 slots best r s [[Hwf0 Hn0] [Hg0 Hl0]] Hs.
    apply victim_scan_frame in Hs
      as (Hsn & Hsst & Hsd & Hsnum & Hsb & Hsg & Hsp & _ & _ & Hsl).
    cbn in Hsn, Hsst, Hsd, Hsnum, Hsb, Hsl, Hsg, Hsp.
    destruct Hwf0 as (?&?&?&?&?).
    split; [split|].
    - unfold shared_wf. cbn. rewrite Hsn, Hsst, Hsd, Hsnum, Hsb, Hsl. done.
    - cbn. by rewrite Hsn.
    - cbn. by rewrite Hsg, Hsp. }
  specialize (Hinv Hscan). clear Hscan.
  assert (Hwrite : forall w0 i,
    I w0 -> (i < num_slots (shared w0))%nat ->
    status_of w0 i = SLRU_PAGE_VALID -> dirty_of w0 i = true ->
    I (end_write i
         (SlruPhysicalWritePage ctl (number_of w0 i) i None (begin_write i w0)).1.1
         (SlruPhysicalWritePage ctl (number_of w0 i) i None (begin_write i w0)).2)).
  { intros w0 i [[Hwf0 Hn0] [Hg0 Hl0]] Hi Hv Hd.
    pose proof Hwf0 as (Hlb & Hls & Hld & Hln & Hll).
    pose proof (end_write_begin_write ctl (number_of w0 i) i None
                  (SlruPhysicalWritePage ctl (number_of w0 i) i None
                     (begin_write i w0)).1.1 w0 ltac:(lia) ltac:(lia))
      as (Hst3 & _).
    cbv zeta in Hst3.
    pose proof (SlruPhysicalWritePage_io_only ctl (number_of w0 i) i None
                  (begin_write i w0)) as (Hsh & _).
    assert (Hg : forall ok w3, shared w3 = shared (begin_write i w0) ->
              group_lsn (shared (end_write i ok w3)) = group_lsn (shared w0) /\
              lsn_groups_per_page (shared (end_write i ok w3))
              = lsn_groups_per_page (shared w0)).
    { intros ok w3 H3. unfold end_write. destruct ok; cbn; by rewrite H3. }
    specialize (Hg (SlruPhysicalWritePage ctl (number_of w0 i) i None
                      (begin_write i w0)).1.1 _ Hsh).
    set (w3 := end_write _ _ _) in *. clearbody w3.
    split; [split; [by apply (stable_wf w0)|destruct Hst3 as [-> _]; done]|].
    destruct Hg as [-> ->]. done. }
  specialize (Hinv Hwrite). clear Hwrite.
  specialize (Hinv ltac:(by intros ? ? [? ?])).
  assert (Hwait : forall w0 i,
    I w0 -> (i < num_slots (shared w0))%nat ->
    status_of w0 i <> SLRU_PAGE_VALID -> status_of w0 i <> SLRU_PAGE_EMPTY ->
    I (SimpleLruWaitIO i w0)).
  { intros w0 i [[Hwf0 Hn0] [Hg0 Hl0]] Hi Hv He.
    pose proof (SimpleLruWaitIO_spec i w0) as H. cbv zeta in H.
    destruct H as (Hstab & _).
    assert (Hg : group_lsn (shared (SimpleLruWaitIO i w0)) = group_lsn (shared w0) /\
                 lsn_groups_per_page (shared (SimpleLruWaitIO i w0))
                 = lsn_groups_per_page (shared w0)).
    { rewrite SimpleLruWaitIO_eq. cbv zeta. by destruct (status_of w0 i). }
    set (w3 := SimpleLruWaitIO i w0) in *. clearbody w3.
    split; [split; [by apply (stable_wf w0)|destruct Hstab as [-> _]; done]|].
    destruct Hg as [-> ->]. done. }
  specialize (Hinv Hwait pageno fuel w HI).
  destruct (SlruSelectLRUPage fuel ctl pageno w); [apply Hinv|apply Hinv|done].
Qed.

(** X24.  A new page needs no WAL flush.  In a pool whose LSN array, if it
    has one, holds at least one group for every slot: after
    [SimpleLruZeroPage] the write of the slot it returned, standalone or
    within a flush, hands no LSN to [XLogFlush], whether the write succeeds
    or fails. *)
Theorem SimpleLruZeroPage_write_needs_no_wal (fuel : nat) (ctl : SlruCtlData)
    (pageno : Z) (w : World) (slotno : nat) (w1 : World) (fuel2 : nat)
    (fdata : option SlruFlushData) :
  shared_wf (shared w) -> (0 < num_slots (shared w))%nat ->
  (forall lsns, group_lsn (shared w) = Some lsns ->
     0 < lsn_groups_per_page (shared w) /\
     length lsns
     = (num_slots (shared w) * Z.to_nat (lsn_groups_per_page (shared w)))%nat) ->
  SimpleLruZeroPage fuel ctl pageno w = Returned slotno w1 ->
  match SimpleLruWritePage fuel2 ctl slotno fdata w1 with
  | Returned _ w2 | Raised _ w2 => XLogFlushed w2 = XLogFlushed w1
  | OutOfFuel => False
  end.
Proof.
  intros Hwf Hn Hcfg Hrun.
  rewrite SimpleLruZeroPage_eq in Hrun.
  pose proof (SlruSelectLRUPage_group_lsn ctl pageno fuel w Hwf Hn) as Hg.
  pose proof (SlruSelectLRUPage_spec ctl pageno fuel w Hwf Hn) as Hs.
  destruct (SlruSelectLRUPage fuel ctl pageno w) as [slot w0|e w0|]; [|done..].
  injection Hrun as <- <-.
  destruct Hg as [Hg Hl]. destruct Hs as (Hstab & Hslot & _).
  pose proof (stable_wf _ _ Hstab Hwf) as Hwf0.
  destruct (zero_slot_spec slot pageno w0 Hslot Hwf0)
    as (_ & _ & _ & Hv & Hd & _).
  cbv zeta in Hv, Hd.
  set (w1 := upd_shared (set_latest_page_number pageno) _) in *.
  rewrite (SimpleLruWritePage_dirty _ _ _ _ _ Hv Hd). cbv zeta.
  pose proof (SlruPhysicalWritePage_XLogFlushed ctl (number_of w1 slot) slot
                fdata (begin_write slot w1)) as HX.
  assert (Hnone : match group_lsn (shared (begin_write slot w1)) with
                  | Some lsns =>
                      max_group_lsn (shared (begin_write slot w1)) lsns slot = 0
                  | None => True
                  end).
  { set (s0 := SlruRecentlyUsed slot
                 (shared (set_dirty slot true
                    (set_status slot SLRU_PAGE_VALID
                       (set_number slot pageno w0))))).
    assert (Hs0 : group_lsn s0 = group_lsn (shared w) /\
                  lsn_groups_per_page s0 = lsn_groups_per_page (shared w)).
    { subst s0. unfold SlruRecentlyUsed. case_decide; cbn; by rewrite Hg, Hl. }
    destruct Hs0 as [Hg0 Hl0].
    assert (Hglsn : group_lsn (shared (begin_write slot w1))
                    = group_lsn (SimpleLruZeroLSNs slot
                        (set_page_buffer (<[slot := zero_page]>) s0))) by done.
    assert (Hmax : forall lsns,
              max_group_lsn (shared (begin_write slot w1)) lsns slot
              = max_group_lsn (SimpleLruZeroLSNs slot
                  (set_page_buffer (<[slot := zero_page]>) s0)) lsns slot).
    { intros lsns. unfold max_group_lsn. cbv zeta.
      assert (Hlg : lsn_groups_per_page (shared (begin_write slot w1))
                    = lsn_groups_per_page (SimpleLruZeroLSNs slot
                        (set_page_buffer (<[slot := zero_page]>) s0))).
      { done. }
      by rewrite Hlg. }
    rewrite Hglsn.
    destruct (group_lsn (SimpleLruZeroLSNs slot
                (set_page_buffer (<[slot := zero_page]>) s0))) as [lsns|] eqn:Hgl;
      [|done].
    rewrite Hmax.
    assert (Hsome : is_Some (group_lsn (shared w))).
    { unfold SimpleLruZeroLSNs in Hgl. rewrite <- Hg0.
      case_decide; cbn in Hgl; destruct (group_lsn s0); done. }
    destruct Hsome as [l0 Hl0'].
    destruct (Hcfg l0 Hl0') as [Hpos Hlen0].
    apply SimpleLruZeroLSNs_max_group_lsn; [| |done].
    - cbn [lsn_groups_per_page set_page_buffer]. by rewrite Hl0.
    - cbn [lsn_groups_per_page group_lsn set_page_buffer].
      rewrite Hg0, Hl0, Hl0'. intros ? [= <-]. rewrite Hlen0.
      destruct Hstab as [Hn0 _]. rewrite Hn0 in Hslot.
      apply Nat.mul_le_mono_r. lia. }
  assert (HX' : XLogFlushed (SlruPhysicalWritePage ctl (number_of w1 slot) slot
                   fdata (begin_write slot w1)).2 = XLogFlushed w1).
  { rewrite HX. destruct (group_lsn (shared (begin_write slot w1))); [|done].
    rewrite Hnone. by rewrite decide_False by (intros H; by apply H). }
  clear HX Hnone.
  set (r := SlruPhysicalWritePage ctl (number_of w1 slot) slot fdata
              (begin_write slot w1)) in *.
  clearbody r w1.
  assert (Hend : forall ok, XLogFlushed (end_write slot ok r.2) = XLogFlushed w1).
  { intros ok. rewrite <- HX'. by destruct ok. }
  destruct (r.1.1); [exact (Hend true)|exact (Hend false)].
Qed.

Lemma SimpleLruZeroPage_write_needs_no_wal_witness :
  match SimpleLruWritePage 1 ex_ctl 0 None
          (world_after (SimpleLruZeroPage 4 ex_ctl 5)
             (ex_world (SimpleLruInit 2 4))) with
  | Returned _ w2 | Raised _ w2 =>
      XLogFlushed w2
      = XLogFlushed (world_after (SimpleLruZeroPage 4 ex_ctl 5)
                       (ex_world (SimpleLruInit 2 4)))
  | OutOfFuel => False
  end.
Proof.
  apply (SimpleLruZeroPage_write_needs_no_wal 4 ex_ctl 5
           (ex_world (SimpleLruInit 2 4)) 0
           (world_after (SimpleLruZeroPage 4 ex_ctl 5)
              (ex_world (SimpleLruInit 2 4))) 1 None).
  - repeat split; vm_compute; reflexivity.
  - vm_compute. lia.
  - intros lsns. vm_compute. intros [= <-]. split; reflexivity.
  - apply (Returned_after (SimpleLruZeroPage 4 ex_ctl 5)
             (ex_world (SimpleLruInit 2 4)) 0%nat).
    vm_compute. reflexivity.
Defined.

(** ** SimpleLruTruncate: what it leaves alone *)

(** The slot loop of a truncation changes the status of slots that hold a
    page preceding the cutoff, and stops at such a slot. *)
Lemma truncate_scan_spares ctl c slots :
  forall w r w1,
    truncate_scan ctl c slots w = (r, w1) ->
    (forall j, number_of w1 j = number_of w j) /\
    (forall j, status_of w j = SLRU_PAGE_EMPTY \/
               PagePrecedes ctl (number_of w j) c = false ->
               status_of w1 j = status_of w j) /\
    match r with
    | inl i => status_of w1 i <> SLRU_PAGE_EMPTY /\
               PagePrecedes ctl (number_of w1 i) c = true
    | inr _ => True
    end.
Proof.
  induction slots as [|k rest IH]; intros w r w1.
  { cbn. by intros [= <- <-]. }
  cbn [truncate_scan]. case_decide as He; [apply IH|].
  destruct (PagePrecedes ctl (number_of w k) c) eqn:Hp; cbn [negb]; [|apply IH].
  destruct (bool_decide (status_of w k = SLRU_PAGE_VALID) && negb (dirty_of w k)).
  - intros Hscan. destruct (IH _ _ _ Hscan) as (Hnum & Hst & Hr).
    split; [done|]. split; [|done].
    intros j Hj. rewrite Hst.
    + unfold status_of. cbn.
      destruct (decide (j = k)) as [->|Hne];
        [|by rewrite list_lookup_total_insert_ne].
      destruct Hj as [Hj|Hj]; [done|]. congruence.
    + unfold status_of, number_of in *. cbn.
      destruct (decide (j = k)) as [->|Hne];
        [|by rewrite list_lookup_total_insert_ne].
      destruct Hj as [Hj|Hj]; [done|]. congruence.
  - intros [= <- <-]. by repeat split.
Qed.

(** From the label [restart] on, slots that are EMPTY or hold a page that
    does not precede the cutoff keep their state. *)
Lemma SimpleLruTruncate_restart_spares ctl c lockHeld fuel :
  forall w,
    shared_wf (shared w) ->
    match SimpleLruTruncate_restart fuel ctl c lockHeld w with
    | Returned _ w' | Raised _ w' =>
        stable w w' /\
        forall j, status_of w j = SLRU_PAGE_EMPTY \/
                  PagePrecedes ctl (number_of w j) c = false ->
                  status_of w' j = status_of w j /\ dirty_of w' j = dirty_of w j
    | OutOfFuel => True
    end.
Proof.
  induction fuel as [|fuel IH]; intros w Hwf; [done|].
  cbn [SimpleLruTruncate_restart].
  destruct (PagePrecedes ctl (latest_page_number (shared w)) c).
  { destruct lockHeld; (split; [by repeat split|done]). }
  pose proof Hwf as (Hwb & Hws & Hwd & Hwn & Hwl).
  assert (Hlen : forall i, i ∈ all_slots (shared w) ->
            (i < length (page_status (shared w)))%nat).
  { intros i Hi. apply elem_of_seq in Hi. lia. }
  destruct (truncate_scan ctl c (all_slots (shared w)) w) as [[i|[]] w1] eqn:Hscan.
  all: destruct (truncate_scan_spec ctl c _ _ _ _ (NoDup_seq _ _) Hlen Hscan)
         as (Hos & _ & _ & Hr).
  all: destruct (truncate_scan_spares ctl c _ _ _ _ Hscan) as (Hnum1 & Hkeep1 & Hstop).
  all: destruct (only_status_facts _ _ Hos)
         as (Hstab & _ & _ & _ & _ & _ & Hdirty & _).
  2:{ split; [done|]. intros j Hj. split; [by apply Hkeep1|apply Hdirty]. }
  destruct Hr as (Hi & _ & _). apply elem_of_seq in Hi.
  destruct Hstop as [Hne Hprec].
  pose proof (stable_wf _ _ Hstab Hwf) as Hwf1.
  pose proof Hwf1 as (_ & Hl1s & Hl1d & _ & _).
  pose proof Hstab as (Hn1 & _).
  assert (Hnot : forall j, status_of w j = SLRU_PAGE_EMPTY \/
                  PagePrecedes ctl (number_of w j) c = false -> j <> i).
  { intros j Hj ->. pose proof (Hkeep1 i Hj) as Hs. rewrite Hnum1 in Hprec.
    destruct Hj as [Hj|Hj]; congruence. }
  assert (Hfin : forall w4,
            stable w1 w4 ->
            (forall j, j <> i ->
               status_of w4 j = status_of w1 j /\ dirty_of w4 j = dirty_of w1 j) ->
            match SimpleLruTruncate_restart fuel ctl c lockHeld w4 with
            | Returned _ w' | Raised _ w' =>
                stable w w' /\
                forall j, status_of w j = SLRU_PAGE_EMPTY \/
                          PagePrecedes ctl (number_of w j) c = false ->
                          status_of w' j = status_of w j /\
                          dirty_of w' j = dirty_of w j
            | OutOfFuel => True
            end).
  { intros w4 Hst4 Hoth4.
    assert (Hstab4 : stable w w4) by (by eapply stable_trans).
    specialize (IH w4 (stable_wf _ _ Hstab4 Hwf)).
    assert (Hk4 : forall j, status_of w j = SLRU_PAGE_EMPTY \/
                    PagePrecedes ctl (number_of w j) c = false ->
                    (status_of w4 j = SLRU_PAGE_EMPTY \/
                     PagePrecedes ctl (number_of w4 j) c = false) /\
                    status_of w4 j = status_of w j /\
                    dirty_of w4 j = dirty_of w j).
    { intros j Hj. destruct (Hoth4 j (Hnot j Hj)) as [Hs Hd].
      rewrite Hs, Hd, (Hkeep1 j Hj), Hdirty.
      split; [|done].
      destruct Hstab4 as (_ & Hnum4 & _). unfold number_of in *.
      by rewrite Hnum4. }
    destruct (SimpleLruTruncate_restart fuel ctl c lockHeld w4) as [b w5|e w5|];
      [| |done].
    all: destruct IH as [Hs5 Hk5].
    all: split; [by eapply stable_trans|].
    all: intros j Hj; destruct (Hk4 j Hj) as (Hj4 & Hs4 & Hd4).
    all: destruct (Hk5 j Hj4) as [-> ->]; done. }
  unfold bind.
  destruct (decide (status_of w1 i = SLRU_PAGE_VALID)) as [Hv|Hv]; cbv beta.
  - destruct (dirty_of w1 i) eqn:Hd.
    2:{ rewrite SimpleLruWritePage_skip; [|by rewrite Hv|by left].
        cbn [ret]. apply Hfin; [apply stable_refl|done]. }
    rewrite (SimpleLruWritePage_dirty _ _ _ _ _ Hv Hd). cbv zeta.
    pose proof (end_write_begin_write ctl (number_of w1 i) i None
                  (SlruPhysicalWritePage ctl (number_of w1 i) i None
                     (begin_write i w1)).1.1
                  w1 ltac:(lia) ltac:(lia))
      as (Hst3 & _ & _ & _ & _ & _ & Hoth3).
    cbv zeta in Hst3, Hoth3.
    destruct (SlruPhysicalWritePage ctl (number_of w1 i) i None
                (begin_write i w1)) as [[ok fd] w3].
    cbn [fst snd] in *.
    set (w4 := end_write i ok w3) in *. clearbody w4.
    destruct ok; cbn [ret]; [by apply Hfin|].
    split.
    + eapply stable_trans; [exact Hstab|].
      eapply stable_trans; [exact Hst3|]. by repeat split.
    + intros j Hj. destruct (Hoth3 j (Hnot j Hj)) as [Hs Hd4].
      unfold status_of, dirty_of in *. cbn [shared set_errno].
      rewrite Hs, Hd4. split; [by apply Hkeep1|apply Hdirty].
  - unfold step.
    pose proof (SimpleLruWaitIO_spec i w1) as H. cbv zeta in H.
    destruct H as (Hst3 & _ & _ & _ & _ & Hoth3 & _).
    set (w3 := SimpleLruWaitIO i w1) in *. clearbody w3.
    by apply Hfin.
Qed.

Lemma SlruScanDirectory_loop_shared ctl c doDeletions dir entries :
  forall found w,
    match SlruScanDirectory_loop ctl c doDeletions dir entries found w with
    | Returned _ w' | Raised _ w' => shared w' = shared w
    | OutOfFuel => True
    end.
Proof.
  induction entries as [|name rest IH]; intros found w; [done|].
  cbn [SlruScanDirectory_loop].
  destruct (removable ctl c name); [|apply IH].
  destruct doDeletions; [|apply IH].
  case_decide; [done|].
  unfold bind, step.
  match goal with
  | |- context [SlruScanDirectory_loop ctl c true dir rest true ?x] =>
      specialize (IH true x)
  end.
  destruct (SlruScanDirectory_loop ctl c true dir rest true _); done.
Qed.

(** X25.  A truncation leaves the rest of the pool alone: a slot that is
    EMPTY, or holds a page that does not precede the cutoff (rounded to
    the start of its segment), has the status, the dirty flag, the page
    number and the buffer it had, when [SimpleLruTruncate] returns and
    when it raises an error. *)
Theorem SimpleLruTruncate_spares_later_pages (fuel : nat) (ctl : SlruCtlData)
    (cutoffPage : Z) (lockHeld : bool) (w : World) (slotno : nat) :
  shared_wf (shared w) ->
  status_of w slotno = SLRU_PAGE_EMPTY \/
  PagePrecedes ctl (number_of w slotno) (segment_start cutoffPage) = false ->
  match SimpleLruTruncate_internal fuel ctl cutoffPage lockHeld w with
  | Returned _ w' | Raised _ w' =>
      status_of w' slotno = status_of w slotno /\
      dirty_of w' slotno = dirty_of w slotno /\
      number_of w' slotno = number_of w slotno /\
      buffer_of w' slotno = buffer_of w slotno
  | OutOfFuel => True
  end.
Proof.
  intros Hwf Hkeep.
  set (c := segment_start cutoffPage) in *.
  unfold SimpleLruTruncate_internal, bind, step, ret. fold c.
  set (w0 := if lockHeld then w else LWLockAcquire_ControlLock LW_EXCLUSIVE w).
  assert (Hsh0 : shared w0 = shared w) by (subst w0; by destruct lockHeld).
  pose proof (SimpleLruTruncate_restart_spares ctl c lockHeld fuel w0) as Hre.
  unfold status_of, dirty_of, number_of, buffer_of in *.
  rewrite Hsh0 in Hre. specialize (Hre Hwf). clearbody w0.
  destruct (SimpleLruTruncate_restart fuel ctl c lockHeld w0) as [b w1|e w1|];
    [| |done].
  2:{ destruct Hre as [(_ & Hnum & _ & Hbuf & _) Hk].
      destruct (Hk slotno Hkeep) as [-> ->]. by rewrite Hnum, Hbuf, Hsh0. }
  destruct Hre as [(_ & Hnum & _ & Hbuf & _) Hk].
  destruct (Hk slotno Hkeep) as [Hs Hd].
  destruct b.
  2:{ by rewrite Hs, Hd, Hnum, Hbuf, Hsh0. }
  set (w2 := if lockHeld then w1 else LWLockRelease_ControlLock w1).
  assert (Hsh2 : shared w2 = shared w1) by (subst w2; by destruct lockHeld).
  clearbody w2.
  unfold SlruScanDirectory. cbv zeta.
  pose proof (SlruScanDirectory_loop_shared ctl (segment_start c) true
                (TxnDir (Dir ctl) w2)
                (dir_entries (TxnDir (Dir ctl) w2) (disk w2)) false w2) as Hsh3.
  destruct (SlruScanDirectory_loop ctl (segment_start c) true (TxnDir (Dir ctl) w2)
              (dir_entries (TxnDir (Dir ctl) w2) (disk w2)) false w2)
    as [b w3|e w3|]; [| |done].
  all: rewrite Hsh3, Hsh2; by rewrite Hs, Hd, Hnum, Hbuf, Hsh0.
Qed.

Lemma SimpleLruTruncate_spares_later_pages_witness :
  let w' :=
    world_after (SimpleLruTruncate_internal 9 ex_ctl 70 false) world_four_slots in
  status_of w' 2 = SLRU_PAGE_VALID /\ dirty_of w' 2 = true /\
  number_of w' 2 = 64 /\ buffer_of w' 2 = zero_page.
Proof.
  cbv zeta.
  pose proof (SimpleLruTruncate_spares_later_pages 9 ex_ctl 70 false
                world_four_slots 2) as H.
  rewrite (Returned_after (SimpleLruTruncate_internal 9 ex_ctl 70 false)
             world_four_slots tt) in H by (vm_compute; reflexivity).
  destruct H as (Hs & Hd & Hn & Hb).
  - repeat split; vm_compute; reflexivity.
  - right. vm_compute. reflexivity.
  - rewrite Hs, Hd, Hn, Hb. repeat split; vm_compute; reflexivity.
Defined.

(** ** SlruRecentlyUsed *)

Lemma SlruRecentlyUsed_latest slotno s :
  (slotno < length (page_lru_count s))%nat ->
  page_lru_count (SlruRecentlyUsed slotno s) !!! slotno
  = cur_lru_count (SlruRecentlyUsed slotno s).
Proof.
  intros Hslot. unfold SlruRecentlyUsed. cbv zeta.
  case_decide as Hne; cbn.
  - by apply list_lookup_total_insert_eq.
  - by rewrite Hne.
Qed.

(** X26.  Consecutive accesses to one slot advance the LRU counter once:
    after [SlruRecentlyUsed] the count of the slot is the current count,
    and repeating the call any number of times changes nothing more. *)
Theorem SlruRecentlyUsed_consecutive (slotno : nat) (s : SlruSharedData)
    (n : nat) :
  (slotno < length (page_lru_count s))%nat ->
  page_lru_count (SlruRecentlyUsed slotno s) !!! slotno
  = cur_lru_count (SlruRecentlyUsed slotno s) /\
  Nat.iter (S n) (SlruRecentlyUsed slotno) s = SlruRecentlyUsed slotno s.
Proof.
  intros Hslot. split; [by apply SlruRecentlyUsed_latest|].
  induction n as [|n IH]; [done|].
  change (Nat.iter (S (S n)) (SlruRecentlyUsed slotno) s)
    with (SlruRecentlyUsed slotno (Nat.iter (S n) (SlruRecentlyUsed slotno) s)).
  rewrite IH.
  pose proof (SlruRecentlyUsed_latest slotno s Hslot) as Hl.
  set (s' := SlruRecentlyUsed slotno s) in *.
  unfold SlruRecentlyUsed at 1. cbv zeta.
  rewrite decide_False; [done|]. intros H. by apply H.
Qed.

Lemma SlruRecentlyUsed_consecutive_witness :
  cur_lru_count (Nat.iter 3 (SlruRecentlyUsed 0) pool_latest_oldest) = 11.
Proof.
  destruct (SlruRecentlyUsed_consecutive 0 pool_latest_oldest 2) as [_ H].
  - vm_compute. lia.
  - rewrite H. vm_compute. reflexivity.
Defined.
